(* ===== verification/_CoqProject ===== *)
-Q . S2P
Prelude.v
Spec.v
Util.v
Buffers.v
FreeList.v
AllocSpec.v
Threads.v
Inode.v
Bnode.v
Btree.v
Split.v
BtreeRemove.v
Extent.v
File.v
FileEnds.v
FileWrite.v
Super.v
Vfs.v
Concurrent.v
Module.v
Dir.v
DirSpec.v
DirStore.v
Frame.v
Space.v
Locks.v
DirThreads.v
Mkfs.v
Fsck.v
Mount.v
Refs.v
Ops.v
FsckMount.v
System.v
StoreLife.v
