(* ===== verification/Prelude.v ===== *)
(** * spfs: a verification library for the spooky file system

    spfs is a file system for Linux: a kernel module (sp.c, btree.c, free_list.c,
    util.c) and two programs, mkfs.spfs.c and fsck.spfs.c.  A device has the super block
    in block 0, a chain of free-list blocks, a tree of nodes that maps inode numbers to
    the blocks of inode records, extents of file data, and directory blocks.

    ** The files and what they model

    - [Prelude]: the monad [M S A] of stateful code that may return an error code or
      crash, locks, fixed-width integers, byte order, and lists of bytes indexed by [Z];
      the lemmas and tactics the other files share.
    - [Spec]: judgements on every run of a program (what a run relates, what it ends
      in), their rules, and the tactic [steps_tac] that applies them along the code.
    - [Util] (util.c): reading and writing fields of a buffer at a cursor,
      [spfs_sb_read_u32] and the others.
    - [Buffers]: what the driver relies on of the kernel's buffer cache ([sb_bread],
      [brelse], [mark_buffer_dirty]), as the classes [BufferCache] and
      [BufferCacheLaws], with [memdev], a device in memory, as an instance.
    - [FreeList] (free_list.c): [spfs_free_init], [spfs_free_alloc]; [AllocSpec]: the
      allocator as a set of blocks.
    - [Threads]: threads that run the same critical section, in any interleaving of their
      steps, with the interface a component implements (class [CriticalSection]).
      [Concurrent] (free_list.c, sp.c): [spfs_free_alloc] and the drawing of an inode
      number in [spfs_new_inode], statement by statement, as two implementations;
      [DirThreads] (sp.c): [spfs_add_child], as a third one.
    - [Inode] (shared.h, btree.c): [struct spfs_inode], [spfs_inode_parse],
      [spfs_inode_make].
    - [Bnode] (btree.c): the operations on one node of the tree.
    - [Btree] (btree.c): [btree_visit_entry], [spfs_btree_modify], [spfs_btree_lookup],
      [btree_insert], [btree_fixup], [bnode_alloc_root], [spfs_btree_insert].
    - [Split] (btree.c): the median and the split of a full node.
    - [BtreeRemove] (btree_remove.c): the part of the removal that is written.
    - [Extent], [File] (sp.c): the extents of a file; [spfs_read] and [spfs_write];
      [FileEnds]: when reading comes to an end; [FileWrite]: what a write leaves on the
      device and returns.
    - [Super], [Vfs], [Dir], [Mount] (sp.c): the super block; new inodes, creation and
      write-back over the kernel's inode cache (class [Kernel]); directories;
      [spfs_fill_super_block] over a block device (class [BlockDevice]).
    - [Module] (sp.c): the slab of inodes, loading and unloading, [spfs_put_super], over
      the kernel's slab allocator, RCU and table of file systems (class [ModuleKernel]).
    - [Ops] (sp.c): the tables of functions through which the VFS calls the driver.
    - [DirSpec]: a directory of one block as a list of names.  [DirStore]: all directories
      as a finite map from inode numbers to children, over the blocks that are free.
      [Frame], [Space], [Locks], [Refs]: what the operations leave alone, which blocks they
      take, and which locks and buffers they give back, on every path.
    - [Mkfs], [Fsck]: the two programs, over an open file and a standard output [ufile];
      [FsckMount]: what fsck accepts and prints against what the driver reads.
    - [System], [StoreLife]: mkfs, mount, and the first file or directory together.

    ** How code becomes definitions

    A C function over some state is a term of [M S A], with [S] the state it can reach:
    a cursor ([Util]), the buffer cache ([bufs]), the cache with free list and tree
    ([btree_st]), an open file ([file_st]), a mounted file system ([vfs_st]).  [zoom]
    runs code over a part of a state.  A C [return -E...] is [Err (-E...)], which keeps
    every effect made so far: locks that are not given back stay taken, buffers that are
    not released stay referenced.  [BUG_ON], an access outside of a buffer, a NULL
    dereference, and taking a mutex twice are [Crash].  Results passed through pointers
    are components of the returned value.  Where a caller inspects a return code that
    may be positive, the code is a value.

    Aliasing is kept: a buffer head, a node and an in-core inode are identified with
    their numbers, and each access goes through the cache.  Pointers to tree entries are
    byte addresses of a block, since the code computes with them.

    ** Loops and fuel

    [goto Lit] loops are Fixpoints with fuel; running out of it is [Crash NoFuel].  The
    theorems on such loops say how much is enough: one more than the blocks of a free
    list ([free_init_reads_chain]), the extents of a file ([read_whole_file]), or the
    blocks of a directory ([add_child_appends], [dir_ready] in [Dir]; a directory the
    driver has made has at most one block, and [DIR_FUEL], 202, is enough for its 100
    children), and a bound on the bytes for [spfs_blocks_for].  A search in a node takes at most 16 rounds
    on blocks of up to 2^40 bytes ([find_gte_returns]; [FIND_FUEL] is 24), since each round
    moves at least eight times as far away from the first entry.  Splitting a node
    takes at most one round more than its entries, and more than 100 entries are a
    BUG_ON ([PARTITION_FUEL] is 102).
    That a loop does not end is stated as: no fuel is enough.

    ** What the theorems show

    - The allocator: the extents handed out are free and within the free nodes; every
      run of allocations refines the specification with a set of blocks; when an
      allocation fails, and that all blocks but one can be got; the chain of free-list
      blocks is read completely ([FreeList], [AllocSpec]).
    - Concurrency: every interleaving of the statements of any number of allocations
      amounts to the allocations one after the other, blocks and inode numbers are never
      given to two threads, and all threads come to an end ([Concurrent]);
      threads that add children to one directory lose none ([DirThreads]).
    - Codecs: a field or an inode record is read back as written, a parsed record is one
      of the disk format and written back as it was, errors are reported without effect,
      and nothing outside of the field is touched ([Util], [Inode]).
    - The whole system: what mkfs writes, that fsck accepts it and never writes, that it
      can be mounted with a free list of exactly the data blocks, why a mount is refused,
      and the life of a first file (nothing can be written to it) or directory ([Mkfs], [Fsck], [Mount], [System],
      [StoreLife]); on an image whose free list is behind block 0, below 4 GiB and within
      its blocks, fsck accepts what the driver can read, what fsck accepts the driver
      mounts as far as the root directory, and the lines fsck prints are the super block
      and the free entries that the mount then uses; on a list at block 0 the two
      disagree ([FsckMount]).
    - Every path of every operation: reading never writes; directory operations give
      their locks back; over any sequence of operations the free list stays well formed,
      no block is freed, and every inode has the table of operations of its type, so that
      only files are read and written; no operation gives back a buffer it did not take,
      and those that succeed give back all they took, but for the walk over a damaged
      directory ([Frame], [Locks], [Space], [Ops], [Refs]).
    - Files: reading returns the bytes of the chain of extents, and comes to an end
      wherever the extents point as long as none is empty; which bytes a write to a
      file of any number of extents stores and which error it then returns, that a
      write goes to the start of the file and what a read finds there afterwards, and that
      a write changes no block but those of the file; the block arithmetic is exact
      ([Extent], [File], [FileEnds], [FileWrite]).
    - Directories: a child is added behind the others, a name is found at its first
      occurrence, and a listing has all children ([Dir]); any sequence of additions,
      lookups and listings over all directories refines the map of children, the loss of
      the children of a directory that outgrows its block included ([DirStore]).
    - The tree: the first insertion and the visit of a record are exact ([Btree]); the
      median of a full node is found, but no node is ever split ([Split]); new inodes,
      the first created file and write-back ([Vfs]).
    - The module: loading and unloading are balanced whatever happened in between, if
      no inode is in use at the end, and an inode is reused as it was left ([Module]).
    - Behaviour the code does not mean to have is proved as well, since a user of the
      code meets it: the tree takes one insertion only and puts its node over the super
      block; a search among entries measures distances in bytes and leaves the node;
      writes store data but report an error and keep the inode locked, short reads
      likewise; a full directory loses its children when it grows; an inode that has
      left the cache is not found again; an inode written back stores no change.

    ** Not modelled

    btree_remove.c is an unfinished port that is not part of the build: behind its first
    hundred lines it mixes C with the C++ it comes from, over functions, variables and
    types that do not exist, so that there is no behaviour to be faithful to.  Messages
    on the standard error and in the kernel's log are left out.  Apart from the
    sections of [Concurrent] and [DirThreads] an operation runs alone, and one that meets a lock left
    behind is [Crash Deadlock]; [mutex_lock_interruptible] may be interrupted.  In
    those two each C statement is one step on a memory that all threads see alike,
    which is what the mutex around them provides.
    The check of [ppos] for NULL and the [BUG_ON] on [file] in [spfs_read] and
    [spfs_write] are left out, since the position and the file are part of the state; so
    is what [spfs_inode_parse] has stored in [*out] when it fails, which no caller looks
    at.  The two programs run on an open device: the test of [argc], [open], a failing
    [fstat] or [read], [fsync] and [close] are left out.  [kmem_cache_destroy] is only known
    to destroy a slab none of whose objects is in use.
    Memory allocation is an argument that says which allocations succeed.  Faults of
    [copy_to_user] and the reference counts of in-core inodes are left out; memory that
    is freed ([kfree]) is not tracked.  [DirStore] follows the blocks of directories and
    the free ones, not those of records and extents. *)
From Stdlib Require Export Strings.Byte.
From stdpp Require Export base numbers list gmap.

#[global] Open Scope Z_scope.

(** ** Outcomes: what a C function of the driver can do.

    [Ok] is an ordinary return (0 for the functions that return an error code),
    [Err e] a return of the error code [e] with every effect made so far kept,
    [Crash] the end of the execution: a [BUG_ON] that fires, an access outside
    of an object, a NULL dereference, a lock taken twice by the same thread, or
    (in the model only) a loop that used up its fuel. *)
Inductive crash :=
| BugOn
| OutOfBounds
| NullDeref
| Deadlock
| NoFuel.

Inductive out (S A : Type) :=
| Ok (a : A) (s : S)
| Err (e : Z) (s : S)
| Crash (c : crash).
Arguments Ok {S A} a s.
Arguments Err {S A} e s.
Arguments Crash {S A} c.

(** State, error codes and crashes: [M S A] is code that runs over the state [S]. *)
Definition M (S A : Type) : Type := S → out S A.

#[export] Instance M_ret {S} : MRet (M S) := λ A a s, Ok a s.
#[export] Instance M_bind {S} : MBind (M S) := λ A B k m s,
  match m s with
  | Ok a s' => k a s'
  | Err e s' => Err e s'
  | Crash c => Crash c
  end.

Definition err {S A} (e : Z) : M S A := λ s, Err e s.
Definition crashes {S A} (c : crash) : M S A := λ s, Crash c.
Definition get {S} : M S S := λ s, Ok s s.
Definition gets {S A} (f : S → A) : M S A := λ s, Ok (f s) s.
Definition put {S} (s' : S) : M S unit := λ s, Ok tt s'.
Definition modify {S} (f : S → S) : M S unit := λ s, Ok tt (f s).

(** [BUG_ON(b)] *)
Definition BUG_ON {S} (b : bool) : M S unit := if b then crashes BugOn else mret tt.

(** The caller looks at the error code instead of propagating it. *)
Definition catch {S A} (m : M S A) : M S (Z + A) := λ s,
  match m s with
  | Ok a s' => Ok (inr a) s'
  | Err e s' => Ok (inl e) s'
  | Crash c => Crash c
  end.

(** [if (!x) return e;] on a value that may be missing *)
Definition or_err {S A} (e : Z) (m : M S (option A)) : M S A :=
  x ← m; match x with Some a => mret a | None => err e end.

(** A part [T] of a larger state [S] *)
Record lens (S T : Type) := Lens { lget : S → T; lset : T → S → S }.
Arguments Lens {S T} _ _.
Arguments lget {S T} _ _.
Arguments lset {S T} _ _ _.

Definition zoom {S T A} (l : lens S T) (m : M T A) : M S A := λ s,
  match m (lget l s) with
  | Ok a t => Ok a (lset l t s)
  | Err e t => Err e (lset l t s)
  | Crash c => Crash c
  end.

(** The two halves of a pair, as parts of it *)
Definition fst_lens {S T} : lens (S * T) S := Lens fst (λ x s, (x, s.2)).
Definition snd_lens {S T} : lens (S * T) T := Lens snd (λ x s, (s.1, x)).

(** ** Mutexes: [mutex_lock] of a mutex that its only thread already holds never
    returns. *)
Definition mutex_lock {S} (l : lens S bool) : M S unit := λ s,
  if lget l s then Crash Deadlock else Ok tt (lset l true s).
Definition mutex_unlock {S} (l : lens S bool) : M S unit := λ s, Ok tt (lset l false s).

(** ** Machine integers: a w-bit unsigned value is a [Z] reduced modulo 2^w. *)
Definition u16 (z : Z) : Z := z mod 2 ^ 16.
Definition u32 (z : Z) : Z := z mod 2 ^ 32.
Definition u64 (z : Z) : Z := z mod 2 ^ 64.

(** The magic numbers of spfs.h are all the same. *)
Definition SPFS_MAGIC : Z := 0xDEADBEEF.

(** Error codes of <errno.h> the sources use *)
Abbreviation EINTR := 4 (only parsing).
Abbreviation EIO := 5 (only parsing).
Abbreviation ENOENT := 2 (only parsing).
Abbreviation ENOMEM := 12 (only parsing).
Abbreviation EINVAL := 22 (only parsing).
Abbreviation ENAMETOOLONG := 36 (only parsing).

(** ** Bytes and their native (little-endian) representation *)
Definition byte_of_Z (z : Z) : byte :=
  match Byte.of_N (Z.to_N (z mod 256)) with Some b => b | None => x00 end.
Definition Z_of_byte (b : byte) : Z := Z.of_N (Byte.to_N b).

#[export] Instance byte_eq_decision : EqDecision byte := Byte.byte_eq_dec.

Fixpoint le_split (n : nat) (v : Z) : list byte :=
  match n with
  | O => []
  | S n => byte_of_Z v :: le_split n (v / 256)
  end.

Fixpoint le_combine (l : list byte) : Z :=
  match l with
  | [] => 0
  | b :: l => Z_of_byte b + 256 * le_combine l
  end.

(** Swapping the bytes of an [n]-byte value: [cpu_to_be32], [be32_to_cpu],
    [htonl], ... on a little-endian processor *)
Definition bswap (n : nat) (v : Z) : Z := le_combine (reverse (le_split n v)).

(** The big-endian representation on disk *)
Definition be_split (n : nat) (v : Z) : list byte := reverse (le_split n v).
Definition be_combine (l : list byte) : Z := le_combine (reverse l).

(** ** Arrays indexed by [Z] *)
Definition zlen {A} (l : list A) : Z := Z.of_nat (length l).
Definition sub {A} (off n : Z) (l : list A) : list A :=
  take (Z.to_nat n) (drop (Z.to_nat off) l).
Definition splice {A} (off : Z) (d l : list A) : list A :=
  take (Z.to_nat off) l ++ d ++ drop (Z.to_nat off + length d) l.
Definition zeros (n : Z) : list byte := replicate (Z.to_nat n) x00.

(** [memcpy] out of, and into, an object of known extent *)
Definition mload {S} (b : list byte) (off n : Z) : M S (list byte) :=
  if bool_decide (0 ≤ off ∧ 0 ≤ n ∧ off + n ≤ zlen b)
  then mret (sub off n b) else crashes OutOfBounds.
Definition mstore {S} (b : list byte) (off : Z) (d : list byte) : M S (list byte) :=
  if bool_decide (0 ≤ off ∧ off + zlen d ≤ zlen b)
  then mret (splice off d b) else crashes OutOfBounds.

(** ** Running the monad *)
Lemma bind_ok {S A B} (m : M S A) (k : A → M S B) s a s' :
  m s = Ok a s' → (m ≫= k) s = k a s'.
Proof. intros H. unfold mbind, M_bind. by rewrite H. Qed.

Lemma bind_err {S A B} (m : M S A) (k : A → M S B) s e s' :
  m s = Err e s' → (m ≫= k) s = Err e s'.
Proof. intros H. unfold mbind, M_bind. by rewrite H. Qed.

Lemma bind_crash {S A B} (m : M S A) (k : A → M S B) s c :
  m s = Crash c → (m ≫= k) s = Crash c.
Proof. intros H. unfold mbind, M_bind. by rewrite H. Qed.

Lemma zoom_ok {S T A} (l : lens S T) (m : M T A) s a t :
  m (lget l s) = Ok a t → zoom l m s = Ok a (lset l t s).
Proof. intros H. unfold zoom. by rewrite H. Qed.

Lemma zoom_err {S T A} (l : lens S T) (m : M T A) s e t :
  m (lget l s) = Err e t → zoom l m s = Err e (lset l t s).
Proof. intros H. unfold zoom. by rewrite H. Qed.

Lemma zoom_crash {S T A} (l : lens S T) (m : M T A) s c :
  m (lget l s) = Crash c → zoom l m s = Crash c.
Proof. intros H. unfold zoom. by rewrite H. Qed.

(** What a lens does not reach, code run under it leaves alone. *)
Lemma zoom_frame {S T A C} (f : S → C) (l : lens S T) (m : M T A) s a s' :
  (∀ t s, f (lset l t s) = f s) → zoom l m s = Ok a s' → f s' = f s.
Proof. intros Hf. unfold zoom. destruct (m (lget l s)); naive_solver. Qed.

Lemma catch_frame {S A C} (f : S → C) (m : M S A) s r s' :
  (∀ a s', m s = Ok a s' → f s' = f s) → (∀ e s', m s = Err e s' → f s' = f s) →
  catch m s = Ok r s' → f s' = f s.
Proof. unfold catch. destruct (m s); naive_solver. Qed.

Lemma zoom_err_frame {S T A C} (f : S → C) (l : lens S T) (m : M T A) s e s' :
  (∀ t s, f (lset l t s) = f s) → zoom l m s = Err e s' → f s' = f s.
Proof. intros Hf. unfold zoom. destruct (m (lget l s)); naive_solver. Qed.

Lemma BUG_ON_inv {S} b (s : S) a s' : BUG_ON b s = Ok a s' → b = false ∧ s' = s.
Proof. unfold BUG_ON. destruct b; [done|]. by intros [= ? <-]. Qed.

Lemma catch_ok {S A} (m : M S A) s a s' : m s = Ok a s' → catch m s = Ok (inr a) s'.
Proof. intros H. unfold catch. by rewrite H. Qed.

Lemma catch_err {S A} (m : M S A) s e s' : m s = Err e s' → catch m s = Ok (inl e) s'.
Proof. intros H. unfold catch. by rewrite H. Qed.

(** [exec E] executes the first statement of the goal with the equation [E], looking
    through the lens the statement is run under. *)
Tactic Notation "exec" constr(E) :=
  first
    [ rewrite (bind_ok _ _ _ _ _ E)
    | erewrite (bind_ok (zoom _ _)) by (apply zoom_ok; exact E)
    | erewrite (bind_ok (catch _)) by (apply catch_ok; exact E)
    | erewrite (bind_ok (catch _)) by (apply catch_ok; apply zoom_ok; exact E) ];
  cbn [lset lget].

Lemma bind_bind {S A B C} (m : M S A) (k : A → M S B) (k' : B → M S C) s :
  ((m ≫= k) ≫= k') s = (m ≫= λ a, k a ≫= k') s.
Proof. unfold mbind, M_bind. by destruct (m s). Qed.

Lemma bind_ext {S A B} (m : M S A) (k k' : A → M S B) s :
  (∀ a s, k a s = k' a s) → (m ≫= k) s = (m ≫= k') s.
Proof. intros H. unfold mbind, M_bind. by destruct (m s). Qed.

Lemma bind_inv {S A B} (m : M S A) (k : A → M S B) s b s' :
  (m ≫= k) s = Ok b s' → ∃ a s1, m s = Ok a s1 ∧ k a s1 = Ok b s'.
Proof. unfold mbind, M_bind. destruct (m s); naive_solver. Qed.

(** Unfolds the monad's own operations, never the operations of the program. *)
Ltac munfold :=
  unfold or_err, catch, BUG_ON, mret, M_ret, mbind, M_bind, err, crashes, get, gets,
    put, modify, zoom.
Ltac mrun := munfold; cbn [lget lset].

(** Decides the conditional of the goal with [tac]. *)
Tactic Notation "decide_if" "by" tactic3(tac) :=
  first
    [ rewrite bool_decide_eq_true_2 by tac
    | rewrite bool_decide_eq_false_2 by tac ].
Tactic Notation "decide_if" := decide_if by lia.

(** A side condition on concrete values, by evaluation *)
Ltac eval_side :=
  first [ lia | vm_compute; done | vm_compute; intuition congruence | vm_compute; lia ].

(** Equal results: tuples of integers *)
Ltac tuple_lia := repeat apply (f_equal2 pair); lia.

(** Discharges the arithmetic premises of a hypothesis *)
Ltac specialize_lia H := repeat specialize (H ltac:(lia)).

(** ** Bytes *)
Lemma byte_of_Z_of_byte b : byte_of_Z (Z_of_byte b) = b.
Proof. destruct b; reflexivity. Qed.

Lemma Z_of_byte_range b : 0 ≤ Z_of_byte b < 256.
Proof. destruct b; cbv; split; congruence. Qed.

Lemma Z_of_byte_of_Z z : Z_of_byte (byte_of_Z z) = z mod 256.
Proof.
  unfold byte_of_Z, Z_of_byte.
  pose proof (Z.mod_pos_bound z 256 ltac:(lia)) as Hb.
  destruct (Byte.of_N (Z.to_N (z mod 256))) as [b|] eqn:E.
  - apply Byte.to_of_N in E. rewrite E. lia.
  - apply Byte.of_N_None_iff in E. lia.
Qed.

Lemma length_le_split n v : length (le_split n v) = n.
Proof. revert v. induction n; intros v; cbn; auto. Qed.

Lemma le_combine_split n v : le_combine (le_split n v) = v mod 256 ^ (Z.of_nat n).
Proof.
  revert v. induction n as [|n IH]; intros v.
  - cbn. by rewrite Z.mod_1_r.
  - cbn [le_split le_combine]. rewrite IH, Z_of_byte_of_Z.
    rewrite Nat2Z.inj_succ, Z.pow_succ_r by lia.
    rewrite Z.rem_mul_r by lia. lia.
Qed.

Lemma le_combine_range l : 0 ≤ le_combine l < 256 ^ (zlen l).
Proof.
  unfold zlen. induction l as [|b l IH]; cbn [le_combine length]; [lia|].
  rewrite Nat2Z.inj_succ, Z.pow_succ_r by lia.
  pose proof (Z_of_byte_range b). lia.
Qed.

Lemma le_split_combine l : le_split (length l) (le_combine l) = l.
Proof.
  induction l as [|b l IH]; [done|]. cbn [length le_split le_combine].
  pose proof (Z_of_byte_range b) as Hb.
  rewrite (Z.mul_comm 256), Z.div_add, Z.div_small, Z.add_0_l, IH by lia. f_equal.
  rewrite <-(byte_of_Z_of_byte b) at 2. unfold byte_of_Z.
  by rewrite Z.mod_add, Z.mod_small by lia.
Qed.

Lemma length_be_split n v : length (be_split n v) = n.
Proof. unfold be_split. by rewrite length_reverse, length_le_split. Qed.

Lemma zlen_be_split n v : zlen (be_split n v) = Z.of_nat n.
Proof. unfold zlen. by rewrite length_be_split. Qed.

Lemma be_combine_split n v : be_combine (be_split n v) = v mod 256 ^ (Z.of_nat n).
Proof. unfold be_combine, be_split. by rewrite reverse_involutive, le_combine_split. Qed.

Lemma be_split_combine l : be_split (length l) (be_combine l) = l.
Proof.
  unfold be_split, be_combine. rewrite <-length_reverse, le_split_combine. apply reverse_involutive.
Qed.

Lemma be_combine_range l : 0 ≤ be_combine l < 256 ^ (zlen l).
Proof.
  pose proof (le_combine_range (reverse l)) as H. unfold be_combine, zlen in *.
  by rewrite length_reverse in H.
Qed.

(** What [memcpy] of a byte-swapped value leaves in memory is the big-endian form. *)
Lemma le_split_bswap n v : le_split n (bswap n v) = be_split n v.
Proof.
  unfold bswap, be_split.
  rewrite <-(le_split_combine (reverse (le_split n v))) at 2.
  by rewrite length_reverse, length_le_split.
Qed.

Lemma bswap_combine l n : length l = n → bswap n (le_combine l) = be_combine l.
Proof. intros <-. unfold bswap, be_combine. by rewrite le_split_combine. Qed.

Lemma bswap_range n v : 0 ≤ bswap n v < 256 ^ (Z.of_nat n).
Proof.
  pose proof (le_combine_range (reverse (le_split n v))) as H. unfold bswap, zlen in *.
  by rewrite length_reverse, length_le_split in H.
Qed.

Lemma bswap_involutive n v : bswap n (bswap n v) = v mod 256 ^ (Z.of_nat n).
Proof.
  unfold bswap at 1. rewrite le_split_bswap. unfold be_split.
  by rewrite reverse_involutive, le_combine_split.
Qed.

(** ** Machine integers in range *)
Lemma u16_small z : 0 ≤ z → z < 2 ^ 16 → u16 z = z.
Proof. intros. by apply Z.mod_small. Qed.
Lemma u32_small z : 0 ≤ z → z < 2 ^ 32 → u32 z = z.
Proof. intros. by apply Z.mod_small. Qed.
Lemma u64_small z : 0 ≤ z → z < 2 ^ 64 → u64 z = z.
Proof. intros. by apply Z.mod_small. Qed.
Lemma u16_range z : 0 ≤ u16 z < 2 ^ 16.
Proof. by apply Z.mod_pos_bound. Qed.
Lemma u32_range z : 0 ≤ u32 z < 2 ^ 32.
Proof. by apply Z.mod_pos_bound. Qed.
Lemma u64_range z : 0 ≤ u64 z < 2 ^ 64.
Proof. by apply Z.mod_pos_bound. Qed.

(** ** Arrays *)
Section arrays.
Context {A : Type}.
Implicit Types (l d : list A) (off n : Z).

Lemma zlen_nonneg l : 0 ≤ zlen l.
Proof. unfold zlen. lia. Qed.

Lemma zlen_app l d : zlen (l ++ d) = zlen l + zlen d.
Proof. unfold zlen. rewrite length_app. lia. Qed.

Lemma zlen_cons x l : zlen (x :: l) = 1 + zlen l.
Proof. unfold zlen. cbn. lia. Qed.

Lemma zlen_sub off n l :
  0 ≤ off → 0 ≤ n → off + n ≤ zlen l → zlen (sub off n l) = n.
Proof. unfold zlen, sub. intros. rewrite length_take, length_drop. lia. Qed.

Lemma zlen_splice off d l :
  0 ≤ off → off + zlen d ≤ zlen l → zlen (splice off d l) = zlen l.
Proof.
  unfold zlen, splice. intros. rewrite !length_app, length_take, length_drop. lia.
Qed.

Lemma sub_nil off l : sub off 0 l = [].
Proof. done. Qed.

Lemma sub_all l : sub 0 (zlen l) l = l.
Proof. unfold sub, zlen. rewrite drop_0. apply take_ge. lia. Qed.

Lemma sub_exact off n l : off = 0 → n = zlen l → sub off n l = l.
Proof. intros -> ->. apply sub_all. Qed.

Lemma lookup_sub off n l (i : nat) :
  0 ≤ off → Z.of_nat i < n → sub off n l !! i = l !! (Z.to_nat off + i)%nat.
Proof.
  intros. unfold sub. rewrite lookup_take_lt by lia. by rewrite lookup_drop.
Qed.

Lemma sub_sub off n off' n' l :
  0 ≤ off → 0 ≤ off' → 0 ≤ n' → off' + n' ≤ n →
  sub off' n' (sub off n l) = sub (off + off') n' l.
Proof.
  intros. unfold sub. rewrite skipn_firstn_comm, take_take, drop_drop.
  f_equal; [lia|]. f_equal. lia.
Qed.

Lemma sub_app_l off n l d :
  0 ≤ off → 0 ≤ n → off + n ≤ zlen l → sub off n (l ++ d) = sub off n l.
Proof.
  unfold zlen, sub. intros. rewrite drop_app_le by lia.
  rewrite take_app_le; [done|]. rewrite length_drop. lia.
Qed.

Lemma sub_app_r off n l d :
  zlen l ≤ off → sub off n (l ++ d) = sub (off - zlen l) n d.
Proof.
  unfold zlen, sub. intros. rewrite drop_app_ge by lia. do 2 f_equal. lia.
Qed.

Lemma sub_split off n m l :
  0 ≤ off → 0 ≤ n → 0 ≤ m → sub off (n + m) l = sub off n l ++ sub (off + n) m l.
Proof.
  intros. unfold sub.
  rewrite Z2Nat.inj_add, <-take_take_drop by lia. do 2 f_equal.
  rewrite drop_drop. f_equal. lia.
Qed.

Lemma sub_splice_eq off n d l :
  0 ≤ off → off + zlen d ≤ zlen l → n = zlen d → sub off n (splice off d l) = d.
Proof.
  unfold zlen, sub, splice. intros Hoff Hb ->.
  rewrite drop_app_ge, length_take by (rewrite length_take; lia).
  replace (Z.to_nat off - _ `min` _)%nat with 0%nat by lia.
  rewrite drop_0, Nat2Z.id. apply take_app_length.
Qed.

Lemma sub_splice_in off off' n d l :
  0 ≤ off → off + zlen d ≤ zlen l → off ≤ off' → 0 ≤ n → off' + n ≤ off + zlen d →
  sub off' n (splice off d l) = sub (off' - off) n d.
Proof.
  intros. rewrite <-(sub_splice_eq off (zlen d) d l) at 2 by lia.
  rewrite sub_sub by lia. f_equal. lia.
Qed.

Lemma sub_splice_before off off' n d l :
  0 ≤ off' → 0 ≤ n → off' + n ≤ off → off + zlen d ≤ zlen l →
  sub off' n (splice off d l) = sub off' n l.
Proof.
  unfold zlen, sub, splice. intros.
  rewrite drop_app_le by (rewrite length_take; lia).
  rewrite take_app_le by (rewrite length_drop, length_take; lia).
  rewrite skipn_firstn_comm, take_take. f_equal. lia.
Qed.

Lemma sub_splice_after off off' n d l :
  0 ≤ off → off + zlen d ≤ off' → off + zlen d ≤ zlen l →
  sub off' n (splice off d l) = sub off' n l.
Proof.
  unfold zlen, sub, splice. intros.
  rewrite drop_app_ge by (rewrite length_take; lia).
  rewrite drop_app_ge by (rewrite length_take; lia).
  rewrite drop_drop. do 2 f_equal. rewrite length_take. lia.
Qed.

Lemma zlen_drop n l : 0 ≤ n → n ≤ zlen l → zlen (drop (Z.to_nat n) l) = zlen l - n.
Proof. unfold zlen. intros. rewrite length_drop. lia. Qed.

Lemma sub_drop p off n l :
  0 ≤ p → 0 ≤ off → sub off n (drop (Z.to_nat p) l) = sub (p + off) n l.
Proof. intros. unfold sub. rewrite drop_drop. do 2 f_equal. lia. Qed.

Lemma sub_nonpos off n l : n ≤ 0 → sub off n l = [].
Proof. intros. unfold sub. by replace (Z.to_nat n) with 0%nat by lia. Qed.

(** A range that ends in the second part *)
Lemma sub_app_both off n l d :
  0 ≤ off → off ≤ zlen l → zlen l ≤ off + n →
  sub off n (l ++ d) = sub off (zlen l - off) l ++ sub 0 (off + n - zlen l) d.
Proof.
  intros. replace n with ((zlen l - off) + (off + n - zlen l)) at 1 by lia.
  rewrite sub_split by lia. f_equal.
  - apply sub_app_l; lia.
  - rewrite sub_app_r by lia. f_equal. lia.
Qed.

Lemma splice_nil off l : splice off [] l = l.
Proof. unfold splice. cbn. by rewrite Nat.add_0_r, take_drop. Qed.

Lemma splice_all d l : zlen d = zlen l → splice 0 d l = d.
Proof.
  unfold splice, zlen. intros. cbn. rewrite drop_ge by lia. apply app_nil_r.
Qed.

Lemma splice_sub off n l :
  0 ≤ off → 0 ≤ n → off + n ≤ zlen l → splice off (sub off n l) l = l.
Proof.
  unfold splice, sub, zlen. intros.
  assert (Z.to_nat off + length (take (Z.to_nat n) (drop (Z.to_nat off) l))
          = Z.to_nat off + Z.to_nat n)%nat as ->.
  { rewrite length_take, length_drop. lia. }
  rewrite <-drop_drop, take_drop. apply take_drop.
Qed.

(** Consecutive writes are one write. *)
Lemma splice_app off d d' l :
  0 ≤ off → off + zlen d + zlen d' ≤ zlen l →
  splice (off + zlen d) d' (splice off d l) = splice off (d ++ d') l.
Proof.
  unfold splice, zlen. intros. rewrite length_app.
  rewrite take_app_ge by (rewrite length_take; lia).
  rewrite length_take, <-!app_assoc. f_equal.
  replace (Z.to_nat (off + Z.of_nat (length d)) - Z.to_nat off `min` length l)%nat
    with (length d) by lia.
  rewrite take_app_length. f_equal. f_equal.
  rewrite drop_app_ge by (rewrite length_take; lia).
  rewrite drop_app_ge by (rewrite length_take; lia).
  rewrite drop_drop. f_equal. rewrite length_take. lia.
Qed.

Lemma splice_adjacent off p d d' l :
  p = off + zlen d → 0 ≤ off → off + zlen d + zlen d' ≤ zlen l →
  splice p d' (splice off d l) = splice off (d ++ d') l.
Proof. intros ->. apply splice_app. Qed.

(** A write over an earlier one of the same length erases it. *)
Lemma splice_splice off d d' l :
  0 ≤ off → off + zlen d ≤ zlen l → zlen d = zlen d' →
  splice off d' (splice off d l) = splice off d' l.
Proof.
  unfold splice, zlen. intros ? ? Hl.
  rewrite take_app_le by (rewrite length_take; lia).
  rewrite take_take, Nat.min_id. do 2 f_equal.
  rewrite drop_app_ge by (rewrite length_take; lia).
  rewrite drop_app_ge by (rewrite length_take; lia).
  rewrite drop_drop. f_equal. rewrite length_take. lia.
Qed.

(** Writes into the first part, into the second part, and across the seam *)
Lemma splice_app_l off d l r :
  0 ≤ off → off + zlen d ≤ zlen l → splice off d (l ++ r) = splice off d l ++ r.
Proof.
  unfold splice, zlen. intros. rewrite take_app_le, drop_app_le by lia.
  by rewrite <-!app_assoc.
Qed.

Lemma splice_app_r off d l r :
  zlen l ≤ off → splice off d (l ++ r) = l ++ splice (off - zlen l) d r.
Proof.
  unfold splice, zlen. intros. rewrite take_app_ge, drop_app_ge by lia.
  rewrite <-app_assoc. f_equal.
  replace (Z.to_nat off - length l)%nat with (Z.to_nat (off - Z.of_nat (length l))) by lia.
  do 3 f_equal. lia.
Qed.

Lemma splice_app_both off d l r :
  0 ≤ off → off ≤ zlen l → zlen l ≤ off + zlen d →
  splice off d (l ++ r) =
    splice off (sub 0 (zlen l - off) d) l ++ splice 0 (drop (Z.to_nat (zlen l - off)) d) r.
Proof.
  unfold splice, zlen, sub. intros. rewrite drop_0.
  rewrite take_app_le by lia. rewrite length_take, !length_drop.
  rewrite (drop_ge l) by lia. rewrite app_nil_r, <-!app_assoc. f_equal.
  change (take (Z.to_nat 0) r) with (@nil A). cbn [app].
  rewrite app_assoc, take_drop. f_equal. rewrite drop_app_ge by lia. f_equal. lia.
Qed.

Lemma sub_0_drop n l : 0 ≤ n → sub 0 n l ++ drop (Z.to_nat n) l = l.
Proof. intros. unfold sub. rewrite drop_0. apply take_drop. Qed.

Lemma drop_splice_ge n off d l :
  0 ≤ n → n ≤ off → n ≤ zlen l →
  drop (Z.to_nat n) (splice off d l) = splice (off - n) d (drop (Z.to_nat n) l).
Proof.
  unfold splice, zlen. intros. rewrite drop_app_le by (rewrite length_take; lia).
  rewrite skipn_firstn_comm, drop_drop. f_equal; [f_equal; lia|]. do 2 f_equal. lia.
Qed.

Lemma drop_splice_lt n off d l :
  0 ≤ off → off + zlen d ≤ n → off + zlen d ≤ zlen l →
  drop (Z.to_nat n) (splice off d l) = drop (Z.to_nat n) l.
Proof.
  unfold splice, zlen. intros. rewrite drop_app_ge by (rewrite length_take; lia).
  rewrite drop_app_ge by (rewrite length_take; lia). rewrite drop_drop. f_equal.
  rewrite length_take. lia.
Qed.

Lemma splice_at_end d l r :
  zlen d ≤ zlen r → splice (zlen l) d (l ++ r) = l ++ d ++ drop (length d) r.
Proof.
  unfold splice, zlen. intros. rewrite Nat2Z.id, take_app_length. do 2 f_equal.
  rewrite drop_app_ge by lia. f_equal. lia.
Qed.

Lemma list_eq_sub l d :
  zlen l = zlen d → (∀ off, 0 ≤ off → off < zlen l → sub off 1 l = sub off 1 d) → l = d.
Proof.
  intros Hlen H. apply list_eq. intros i.
  destruct (decide (i < length l)%nat) as [Hi|Hi].
  - specialize (H (Z.of_nat i)). unfold zlen in *.
    specialize (H ltac:(lia) ltac:(lia)).
    apply (f_equal (lookup 0%nat)) in H. rewrite !lookup_sub in H by lia.
    by rewrite Nat2Z.id, Nat.add_0_r in H.
  - unfold zlen in *. rewrite !lookup_ge_None_2 by lia. done.
Qed.
End arrays.

(** A field that is read and written back *)
Lemma be_split_sub n off l :
  0 ≤ off → off + Z.of_nat n ≤ zlen l →
  be_split n (be_combine (sub off (Z.of_nat n) l)) = sub off (Z.of_nat n) l.
Proof.
  intros. assert (length (sub off (Z.of_nat n) l) = n) as Hn.
  { apply Nat2Z.inj. fold (zlen (sub off (Z.of_nat n) l)). apply zlen_sub; lia. }
  rewrite <-Hn at 1. apply be_split_combine.
Qed.

Lemma zlen_zeros n : 0 ≤ n → zlen (zeros n) = n.
Proof. intros. unfold zlen, zeros. rewrite length_replicate. lia. Qed.

Lemma sub_zeros off n m : 0 ≤ off → 0 ≤ n → off + n ≤ m → sub off n (zeros m) = zeros n.
Proof.
  intros. unfold sub, zeros. rewrite drop_replicate, take_replicate. f_equal. lia.
Qed.

Lemma zeros_add n m : 0 ≤ n → 0 ≤ m → zeros (n + m) = zeros n ++ zeros m.
Proof. intros. unfold zeros. by rewrite Z2Nat.inj_add, replicate_add by lia. Qed.

Lemma splice_zeros d m : zlen d ≤ m → splice 0 d (zeros m) = d ++ zeros (m - zlen d).
Proof.
  unfold splice, zeros, zlen. intros. change (Z.to_nat 0) with 0%nat. cbn [take app].
  rewrite drop_replicate. rewrite take_0. cbn [app]. do 2 f_equal. lia.
Qed.

Lemma le_combine_zeros n : le_combine (replicate n x00) = 0.
Proof. induction n as [|n IH]; [done|]. cbn [replicate le_combine]. by rewrite IH. Qed.

Lemma be_combine_zeros n : be_combine (zeros n) = 0.
Proof. unfold be_combine, zeros. by rewrite reverse_replicate, le_combine_zeros. Qed.

(** Lengths are computed by [zlen_simpl]; [slen] closes the bounds that remain. *)
Create Rewrite HintDb zlen.
#[export] Hint Rewrite @zlen_app @zlen_cons zlen_be_split : zlen.
Ltac zlen_simpl :=
  repeat first
    [ progress autorewrite with zlen
    | rewrite zlen_splice by slen
    | rewrite zlen_sub by slen
    | rewrite zlen_zeros by slen ]
with slen := zlen_simpl; cbn [Z.of_nat Pos.of_succ_nat Pos.succ]; lia.

(** Reads of an array that was written piecewise. *)
Ltac sub_simpl :=
  repeat first
    [ rewrite sub_splice_eq by slen
    | rewrite sub_splice_before by slen
    | rewrite sub_splice_after by slen ].

(** A field of a record made of fields *)
Ltac sub_field :=
  repeat first
    [ rewrite sub_exact by slen
    | rewrite sub_app_r by slen
    | rewrite sub_app_l by slen ].

(** A sequence of adjacent writes is one write. *)
Ltac splice_merge := repeat rewrite splice_adjacent by slen.

(** ** Words in memory *)
Lemma le_split_mod n v : le_split n (v mod 256 ^ Z.of_nat n) = le_split n v.
Proof.
  rewrite <-le_combine_split. rewrite <-(length_le_split n v) at 1. apply le_split_combine.
Qed.

Lemma le_combine_app l d :
  le_combine (l ++ d) = le_combine l + 256 ^ zlen l * le_combine d.
Proof.
  unfold zlen. induction l as [|b l IH]; cbn [app le_combine length]; [lia|].
  rewrite IH, Nat2Z.inj_succ, Z.pow_succ_r by lia. lia.
Qed.

Lemma le_combine_mod_sub n l :
  0 ≤ n → n ≤ zlen l → le_combine l mod 256 ^ n = le_combine (sub 0 n l).
Proof.
  intros. assert (l = sub 0 n l ++ sub n (zlen l - n) l) as Hl.
  { rewrite <-(sub_all l) at 1. replace (zlen l) with (n + (zlen l - n)) at 1 by lia.
    by rewrite sub_split by lia. }
  rewrite Hl at 1. rewrite le_combine_app, zlen_sub by lia.
  rewrite (Z.mul_comm (256 ^ n)), Z.mod_add by (apply Z.pow_nonzero; lia).
  apply Z.mod_small. pose proof (le_combine_range (sub 0 n l)) as H1.
  by rewrite zlen_sub in H1 by lia.
Qed.

Lemma le_split_add n m v :
  le_split (n + m) v = le_split n v ++ le_split m (v / 256 ^ Z.of_nat n).
Proof.
  revert v. induction n as [|n IH]; intros v; cbn [Nat.add le_split app].
  - by rewrite Z.div_1_r.
  - rewrite IH, Nat2Z.inj_succ, Z.pow_succ_r, Z.div_div by lia. done.
Qed.

Lemma le_split_0 n : le_split n 0 = zeros (Z.of_nat n).
Proof.
  unfold zeros. rewrite Nat2Z.id. induction n as [|n IH]; [done|]. cbn [le_split replicate].
  f_equal. exact IH.
Qed.
