(* ===== verification/Spec.v ===== *)
(** * Statements about every run of a program

    The theorems on one operation in one situation run the code.  The theorems that hold
    in every situation, on every device and on every error path, do not: they are proved
    by rules that follow the structure of the code.  This file has the four judgements
    and their rules:

    - [steps R err m]: every run of [m] relates the states before and after by the
      preorder [R]; [err] says whether it may return an error;
    - [same f]: the relation of states that agree on [f]; [on f R]: the relation [R] on [f];
    - [ends Q m]: every run of [m] that returns, with a result or an error, ends in [Q];
    - [triple P m Q]: so does every run from a state in [P]; for code that breaks an
      invariant and restores it.

    Runs that crash satisfy all of them. *)
From S2P Require Import Prelude.

Definition steps {S A} (R : relation S) (err : bool) (m : M S A) : Prop := ∀ s,
  match m s with
  | Ok _ s' => R s s'
  | Err _ s' => err = true ∧ R s s'
  | Crash _ => True
  end.

Definition leaves {S A} (Q : S → Prop) (o : out S A) : Prop :=
  match o with Ok _ s | Err _ s => Q s | Crash _ => True end.
Definition ends {S A} (Q : S → Prop) (m : M S A) : Prop := ∀ s, leaves Q (m s).

Definition same {S C} (f : S → C) : relation S := λ s s', f s' = f s.
Definition any {S} : relation S := λ _ _, True.
Definition on {S C} (f : S → C) (R : relation C) : relation S := λ s s', R (f s) (f s').
Definition keeping {S} (Q : S → Prop) : relation S := λ s s', Q s → Q s'.

#[export] Instance same_preorder {S C} (f : S → C) : PreOrder (same f).
Proof. unfold same. split; [done|]. intros x y z Hxy Hyz. congruence. Qed.
#[export] Instance on_preorder {S C} (f : S → C) (R : relation C) `{!PreOrder R} : PreOrder (on f R).
Proof. unfold on. split; [by intros s|]. intros x y z ??. by etrans. Qed.
#[export] Instance any_preorder {S} : PreOrder (@any S).
Proof. by split. Qed.
#[export] Instance keeping_preorder {S} (Q : S → Prop) : PreOrder (keeping Q).
Proof. unfold keeping. split; [by intros ??|]. intros x y z. tauto. Qed.

(** ** Rules *)
Section rules.
Context {S A : Type} (R : relation S) {PR : PreOrder R}.

Lemma steps_ret b (a : A) : steps R b (mret a).
Proof. intros s. cbn. reflexivity. Qed.
Lemma steps_err e : steps (A := A) R true (err e).
Proof. intros s. cbn. by split. Qed.
Lemma steps_crash b c : steps (A := A) R b (crashes c).
Proof. by intros s. Qed.
Lemma steps_gets b (f : S → A) : steps R b (gets f).
Proof. intros s. cbn. reflexivity. Qed.
Lemma steps_get b : steps R b get.
Proof. intros s. cbn. reflexivity. Qed.
Lemma steps_BUG_ON b c : steps R b (BUG_ON c).
Proof. intros s. destruct c; [done|]. cbn. reflexivity. Qed.
Lemma steps_modify b f : (∀ s, R s (f s)) → steps R b (modify f).
Proof. intros Hf s. apply Hf. Qed.
Lemma steps_catch b (m : M S A) : steps R true m → steps R b (catch m).
Proof. intros Hm s. unfold catch. specialize (Hm s). destruct (m s); tauto. Qed.
Lemma steps_weaken b (m : M S A) : steps R false m → steps R b m.
Proof. intros Hm s. specialize (Hm s). destruct (m s); [done| |done]. by destruct Hm. Qed.
Lemma steps_lock b l : (∀ s, R s (lset l true s)) → steps R b (mutex_lock l).
Proof. intros Hl s. unfold mutex_lock. by destruct (lget l s). Qed.
Lemma steps_unlock b l : (∀ s, R s (lset l false s)) → steps R b (mutex_unlock l).
Proof. intros Hl s. apply Hl. Qed.
End rules.

Lemma steps_bind {S A C} (R : relation S) {PR : PreOrder R} b (m : M S A) (k : A → M S C) :
  steps R b m → (∀ a, steps R b (k a)) → steps R b (m ≫= k).
Proof.
  intros Hm Hk s. unfold mbind, M_bind. specialize (Hm s). destruct (m s) as [a s1|e s1|c]; [|done..].
  specialize (Hk a s1). destruct (k a s1) as [a2 s2|e s2|c]; [by etrans| |done].
  destruct Hk. split; [done|by etrans].
Qed.

(** A sequence whose second part knows what the first one can return *)
Lemma steps_bind_post {S A C} (R : relation S) `{!PreOrder R} (P : A → Prop) (m : M S A) (k : A → M S C) :
  steps R true m → (∀ s a s', m s = Ok a s' → P a) → (∀ a, P a → steps R true (k a)) →
  steps R true (m ≫= k).
Proof.
  intros Hm HP Hk s. unfold mbind, M_bind. specialize (Hm s). destruct (m s) as [a s1|e s1|c] eqn:E; [|done..].
  specialize (Hk a (HP _ _ _ E) s1). destruct (k a s1); [by etrans| |done]. destruct Hk. split; [done|by etrans].
Qed.

Lemma steps_or_err {S A} (R : relation S) {PR : PreOrder R} e (m : M S (option A)) :
  steps R true m → steps R true (or_err e m).
Proof. intros. apply steps_bind; [done..|]. intros [a|]; [by apply steps_ret|by apply steps_err]. Qed.

Lemma steps_zoom {S T A} (R : relation S) (R' : relation T) b (l : lens S T) (m : M T A) :
  (∀ s t, R' (lget l s) t → R s (lset l t s)) → steps R' b m → steps R b (zoom l m).
Proof. intros Hl Hm s. unfold zoom. specialize (Hm (lget l s)). destruct (m (lget l s)); naive_solver. Qed.

(** Code under a lens does not touch what is off the lens. *)
Lemma steps_zoom_off {S T A C} (f : S → C) (l : lens S T) (m : M T A) :
  (∀ s t, f (lset l t s) = f s) → steps (same f) true (zoom l m).
Proof.
  intros Hl. apply (steps_zoom _ any); [intros s t _; apply Hl|].
  intros s. by destruct (m s).
Qed.

Lemma steps_on_off {S T A C} (f : S → C) (R : relation C) `{!PreOrder R} (l : lens S T) (m : M T A) :
  (∀ s t, f (lset l t s) = f s) → steps (on f R) true (zoom l m).
Proof.
  intros Hl. apply (steps_zoom _ any); [|intros s; by destruct (m s)].
  intros s t _. unfold on. by rewrite Hl.
Qed.

(** What it does to a part of what is under the lens *)
Lemma steps_zoom_in {S T A C C'} (f : S → C) (g : T → C') b (l : lens S T) (m : M T A) :
  (∀ s t, g t = g (lget l s) → f (lset l t s) = f s) → steps (same g) b m → steps (same f) b (zoom l m).
Proof. intros Hl. by apply steps_zoom. Qed.

Lemma steps_zoom_any {S T A} b (l : lens S T) (m : M T A) : steps any b m → steps any b (zoom l m).
Proof. by apply steps_zoom. Qed.

Lemma steps_put_any {S} b (s : S) : steps any b (put s).
Proof. by intros s'. Qed.

Lemma steps_any {S A} (m : M S A) : steps any true m.
Proof. intros s. by destruct (m s). Qed.

(** The weaker relation *)
Lemma steps_sub {S A} (R R' : relation S) b (m : M S A) :
  (∀ s s', R s s' → R' s s') → steps R b m → steps R' b m.
Proof. intros HR Hm s. specialize (Hm s). destruct (m s); naive_solver. Qed.

Lemma ends_after {S A C} (Q : S → Prop) (m : M S A) (k : A → M S C) :
  steps any false m → (∀ a, ends Q (k a)) → ends Q (m ≫= k).
Proof.
  intros Hm Hk s. unfold mbind, M_bind. specialize (Hm s). destruct (m s) as [a s1|e s1|c]; [apply Hk| |done].
  by destruct Hm.
Qed.

Lemma ends_then {S A C} (Q : S → Prop) (m : M S A) (k : A → M S C) :
  ends Q m → (∀ a, steps (keeping Q) true (k a)) → ends Q (m ≫= k).
Proof.
  intros Hm Hk s. unfold mbind, M_bind. specialize (Hm s). destruct (m s) as [a s1|e s1|c]; [|done..].
  specialize (Hk a s1). cbn in *. destruct (k a s1); [by apply Hk|by apply Hk|done].
Qed.

Lemma ends_keeping {S A} (Q : S → Prop) (m : M S A) : ends Q m → steps (keeping Q) true m.
Proof. intros Hm s. specialize (Hm s). unfold keeping. destruct (m s); [done|by split|done]. Qed.

Lemma same_keeping {S C A} (f : S → C) (P : C → Prop) b (m : M S A) :
  steps (same f) b m → steps (keeping (λ s, P (f s))) b m.
Proof. apply steps_sub. unfold same, keeping. by intros s s' ->. Qed.

Lemma steps_leaves {S A} (Q : S → Prop) b (m : M S A) s :
  steps (keeping Q) b m → Q s → leaves Q (m s).
Proof. intros Hm Hs. specialize (Hm s). unfold keeping in Hm. destruct (m s); cbn; naive_solver. Qed.

(** ** Code that runs from some states only *)
Definition triple {S A} (P : S → Prop) (m : M S A) (Q : S → Prop) : Prop := ∀ s, P s → leaves Q (m s).

Lemma triple_steps {S A} (P : S → Prop) b (m : M S A) : steps (keeping P) b m → triple P m P.
Proof. intros Hm s Hs. by eapply steps_leaves. Qed.

(** The first part cannot return an error, or ends in the postcondition when it does. *)
Lemma triple_bind {S A C} (P Q R : S → Prop) (m : M S A) (k : A → M S C) :
  triple P m Q → (∀ s, Q s → R s) ∨ steps any false m → (∀ a, triple Q (k a) R) → triple P (m ≫= k) R.
Proof.
  intros Hm He Hk s Hs. unfold mbind, M_bind. specialize (Hm s Hs). destruct (m s) as [a s1|e s1|c] eqn:E; [| |done].
  - by apply Hk.
  - destruct He as [He|He]; [by apply He|]. specialize (He s). rewrite E in He. by destruct He.
Qed.

Lemma triple_weaken {S A} (P P' Q Q' : S → Prop) (m : M S A) :
  triple P' m Q' → (∀ s, P s → P' s) → (∀ s, Q' s → Q s) → triple P m Q.
Proof. intros Hm HP HQ s Hs%HP. specialize (Hm s Hs). destruct (m s); cbn in *; auto. Qed.

Lemma triple_keeping {S A} (P : S → Prop) (m : M S A) : triple P m P → steps (keeping P) true m.
Proof. intros Hm s. specialize (Hm s). unfold keeping. destruct (m s); cbn in *; auto. Qed.

(** ** Automation

    [steps_tac] follows the code: it splits sequences and conditionals and applies the
    rules of the monad's operations, those of [steps] hints for calls.  What is left are
    loops and calls that have no rule yet. *)
Create HintDb steps discriminated.

Ltac steps_side := intros; first [exact I | unfold same; reflexivity | unfold on; reflexivity].

Ltac steps_step :=
  lazymatch goal with
  | |- ∀ _, steps _ _ _ => intros ?
  | |- steps any true _ => apply steps_any
  | |- steps _ _ (mbind _ _) => apply steps_bind; [typeclasses eauto| |intros ?]
  | |- steps _ _ (mret _) => apply steps_ret; typeclasses eauto
  | |- steps _ _ (err _) => apply steps_err; typeclasses eauto
  | |- steps _ _ (crashes _) => apply steps_crash
  | |- steps _ _ (gets _) => apply steps_gets; typeclasses eauto
  | |- steps _ _ get => apply steps_get; typeclasses eauto
  | |- steps _ _ (BUG_ON _) => apply steps_BUG_ON; typeclasses eauto
  | |- steps _ _ (catch _) => apply steps_catch
  | |- steps _ true (or_err _ _) => apply steps_or_err; [typeclasses eauto|]
  | |- steps _ _ (modify _) => apply steps_modify; solve [steps_side]
  | |- steps _ _ (mutex_lock _) => apply steps_lock; solve [steps_side]
  | |- steps _ _ (mutex_unlock _) => apply steps_unlock; solve [steps_side]
  | |- steps any _ (put _) => apply steps_put_any
  | |- steps any _ (zoom _ _) => apply steps_zoom_any
  | |- steps (same _) true (zoom _ _) => apply steps_zoom_off; solve [steps_side]
  | |- steps (on _ _) true (zoom _ _) => apply steps_on_off; [typeclasses eauto|solve [steps_side]]
  | |- steps _ _ (if ?b then _ else _) => destruct b
  | |- steps _ _ (match ?x with _ => _ end) => destruct x
  | |- steps _ _ (let _ := _ in _) => cbv zeta
  end.
Ltac steps_tac := repeat first [ solve [auto with steps nocore] | progress steps_step ].
