(* ===== verification/Util.v ===== *)
(** * util.c: reading and writing the fields of an on-disk structure

    Every function of util.c takes a buffer head and a [size_t *pos]; the pair is
    the state [cursor] here.  Such a function returns [false] (here [None] for a
    read, [false] for a write) with nothing changed when the buffer is too short,
    and otherwise moves [*pos] behind the field.

    [sb_load need size] and [sb_store need size] are the common shape: [need] is
    the [sizeof] the guard compares with and [size] what [memcpy] copies; the two
    differ for inode numbers and sectors (8 and 4). *)
From S2P Require Import Prelude.

(** [bh->b_data] ([b_size] bytes) with the caller's [*pos] *)
Record cursor := Cursor { bh : list byte; pos : Z }.

Definition b_size (b : list byte) : Z := zlen b.

Definition spfs_sb_remaining {S} (b : list byte) (p : Z) : M S Z :=
  BUG_ON (bool_decide (b_size b < p));;
  mret (b_size b - p).

Definition sb_load (need size : Z) : M cursor (option (list byte)) :=
  c ← get;
  rem ← spfs_sb_remaining (bh c) (pos c);
  if bool_decide (rem < need) then mret None
  else
    raw ← mload (bh c) (pos c) size;
    put (Cursor (bh c) (pos c + size));;
    mret (Some raw).

Definition sb_store (need : Z) (raw : list byte) : M cursor bool :=
  c ← get;
  rem ← spfs_sb_remaining (bh c) (pos c);
  if bool_decide (rem < need) then mret false
  else
    b ← mstore (bh c) (pos c) raw;
    put (Cursor b (pos c + zlen raw));;
    mret true.

(** [be16_to_cpu], [be32_to_cpu], [be64_to_cpu] of what [memcpy] fetched *)
Definition be_to_cpu (n : nat) (raw : list byte) : Z := bswap n (le_combine raw).
(** the bytes [memcpy] stores after [cpu_to_be16], [cpu_to_be32], [cpu_to_be64] *)
Definition cpu_to_be (n : nat) (v : Z) : list byte := le_split n (bswap n v).

Definition spfs_sb_read_u16 : M cursor (option Z) :=
  raw ← sb_load 2 2; mret (be_to_cpu 2 <$> raw).
Definition spfs_sb_write_u16 (val : Z) : M cursor bool := sb_store 2 (cpu_to_be 2 val).

Definition spfs_sb_read_u32 : M cursor (option Z) :=
  raw ← sb_load 4 4; mret (be_to_cpu 4 <$> raw).
Definition spfs_sb_write_u32 (val : Z) : M cursor bool := sb_store 4 (cpu_to_be 4 val).

Definition spfs_sb_read_u64 : M cursor (option Z) :=
  raw ← sb_load 8 8; mret (be_to_cpu 8 <$> raw).
Definition spfs_sb_write_u64 (val : Z) : M cursor bool := sb_store 8 (cpu_to_be 8 val).

(** The guard asks for [sizeof(unsigned long)] = 8 bytes, the copy is 4 bytes. *)
Definition spfs_sb_read_ino : M cursor (option Z) :=
  raw ← sb_load 8 4; mret (be_to_cpu 4 <$> raw).
Definition spfs_sb_write_ino (val : Z) : M cursor bool := sb_store 8 (cpu_to_be 4 val).

Definition spfs_sb_read_sector : M cursor (option Z) :=
  raw ← sb_load 8 4; mret (be_to_cpu 4 <$> raw).
Definition spfs_sb_write_sector (val : Z) : M cursor bool := sb_store 8 (cpu_to_be 4 val).

Definition spfs_sb_read_str (len : Z) : M cursor (option (list byte)) := sb_load len len.

(** The source copies from [&str], the address of the parameter itself: what
    lands on disk is [frame], the [len] bytes of the stack that start at the
    parameter's slot (its 8 pointer bytes first), and never the string. *)
Definition spfs_sb_write_str (frame : Z → list byte) (str : list byte) (len : Z) :
    M cursor bool :=
  sb_store len (frame len).

(** [if (!spfs_sb_read_...) return e;] is [or_err e]; for a write: *)
Definition or_fail {S} (e : Z) (m : M S bool) : M S unit :=
  ok ← m; if (ok : bool) then mret tt else err e.

(** The five kinds of numeric fields, for statements about all of them *)
Inductive field := FU16 | FU32 | FU64 | FIno | FSector.

Definition field_read (k : field) : M cursor (option Z) :=
  match k with
  | FU16 => spfs_sb_read_u16
  | FU32 => spfs_sb_read_u32
  | FU64 => spfs_sb_read_u64
  | FIno => spfs_sb_read_ino
  | FSector => spfs_sb_read_sector
  end.

Definition field_write (k : field) : Z → M cursor bool :=
  match k with
  | FU16 => spfs_sb_write_u16
  | FU32 => spfs_sb_write_u32
  | FU64 => spfs_sb_write_u64
  | FIno => spfs_sb_write_ino
  | FSector => spfs_sb_write_sector
  end.

(** bytes the guard asks for, and bytes transferred *)
Definition field_need (k : field) : Z :=
  match k with FU16 => 2 | FU32 => 4 | FU64 | FIno | FSector => 8 end.
Definition field_size (k : field) : nat :=
  match k with FU16 => 2 | FU32 | FIno | FSector => 4 | FU64 => 8 end.

(** ** What the functions compute *)
Lemma be_to_cpu_be n raw : length raw = n → be_to_cpu n raw = be_combine raw.
Proof. intros. unfold be_to_cpu. by apply bswap_combine. Qed.

Lemma cpu_to_be_be n v : cpu_to_be n v = be_split n v.
Proof. apply le_split_bswap. Qed.

Lemma zlen_cpu_to_be n v : zlen (cpu_to_be n v) = Z.of_nat n.
Proof. rewrite cpu_to_be_be. apply zlen_be_split. Qed.
#[export] Hint Rewrite zlen_cpu_to_be : zlen.

Lemma sb_remaining_ok {S} b p (s : S) :
  p ≤ b_size b → spfs_sb_remaining b p s = Ok (b_size b - p) s.
Proof. intros. unfold spfs_sb_remaining. mrun. by decide_if. Qed.

Lemma sb_remaining_bug {S} b p (s : S) :
  b_size b < p → spfs_sb_remaining b p s = Crash BugOn.
Proof. intros. unfold spfs_sb_remaining. mrun. by decide_if. Qed.

Section load_store.
Variables (need size : Z).
Hypothesis Hsize : 0 ≤ size ≤ need.

Lemma sb_load_ok b p :
  0 ≤ p → p + need ≤ b_size b →
  sb_load need size (Cursor b p) = Ok (Some (sub p size b)) (Cursor b (p + size)).
Proof using Hsize.
  intros. unfold sb_load, mload. mrun. cbn [bh pos].
  rewrite sb_remaining_ok by lia. decide_if. unfold b_size in *.
  decide_if by (split; [lia|split; lia]). done.
Qed.

Lemma sb_load_short b p :
  p ≤ b_size b → b_size b < p + need →
  sb_load need size (Cursor b p) = Ok None (Cursor b p).
Proof using.
  intros. unfold sb_load. mrun. cbn [bh pos].
  rewrite sb_remaining_ok by lia. by decide_if.
Qed.

Lemma sb_load_bug b p :
  b_size b < p → sb_load need size (Cursor b p) = Crash BugOn.
Proof using. intros. unfold sb_load. mrun. cbn [bh pos]. by rewrite sb_remaining_bug. Qed.

Lemma sb_store_ok raw b p :
  zlen raw = size → 0 ≤ p → p + need ≤ b_size b →
  sb_store need raw (Cursor b p) = Ok true (Cursor (splice p raw b) (p + zlen raw)).
Proof using Hsize.
  intros. unfold sb_store, mstore. mrun. cbn [bh pos].
  rewrite sb_remaining_ok by lia. decide_if. unfold b_size in *.
  decide_if by (split; lia). done.
Qed.

Lemma sb_store_short raw b p :
  p ≤ b_size b → b_size b < p + need →
  sb_store need raw (Cursor b p) = Ok false (Cursor b p).
Proof using.
  intros. unfold sb_store. mrun. cbn [bh pos].
  rewrite sb_remaining_ok by lia. by decide_if.
Qed.

Lemma sb_store_bug raw b p :
  b_size b < p → sb_store need raw (Cursor b p) = Crash BugOn.
Proof using. intros. unfold sb_store. mrun. cbn [bh pos]. by rewrite sb_remaining_bug. Qed.
End load_store.

Lemma be_to_cpu_sub n p b :
  0 ≤ p → p + Z.of_nat n ≤ zlen b → be_to_cpu n (sub p (Z.of_nat n) b) = be_combine (sub p (Z.of_nat n) b).
Proof.
  intros. apply be_to_cpu_be. apply Nat2Z.inj. by apply zlen_sub; lia.
Qed.

Lemma field_size_need k : 0 ≤ Z.of_nat (field_size k) ≤ field_need k.
Proof. destruct k; cbn; lia. Qed.

Lemma field_read_unfold k :
  field_read k =
    (raw ← sb_load (field_need k) (Z.of_nat (field_size k));
     mret (be_to_cpu (field_size k) <$> raw)).
Proof. by destruct k. Qed.

Lemma field_write_unfold k v :
  field_write k v = sb_store (field_need k) (cpu_to_be (field_size k) v).
Proof. by destruct k. Qed.

Lemma field_read_ok k b p :
  0 ≤ p → p + field_need k ≤ zlen b →
  field_read k (Cursor b p) =
    Ok (Some (be_combine (sub p (Z.of_nat (field_size k)) b)))
       (Cursor b (p + Z.of_nat (field_size k))).
Proof.
  intros. pose proof (field_size_need k). rewrite field_read_unfold. mrun.
  rewrite sb_load_ok by (unfold b_size; lia). cbn [fmap option_fmap option_map].
  by rewrite be_to_cpu_sub by lia.
Qed.

Lemma field_read_short k b p :
  p ≤ zlen b → zlen b < p + field_need k → field_read k (Cursor b p) = Ok None (Cursor b p).
Proof. intros. rewrite field_read_unfold. mrun. by rewrite sb_load_short. Qed.

Lemma field_read_bug k b p : zlen b < p → field_read k (Cursor b p) = Crash BugOn.
Proof. intros. rewrite field_read_unfold. mrun. by rewrite sb_load_bug. Qed.

Lemma field_write_ok k v b p :
  0 ≤ p → p + field_need k ≤ zlen b →
  field_write k v (Cursor b p) =
    Ok true (Cursor (splice p (be_split (field_size k) v) b) (p + Z.of_nat (field_size k))).
Proof.
  intros. rewrite field_write_unfold, cpu_to_be_be.
  rewrite (sb_store_ok _ _ (field_size_need k)); unfold b_size; [|by zlen_simpl|lia..].
  by zlen_simpl.
Qed.

Lemma field_write_short k v b p :
  p ≤ zlen b → zlen b < p + field_need k →
  field_write k v (Cursor b p) = Ok false (Cursor b p).
Proof. intros. rewrite field_write_unfold. by rewrite sb_store_short. Qed.

Lemma field_write_bug k v b p : zlen b < p → field_write k v (Cursor b p) = Crash BugOn.
Proof. intros. rewrite field_write_unfold. by rewrite sb_store_bug. Qed.

Lemma read_str_ok len b p :
  0 ≤ p → 0 ≤ len → p + len ≤ zlen b →
  spfs_sb_read_str len (Cursor b p) = Ok (Some (sub p len b)) (Cursor b (p + len)).
Proof. intros. apply sb_load_ok; unfold b_size; lia. Qed.

Lemma read_str_short len b p :
  p ≤ zlen b → zlen b < p + len → spfs_sb_read_str len (Cursor b p) = Ok None (Cursor b p).
Proof. intros. by apply sb_load_short. Qed.

Lemma write_str_ok frame str len b p :
  zlen (frame len) = len → 0 ≤ p → p + len ≤ zlen b →
  spfs_sb_write_str frame str len (Cursor b p) =
    Ok true (Cursor (splice p (frame len) b) (p + len)).
Proof.
  intros Hf ??. unfold spfs_sb_write_str. pose proof (zlen_nonneg (frame len)).
  rewrite (sb_store_ok len len); unfold b_size; [|lia..]. by rewrite Hf.
Qed.

Lemma write_str_short frame str len b p :
  p ≤ zlen b → zlen b < p + len →
  spfs_sb_write_str frame str len (Cursor b p) = Ok false (Cursor b p).
Proof. intros. unfold spfs_sb_write_str. by apply sb_store_short. Qed.

(** Running a sequence of fields: [codec_step] executes the next read or write whose
    bounds [slen] proves. *)
Lemma or_err_some {S A} e (m : M S (option A)) s a s' :
  m s = Ok (Some a) s' → or_err e m s = Ok a s'.
Proof. intros H. unfold or_err. mrun. by rewrite H. Qed.

Lemma or_err_none {S A} e (m : M S (option A)) s s' :
  m s = Ok None s' → or_err e m s = Err e s'.
Proof. intros H. unfold or_err. mrun. by rewrite H. Qed.

Lemma or_fail_true {S} e (m : M S bool) s s' : m s = Ok true s' → or_fail e m s = Ok tt s'.
Proof. intros H. unfold or_fail. mrun. by rewrite H. Qed.

Lemma or_fail_false {S} e (m : M S bool) s s' : m s = Ok false s' → or_fail e m s = Err e s'.
Proof. intros H. unfold or_fail. mrun. by rewrite H. Qed.

(** The two ways a read or a write inside a buffer can go *)
Lemma read_field_cases k e b p :
  0 ≤ p → p ≤ zlen b →
  (p + field_need k ≤ zlen b ∧
   or_err e (field_read k) (Cursor b p) =
     Ok (be_combine (sub p (Z.of_nat (field_size k)) b)) (Cursor b (p + Z.of_nat (field_size k)))) ∨
  (zlen b < p + field_need k ∧ or_err e (field_read k) (Cursor b p) = Err e (Cursor b p)).
Proof.
  intros. destruct (decide (p + field_need k ≤ zlen b)); [left|right]; (split; [lia|]).
  - by apply or_err_some, field_read_ok.
  - apply or_err_none, field_read_short; lia.
Qed.

Lemma write_field_cases k v e b p :
  0 ≤ p → p ≤ zlen b →
  (p + field_need k ≤ zlen b ∧
   or_fail e (field_write k v) (Cursor b p) =
     Ok tt (Cursor (splice p (be_split (field_size k) v) b) (p + Z.of_nat (field_size k)))) ∨
  (zlen b < p + field_need k ∧ or_fail e (field_write k v) (Cursor b p) = Err e (Cursor b p)).
Proof.
  intros. destruct (decide (p + field_need k ≤ zlen b)); [left|right]; (split; [lia|]).
  - by apply or_fail_true, field_write_ok.
  - apply or_fail_false, field_write_short; lia.
Qed.

Ltac field_head f :=
  lazymatch f with
  | spfs_sb_read_u16 => constr:(FU16)
  | spfs_sb_read_u32 => constr:(FU32)
  | spfs_sb_read_u64 => constr:(FU64)
  | spfs_sb_read_ino => constr:(FIno)
  | spfs_sb_read_sector => constr:(FSector)
  | spfs_sb_write_u16 _ => constr:(FU16)
  | spfs_sb_write_u32 _ => constr:(FU32)
  | spfs_sb_write_u64 _ => constr:(FU64)
  | spfs_sb_write_ino _ => constr:(FIno)
  | spfs_sb_write_sector _ => constr:(FSector)
  end.

(** Adjacent writes are merged as they are executed. *)
Ltac codec_ok :=
  lazymatch goal with
  | |- ((or_err _ (spfs_sb_read_str _)) ≫= _) _ = _ =>
      erewrite bind_ok; [|apply or_err_some; apply read_str_ok; slen]
  | |- ((or_err _ ?f) ≫= _) _ = _ =>
      let k := field_head f in
      erewrite bind_ok; [|apply or_err_some; apply (field_read_ok k); cbn [field_need]; slen]
  | |- ((or_fail _ (spfs_sb_write_str _ _ _)) ≫= _) _ = _ =>
      erewrite bind_ok; [|apply or_fail_true; apply write_str_ok; slen]
  | |- ((or_fail _ ?f) ≫= _) _ = _ =>
      let k := field_head f in
      erewrite bind_ok; [|apply or_fail_true; apply (field_write_ok k); cbn [field_need]; slen]
  end;
  cbn [field_size];
  change (Z.of_nat 2) with 2; change (Z.of_nat 4) with 4; change (Z.of_nat 8) with 8;
  rewrite ?Z.add_0_l;
  try rewrite splice_adjacent by slen.

Ltac codec_short :=
  lazymatch goal with
  | |- ((or_err _ (spfs_sb_read_str _)) ≫= _) _ = _ =>
      erewrite bind_err; [|apply or_err_none; apply read_str_short; slen]
  | |- ((or_err _ ?f) ≫= _) _ = _ =>
      let k := field_head f in
      erewrite bind_err; [|apply or_err_none; apply (field_read_short k); cbn [field_need]; slen]
  | |- ((or_fail _ (spfs_sb_write_str _ _ _)) ≫= _) _ = _ =>
      erewrite bind_err; [|apply or_fail_false; apply write_str_short; slen]
  | |- ((or_fail _ ?f) ≫= _) _ = _ =>
      let k := field_head f in
      erewrite bind_err; [|apply or_fail_false; apply (field_write_short k); cbn [field_need]; slen]
  end.

(** Executes the next field on both branches, and closes the short one with [tac]. *)
Ltac norm_size := cbn [field_size field_need] in *;
  change (Z.of_nat 2) with 2 in *; change (Z.of_nat 4) with 4 in *;
  change (Z.of_nat 8) with 8 in *; rewrite ?Z.add_0_l in *.

Tactic Notation "codec_split" "by" tactic3(tac) :=
  let H := fresh in let E := fresh in
  lazymatch goal with
  | |- context [ (or_err ?e ?f ≫= _) (Cursor ?b ?p) ] =>
      let k := field_head f in
      destruct (read_field_cases k e b p) as [[H E]|[H E]]; [slen|slen|..]
  | |- context [ (or_fail ?e ?f ≫= _) (Cursor ?b ?p) ] =>
      let k := field_head f in
      let v := lazymatch f with _ ?v => v end in
      destruct (write_field_cases k v e b p) as [[H E]|[H E]]; [slen|slen|..]
  end;
  [ erewrite (bind_ok _ _ (Cursor _ _)) by (exact E); clear E; norm_size
  | erewrite (bind_err _ _ (Cursor _ _)) by (exact E); clear E; norm_size; tac ].

(** ** Properties *)
(** C29: a number written to a buffer with room for it is read back from the same
    position, cut to the width of the field; exactly the bytes of the field change, and
    the position moves by their number. *)
Theorem field_roundtrip k v b p :
  0 ≤ p → p + field_need k ≤ zlen b →
  let size := Z.of_nat (field_size k) in
  ∃ b', field_write k v (Cursor b p) = Ok true (Cursor b' (p + size)) ∧ zlen b' = zlen b ∧
    field_read k (Cursor b' p) = Ok (Some (v mod 256 ^ size)) (Cursor b' (p + size)) ∧
    ∀ off n, 0 ≤ off → 0 ≤ n → off + n ≤ p ∨ p + size ≤ off → sub off n b' = sub off n b.
Proof.
  intros Hp Hb size. pose proof (field_size_need k).
  assert (zlen (splice p (be_split (field_size k) v) b) = zlen b) as Hz
    by (rewrite zlen_splice; rewrite ?zlen_be_split; lia).
  eexists. split; [by apply field_write_ok|]. split; [exact Hz|]. split.
  - rewrite field_read_ok by (rewrite ?Hz; lia). rewrite sub_splice_eq; rewrite ?zlen_be_split; try lia.
    by rewrite be_combine_split.
  - intros off n ?? [?|?]; [apply sub_splice_before|apply sub_splice_after]; rewrite ?zlen_be_split; lia.
Qed.

(** C30: reading and writing a number never touches memory outside of the buffer: behind
    its end they hit a BUG_ON, without room they report it and change nothing (eight
    bytes of room are asked for the four bytes of an inode or block number), and
    otherwise they move the big-endian bytes of the number. *)
Theorem field_total k v b p :
  0 ≤ p →
  let size := Z.of_nat (field_size k) in
  (zlen b < p → field_read k (Cursor b p) = Crash BugOn ∧ field_write k v (Cursor b p) = Crash BugOn) ∧
  (p ≤ zlen b → zlen b < p + field_need k →
   field_read k (Cursor b p) = Ok None (Cursor b p) ∧
   field_write k v (Cursor b p) = Ok false (Cursor b p)) ∧
  (p + field_need k ≤ zlen b →
   field_read k (Cursor b p) = Ok (Some (be_combine (sub p size b))) (Cursor b (p + size)) ∧
   field_write k v (Cursor b p) = Ok true (Cursor (splice p (be_split (field_size k) v) b) (p + size))).
Proof.
  intros Hp size. split_and!.
  - intros. split; [by apply field_read_bug|by apply field_write_bug].
  - intros. split; [by apply field_read_short|by apply field_write_short].
  - intros. split; [by apply field_read_ok|by apply field_write_ok].
Qed.

Lemma field_roundtrip_witness :
  ∃ b', field_write FIno (2 ^ 32 + 7) (Cursor (zeros 16) 4) = Ok true (Cursor b' 8) ∧
    field_read FIno (Cursor b' 4) = Ok (Some 7) (Cursor b' 8).
Proof.
  destruct (field_roundtrip FIno (2 ^ 32 + 7) (zeros 16) 4) as (b' & H1 & _ & H2 & _);
    [eval_side..|]. exists b'. split; [exact H1|exact H2].
Defined.

Lemma field_total_witness :
  field_read FSector (Cursor (zeros 8) 4) = Ok None (Cursor (zeros 8) 4).
Proof. destruct (field_total FSector 0 (zeros 8) 4) as (_ & H & _); [lia|apply H; eval_side]. Defined.
