(* ===== verification/Buffers.v ===== *)
(** * The buffer cache the driver runs on

    <linux/buffer_head.h> is kernel code and not part of the repository: it enters
    as the class [BufferCache], with what the driver relies on as the laws
    [BufferCacheLaws].  A [struct buffer_head *] is identified with its block
    number, since [sb_bread] hands out the one cached buffer of a block: two reads
    of a block alias, a store through one is seen through the other.

    [bufs] pairs the cache with the number of references taken by [sb_bread] and
    not yet given back by [brelse]. *)
From S2P Require Import Prelude Util.

Class BufferCache (D : Type) := {
  (** [b_data] of the buffer of a block; [None] when [sb_bread] returns NULL *)
  bc_data : D → Z → option (list byte);
  (** stores through [b_data] *)
  bc_store : D → Z → list byte → D;
  (** [mark_buffer_dirty] *)
  bc_dirty : D → Z → D;
  (** [sb->s_blocksize], the [b_size] of every buffer *)
  bc_bsize : D → Z;
}.

Class BufferCacheLaws (D : Type) {B : BufferCache D} : Prop := {
  bc_data_size : ∀ d n b, bc_data d n = Some b → zlen b = bc_bsize d;
  bc_data_store : ∀ d n b b', bc_data d n = Some b → zlen b' = zlen b →
    bc_data (bc_store d n b') n = Some b';
  bc_data_store_ne : ∀ d n m b', n ≠ m → bc_data (bc_store d n b') m = bc_data d m;
  bc_bsize_store : ∀ d n b', bc_bsize (bc_store d n b') = bc_bsize d;
  bc_data_dirty : ∀ d n m, bc_data (bc_dirty d n) m = bc_data d m;
  bc_bsize_dirty : ∀ d n, bc_bsize (bc_dirty d n) = bc_bsize d;
}.

Record bufs (D : Type) := Bufs { b_dev : D; b_refs : Z }.
Arguments Bufs {D} _ _.
Arguments b_dev {D} _.
Arguments b_refs {D} _.

Section buffers.
Context {D : Type} {B : BufferCache D}.

(** [bh = sb_bread(sb, n)], [false] for NULL *)
Definition sb_bread (n : Z) : M (bufs D) bool := λ s,
  match bc_data (b_dev s) n with
  | None => Ok false s
  | Some _ => Ok true (Bufs (b_dev s) (b_refs s + 1))
  end.

Definition brelse (n : Z) : M (bufs D) unit :=
  modify (λ s, Bufs (b_dev s) (b_refs s - 1)).

Definition mark_buffer_dirty (n : Z) : M (bufs D) unit :=
  modify (λ s, Bufs (bc_dirty (b_dev s) n) (b_refs s)).

(** A run of util.c functions on buffer [n], with [*pos] starting at [p]; returns
    the final [*pos] too. *)
Definition on_bh {A} (n p : Z) (m : M cursor A) : M (bufs D) (A * Z) := λ s,
  match bc_data (b_dev s) n with
  | None => Crash NullDeref
  | Some b =>
      match m (Cursor b p) with
      | Ok a c => Ok (a, pos c) (Bufs (bc_store (b_dev s) n (bh c)) (b_refs s))
      | Err e c => Err e (Bufs (bc_store (b_dev s) n (bh c)) (b_refs s))
      | Crash c => Crash c
      end
  end.

(** The same for functions that only read the buffer: nothing is stored back. *)
Definition in_bh {A} (n p : Z) (m : M cursor A) : M (bufs D) (A * Z) := λ s,
  match bc_data (b_dev s) n with
  | None => Crash NullDeref
  | Some b =>
      match m (Cursor b p) with
      | Ok a c => Ok (a, pos c) s
      | Err e c => Err e s
      | Crash c => Crash c
      end
  end.

(** The bytes of buffer [n], for code that reads [bh->b_data] itself *)
Definition bh_data (n : Z) : M (bufs D) (list byte) := λ s,
  match bc_data (b_dev s) n with
  | None => Crash NullDeref
  | Some b => Ok b s
  end.

Definition bh_set_data (n : Z) (b : list byte) : M (bufs D) unit :=
  modify (λ s, Bufs (bc_store (b_dev s) n b) (b_refs s)).
End buffers.

(** ** Devices that agree on every block *)
Definition dev_equiv {D} `{BufferCache D} (d d' : D) : Prop :=
  bc_bsize d = bc_bsize d' ∧ ∀ n, bc_data d n = bc_data d' n.

(** [d'] is [d] with the contents of block [n] replaced by [b]. *)
Definition dev_upd {D} `{BufferCache D} (d : D) (n : Z) (b : list byte) (d' : D) : Prop :=
  bc_bsize d' = bc_bsize d ∧ bc_data d' n = Some b ∧
  ∀ m, m ≠ n → bc_data d' m = bc_data d m.

(** ** A concrete buffer cache: the blocks of a device held in memory *)
Record memdev := MemDev {
  md_bsize : Z;
  md_blocks : gmap Z (list byte);
  md_dirty : gset Z;
}.

#[export] Instance memdev_cache : BufferCache memdev := {
  bc_data d n := b ← md_blocks d !! n; if bool_decide (zlen b = md_bsize d) then Some b else None;
  bc_store d n b := MemDev (md_bsize d) (<[n := b]> (md_blocks d)) (md_dirty d);
  bc_dirty d n := MemDev (md_bsize d) (md_blocks d) ({[n]} ∪ md_dirty d);
  bc_bsize d := md_bsize d;
}.

#[export] Instance memdev_laws : BufferCacheLaws memdev.
Proof.
  split; cbn [bc_data bc_store bc_dirty bc_bsize memdev_cache md_bsize md_blocks]; try done.
  - intros d n b. destruct (md_blocks d !! n) as [x|]; cbn; [|done]. case_bool_decide; naive_solver.
  - intros d n b b'. destruct (md_blocks d !! n) as [x|]; cbn; [|done].
    case_bool_decide; [|done]. intros [= <-] Hl. rewrite lookup_insert_eq. cbn.
    by rewrite bool_decide_eq_true_2 by congruence.
  - intros d n m b' Hne. by rewrite lookup_insert_ne.
Qed.

(** A device of [n] blocks of [bsize] zero bytes *)
Definition blank_dev (bsize n : Z) : memdev :=
  MemDev bsize (list_to_map ((λ i : nat, (Z.of_nat i, zeros bsize)) <$> seq 0 (Z.to_nat n))) ∅.

Section laws.
Context {D : Type} {B : BufferCache D} {L : BufferCacheLaws D}.
Implicit Types (d : D) (s : bufs D).

#[export] Instance dev_equiv_equivalence : Equivalence (dev_equiv (D := D)).
Proof.
  split.
  - done.
  - intros d d' [??]. by split.
  - intros d1 d2 d3 [? H1] [? H2]. split; [congruence|]. intros n. by rewrite H1.
Qed.

Lemma bc_data_store_decide d n m b b' :
  bc_data d n = Some b → zlen b' = zlen b →
  bc_data (bc_store d n b') m = if decide (n = m) then Some b' else bc_data d m.
Proof.
  intros. destruct (decide (n = m)) as [<-|].
  - by eapply bc_data_store.
  - by apply bc_data_store_ne.
Qed.

(** Storing back what is there changes nothing. *)
Lemma bc_store_id d n b : bc_data d n = Some b → dev_equiv (bc_store d n b) d.
Proof.
  intros H. split; [apply bc_bsize_store|]. intros m.
  rewrite (bc_data_store_decide _ _ _ b) by done. by destruct (decide (n = m)) as [<-|].
Qed.

Lemma bc_dirty_id d n : dev_equiv (bc_dirty d n) d.
Proof. split; [apply bc_bsize_dirty|]. intros m. apply bc_data_dirty. Qed.

Lemma dev_upd_store d n b b' :
  bc_data d n = Some b → zlen b' = zlen b → dev_upd d n b' (bc_store d n b').
Proof.
  intros. split_and!; [apply bc_bsize_store|by eapply bc_data_store|].
  intros. by apply bc_data_store_ne.
Qed.

Lemma dev_upd_refl d n b : bc_data d n = Some b → dev_upd d n b d.
Proof. intros. unfold dev_upd. by split_and!. Qed.

Lemma dev_upd_trans d n b1 d1 b2 d2 :
  dev_upd d n b1 d1 → dev_upd d1 n b2 d2 → dev_upd d n b2 d2.
Proof.
  intros (? & ? & H1) (? & ? & H2). split_and!; [congruence|done|].
  intros. by rewrite H2, H1.
Qed.

Lemma dev_upd_dirty d n b d' m : dev_upd d n b d' → dev_upd d n b (bc_dirty d' m).
Proof.
  intros (? & ? & H1). split_and!; [by rewrite bc_bsize_dirty|by rewrite bc_data_dirty|].
  intros. rewrite bc_data_dirty. by apply H1.
Qed.

Lemma dev_upd_data d n b d' : dev_upd d n b d' → bc_data d' n = Some b.
Proof. by intros (? & ? & ?). Qed.

Lemma sb_bread_ok n s b :
  bc_data (b_dev s) n = Some b → sb_bread n s = Ok true (Bufs (b_dev s) (b_refs s + 1)).
Proof. intros H. unfold sb_bread. by rewrite H. Qed.

Lemma sb_bread_null n s : bc_data (b_dev s) n = None → sb_bread n s = Ok false s.
Proof. intros H. unfold sb_bread. by rewrite H. Qed.

Lemma on_bh_ok {A} n p (m : M cursor A) s b a c :
  bc_data (b_dev s) n = Some b → m (Cursor b p) = Ok a c →
  on_bh n p m s = Ok (a, pos c) (Bufs (bc_store (b_dev s) n (bh c)) (b_refs s)).
Proof. intros H Hm. unfold on_bh. by rewrite H, Hm. Qed.

Lemma in_bh_ok {A} n p (m : M cursor A) s b a c :
  bc_data (b_dev s) n = Some b → m (Cursor b p) = Ok a c →
  in_bh n p m s = Ok (a, pos c) s.
Proof. intros H Hm. unfold in_bh. by rewrite H, Hm. Qed.

Lemma in_bh_err {A} n p (m : M cursor A) s b e c :
  bc_data (b_dev s) n = Some b → m (Cursor b p) = Err e c → in_bh n p m s = Err e s.
Proof. intros H Hm. unfold in_bh. by rewrite H, Hm. Qed.

Lemma on_bh_err {A} n p (m : M cursor A) s b e c :
  bc_data (b_dev s) n = Some b → m (Cursor b p) = Err e c →
  on_bh n p m s = Err e (Bufs (bc_store (b_dev s) n (bh c)) (b_refs s)).
Proof. intros H Hm. unfold on_bh. by rewrite H, Hm. Qed.
End laws.
