(* ===== verification/FreeList.v ===== *)
(** * free_list.c: the list of free extents of blocks

    The nodes linked by [next] are a Rocq list, [spfs_free_node] without its
    [next].  [spfs_free_init] reads the chain of free-list blocks of the device and
    pushes one node per entry; [spfs_free_alloc] carves blocks off the end of the
    first node that has enough of them. *)
From S2P Require Import Prelude Util Buffers.

Record spfs_free_node := FreeNode { fn_start : Z; fn_blocks : Z }.

Record spfs_free_list := FreeList {
  fl_lock : bool;
  fl_blocks : Z;
  fl_root : list spfs_free_node;
}.

#[export] Instance spfs_free_node_eq_dec : EqDecision spfs_free_node.
Proof. solve_decision. Defined.

Definition fl_lock_lens : lens spfs_free_list bool :=
  Lens fl_lock (λ b fl, FreeList b (fl_blocks fl) (fl_root fl)).

(** ** Reading the list *)
Definition spfs_read_entry : M cursor spfs_free_node :=
  start ← or_err 1 spfs_sb_read_sector;
  blocks ← or_err 1 spfs_sb_read_u32;
  mret (FreeNode start blocks).

(** [mem] says whether [kzalloc] has memory. *)
Definition spfs_init_free_list_entry (mem : bool) : M cursor (option spfs_free_node) :=
  if negb mem then mret None
  else
    r ← catch spfs_read_entry;
    mret (match r with inl _ => None | inr result => Some result end).

Definition spfs_read_header : M cursor (Z * Z) :=
  magic ← or_err (-EINVAL) spfs_sb_read_u32;
  length ← or_err (-EINVAL) spfs_sb_read_u32;
  next ← or_err (-EINVAL) spfs_sb_read_sector;
  if bool_decide (magic ≠ SPFS_MAGIC) then err (-EINVAL)
  else mret (length, next).

Section init.
Context {D : Type} {B : BufferCache D}.
(** whether the [k]-th [kzalloc] succeeds *)
Variable kzalloc : nat → bool.

(** [node->next = list->root; list->root = node; list->blocks += node->blocks] *)
Definition push_node (node : spfs_free_node) (fl : spfs_free_list) : spfs_free_list :=
  FreeList (fl_lock fl) (u32 (fl_blocks fl + fn_blocks node)) (node :: fl_root fl).

(** The [for] loop over the entries of the block [head] *)
Fixpoint free_init_entries (n : nat) (head bh_pos : Z) : M (bufs D * spfs_free_list) unit :=
  match n with
  | O => mret tt
  | S n =>
      fl ← gets snd;
      r ← zoom fst_lens
            (in_bh head bh_pos (spfs_init_free_list_entry (kzalloc (length (fl_root fl)))));
      match r.1 with
      | None => err 1
      | Some node =>
          zoom snd_lens (modify (push_node node));;
          free_init_entries n head r.2
      end
  end.

(** The [goto Lit] loop over the blocks of the chain *)
Fixpoint free_init_chain (fuel : nat) (head : Z) : M (bufs D * spfs_free_list) unit :=
  match fuel with
  | O => crashes NoFuel
  | S fuel =>
      if bool_decide (head = 0) then mret tt
      else
        ok ← zoom fst_lens (sb_bread head);
        if negb ok then err 1
        else
          hdr ← zoom fst_lens (in_bh head 0 spfs_read_header);
          let '((free_length, free_next), bh_pos) := hdr in
          free_init_entries (Z.to_nat free_length) head bh_pos;;
          zoom fst_lens (brelse head);;
          free_init_chain fuel free_next
  end.

Definition spfs_free_init (fuel : nat) (head : Z) : M (bufs D * spfs_free_list) unit :=
  zoom snd_lens (put (FreeList false 0 []));;
  free_init_chain fuel head.
End init.

(** ** Allocation *)
(** The [goto Lit] walk: the result and the list with the chosen node shortened *)
Fixpoint free_alloc_walk (blocks : Z) (l : list spfs_free_node) :
    option (Z * list spfs_free_node) :=
  match l with
  | [] => None
  | n :: next =>
      if bool_decide (blocks ≤ fn_blocks n) then
        let left := u32 (fn_blocks n - blocks) in
        Some (u64 (fn_start n + left), FreeNode (fn_start n) left :: next)
      else
        match free_alloc_walk blocks next with
        | None => None
        | Some (result, next') => Some (result, n :: next')
        end
  end.

Definition spfs_free_alloc (blocks : Z) : M spfs_free_list Z :=
  mutex_lock fl_lock_lens;;
  fl ← get;
  result ←
    (if bool_decide (blocks < fl_blocks fl) then
       match free_alloc_walk blocks (fl_root fl) with
       | Some (result, root) =>
           put (FreeList (fl_lock fl) (u32 (fl_blocks fl - blocks)) root);;
           mret result
       | None => mret 0
       end
     else mret 0);
  mutex_unlock fl_lock_lens;;
  mret result.

(** Not implemented in the source: it returns 0 and frees nothing. *)
Definition spfs_free_dealloc (root blocks : Z) : M spfs_free_list unit := mret tt.

(** ** Specification: the set of free blocks *)
Definition in_node (b : Z) (n : spfs_free_node) : Prop :=
  fn_start n ≤ b ∧ b < fn_start n + fn_blocks n.
Definition free_in (b : Z) (fl : spfs_free_list) : Prop := Exists (in_node b) (fl_root fl).

Fixpoint sum_blocks (l : list spfs_free_node) : Z :=
  match l with [] => 0 | n :: l => fn_blocks n + sum_blocks l end.

Definition node_ok (n : spfs_free_node) : Prop :=
  0 < fn_start n ∧ 0 ≤ fn_blocks n ∧ fn_start n + fn_blocks n < 2 ^ 32.
Definition nodes_disjoint (n m : spfs_free_node) : Prop := ∀ b, in_node b n → ¬ in_node b m.

(** Nodes within the 32-bit block numbers of the disk format and away from block 0,
    no block in two nodes, and [blocks] the number of free blocks *)
Record fl_wf (fl : spfs_free_list) : Prop := {
  flw_nodes : Forall node_ok (fl_root fl);
  flw_disjoint : ForallOrdPairs nodes_disjoint (fl_root fl);
  flw_blocks : fl_blocks fl = sum_blocks (fl_root fl);
  flw_total : sum_blocks (fl_root fl) < 2 ^ 32;
}.

(** A run of allocations, with what each returned *)
Inductive alloc_run : spfs_free_list → list (Z * Z) → spfs_free_list → Prop :=
| alloc_run_nil fl : alloc_run fl [] fl
| alloc_run_cons fl n r fl1 rs fl2 :
    0 ≤ n → spfs_free_alloc n fl = Ok r fl1 → alloc_run fl1 rs fl2 →
    alloc_run fl ((r, n) :: rs) fl2.

(** ** Specification: the chain of blocks on the device *)
Definition entry_at (b : list byte) (off : Z) (n : spfs_free_node) : Prop :=
  be_combine (sub off 4 b) = fn_start n ∧ be_combine (sub (off + 4) 4 b) = fn_blocks n.

Definition fl_block (b : list byte) (entries : list spfs_free_node) (next : Z) : Prop :=
  be_combine (sub 0 4 b) = SPFS_MAGIC ∧
  be_combine (sub 4 4 b) = zlen entries ∧
  be_combine (sub 8 4 b) = next ∧
  12 + 8 * zlen entries ≤ zlen b ∧ 16 ≤ zlen b ∧
  ∀ i n, entries !! i = Some n → entry_at b (12 + 8 * Z.of_nat i) n.

Inductive fl_chain {D} `{BufferCache D} (d : D) : Z → list spfs_free_node → nat → Prop :=
| fl_chain_end : fl_chain d 0 [] 0
| fl_chain_block head b entries next rest k :
    head ≠ 0 → bc_data d head = Some b → fl_block b entries next →
    fl_chain d next rest k → fl_chain d head (entries ++ rest) (S k).

(** ** The walk *)
Lemma sum_blocks_nonneg l : Forall node_ok l → 0 ≤ sum_blocks l.
Proof. induction 1 as [|n l [? [? ?]] ? IH]; cbn; lia. Qed.

Lemma free_alloc_walk_spec n l r l' :
  0 ≤ n → Forall node_ok l → free_alloc_walk n l = Some (r, l') →
  ∃ l1 m l2,
    l = l1 ++ m :: l2 ∧ Forall (λ m, fn_blocks m < n) l1 ∧ n ≤ fn_blocks m ∧
    r = fn_start m + (fn_blocks m - n) ∧
    l' = l1 ++ FreeNode (fn_start m) (fn_blocks m - n) :: l2.
Proof.
  intros Hn Hok. revert r l'. induction Hok as [|m l [? [? ?]] Hok IH]; intros r l'; cbn; [done|].
  case_bool_decide.
  - intros [= <- <-]. exists [], m, l. rewrite (u32_small (_ - _)) by lia.
    rewrite u64_small by lia. repeat split; auto.
  - destruct (free_alloc_walk n l) as [[r1 l1']|] eqn:E; [|done]. intros [= <- <-].
    destruct (IH _ _ eq_refl) as (l1 & m' & l2 & -> & ? & ? & -> & ->).
    exists (m :: l1), m', l2. repeat split; auto. constructor; [lia|done].
Qed.

Lemma free_alloc_walk_none n l :
  free_alloc_walk n l = None ↔ Forall (λ m, fn_blocks m < n) l.
Proof.
  induction l as [|m l IH]; cbn; [by split|]. rewrite Forall_cons, <-IH.
  case_bool_decide; [naive_solver lia|].
  destruct (free_alloc_walk n l) as [[??]|]; naive_solver lia.
Qed.

(** What [spfs_free_alloc] computes on an unlocked list, in its three cases *)
Lemma spfs_free_alloc_eq n fl :
  fl_lock fl = false →
  spfs_free_alloc n fl =
    if bool_decide (n < fl_blocks fl) then
      match free_alloc_walk n (fl_root fl) with
      | Some (r, root) => Ok r (FreeList false (u32 (fl_blocks fl - n)) root)
      | None => Ok 0 fl
      end
    else Ok 0 fl.
Proof.
  destruct fl as [lock blocks root]. cbn. intros ->. unfold spfs_free_alloc.
  unfold mutex_lock, mutex_unlock. mrun. cbn.
  case_bool_decide; [|done]. by destruct (free_alloc_walk n root) as [[??]|].
Qed.

Lemma spfs_free_alloc_locked n fl :
  fl_lock fl = true → spfs_free_alloc n fl = Crash Deadlock.
Proof. intros H. unfold spfs_free_alloc, mutex_lock. mrun. cbn. by rewrite H. Qed.

Section carve.
Variables (l1 l2 : list spfs_free_node) (m : spfs_free_node) (n : Z).
Hypothesis (Hn : 0 ≤ n) (Hfit : n ≤ fn_blocks m).
Let l := l1 ++ m :: l2.
Let m' := FreeNode (fn_start m) (fn_blocks m - n).
Let l' := l1 ++ m' :: l2.

Lemma carve_nodes : Forall node_ok l → Forall node_ok l'.
Proof using Hn Hfit.
  unfold l, l'. rewrite !Forall_app, !Forall_cons. unfold node_ok, m'. cbn. naive_solver lia.
Qed.

Lemma carve_sum : sum_blocks l' = sum_blocks l - n.
Proof using.
  unfold l, l'. clear Hfit. induction l1 as [|x l3 IH]; cbn; [lia|]. cbn in IH. lia.
Qed.

Lemma carve_shrinks b : in_node b m' → in_node b m.
Proof using Hn. unfold in_node, m'. cbn. lia. Qed.

Lemma carve_disjoint : ForallOrdPairs nodes_disjoint l → ForallOrdPairs nodes_disjoint l'.
Proof using Hn.
  unfold l, l'. clear Hfit. induction l1 as [|x l3 IH]; cbn; intros H.
  - inversion H as [|? ? Hm H2]; subst. constructor; [|done].
    eapply Forall_impl; [exact Hm|]. intros y Hy b Hb. by apply Hy, carve_shrinks.
  - inversion H as [|? ? Hx H2]; subst. constructor; [|by apply IH].
    rewrite Forall_app, Forall_cons in *. destruct Hx as (? & Hxm & ?).
    repeat split; auto. intros b Hb Hb'. by apply (Hxm b), carve_shrinks.
Qed.

(** The blocks that leave the list are the last [n] of the node. *)
Lemma carve_free b :
  ForallOrdPairs nodes_disjoint l →
  Exists (in_node b) l' ↔
  Exists (in_node b) l ∧ ¬ (fn_start m + (fn_blocks m - n) ≤ b < fn_start m + fn_blocks m).
Proof using Hn Hfit.
  unfold l, l'. intros Hd.
  assert (Hdm : ∀ x, x ∈ l1 ++ l2 → in_node b x → ¬ in_node b m).
  { clear Hn Hfit. induction l1 as [|y l3 IH]; intros x Hx Hb Hb'; cbn in *.
    - inversion Hd as [|? ? Hm ?]; subst. rewrite Forall_forall in Hm. by apply (Hm x Hx b).
    - inversion Hd as [|? ? Hy Hd']; subst. apply elem_of_cons in Hx as [->|Hx].
      + rewrite Forall_app, Forall_cons in Hy. destruct Hy as (_ & Hy & _). by apply (Hy b).
      + by apply (IH Hd' x). }
  rewrite !Exists_app, !Exists_cons. unfold m'.
  assert (Hin : in_node b (FreeNode (fn_start m) (fn_blocks m - n)) ↔
    in_node b m ∧ ¬ (fn_start m + (fn_blocks m - n) ≤ b < fn_start m + fn_blocks m)).
  { unfold in_node. cbn. lia. }
  assert (Hout : Exists (in_node b) l1 ∨ Exists (in_node b) l2 → ¬ in_node b m).
  { intros [H|H]; apply Exists_exists in H as (x & ? & ?); apply (Hdm x); set_solver. }
  rewrite Hin. unfold in_node at 3 in Hout. unfold in_node at 3 4. naive_solver lia.
Qed.
End carve.

(** ** Allocation, in one lemma *)
Definition first_fit (n r : Z) (root : list spfs_free_node) : Prop :=
  ∃ l1 m l2, root = l1 ++ m :: l2 ∧ Forall (λ m, fn_blocks m < n) l1 ∧ n ≤ fn_blocks m ∧
             r = fn_start m + (fn_blocks m - n).

Definition alloc_fails (n : Z) (fl : spfs_free_list) : Prop :=
  fl_blocks fl ≤ n ∨ Forall (λ m, fn_blocks m < n) (fl_root fl).

Definition alloc_takes (n r : Z) (fl fl' : spfs_free_list) : Prop :=
  0 < r ∧ r + n < 2 ^ 32 ∧ n < fl_blocks fl ∧ fl_blocks fl' = fl_blocks fl - n ∧
  first_fit n r (fl_root fl) ∧
  (∀ b, r ≤ b < r + n → free_in b fl) ∧
  (∀ b, free_in b fl' ↔ free_in b fl ∧ ¬ (r ≤ b < r + n)).

Lemma alloc_cases n fl :
  fl_wf fl → fl_lock fl = false → 0 ≤ n →
  ∃ r fl', spfs_free_alloc n fl = Ok r fl' ∧ fl_wf fl' ∧ fl_lock fl' = false ∧
    ((r = 0 ∧ fl' = fl ∧ alloc_fails n fl) ∨ (alloc_takes n r fl fl' ∧ ¬ alloc_fails n fl)).
Proof.
  intros Hwf Hlock Hn0. rewrite spfs_free_alloc_eq by done.
  pose proof Hwf as [Hn Hd Hb Ht]. pose proof (sum_blocks_nonneg _ Hn).
  case_bool_decide as Hlt.
  2:{ exists 0, fl. repeat split; auto. left. repeat split; auto. left. lia. }
  destruct (free_alloc_walk n (fl_root fl)) as [[r root]|] eqn:E; cycle 1.
  { apply free_alloc_walk_none in E. exists 0, fl. repeat split; auto. left. repeat split; auto. by right. }
  destruct (free_alloc_walk_spec _ _ _ _ Hn0 Hn E)
    as (l1 & m & l2 & Hl & Hl1 & Hm & -> & ->).
  rewrite Hl in *. eexists _, _. split; [done|]. rewrite u32_small by lia.
  split; [split; cbn|split; [done|right; split]].
  - by apply carve_nodes.
  - by apply carve_disjoint.
  - rewrite carve_sum. lia.
  - rewrite carve_sum. lia.
  - assert (node_ok m) as (? & ? & ?).
    { rewrite Forall_app, Forall_cons in Hn. naive_solver. }
    unfold alloc_takes, free_in. cbn. rewrite Hl.
    split; [lia|]. split; [lia|]. split; [lia|]. split; [lia|].
    split; [by exists l1, m, l2|]. split.
    + intros b ?. rewrite Exists_app, Exists_cons. right. left. unfold in_node. lia.
    + intros b. rewrite carve_free by done.
      by replace (fn_start m + (fn_blocks m - n) + n) with (fn_start m + fn_blocks m) by lia.
  - unfold alloc_fails. rewrite Hl, Forall_app, Forall_cons. naive_solver lia.
Qed.

(** ** Reading one free-list block *)
Lemma spfs_read_entry_ok b p :
  0 ≤ p → p + 8 ≤ zlen b →
  spfs_read_entry (Cursor b p) =
    Ok (FreeNode (be_combine (sub p 4 b)) (be_combine (sub (p + 4) 4 b))) (Cursor b (p + 4 + 4)).
Proof. intros. unfold spfs_read_entry. codec_ok. codec_ok. done. Qed.

Lemma spfs_read_entry_short b p :
  p ≤ zlen b → zlen b < p + 8 → spfs_read_entry (Cursor b p) = Err 1 (Cursor b p).
Proof. intros. unfold spfs_read_entry. by codec_short. Qed.

Lemma spfs_read_header_eq b :
  16 ≤ zlen b →
  spfs_read_header (Cursor b 0) =
    if bool_decide (be_combine (sub 0 4 b) ≠ SPFS_MAGIC) then Err (-EINVAL) (Cursor b 12)
    else Ok (be_combine (sub 4 4 b), be_combine (sub 8 4 b)) (Cursor b 12).
Proof.
  intros. unfold spfs_read_header. do 3 codec_ok. by case_bool_decide.
Qed.

Lemma bufs_ref_unref {D} (s : bufs D) : Bufs (b_dev s) (b_refs s + 1 - 1) = s.
Proof. destruct s. cbn. f_equal. lia. Qed.

Section init_facts.
Context {D : Type} {B : BufferCache D}.
Variable kzalloc : nat → bool.
Hypothesis mem : ∀ k, kzalloc k = true.

Definition push_all (entries : list spfs_free_node) (fl : spfs_free_list) : spfs_free_list :=
  foldl (λ fl n, push_node n fl) fl entries.

Lemma push_all_eq entries fl :
  0 ≤ fl_blocks fl < 2 ^ 32 →
  push_all entries fl =
    FreeList (fl_lock fl) (u32 (fl_blocks fl + sum_blocks entries))
      (reverse entries ++ fl_root fl).
Proof using.
  unfold push_all. revert fl. induction entries as [|n l IH]; intros fl Hfl; cbn [foldl sum_blocks].
  - rewrite Z.add_0_r, u32_small by lia. by destruct fl.
  - rewrite IH by apply u32_range. cbn [push_node fl_lock fl_blocks fl_root].
    rewrite reverse_cons, <-app_assoc. f_equal.
    unfold u32. rewrite Z.add_mod_idemp_l by lia. f_equal. lia.
Qed.

Lemma free_init_entries_ok entries head b p (s : bufs D) fl :
  bc_data (b_dev s) head = Some b → 0 ≤ p → p + 8 * zlen entries ≤ zlen b →
  (∀ i n, entries !! i = Some n → entry_at b (p + 8 * Z.of_nat i) n) →
  free_init_entries kzalloc (length entries) head p (s, fl) = Ok tt (s, push_all entries fl).
Proof using mem.
  revert p fl. induction entries as [|n l IH]; intros p fl Hb Hp Hlen Hent; [done|].
  rewrite zlen_cons in Hlen. pose proof (zlen_nonneg l). cbn [length free_init_entries].
  destruct (Hent 0%nat n eq_refl) as [H1 H2]. rewrite Z.mul_0_r, Z.add_0_r in H1, H2.
  erewrite bind_ok by done. erewrite bind_ok; cycle 1.
  { unfold zoom. cbn. erewrite in_bh_ok; [done..|]. unfold spfs_init_free_list_entry.
    rewrite mem. mrun. cbn. by rewrite spfs_read_entry_ok by lia. }
  cbn. erewrite bind_ok by done. rewrite H1, H2. cbn.
  rewrite IH; [by destruct n| done | lia | lia |].
  intros i m Hi. destruct (Hent (S i) m Hi) as [H3 H4].
  split; [rewrite <-H3|rewrite <-H4]; do 2 f_equal; lia.
Qed.

Lemma free_init_chain_ok head entries k fuel (s : bufs D) fl :
  fl_chain (b_dev s) head entries k → (k < fuel)%nat →
  free_init_chain kzalloc fuel head (s, fl) = Ok tt (s, push_all entries fl).
Proof using mem.
  intros H. revert fuel fl. induction H as [|head b es next rest k Hne Hb Hblk _ IH];
    intros [|fuel] fl Hf; [lia|done|lia|]. cbn [free_init_chain]. decide_if by done.
  destruct Hblk as (Hmagic & Hcount & Hnext & Hlen & Hsz & Hent).
  erewrite bind_ok; [|unfold zoom; cbn; by erewrite sb_bread_ok]. cbn.
  erewrite bind_ok; cycle 1.
  { unfold zoom. cbn. erewrite in_bh_ok; [done..|]. rewrite spfs_read_header_eq by done.
    by decide_if by naive_solver. }
  cbn. rewrite Hcount, Hnext. unfold zlen at 1. rewrite Nat2Z.id.
  erewrite bind_ok by (eapply free_init_entries_ok; [done|lia..|done]).
  cbn. erewrite bind_ok by done. cbn. rewrite bufs_ref_unref, IH by lia.
  unfold push_all. by rewrite foldl_app.
Qed.

Lemma spfs_free_init_ok head entries k fuel (s : bufs D) fl :
  fl_chain (b_dev s) head entries k → (k < fuel)%nat →
  spfs_free_init kzalloc fuel head (s, fl) =
    Ok tt (s, FreeList false (u32 (sum_blocks entries)) (reverse entries)).
Proof using mem.
  intros Hc Hf. unfold spfs_free_init. erewrite bind_ok by done. cbn.
  rewrite (free_init_chain_ok head entries k) by done.
  rewrite push_all_eq by done. cbn. by rewrite app_nil_r.
Qed.
End init_facts.

(** ** Runs of allocations *)
Definition range_of (a : Z * Z) (b : Z) : Prop := a.1 ≠ 0 ∧ a.1 ≤ b < a.1 + a.2.
Definition taken (rs : list (Z * Z)) : Z :=
  foldr (λ a s, (if bool_decide (a.1 = 0) then 0 else a.2) + s) 0 rs.

Lemma alloc_run_facts fl rs fl' :
  alloc_run fl rs fl' → fl_wf fl → fl_lock fl = false →
  fl_wf fl' ∧ fl_lock fl' = false ∧ fl_blocks fl' = fl_blocks fl - taken rs ∧
  (∀ b, free_in b fl' → free_in b fl) ∧
  Forall (λ a, ∀ b, range_of a b → free_in b fl ∧ ¬ free_in b fl') rs ∧
  ForallOrdPairs (λ a a', ∀ b, range_of a b → ¬ range_of a' b) rs.
Proof.
  induction 1 as [fl|fl n r fl1 rs fl2 Hn Halloc Hrun IH]; intros Hwf Hlock.
  { split_and!; auto; try constructor. unfold taken. cbn. lia. }
  destruct (alloc_cases n fl Hwf Hlock Hn) as (r' & fl1' & E & Hwf1 & Hlock1 & Hcase).
  rewrite Halloc in E. injection E as <- <-.
  destruct (IH Hwf1 Hlock1) as (Hwf2 & Hlock2 & Hb & Hsub & Hrs & Hdisj). unfold taken.
  cbn [foldr fst snd]. fold (taken rs).
  destruct Hcase as [(-> & -> & _)|[(? & ? & ? & Hb1 & _ & Hold & Hnew) _]].
  - split_and!; auto; constructor; auto.
    + intros b [? ?]. cbn in *. lia.
    + rewrite Forall_forall in *. intros a _ b [? ?]. cbn in *. lia.
  - decide_if. split_and!; auto.
    + lia.
    + intros b Hb2. by apply Hnew, Hsub.
    + constructor.
      * intros b [_ ?]. cbn in *. split; [by apply Hold|]. intros Hc.
        apply Hsub, Hnew in Hc. naive_solver.
      * eapply Forall_impl; [exact Hrs|]. intros a Ha b Hr. destruct (Ha b Hr). split; [|done].
        by apply Hnew.
    + constructor; [|done]. rewrite Forall_forall in *. intros a Ha b [_ Hr] Hr'. cbn in *.
      destruct (Hrs a Ha b Hr') as [Hf _]. apply Hnew in Hf. naive_solver.
Qed.

Lemma free_init_cycle {D} {B : BufferCache D} kzalloc head b entries fuel (s : bufs D) fl :
  (∀ k, kzalloc k = true) → head ≠ 0 →
  bc_data (b_dev s) head = Some b → fl_block b entries head →
  free_init_chain kzalloc fuel head (s, fl) = Crash NoFuel.
Proof.
  intros mem Hne Hb Hblk. revert fl. induction fuel as [|fuel IH]; intros fl; [done|].
  destruct Hblk as (Hmagic & Hcount & Hnext & Hlen & Hsz & Hent).
  cbn [free_init_chain]. decide_if by done.
  erewrite bind_ok; [|unfold zoom; cbn; by erewrite sb_bread_ok]. cbn.
  erewrite bind_ok; cycle 1.
  { unfold zoom. cbn. erewrite in_bh_ok; [done..|]. rewrite spfs_read_header_eq by done.
    by decide_if by naive_solver. }
  cbn. rewrite Hcount, Hnext. unfold zlen at 1. rewrite Nat2Z.id.
  erewrite bind_ok by (eapply free_init_entries_ok; [done|done|lia..|done]).
  cbn. erewrite bind_ok by done. cbn. by rewrite bufs_ref_unref, IH.
Qed.

(** ** Properties *)
(** C1: an allocation that returns a block number takes its blocks out of the free
    set: they were all free, exactly they stop being free, they lie at the end of
    the first node that is large enough, within the 32-bit block numbers and away
    from block 0, and the free count drops by their number. *)
Theorem alloc_sound fl n r fl' :
  fl_wf fl → fl_lock fl = false → 0 ≤ n →
  spfs_free_alloc n fl = Ok r fl' → r ≠ 0 → alloc_takes n r fl fl' ∧ fl_wf fl'.
Proof.
  intros Hwf Hlock Hn E Hr.
  destruct (alloc_cases n fl Hwf Hlock Hn) as (? & ? & E' & ? & _ & Hcase).
  rewrite E in E'. injection E' as <- <-. naive_solver.
Qed.

(** C26: an allocation always returns; it reports failure (0, with the list
    unchanged) exactly when the request is not below the number of free blocks or
    exceeds every node. *)
Theorem alloc_total fl n :
  fl_wf fl → fl_lock fl = false → 0 ≤ n →
  ∃ r fl', spfs_free_alloc n fl = Ok r fl' ∧
    (r = 0 ↔ alloc_fails n fl) ∧ (r = 0 → fl' = fl) ∧ fl_lock fl' = false.
Proof.
  intros Hwf Hlock Hn.
  destruct (alloc_cases n fl Hwf Hlock Hn) as (r & fl' & E & _ & ? & Hcase).
  exists r, fl'. split; [done|]. unfold alloc_takes in Hcase. naive_solver lia.
Qed.

(** Over any run of allocations the extents handed out are pairwise disjoint,
    were all free at the start and are no longer free at the end, and the list
    stays well formed with its count lowered by what was taken. *)
Theorem alloc_run_disjoint fl rs fl' :
  fl_wf fl → fl_lock fl = false → alloc_run fl rs fl' →
  ForallOrdPairs (λ a a', ∀ b, range_of a b → ¬ range_of a' b) rs ∧
  Forall (λ a, ∀ b, range_of a b → free_in b fl ∧ ¬ free_in b fl') rs ∧
  fl_wf fl' ∧ fl_blocks fl' = fl_blocks fl - taken rs.
Proof. intros Hwf Hlock Hrun. pose proof (alloc_run_facts _ _ _ Hrun Hwf Hlock). tauto. Qed.

(** C25: mounting reads the whole chain of free-list blocks: the in-memory list holds
    the entries of all blocks, the last one first, with the number of their blocks
    modulo 2^32; every buffer is released and the device is as before. *)
Theorem free_init_reads_chain {D} {B : BufferCache D} kzalloc head entries k fuel (s : bufs D) fl :
  (∀ i, kzalloc i = true) → fl_chain (b_dev s) head entries k → (k < fuel)%nat →
  spfs_free_init kzalloc fuel head (s, fl) =
    Ok tt (s, FreeList false (u32 (sum_blocks entries)) (reverse entries)).
Proof.
  intros mem. by apply spfs_free_init_ok.
Qed.

(** A free-list block that names itself as the next one makes the mount loop
    for ever: no number of rounds is enough. *)
Theorem free_init_diverges {D} {B : BufferCache D} kzalloc head b entries fuel (s : bufs D) fl :
  (∀ i, kzalloc i = true) → head ≠ 0 →
  bc_data (b_dev s) head = Some b → fl_block b entries head →
  spfs_free_init kzalloc fuel head (s, fl) = Crash NoFuel.
Proof.
  intros. unfold spfs_free_init. erewrite bind_ok by done. by eapply free_init_cycle.
Qed.

(** ** Witnesses *)
Definition example_fl : spfs_free_list := FreeList false 30 [FreeNode 50 10; FreeNode 2 20].

Lemma example_fl_wf : fl_wf example_fl.
Proof.
  split; cbn; [repeat constructor; cbn; lia| |done|lia].
  repeat constructor. unfold nodes_disjoint, in_node. cbn. lia.
Qed.

Lemma alloc_sound_witness :
  alloc_takes 12 10 example_fl (FreeList false 18 [FreeNode 50 10; FreeNode 2 8]) ∧
  fl_wf (FreeList false 18 [FreeNode 50 10; FreeNode 2 8]).
Proof. apply (alloc_sound example_fl 12 10); [apply example_fl_wf|done..]. Defined.

Lemma alloc_total_witness :
  ∃ r fl', spfs_free_alloc 21 example_fl = Ok r fl' ∧
    (r = 0 ↔ alloc_fails 21 example_fl) ∧ (r = 0 → fl' = example_fl) ∧ fl_lock fl' = false.
Proof. apply (alloc_total example_fl 21); [apply example_fl_wf|done..]. Defined.

Lemma example_run :
  alloc_run example_fl [(52, 8); (19, 3); (0, 40)]
    (FreeList false 19 [FreeNode 50 2; FreeNode 2 17]).
Proof.
  repeat (eapply alloc_run_cons; [lia|vm_compute; reflexivity|]). constructor.
Qed.

Lemma alloc_run_disjoint_witness :
  ForallOrdPairs (λ a a', ∀ b, range_of a b → ¬ range_of a' b) [(52, 8); (19, 3); (0, 40)] ∧
  Forall (λ a, ∀ b, range_of a b →
            free_in b example_fl ∧ ¬ free_in b (FreeList false 19 [FreeNode 50 2; FreeNode 2 17]))
    [(52, 8); (19, 3); (0, 40)] ∧
  fl_wf (FreeList false 19 [FreeNode 50 2; FreeNode 2 17]) ∧
  19 = 30 - taken [(52, 8); (19, 3); (0, 40)].
Proof.
  apply (alloc_run_disjoint example_fl); [apply example_fl_wf|done|apply example_run].
Defined.

(** Two free-list blocks, 1 and 9, with two entries and one; block 5 names itself. *)
Definition fl_bytes (entries : list spfs_free_node) (next : Z) : list byte :=
  let raw := be_split 4 SPFS_MAGIC ++ be_split 4 (zlen entries) ++ be_split 4 next ++
             concat ((λ n, be_split 4 (fn_start n) ++ be_split 4 (fn_blocks n)) <$> entries) in
  raw ++ zeros (64 - zlen raw).

Definition example_dev : memdev :=
  MemDev 64
    {[ 1 := fl_bytes [FreeNode 2 6; FreeNode 20 4] 9; 9 := fl_bytes [FreeNode 40 1] 0;
       5 := fl_bytes [FreeNode 7 1] 5 ]} ∅.

Lemma free_init_reads_chain_witness :
  spfs_free_init (λ _, true) 3 1 (Bufs example_dev 0, example_fl) =
    Ok tt (Bufs example_dev 0, FreeList false 11 [FreeNode 40 1; FreeNode 20 4; FreeNode 2 6]).
Proof.
  apply (free_init_reads_chain (λ _, true) 1 ([FreeNode 2 6; FreeNode 20 4] ++ [FreeNode 40 1] ++ []) 2).
  - done.
  - eapply (fl_chain_block _ 1 _ _ 9); [done|vm_compute; reflexivity| |].
    2: eapply (fl_chain_block _ 9 _ _ 0); [done|vm_compute; reflexivity| |constructor].
    all: split_and!; try (vm_compute; (reflexivity || congruence)).
    all: intros [|[|i]] n; try discriminate; intros [= <-]; vm_compute; done.
  - lia.
Defined.

Lemma free_init_diverges_witness :
  spfs_free_init (λ _, true) 100 5 (Bufs example_dev 0, example_fl) = Crash NoFuel.
Proof.
  eapply (free_init_diverges _ 5 _ [FreeNode 7 1]); [done|done|vm_compute; reflexivity|].
  split_and!; try (vm_compute; (reflexivity || congruence)).
  intros [|i] n; try discriminate; intros [= <-]; vm_compute; done.
Defined.
