(* ===== verification/AllocSpec.v ===== *)
(** * The allocator as a set of blocks

    The specification of free_list.c: a set of free blocks, from which an allocation takes
    a run of blocks that are all free, or nothing.  [free_blocks] abstracts the list of
    nodes to that set; every run of [spfs_free_alloc] is one of the specification, and
    the counter the code keeps is the size of the set. *)
From S2P Require Import Prelude FreeList.

Definition block_range (r n : Z) : gset Z := list_to_set (seqZ r n).

(** The specification *)
Inductive spec_alloc (n : Z) (free : gset Z) : Z → gset Z → Prop :=
| spec_alloc_none : spec_alloc n free 0 free
| spec_alloc_some r : r ≠ 0 → block_range r n ⊆ free → spec_alloc n free r (free ∖ block_range r n).

Inductive spec_run : gset Z → list (Z * Z) → gset Z → Prop :=
| spec_run_nil free : spec_run free [] free
| spec_run_cons free n r free1 rs free2 :
    spec_alloc n free r free1 → spec_run free1 rs free2 → spec_run free ((r, n) :: rs) free2.

(** The abstraction *)
Definition node_range (m : spfs_free_node) : gset Z := block_range (fn_start m) (fn_blocks m).
Definition free_blocks (fl : spfs_free_list) : gset Z := ⋃ (node_range <$> fl_root fl).

Lemma elem_of_block_range r n b : b ∈ block_range r n ↔ r ≤ b < r + n.
Proof. unfold block_range. rewrite elem_of_list_to_set. apply elem_of_seqZ. Qed.

Lemma size_block_range r n : 0 ≤ n → Z.of_nat (size (block_range r n)) = n.
Proof.
  intros. unfold block_range. rewrite size_list_to_set by apply NoDup_seqZ.
  rewrite length_seqZ. lia.
Qed.

Lemma elem_of_free_blocks fl b : b ∈ free_blocks fl ↔ free_in b fl.
Proof.
  unfold free_blocks, free_in. rewrite elem_of_union_list, Exists_exists. split.
  - intros (X & (m & -> & Hm)%list_elem_of_fmap & Hb). exists m. split; [done|].
    by apply elem_of_block_range in Hb.
  - intros (m & Hm & Hb). exists (node_range m). split; [by apply list_elem_of_fmap_2|].
    by apply elem_of_block_range.
Qed.

(** The invariant of the list, of the counter and of the lock *)
Definition refines (fl : spfs_free_list) (free : gset Z) : Prop :=
  fl_wf fl ∧ fl_lock fl = false ∧ free = free_blocks fl.

Lemma union_disjoint_nodes m l :
  ForallOrdPairs nodes_disjoint (m :: l) → node_range m ## ⋃ (node_range <$> l).
Proof.
  inversion 1 as [|? ? Hm Hl]; subst. intros b Hb (X & (m' & -> & Hm')%list_elem_of_fmap & Hb')%elem_of_union_list.
  rewrite Forall_forall in Hm. apply elem_of_block_range in Hb, Hb'. by apply (Hm m' Hm' b).
Qed.

Lemma size_free_blocks fl : fl_wf fl → Z.of_nat (size (free_blocks fl)) = fl_blocks fl.
Proof.
  intros [Hok Hdis -> _]. unfold free_blocks. induction (fl_root fl) as [|m l IH]; [done|].
  pose proof (union_disjoint_nodes _ _ Hdis) as Hd. apply Forall_cons in Hok as [(_ & Hm & _) Hok].
  inversion Hdis; subst. cbn [fmap list_fmap union_list foldr sum_blocks] in *.
  rewrite size_union, Nat2Z.inj_add, IH by done. unfold node_range at 1. by rewrite size_block_range.
Qed.

(** One allocation: the simulation diagram *)
Lemma alloc_simulates fl free n r fl' :
  refines fl free → 0 ≤ n → spfs_free_alloc n fl = Ok r fl' →
  ∃ free', spec_alloc n free r free' ∧ refines fl' free'.
Proof.
  intros (Hwf & Hlock & ->) Hn E.
  destruct (alloc_cases n fl Hwf Hlock Hn) as (r' & fl1 & E' & Hwf1 & Hlock1 & Hcase).
  rewrite E in E'. injection E' as <- <-. exists (free_blocks fl'). split; [|done].
  destruct Hcase as [(-> & -> & _)|[(Hr & _ & _ & _ & _ & Hold & Hnew) _]]; [constructor|].
  assert (free_blocks fl' = free_blocks fl ∖ block_range r n) as ->.
  { apply set_eq. intros b. rewrite elem_of_difference, elem_of_block_range, !elem_of_free_blocks. apply Hnew. }
  apply spec_alloc_some; [lia|]. intros b Hb%elem_of_block_range. by apply elem_of_free_blocks, Hold.
Qed.

Lemma run_simulates fl rs fl' :
  alloc_run fl rs fl' → ∀ free, refines fl free → ∃ free', spec_run free rs free' ∧ refines fl' free'.
Proof.
  induction 1 as [fl|fl n r fl1 rs fl2 Hn E Hrun IH]; intros free HR.
  - exists free. split; [constructor|done].
  - destruct (alloc_simulates fl free n r fl1 HR Hn E) as (free1 & Hs & HR1).
    destruct (IH free1 HR1) as (free2 & Hs2 & HR2). exists free2. split; [by econstructor|done].
Qed.

(** C3: the allocator refines its specification: in every run of allocations, each takes
    a run of blocks that are all free out of the set of free blocks, or takes nothing and
    answers 0; and after every run the counter of the list is the number of free blocks. *)
Theorem alloc_refines fl rs fl' :
  fl_wf fl → fl_lock fl = false → alloc_run fl rs fl' →
  spec_run (free_blocks fl) rs (free_blocks fl') ∧
  fl_blocks fl' = Z.of_nat (size (free_blocks fl')).
Proof.
  intros Hwf Hlock Hrun. destruct (run_simulates _ _ _ Hrun (free_blocks fl)) as (free' & Hs & Hwf' & _ & ->);
    [done|]. split; [done|]. by rewrite size_free_blocks.
Qed.

(** ** Draining the list *)
Fixpoint alloc_times (k : nat) : M spfs_free_list (list Z) :=
  match k with
  | O => mret []
  | S k => r ← spfs_free_alloc 1; rs ← alloc_times k; mret (r :: rs)
  end.

Lemma alloc_one fl :
  fl_wf fl → fl_lock fl = false → 1 < fl_blocks fl →
  ∃ r fl', spfs_free_alloc 1 fl = Ok r fl' ∧ fl_wf fl' ∧ fl_lock fl' = false ∧
    fl_blocks fl' = fl_blocks fl - 1 ∧ r ≠ 0 ∧ r ∈ free_blocks fl ∧
    ∀ b, b ∈ free_blocks fl' ↔ b ∈ free_blocks fl ∧ b ≠ r.
Proof.
  intros Hwf Hlock Hb. destruct (alloc_cases 1 fl Hwf Hlock) as (r & fl' & E & Hwf' & Hlock' & Hcase); [done|].
  destruct Hcase as [(_ & _ & [Hf|Hf])|[(? & ? & _ & ? & _ & Hold & Hnew) _]]; [lia| |].
  - destruct Hwf as [Hok _ Hsum _]. exfalso.
    assert (sum_blocks (fl_root fl) = 0); [|lia]. clear -Hok Hf.
    induction Hok as [|m l (_ & ? & _) _ IH]; [done|].
    apply Forall_cons in Hf as [? Hf]. cbn. rewrite IH by done. lia.
  - exists r, fl'. repeat setoid_rewrite elem_of_free_blocks. split_and!; try done; [lia|apply Hold; lia|].
    intros b. rewrite Hnew. apply and_iff_compat_l. lia.
Qed.

(** Free blocks are not lost: as long as more than one block is free, a request for
    a block is served.  From [n] free blocks, the first [n - 1] requests get different
    blocks, all of them free before, and only then every request is refused: the last
    block is never given out. *)
Theorem alloc_drains fl k :
  fl_wf fl → fl_lock fl = false → Z.of_nat k < fl_blocks fl →
  ∃ rs fl', alloc_times k fl = Ok rs fl' ∧ length rs = k ∧ NoDup rs ∧
    Forall (λ r, r ≠ 0 ∧ r ∈ free_blocks fl) rs ∧ fl_blocks fl' = fl_blocks fl - Z.of_nat k ∧
    (fl_blocks fl' = 1 → ∀ n, 1 ≤ n → spfs_free_alloc n fl' = Ok 0 fl').
Proof.
  revert fl. induction k as [|k IH]; intros fl Hwf Hlock Hk.
  - exists [], fl. split_and!; [done|done|constructor|constructor|lia|]. intros H1 n Hn.
    rewrite spfs_free_alloc_eq by done. by decide_if.
  - destruct (alloc_one fl) as (r & fl1 & E & Hwf1 & Hlock1 & Hb1 & Hr & Hold & Hnew); [done|done|lia|].
    destruct (IH fl1) as (rs & fl2 & E2 & Hlen & Hnd & Hfree & Hb2 & Hend); [done|done|lia|].
    exists (r :: rs), fl2. split_and!; try done.
    + cbn [alloc_times]. by rewrite (bind_ok _ _ _ _ _ E), (bind_ok _ _ _ _ _ E2).
    + cbn. lia.
    + apply NoDup_cons. split; [|done]. rewrite Forall_forall in Hfree.
      by intros [_ [_ ?]%Hnew]%Hfree.
    + apply Forall_cons. split; [done|]. eapply Forall_impl; [exact Hfree|].
      intros b [? [? _]%Hnew]. done.
    + lia.
Qed.

(** ** A concrete run *)
Lemma alloc_refines_witness :
  ∃ rs fl', alloc_run example_fl rs fl' ∧ spec_run (free_blocks example_fl) rs (free_blocks fl').
Proof.
  eexists _, _. split; [apply example_run|].
  apply (alloc_refines example_fl); [apply example_fl_wf|done|apply example_run].
Defined.

Lemma alloc_drains_witness :
  ∃ rs fl', alloc_times 29 example_fl = Ok rs fl' ∧ length rs = 29%nat ∧ spfs_free_alloc 1 fl' = Ok 0 fl'.
Proof.
  destruct (alloc_drains example_fl 29) as (rs & fl' & E & Hlen & _ & _ & Hb & Hend);
    [apply example_fl_wf|done|by vm_compute|].
  exists rs, fl'. split; [exact E|]. split; [exact Hlen|]. apply Hend; [by rewrite Hb|done].
Defined.
