(* ===== verification/Threads.v ===== *)
(** * Threads around a mutex

    The other files run one operation at a time.  Here threads run the same critical
    section in any interleaving of their single steps.  A component gives the program
    counters of its section, the steps of a thread, and an invariant that relates the
    shared state inside the section to the one in which the mutex was taken; it gets
    back that every interleaving amounts to the operations done one after the other, in
    the order in which the mutex was released, and that no thread waits for ever. *)
From S2P Require Import Prelude.

(** What a component with one critical section promises *)
Class CriticalSection {S P : Type} (locked : S → bool) (inside final : P → bool)
    (thread_step : S → P → S → P → Prop) (inv : S → S → P → Prop) (op : S → P → S → Prop) := {
  cs_final_out p : final p = true → inside p = false;
  cs_final_ends s p s' p' : thread_step s p s' p' → final p = false;
  (** Outside, a thread can only take the mutex, which has to be free. *)
  cs_enter s p s' p' : thread_step s p s' p' → inside p = false →
    inside p' = true ∧ locked s = false ∧ locked s' = true ∧ inv s s' p';
  cs_stay b s p s' p' : thread_step s p s' p' → inside p = true → inside p' = true →
    locked s = true → inv b s p → locked s' = true ∧ inv b s' p';
  (** The operation is done when the mutex is released. *)
  cs_leave b s p s' p' : thread_step s p s' p' → inside p = true → inside p' = false →
    inv b s p → locked s' = false ∧ final p' = true ∧ op b p' s';
  (** Nothing but the mutex stops a thread. *)
  cs_can_enter s p : inside p = false → final p = false → locked s = false →
    ∃ s' p', thread_step s p s' p';
  cs_can_go_on b s p : inside p = true → inv b s p → ∃ s' p', thread_step s p s' p';
}.

Section threads.
Context {S P : Type} {locked : S → bool} {inside final : P → bool}
  {thread_step : S → P → S → P → Prop} {inv : S → S → P → Prop} {op : S → P → S → Prop}
  {CS : CriticalSection locked inside final thread_step inv op}.
Implicit Types (s : S) (p : P) (ts : list P).

(** One thread makes one step. *)
Inductive machine_step : relation (S * list P) :=
| machine_thread s ts t p s' p' :
    ts !! t = Some p → thread_step s p s' p' → machine_step (s, ts) (s', <[t := p']> ts).

(** Operations one after the other, each with the program counter it ends in *)
Inductive op_run : S → list P → S → Prop :=
| op_run_nil s : op_run s [] s
| op_run_cons s p s1 ps s2 : op s p s1 → op_run s1 ps s2 → op_run s (p :: ps) s2.

Lemma op_run_snoc s ps s1 p s2 : op_run s ps s1 → op s1 p s2 → op_run s (ps ++ [p]) s2.
Proof using. induction 1; intros; cbn; repeat (done || econstructor); auto. Qed.

Definition finished ts : list P := filter (λ p, final p = true) ts.

(** The mutex is free and nobody is inside, or one thread is, and the shared state is what
    its section has made of the one it started in. *)
Definition excludes (b s : S) ts : Prop :=
  (locked s = false ∧ s = b ∧ Forall (λ p, inside p = false) ts) ∨
  (locked s = true ∧ ∃ t p, ts !! t = Some p ∧ inside p = true ∧ inv b s p ∧
     ∀ t' p', ts !! t' = Some p' → t' ≠ t → inside p' = false).

Definition machine_ok (s0 : S) (c : S * list P) : Prop :=
  ∃ b ps, op_run s0 ps b ∧ ps ≡ₚ finished c.2 ∧ excludes b c.1 c.2.

Lemma finished_insert ts t p p' :
  ts !! t = Some p → final p = false →
  finished (<[t := p']> ts) ≡ₚ (if final p' then [p'] else []) ++ finished ts.
Proof using.
  intros Ht Hf. unfold finished. rewrite insert_take_drop by (by eapply lookup_lt_Some).
  rewrite <-(take_drop_middle ts t p Ht) at 3. rewrite !filter_app, !filter_cons.
  rewrite (decide_False (P := final p = true)) by congruence. destruct (final p') eqn:E.
  - rewrite decide_True by done. cbn [app]. symmetry. apply Permutation_middle.
  - by rewrite decide_False.
Qed.

Lemma machine_step_ok s0 c c' : machine_step c c' → machine_ok s0 c → machine_ok s0 c'.
Proof using CS.
  destruct 1 as [s ts t p s' p' Ht Hstep]. intros (b & ps & Hrun & Hps & Hex).
  unfold machine_ok. cbn [fst snd] in *. pose proof (cs_final_ends _ _ _ _ Hstep) as Hf.
  assert (final p' = false → ps ≡ₚ finished (<[t:=p']> ts)) as Hsame.
  { intros Hf'. rewrite (finished_insert _ _ _ _ Ht Hf), Hf'. done. }
  assert (inside p' = true → final p' = false) as Hin.
  { intros Hi. destruct (final p') eqn:E; [|done]. apply cs_final_out in E. congruence. }
  pose proof (lookup_lt_Some _ _ _ Ht) as Hlt.
  destruct Hex as [(Hl & -> & Hall)|(Hl & t1 & p1 & Ht1 & Hp1 & Hinv & Hoth)].
  - pose proof (Forall_lookup_1 _ _ _ _ Hall Ht) as Hp. destruct (cs_enter _ _ _ _ Hstep Hp) as (Hp' & _ & Hl' & Hinv).
    exists b, ps. split_and!; [done|by auto|]. right. split; [done|]. exists t, p'. split_and!; [|done..|].
    + by apply list_lookup_insert_eq.
    + intros t' q Hq Ht'. rewrite list_lookup_insert_ne in Hq by done. by eapply Forall_lookup_1 in Hall.
  - destruct (decide (t = t1)) as [->|Hne].
    2:{ pose proof (Hoth _ _ Ht Hne) as Hp. destruct (cs_enter _ _ _ _ Hstep Hp) as (_ & ? & _). congruence. }
    rewrite Ht in Ht1. injection Ht1 as <-. destruct (inside p') eqn:Hp'.
    + destruct (cs_stay _ _ _ _ _ Hstep Hp1 Hp' Hl Hinv) as [Hl' Hinv'].
      exists b, ps. split_and!; [done|by auto|]. right. split; [done|]. exists t1, p'. split_and!; [|done..|].
      * by apply list_lookup_insert_eq.
      * intros t' q Hq Ht'. rewrite list_lookup_insert_ne in Hq by done. by eapply Hoth.
    + destruct (cs_leave _ _ _ _ _ Hstep Hp1 Hp' Hinv) as (Hl' & Hf' & Hop).
      exists s', (ps ++ [p']). split_and!; [by eapply op_run_snoc| |].
      * rewrite (finished_insert _ _ _ _ Ht Hf), Hf', Hps. apply Permutation_app_comm.
      * left. split_and!; [done..|]. apply Forall_lookup_2. intros t' q Hq.
        apply list_lookup_insert_Some in Hq as [(-> & <- & _)|(Ht' & Hq)]; [done|]. by eapply Hoth.
Qed.

(** What no step of a thread changes is as it was at the start. *)
Lemma machine_kept {A} (f : P → A) c c' :
  (∀ s p s' p', thread_step s p s' p' → f p' = f p) → rtc machine_step c c' → f <$> c'.2 = f <$> c.2.
Proof using.
  intros Hf. induction 1 as [|c c1 c2 [s ts t p s' p' Ht Hs] _ ->]; [done|]. cbn [snd].
  rewrite list_fmap_insert, (Hf _ _ _ _ Hs). apply list_insert_id. by rewrite list_lookup_fmap, Ht.
Qed.

(** Every interleaving amounts to the finished operations in some order. *)
Lemma machine_atomic s0 ts0 s ts :
  locked s0 = false → Forall (λ p, inside p = false ∧ final p = false) ts0 →
  rtc machine_step (s0, ts0) (s, ts) → machine_ok s0 (s, ts).
Proof using CS.
  intros Hl Hts Hrun. assert (machine_ok s0 (s0, ts0)) as H0.
  { exists s0, []. split_and!; [constructor| |left; split_and!; [done..|]]; cbn [snd].
    - unfold finished. clear Hrun. induction Hts as [|p l [_ Hp] _ IH]; [done|]. rewrite filter_cons, decide_False by congruence. done.
    - by eapply Forall_impl; [exact Hts|intros p []]. }
  remember (s0, ts0) as c eqn:Hc. clear Hc. remember (s, ts) as c' eqn:Hc. clear Hc.
  induction Hrun as [|c c1 c' Hstep _ IH]; [done|]. by apply IH, (machine_step_ok s0 c).
Qed.

(** As long as a thread has not finished, one can make a step. *)
Lemma machine_progress s0 s ts :
  machine_ok s0 (s, ts) → Forall (λ p, final p = true) ts ∨ ∃ c, machine_step (s, ts) c.
Proof using CS.
  intros (b & ps & _ & _ & Hex). cbn [fst snd] in Hex.
  destruct Hex as [(Hl & -> & Hall)|(Hl & t & p & Ht & Hp & Hinv & _)].
  - destruct (decide (Forall (λ p, final p = true) ts)) as [|Hn]; [by left|right].
    apply not_Forall_Exists, Exists_exists in Hn; [|solve_decision]. destruct Hn as (p & [t Ht]%list_elem_of_lookup & Hf).
    apply not_true_is_false in Hf. destruct (cs_can_enter b p) as (s' & p' & Hstep); [|done..|].
    + by eapply Forall_lookup_1 in Hall.
    + eexists. by econstructor.
  - right. destruct (cs_can_go_on b s p Hp Hinv) as (s' & p' & Hstep). eexists. by econstructor.
Qed.

(** Runs are bounded when every thread comes closer to its end. *)
Section bounded.
Variables (size : S → nat) (left : nat → P → nat).
Hypothesis size_kept : ∀ s p s' p', thread_step s p s' p' → size s' = size s.
Hypothesis left_less : ∀ s p s' p', thread_step s p s' p' → (left (size s) p' < left (size s) p)%nat.

Lemma machine_bounded k c c' :
  nsteps machine_step k c c' →
  (k + sum_list_with (left (size c.1)) c'.2 ≤ sum_list_with (left (size c.1)) c.2)%nat ∧ size c'.1 = size c.1.
Proof using size_kept left_less.
  induction 1 as [c|k c c1 c2 Hstep _ [IH IHs]]; [by split|].
  destruct Hstep as [s ts t p s' p' Ht Hstep]. cbn [fst snd] in *.
  rewrite (size_kept _ _ _ _ Hstep) in IH, IHs. split; [|done].
  pose proof (left_less _ _ _ _ Hstep) as Hlt. revert IH.
  rewrite insert_take_drop by (by eapply lookup_lt_Some).
  rewrite <-(take_drop_middle ts t p Ht) at 3. rewrite !sum_list_with_app. cbn. lia.
Qed.
End bounded.
End threads.
Arguments machine_step {S P} thread_step.
Arguments op_run {S P} op.
Arguments finished {P} final.

(** Running a schedule, a list of threads, when the steps of a thread are a function *)
Section schedule.
Context {S P : Type} (step : S → P → option (S * P)).

Fixpoint schedule (turns : list nat) (c : S * list P) : option (S * list P) :=
  match turns with
  | [] => Some c
  | t :: turns =>
      p ← c.2 !! t;
      '(s', p') ← step c.1 p;
      schedule turns (s', <[t := p']> c.2)
  end.

Lemma schedule_steps turns : ∀ c c',
  schedule turns c = Some c' →
  nsteps (machine_step (λ s p s' p', step s p = Some (s', p'))) (length turns) c c'.
Proof using.
  induction turns as [|t turns IH]; intros [s ts] c'; cbn [schedule fst snd length].
  { intros [= <-]. constructor. }
  destruct (ts !! t) as [p|] eqn:Ht; [|done]. cbn. destruct (step s p) as [[s' p']|] eqn:Hp; [|done]. cbn.
  intros H. econstructor; [by econstructor|by apply IH].
Qed.
End schedule.
