(* ===== verification/Inode.v ===== *)
(** * shared.h, and the inode records of btree.c

    [spfs_inode] is [struct spfs_inode]: the fields of the embedded [struct inode]
    the driver touches, and its own.  [spfs_inode_make] and [spfs_inode_parse] are the
    record's representation on disk.  Uids and gids are the numbers
    [i_uid_read]/[i_gid_read] give; times are the [tv_sec] fields. *)
From S2P Require Import Prelude Util.

Definition SPOOKY_FS_NAME_MAX : Z := 256.

Record inode := Inode {
  i_ino : Z;
  i_mode : Z;
  i_uid : Z;
  i_gid : Z;
  i_atime : Z;
  i_mtime : Z;
  i_ctime : Z;
  i_size : Z;
  i_nlink : Z;
}.

Record spfs_inode := SpfsInode {
  i_inode : inode;
  si_lock : bool;
  si_capacity : Z;
  si_start : Z;
  si_name : list byte;
}.

(** <linux/stat.h> *)
Definition S_ISREG (mode : Z) : bool := bool_decide (Z.land mode 0xF000 = 0x8000).

Definition S_ISDIR (mode : Z) : bool := bool_decide (Z.land mode 0xF000 = 0x4000).

(** ** Updates of single fields *)
Definition set_lock (b : bool) (i : spfs_inode) : spfs_inode :=
  SpfsInode (i_inode i) b (si_capacity i) (si_start i) (si_name i).
Definition set_extent (start capacity : Z) (i : spfs_inode) : spfs_inode :=
  SpfsInode (i_inode i) (si_lock i) capacity start (si_name i).

(** [i_size_write] *)
Definition set_size (size : Z) (i : spfs_inode) : spfs_inode :=
  let n := i_inode i in
  SpfsInode
    (Inode (i_ino n) (i_mode n) (i_uid n) (i_gid n) (i_atime n) (i_mtime n) (i_ctime n) size
       (i_nlink n))
    (si_lock i) (si_capacity i) (si_start i) (si_name i).

Definition set_inode (n : inode) (i : spfs_inode) : spfs_inode :=
  SpfsInode n (si_lock i) (si_capacity i) (si_start i) (si_name i).
Definition set_name (name : list byte) (i : spfs_inode) : spfs_inode :=
  SpfsInode (i_inode i) (si_lock i) (si_capacity i) (si_start i) name.
Definition set_mode (mode : Z) (n : inode) : inode :=
  Inode (i_ino n) mode (i_uid n) (i_gid n) (i_atime n) (i_mtime n) (i_ctime n) (i_size n)
    (i_nlink n).
Definition set_times (now : Z) (n : inode) : inode :=
  Inode (i_ino n) (i_mode n) (i_uid n) (i_gid n) now now now (i_size n) (i_nlink n).
Definition set_owner (uid gid : Z) (n : inode) : inode :=
  Inode (i_ino n) (i_mode n) uid gid (i_atime n) (i_mtime n) (i_ctime n) (i_size n) (i_nlink n).

(** What [spfs_inode_parse] stores in [*out]; the other fields keep what they held. *)
Definition inode_store (out : spfs_inode) (ino mode gid uid atime mtime ctime capacity start : Z)
    (name : list byte) : spfs_inode :=
  SpfsInode
    (Inode ino mode uid gid atime mtime ctime (i_size (i_inode out)) (i_nlink (i_inode out)))
    (si_lock out) capacity start name.

Definition spfs_inode_parse (out : spfs_inode) : M cursor spfs_inode :=
  magic ← or_err (-EIO) spfs_sb_read_u32;
  ino ← or_err (-EIO) spfs_sb_read_ino;
  mode ← or_err (-EIO) spfs_sb_read_u16;
  gid ← or_err (-EIO) spfs_sb_read_u32;
  uid ← or_err (-EIO) spfs_sb_read_u32;
  atime ← or_err (-EIO) spfs_sb_read_u32;
  mtime ← or_err (-EIO) spfs_sb_read_u32;
  ctime ← or_err (-EIO) spfs_sb_read_u32;
  capacity ← or_err (-EIO) spfs_sb_read_u32;
  start ← or_err (-EIO) spfs_sb_read_sector;
  name ← or_err (-EIO) (spfs_sb_read_str SPOOKY_FS_NAME_MAX);
  if bool_decide (magic ≠ SPFS_MAGIC) then err (-EINVAL)
  else mret (inode_store out ino mode gid uid atime mtime ctime capacity start name).

(** [frame] is the stack memory [spfs_sb_write_str] copies in place of the name. *)
Definition spfs_inode_make (frame : Z → list byte) (inp : spfs_inode) : M cursor unit :=
  let in_inode := i_inode inp in
  or_fail (-EIO) (spfs_sb_write_u32 SPFS_MAGIC);;
  or_fail (-EIO) (spfs_sb_write_u32 (i_ino in_inode));;
  or_fail (-EIO) (spfs_sb_write_u16 (i_mode in_inode));;
  or_fail (-EIO) (spfs_sb_write_u32 (i_gid in_inode));;
  or_fail (-EIO) (spfs_sb_write_u32 (i_uid in_inode));;
  or_fail (-EIO) (spfs_sb_write_u32 (i_atime in_inode));;
  or_fail (-EIO) (spfs_sb_write_u32 (i_mtime in_inode));;
  or_fail (-EIO) (spfs_sb_write_u32 (i_ctime in_inode));;
  or_fail (-EIO) (spfs_sb_write_u32 (si_capacity inp));;
  or_fail (-EIO) (spfs_sb_write_u32 (si_start inp));;
  or_fail (-EIO) (spfs_sb_write_str frame (si_name inp) SPOOKY_FS_NAME_MAX);;
  mret tt.

(** ** Specification: the record at the start of a block *)
Definition INODE_BYTES : Z := 294.

Definition inode_record (frame : Z → list byte) (inp : spfs_inode) : list byte :=
  let i := i_inode inp in
  be_split 4 SPFS_MAGIC ++ be_split 4 (i_ino i) ++ be_split 2 (i_mode i) ++
  be_split 4 (i_gid i) ++ be_split 4 (i_uid i) ++ be_split 4 (i_atime i) ++
  be_split 4 (i_mtime i) ++ be_split 4 (i_ctime i) ++ be_split 4 (si_capacity inp) ++
  be_split 4 (si_start inp) ++ frame SPOOKY_FS_NAME_MAX.

(** What a parse of a block yields *)
Definition inode_of_block (out : spfs_inode) (b : list byte) : spfs_inode :=
  inode_store out
    (be_combine (sub 4 4 b)) (be_combine (sub 8 2 b)) (be_combine (sub 10 4 b))
    (be_combine (sub 14 4 b)) (be_combine (sub 18 4 b)) (be_combine (sub 22 4 b))
    (be_combine (sub 26 4 b)) (be_combine (sub 30 4 b)) (be_combine (sub 34 4 b))
    (sub 38 256 b).

(** The values that fit the fields of the record *)
Definition inode_fits (inp : spfs_inode) : Prop :=
  let i := i_inode inp in
  Forall (λ z, 0 ≤ z < 2 ^ 32)
    [i_ino i; i_uid i; i_gid i; i_atime i; i_mtime i; i_ctime i; si_capacity inp; si_start inp] ∧
  0 ≤ i_mode i < 2 ^ 16.

(** What survives a round trip through the disk: everything but the name. *)
Definition inode_on_disk (frame : Z → list byte) (inp out : spfs_inode) : spfs_inode :=
  let i := i_inode inp in
  inode_store out (i_ino i) (i_mode i) (i_gid i) (i_uid i) (i_atime i) (i_mtime i) (i_ctime i)
    (si_capacity inp) (si_start inp) (frame SPOOKY_FS_NAME_MAX).

Lemma spfs_inode_parse_eq out b :
  INODE_BYTES ≤ zlen b →
  spfs_inode_parse out (Cursor b 0) =
    if bool_decide (be_combine (sub 0 4 b) ≠ SPFS_MAGIC) then Err (-EINVAL) (Cursor b 294)
    else Ok (inode_of_block out b) (Cursor b 294).
Proof.
  unfold INODE_BYTES. intros. unfold spfs_inode_parse, SPOOKY_FS_NAME_MAX. do 11 codec_ok.
  by case_bool_decide.
Qed.

Section make.
Variable frame : Z → list byte.
Hypothesis Hframe : zlen (frame SPOOKY_FS_NAME_MAX) = SPOOKY_FS_NAME_MAX.

Lemma zlen_inode_record inp : zlen (inode_record frame inp) = INODE_BYTES.
Proof using Hframe. unfold inode_record. zlen_simpl. rewrite Hframe. reflexivity. Qed.

Lemma spfs_inode_make_eq inp b :
  INODE_BYTES ≤ zlen b →
  spfs_inode_make frame inp (Cursor b 0) =
    Ok tt (Cursor (splice 0 (inode_record frame inp) b) INODE_BYTES).
Proof using Hframe.
  unfold INODE_BYTES, spfs_inode_make. unfold SPOOKY_FS_NAME_MAX in *. intros.
  do 10 codec_ok. erewrite bind_ok; [|apply or_fail_true; apply write_str_ok; [done|slen..]].
  splice_merge. by rewrite <-!app_assoc.
Qed.

(** A field of a value that fits it *)
Lemma be_split_fits n v : 0 ≤ v < 256 ^ Z.of_nat n → be_combine (be_split n v) = v.
Proof using. intros. rewrite be_combine_split. by apply Z.mod_small. Qed.

Lemma inode_of_record inp out b :
  INODE_BYTES ≤ zlen b → inode_fits inp →
  be_combine (sub 0 4 (splice 0 (inode_record frame inp) b)) = SPFS_MAGIC ∧
  inode_of_block out (splice 0 (inode_record frame inp) b) = inode_on_disk frame inp out.
Proof using Hframe.
  intros Hb [Hf Hmode]. rewrite !Forall_cons in Hf. pose proof (zlen_inode_record inp).
  unfold inode_of_block, inode_on_disk, INODE_BYTES in *.
  assert (zlen (frame SPOOKY_FS_NAME_MAX) = 256) as Hfr by done.
  rewrite !sub_splice_in by lia. unfold inode_record. cbn zeta. cbn [Z.sub Z.opp Z.add].
  split; [sub_field; by apply be_split_fits|].
  repeat match goal with |- context [sub ?o ?n (be_split 4 SPFS_MAGIC ++ ?l)] =>
    let H := fresh in eassert (H : sub o n (be_split 4 SPFS_MAGIC ++ l) = _) by
      (sub_field; reflexivity); rewrite H; clear H end.
  f_equal; try (apply be_split_fits; cbn; lia).
Qed.
End make.

Lemma inode_parse_cases out b :
  ∃ c, spfs_inode_parse out (Cursor b 0) =
    if bool_decide (zlen b < INODE_BYTES) then Err (-EIO) c
    else if bool_decide (be_combine (sub 0 4 b) ≠ SPFS_MAGIC) then Err (-EINVAL) c
    else Ok (inode_of_block out b) c.
Proof.
  case_bool_decide as Hb; cycle 1.
  { eexists. rewrite spfs_inode_parse_eq by lia. by case_bool_decide. }
  unfold INODE_BYTES, spfs_inode_parse, SPOOKY_FS_NAME_MAX in *. pose proof (zlen_nonneg b).
  do 10 (codec_split by (by eexists)).
  eexists. by codec_short.
Qed.

Lemma parse_ok out b i c :
  spfs_inode_parse out (Cursor b 0) = Ok i c →
  INODE_BYTES ≤ zlen b ∧ be_combine (sub 0 4 b) = SPFS_MAGIC ∧ i = inode_of_block out b.
Proof.
  destruct (inode_parse_cases out b) as (c' & ->). do 2 (case_bool_decide; [done|]).
  intros [= <- _]. split_and!; [lia|naive_solver lia|done].
Qed.

Lemma inode_of_block_fits out b : INODE_BYTES ≤ zlen b → inode_fits (inode_of_block out b).
Proof.
  unfold INODE_BYTES. intros Hb. assert (H4 : ∀ off, 0 ≤ off → off + 4 ≤ zlen b → 0 ≤ be_combine (sub off 4 b) < 2 ^ 32).
  { intros off ??. pose proof (be_combine_range (sub off 4 b)) as Hr. by rewrite zlen_sub in Hr by lia. }
  split; [repeat constructor; apply H4; lia|]. cbn.
  pose proof (be_combine_range (sub 8 2 b)) as Hr. by rewrite zlen_sub in Hr by lia.
Qed.

(** A record that is read and written back changes at most the name in its block. *)
Lemma record_of_block frame out b :
  INODE_BYTES ≤ zlen b → be_combine (sub 0 4 b) = SPFS_MAGIC →
  zlen (frame SPOOKY_FS_NAME_MAX) = SPOOKY_FS_NAME_MAX →
  splice 0 (inode_record frame (inode_of_block out b)) b = splice 38 (frame SPOOKY_FS_NAME_MAX) b.
Proof.
  unfold INODE_BYTES. intros Hb Hm Hf.
  assert (inode_record frame (inode_of_block out b) = sub 0 38 b ++ frame SPOOKY_FS_NAME_MAX) as ->.
  { unfold inode_record, inode_of_block, inode_store. cbn [i_inode i_ino i_mode i_gid i_uid i_atime
      i_mtime i_ctime si_capacity si_start]. rewrite <-Hm.
    rewrite !(be_split_sub 4), (be_split_sub 2) by (cbn; lia). cbn [Z.of_nat].
    rewrite (sub_split 0 4 34), (sub_split 4 4 30), (sub_split 8 2 28), (sub_split 10 4 24),
      (sub_split 14 4 20), (sub_split 18 4 16), (sub_split 22 4 12), (sub_split 26 4 8),
      (sub_split 30 4 4) by lia. by rewrite <-!app_assoc. }
  assert (zlen (frame SPOOKY_FS_NAME_MAX) = 256) by done.
  rewrite <-splice_app by (rewrite ?zlen_sub; lia).
  rewrite zlen_sub by lia. by rewrite splice_sub by lia.
Qed.

(** ** Properties *)
(** C27: a written inode record parses back to the same inode, except for the name: on
    disk the name is the stack memory [frame], whatever the inode's name is.  The
    write touches the first 294 bytes of the block only. *)
Theorem inode_roundtrip frame inp out b :
  zlen (frame SPOOKY_FS_NAME_MAX) = SPOOKY_FS_NAME_MAX → inode_fits inp → INODE_BYTES ≤ zlen b →
  ∃ b', spfs_inode_make frame inp (Cursor b 0) = Ok tt (Cursor b' INODE_BYTES) ∧
    zlen b' = zlen b ∧
    (∀ off n, INODE_BYTES ≤ off → sub off n b' = sub off n b) ∧
    spfs_inode_parse out (Cursor b' 0) =
      Ok (inode_on_disk frame inp out) (Cursor b' INODE_BYTES).
Proof.
  intros Hf Hfits Hb. pose proof (zlen_inode_record frame Hf inp) as Hr.
  exists (splice 0 (inode_record frame inp) b).
  assert (Hl : zlen (splice 0 (inode_record frame inp) b) = zlen b) by (apply zlen_splice; lia).
  destruct (inode_of_record frame Hf inp out b Hb Hfits) as [Hm Hi].
  split_and!; [by apply spfs_inode_make_eq|done| |].
  - intros off n ?. apply sub_splice_after; lia.
  - rewrite spfs_inode_parse_eq, Hm, Hi by (by rewrite Hl). by decide_if by naive_solver.
Qed.

(** An inode record is never half accepted: a block shorter than 294 bytes, or one
    without the magic number, is refused with -EIO or -EINVAL, and no parse of a
    block goes out of its bounds. *)
Theorem inode_parse_total out b :
  ∃ c, spfs_inode_parse out (Cursor b 0) =
    if bool_decide (zlen b < INODE_BYTES) then Err (-EIO) c
    else if bool_decide (be_combine (sub 0 4 b) ≠ SPFS_MAGIC) then Err (-EINVAL) c
    else Ok (inode_of_block out b) c.
Proof. apply inode_parse_cases. Qed.

(** C28: whatever a block holds, an inode that is parsed from it is one of the disk
    format: each number is in the range of its field and the name has its 256 bytes, the
    mutex, the size and the link count of the in-core inode are kept, and written back
    it leaves the block as it was but for the name. *)
Theorem inode_parse_typed frame out b i c :
  spfs_inode_parse out (Cursor b 0) = Ok i c → zlen (frame SPOOKY_FS_NAME_MAX) = SPOOKY_FS_NAME_MAX →
  inode_fits i ∧ zlen (si_name i) = SPOOKY_FS_NAME_MAX ∧ si_lock i = si_lock out ∧
  i_size (i_inode i) = i_size (i_inode out) ∧ i_nlink (i_inode i) = i_nlink (i_inode out) ∧
  spfs_inode_make frame i (Cursor b 0) =
    Ok tt (Cursor (splice 38 (frame SPOOKY_FS_NAME_MAX) b) INODE_BYTES).
Proof.
  intros E Hf. destruct (parse_ok out b i c E) as (Hb & Hm & ->).
  rewrite (spfs_inode_make_eq frame Hf) by done. rewrite record_of_block by done.
  split_and!; [by apply inode_of_block_fits|unfold INODE_BYTES in *; apply (zlen_sub 38 256); lia|done..].
Qed.

(** ** Witnesses *)
Definition example_inode : spfs_inode :=
  SpfsInode (Inode 2 33188 1000 1000 1546300800 1546300800 1546300800 0 1) false 0 0
    (x61 :: zeros 255).

Lemma inode_roundtrip_witness :
  ∃ b', spfs_inode_make zeros example_inode (Cursor (zeros 512) 0) = Ok tt (Cursor b' INODE_BYTES) ∧
    zlen b' = 512 ∧
    (∀ off n, INODE_BYTES ≤ off → sub off n b' = sub off n (zeros 512)) ∧
    spfs_inode_parse example_inode (Cursor b' 0) =
      Ok (inode_on_disk zeros example_inode example_inode) (Cursor b' INODE_BYTES).
Proof.
  apply (inode_roundtrip zeros example_inode example_inode (zeros 512)).
  - reflexivity.
  - split; [repeat constructor; vm_compute; congruence|vm_compute; split; congruence].
  - vm_compute. congruence.
Defined.

Lemma inode_parse_typed_witness :
  ∃ i c, spfs_inode_parse example_inode (Cursor (splice 0 (inode_record zeros example_inode) (zeros 512)) 0)
      = Ok i c ∧ inode_fits i ∧ zlen (si_name i) = SPOOKY_FS_NAME_MAX.
Proof.
  destruct (inode_parse_cases example_inode (splice 0 (inode_record zeros example_inode) (zeros 512)))
    as (c & E).
  rewrite bool_decide_eq_false_2 in E by (by vm_compute).
  rewrite bool_decide_eq_false_2 in E by (intros H; by apply H; vm_compute).
  destruct (inode_parse_typed zeros _ _ _ _ E eq_refl) as (Hfit & Hname & _).
  eexists _, c. split; [exact E|]. split; [exact Hfit|exact Hname].
Defined.
