(* ===== verification/Bnode.v ===== *)
(** * btree.c, the nodes of the B-tree

    A [struct spfs_bnode] is three pointers into the [b_data] of one buffer; it is
    identified here with the block number of that buffer, and every access goes
    through the buffer cache, so that two [spfs_bnode]s of one block alias.  The
    layout is [bnode_parse]'s: the length at byte 0, 100 entries of 16 bytes from
    byte 4, the children of 8 bytes each behind them.

    Pointers to entries are addresses.  [PNode n off] points [off] bytes behind the
    start of [b_data] of block [n] (the address is reduced to 64 bits, as pointer
    arithmetic on the machine is), [PBubble] at the entry of the [btree_bubble] on
    the stack.  Reading or writing outside of [b_data] is [OutOfBounds]. *)
From S2P Require Import Prelude Util Buffers.

(** [struct spfs_bentry]: two unsigned longs, as they are in memory *)
Record spfs_bentry := Bentry { be_id : Z; be_offset : Z }.

Record btree_bubble := Bubble { bb_entry : spfs_bentry; bb_greater : Z }.

Inductive entry_ptr :=
| PNode (n off : Z)
| PBubble.

(** [be32_to_cpu]/[cpu_to_be32] on an unsigned long: the macro works on its low 32 bits. *)
Definition be32_to_cpu (x : Z) : Z := bswap 4 (u32 x).
Definition cpu_to_be32 (x : Z) : Z := bswap 4 (u32 x).

Definition s64 (z : Z) : Z := (z + 2 ^ 63) mod 2 ^ 64 - 2 ^ 63.

Definition bnode_capacity : Z := 100.
Definition SIZEOF_BENTRY : Z := 16.
Definition SIZEOF_SECTOR : Z := 8.
(** [bnode_parse]: where [length], [entries] and [children] point *)
Definition bnode_off_length : Z := 0.
Definition bnode_off_entries : Z := bnode_off_length + 4.
Definition bnode_off_children : Z := bnode_off_entries + bnode_capacity * SIZEOF_BENTRY.

Definition spfs_be_id_cmp (f s : Z) : bool := bool_decide (be32_to_cpu s < be32_to_cpu f).
Definition spfs_bentry_entry_cmp (f s : spfs_bentry) : bool := spfs_be_id_cmp (be_id f) (be_id s).
Definition spfs_bentry_cmp (f : spfs_bentry) (second : Z) : bool :=
  bool_decide (second < be32_to_cpu (be_id f)).
Definition spfs_bubble_cmp (bubble : btree_bubble) (o : Z) : bool :=
  spfs_be_id_cmp (be_id (bb_entry bubble)) o.
Definition bentry_is_eq (f : spfs_bentry) (id : Z) : bool :=
  bool_decide (be32_to_cpu (be_id f) = id).
Definition bentry_offset (e : spfs_bentry) : Z := be32_to_cpu (be_offset e).

Definition bubble_is_active (bubble : btree_bubble) : bool :=
  bool_decide (be_id (bb_entry bubble) ≠ 0).
Definition bubble_make (id page gt : Z) : btree_bubble :=
  Bubble (Bentry (cpu_to_be32 id) (cpu_to_be32 page)) gt.
(** [memset(bubble, 0, sizeof( *bubble))] *)
Definition bubble_zero : btree_bubble := Bubble (Bentry 0 0) 0.

Definition bentry_of_bytes (raw : list byte) : spfs_bentry :=
  Bentry (le_combine (sub 0 8 raw)) (le_combine (sub 8 8 raw)).
Definition bentry_bytes (e : spfs_bentry) : list byte :=
  le_split 8 (be_id e) ++ le_split 8 (be_offset e).

Section bnode.
Context {D : Type} {B : BufferCache D}.
Abbreviation MB := (M (bufs D)).

(** Loads and stores through the pointers of a node *)
Definition node_load (n off len : Z) : MB (list byte) :=
  b ← bh_data n; mload b off len.
Definition node_store (n off : Z) (raw : list byte) : MB unit :=
  b ← bh_data n; b' ← mstore b off raw; bh_set_data n b'.

(** [memset(bh->b_data, 0, bh->b_size)], then [bnode_parse] *)
Definition bnode_make (n : Z) : MB unit :=
  b ← bh_data n; bh_set_data n (zeros (zlen b)).

Definition bnode_length (n : Z) : MB Z :=
  raw ← node_load n bnode_off_length 4;
  let result := be32_to_cpu (le_combine raw) in
  BUG_ON (bool_decide (bnode_capacity < result));;
  mret result.

Definition bnode_set_length (n length : Z) : MB Z :=
  BUG_ON (bool_decide (bnode_capacity < length));;
  node_store n bnode_off_length (le_split 4 (cpu_to_be32 length));;
  mret length.

Definition bnode_child_length (n : Z) : MB Z :=
  elems ← bnode_length n;
  mret (if bool_decide (elems = 0) then 0 else elems + 1).

Definition bnode_set_child (n index child : Z) : MB unit :=
  node_store n (bnode_off_children + index * SIZEOF_SECTOR) (le_split 8 (cpu_to_be32 child)).

Definition bnode_set_entry (n index : Z) (src : spfs_bentry) : MB unit :=
  node_store n (bnode_off_entries + index * SIZEOF_BENTRY) (bentry_bytes src).

Definition bnode_get_child (n index : Z) : MB Z :=
  length ← bnode_length n;
  BUG_ON (bool_decide (length < index));;
  raw ← node_load n (bnode_off_children + index * SIZEOF_SECTOR) SIZEOF_SECTOR;
  mret (be32_to_cpu (le_combine raw)).

(** [bnode_get_entries(node) + idx], and what such a pointer points at *)
Definition bnode_get_entry (n idx : Z) : entry_ptr :=
  PNode n (s64 (bnode_off_entries + idx * SIZEOF_BENTRY)).
Definition entry_load (n off : Z) : MB spfs_bentry :=
  raw ← node_load n off SIZEOF_BENTRY; mret (bentry_of_bytes raw).
(** [e->id] alone *)
Definition entry_load_id (n off : Z) : MB spfs_bentry :=
  raw ← node_load n off 8; mret (Bentry (le_combine raw) 0).

(** The distance of two addresses in bytes *)
Definition spfs_ptr_length (it last : Z) : Z := u64 (last - it).

(** The [goto Lit] loop of [bnode_bin_find_gte]: [it], [last] and [end] are addresses
    in block [n]; the result is an address, or NULL.  A comparison reads [mid->id]. *)
Fixpoint bin_find_gte_loop (fuel : nat) (n it last end_ needle : Z) : MB (option Z) :=
  match fuel with
  | O => crashes NoFuel
  | S fuel =>
      let length := spfs_ptr_length it last in
      let mid := s64 (it + length / 2 * SIZEOF_BENTRY) in
      e ← entry_load_id n mid;
      if spfs_bentry_cmp e needle then
        if bool_decide (length = 0) then mret (Some mid)
        else bin_find_gte_loop fuel n it mid end_ needle
      else if bentry_is_eq e needle then mret (Some mid)
      else if bool_decide (length = 1) then
        let next := s64 (it + length * SIZEOF_BENTRY) in
        mret (if bool_decide (next ≠ end_) then Some next else None)
      else bin_find_gte_loop fuel n mid last end_ needle
  end.

Definition bnode_bin_find_gte (fuel : nat) (n needle : Z) : MB (option Z) :=
  length ← bnode_length n;
  BUG_ON (bool_decide (bnode_capacity < length));;
  if bool_decide (length = 0) then mret None
  else
    let it := bnode_off_entries in
    let end_ := it + length * SIZEOF_BENTRY in
    bin_find_gte_loop fuel n it end_ end_ needle.

(** The distance of [needle] from the first entry: in bytes, as the source computes
    it.  The stack and the buffers are different objects, more than 100 bytes apart. *)
Definition bnode_index_of (n : Z) (needle : entry_ptr) : Z :=
  match needle with
  | PBubble => bnode_capacity
  | PNode m off =>
      if bool_decide (m ≠ n) then bnode_capacity
      else if bool_decide (off < bnode_off_entries) then bnode_capacity
      else
        let result := off - bnode_off_entries in
        if bool_decide (bnode_capacity < result) then bnode_capacity else result
  end.

Definition bnode_is_full (n : Z) : MB bool :=
  length ← bnode_length n; mret (bool_decide (length = bnode_capacity)).
Definition bnode_is_empty (n : Z) : MB bool :=
  length ← bnode_length n; mret (bool_decide (length = 0)).

(** Returns the address of the inserted entry, NULL when the node is full. *)
Definition bnode_bin_insert (fuel : nat) (n : Z) (inp : spfs_bentry) (gt : Z) : MB (option Z) :=
  full ← bnode_is_full n;
  if (full : bool) then mret None
  else
    children ← bnode_child_length n;
    (if bool_decide (children = 0) then bnode_set_child n 0 0 else mret tt);;
    let needle := be32_to_cpu (be_id inp) in
    found ← bnode_bin_find_gte fuel n needle;
    gte ← (match found with
           | Some gte =>
               e ← entry_load_id n gte;
               BUG_ON (bentry_is_eq e needle);;
               mret gte
           | None => mret bnode_off_entries
           end);
    let idx := bnode_index_of n (PNode n gte) in
    BUG_ON (bool_decide (idx = bnode_capacity));;
    length ← bnode_length n;
    let shift := u64 (u64 (length - idx) * SIZEOF_BENTRY) in
    moved ← node_load n gte shift;
    node_store n (gte + SIZEOF_BENTRY) moved;;
    bnode_set_entry n idx inp;;
    length ← bnode_set_length n (length + 1);
    bnode_set_child n length gt;;
    length' ← bnode_length n;
    BUG_ON (bool_decide (length ≠ length'));;
    mret (Some gte).

Definition bnode_bin_insert_b (fuel : nat) (n : Z) (bubble : btree_bubble) : MB (option Z) :=
  bnode_bin_insert fuel n (bb_entry bubble) (bb_greater bubble).

(** [child_add_back]: behind the last entry *)
Definition bnode_child_add_back (n child : Z) : MB unit :=
  length ← bnode_length n;
  node_store n (bnode_off_children + length * SIZEOF_SECTOR) (le_split 8 (cpu_to_be32 child)).

Definition bnode_median (n : Z) (extra : spfs_bentry) : MB entry_ptr :=
  full ← bnode_is_full n;
  BUG_ON (negb full);;
  len ← bnode_length n;
  let length := len + 1 in
  let mid := length / 2 in
  BUG_ON (bool_decide (mid = 0));;
  let mid_entry := bnode_off_entries + mid * SIZEOF_BENTRY in
  e ← entry_load_id n mid_entry;
  if spfs_be_id_cmp (be_id extra) (be_id e) then mret (PNode n mid_entry)
  else
    let mid_priv_entry := mid_entry - SIZEOF_BENTRY in
    e ← entry_load_id n mid_priv_entry;
    if spfs_be_id_cmp (be_id extra) (be_id e) then mret PBubble
    else mret (PNode n mid_priv_entry).
End bnode.

(** ** Words *)
Lemma be32_of_bytes raw :
  4 ≤ zlen raw → be32_to_cpu (le_combine raw) = be_combine (sub 0 4 raw).
Proof.
  intros. unfold be32_to_cpu, u32. change (2 ^ 32) with (256 ^ 4).
  rewrite le_combine_mod_sub by lia. apply bswap_combine.
  apply Nat2Z.inj. apply (zlen_sub 0 4 raw); lia.
Qed.

Lemma be32_of_4 raw : zlen raw = 4 → be32_to_cpu (le_combine raw) = be_combine raw.
Proof. intros. rewrite be32_of_bytes by lia. by rewrite sub_exact. Qed.

Lemma cpu_to_be32_bytes v : le_split 4 (cpu_to_be32 v) = be_split 4 v.
Proof.
  unfold cpu_to_be32, u32. rewrite le_split_bswap. unfold be_split.
  change (2 ^ 32) with (256 ^ Z.of_nat 4). by rewrite le_split_mod.
Qed.

Lemma cpu_to_be32_range v : 0 ≤ cpu_to_be32 v < 2 ^ 32.
Proof. apply (bswap_range 4). Qed.

Lemma cpu_to_be32_bytes8 v : le_split 8 (cpu_to_be32 v) = be_split 4 v ++ zeros 4.
Proof.
  change 8%nat with (4 + 4)%nat. rewrite le_split_add, cpu_to_be32_bytes.
  f_equal. pose proof (cpu_to_be32_range v). change (256 ^ Z.of_nat 4) with (2 ^ 32).
  by rewrite Z.div_small, le_split_0 by lia.
Qed.

Lemma be32_cpu_to_be32 v : be32_to_cpu (cpu_to_be32 v) = u32 v.
Proof.
  unfold be32_to_cpu. rewrite u32_small by apply cpu_to_be32_range. unfold cpu_to_be32.
  rewrite bswap_involutive. unfold u32. change (256 ^ Z.of_nat 4) with (2 ^ 32).
  by rewrite Z.mod_mod.
Qed.

Lemma cpu_to_be32_zero v : cpu_to_be32 v = 0 → u32 v = 0.
Proof. intros H. by rewrite <-be32_cpu_to_be32, H. Qed.

Lemma zlen_le_split n v : zlen (le_split n v) = Z.of_nat n.
Proof. unfold zlen. by rewrite length_le_split. Qed.
#[export] Hint Rewrite zlen_le_split : zlen.

Lemma zlen_bentry_bytes e : zlen (bentry_bytes e) = 16.
Proof. unfold bentry_bytes. by zlen_simpl. Qed.
#[export] Hint Rewrite zlen_bentry_bytes : zlen.

(** ** A node in a block: what its fields hold *)
Definition node_length (b : list byte) : Z := be_combine (sub bnode_off_length 4 b).
Definition node_child (b : list byte) (i : Z) : Z :=
  be_combine (sub (bnode_off_children + i * SIZEOF_SECTOR) 4 b).
Definition node_entry (b : list byte) (i : Z) : spfs_bentry :=
  bentry_of_bytes (sub (bnode_off_entries + i * SIZEOF_BENTRY) SIZEOF_BENTRY b).
(** the id an address in the block holds *)
Definition node_id_at (b : list byte) (off : Z) : Z := be_combine (sub off 4 b).

(** A block that holds a node needs 4 + 100 * 16 + 101 * 8 bytes. *)
Definition NODE_BYTES : Z := 2412.

Section node_ops.
Context {D : Type} {B : BufferCache D} {L : BufferCacheLaws D}.
Implicit Types (s : bufs D) (b : list byte).

Lemma node_load_ok n off len s b :
  bc_data (b_dev s) n = Some b → 0 ≤ off → 0 ≤ len → off + len ≤ zlen b →
  node_load n off len s = Ok (sub off len b) s.
Proof using.
  intros H ???. unfold node_load, bh_data, mload. mrun. rewrite H.
  by decide_if by (split_and!; lia).
Qed.

Lemma node_load_oob n off len s b :
  bc_data (b_dev s) n = Some b → off < 0 ∨ zlen b < off + len →
  node_load n off len s = Crash OutOfBounds.
Proof using.
  intros H ?. unfold node_load, bh_data, mload. mrun. rewrite H.
  by decide_if by lia.
Qed.

Lemma node_store_ok n off raw s b :
  bc_data (b_dev s) n = Some b → 0 ≤ off → off + zlen raw ≤ zlen b →
  ∃ d', node_store n off raw s = Ok tt (Bufs d' (b_refs s)) ∧
        dev_upd (b_dev s) n (splice off raw b) d'.
Proof using L.
  intros H ??. unfold node_store, bh_data, mstore. mrun. rewrite H.
  decide_if by (split_and!; lia). eexists. split; [done|].
  eapply dev_upd_store; [done|]. by rewrite zlen_splice by lia.
Qed.

Lemma bnode_length_ok n s b :
  bc_data (b_dev s) n = Some b → 4 ≤ zlen b → node_length b ≤ 100 →
  bnode_length n s = Ok (node_length b) s.
Proof using.
  intros H ? Hl. unfold bnode_length. unfold node_length, bnode_off_length in *.
  erewrite bind_ok by (eapply node_load_ok; [done|lia..]).
  rewrite be32_of_4 by slen. mrun. unfold bnode_capacity. by decide_if.
Qed.

Lemma bnode_length_bug n s b :
  bc_data (b_dev s) n = Some b → 4 ≤ zlen b → 100 < node_length b →
  bnode_length n s = Crash BugOn.
Proof using.
  intros H ? Hl. unfold bnode_length. unfold node_length, bnode_off_length in *.
  erewrite bind_ok by (eapply node_load_ok; [done|lia..]).
  rewrite be32_of_4 by slen. mrun. unfold bnode_capacity. by decide_if.
Qed.

Lemma node_length_range b : 4 ≤ zlen b → 0 ≤ node_length b < 2 ^ 32.
Proof using.
  intros. unfold node_length, bnode_off_length.
  pose proof (be_combine_range (sub 0 4 b)) as Hr. by rewrite zlen_sub in Hr by lia.
Qed.

Lemma entry_load_id_ok n off s b :
  bc_data (b_dev s) n = Some b → 0 ≤ off → off + 8 ≤ zlen b →
  entry_load_id n off s = Ok (Bentry (le_combine (sub off 8 b)) 0) s.
Proof using. intros. unfold entry_load_id. by erewrite bind_ok by (by apply node_load_ok). Qed.

Lemma entry_load_id_oob n off s b :
  bc_data (b_dev s) n = Some b → off < 0 ∨ zlen b < off + 8 →
  entry_load_id n off s = Crash OutOfBounds.
Proof using. intros. unfold entry_load_id. by erewrite bind_crash by (by eapply node_load_oob). Qed.

Lemma entry_id_at off b :
  0 ≤ off → off + 8 ≤ zlen b → be32_to_cpu (le_combine (sub off 8 b)) = node_id_at b off.
Proof using.
  intros. rewrite be32_of_bytes by slen. unfold node_id_at. by rewrite sub_sub, Z.add_0_r by lia.
Qed.

(** ** The binary search on a node with entries
    [E i] is the address of entry [i].  The distances the loop computes are in bytes
    and are then used as numbers of entries, so that from a live range of [m] entries
    it looks at entry [8 * m]. *)
Definition E (i : Z) : Z := bnode_off_entries + i * SIZEOF_BENTRY.

Lemma find_probe m :
  0 ≤ m → m ≤ 2 ^ 40 → s64 (E 0 + spfs_ptr_length (E 0) (E m) / 2 * SIZEOF_BENTRY) = E (8 * m).
Proof using.
  intros. unfold E, spfs_ptr_length, SIZEOF_BENTRY, bnode_off_entries, bnode_off_length.
  rewrite u64_small by lia. replace (0 + 4 + m * 16 - (0 + 4 + 0 * 16)) with (8 * m * 2) by lia.
  rewrite Z.div_mul by lia. unfold s64. rewrite Z.mod_small by lia. lia.
Qed.

(** Once the probe is below the needle, the next one is before the block. *)
Lemma find_probe_negative m :
  1 ≤ m → m ≤ 2 ^ 40 →
  s64 (E (8 * m) + spfs_ptr_length (E (8 * m)) (E m) / 2 * SIZEOF_BENTRY) = 4 - 768 * m.
Proof using.
  intros. unfold E, spfs_ptr_length, SIZEOF_BENTRY, bnode_off_entries, bnode_off_length.
  replace (u64 _) with ((2 ^ 63 - 56 * m) * 2).
  2:{ unfold u64. rewrite <-(Z.mod_unique _ (2 ^ 64) (-1) (2 ^ 64 - 112 * m)); lia. }
  rewrite Z.div_mul by lia. unfold s64.
  rewrite <-(Z.mod_unique _ (2 ^ 64) 8 (4 - 768 * m + 2 ^ 63)); lia.
Qed.

Lemma find_gte_loop_spec n end_ needle s b :
  bc_data (b_dev s) n = Some b → zlen b ≤ 2 ^ 40 →
  ∀ fuel m, 1 ≤ m → m ≤ 2 ^ 40 → 2 ^ 40 < m * 8 ^ Z.of_nat fuel →
  bin_find_gte_loop (S (S fuel)) n (E 0) (E m) end_ needle s = Crash OutOfBounds ∨
  ∃ k : nat, let off := E (8 ^ Z.of_nat (S k) * m) in
    off + 8 ≤ zlen b ∧ node_id_at b off = needle ∧
    bin_find_gte_loop (S (S fuel)) n (E 0) (E m) end_ needle s = Ok (Some off) s.
Proof using.
  intros Hb Hsz. induction fuel as [|fuel IH]; intros m Hm Hm' Hf; [lia|].
  remember (S fuel) as f eqn:Hfe. cbn [bin_find_gte_loop]. rewrite find_probe by lia.
  assert (Hpos : 0 ≤ E (8 * m)) by (unfold E, SIZEOF_BENTRY, bnode_off_entries, bnode_off_length; lia).
  destruct (decide (E (8 * m) + 8 ≤ zlen b)) as [Hin|Hout]; cycle 1.
  { left. erewrite bind_crash; [done|]. eapply entry_load_id_oob; [done|lia]. }
  erewrite bind_ok by (eapply entry_load_id_ok; [done|lia..]).
  unfold spfs_bentry_cmp, bentry_is_eq. cbn [be_id]. rewrite entry_id_at by lia.
  assert (Hlen : spfs_ptr_length (E 0) (E m) = 16 * m).
  { unfold spfs_ptr_length, E, SIZEOF_BENTRY. rewrite u64_small; lia. }
  rewrite Hlen. case_bool_decide as Hgt.
  - decide_if. subst f. rewrite Nat2Z.inj_succ, Z.pow_succ_r in Hf by lia.
    assert (8 * m ≤ 2 ^ 40).
    { unfold E, SIZEOF_BENTRY, bnode_off_entries, bnode_off_length in Hin. lia. }
    destruct (IH (8 * m)) as [Hc|(k & ? & ? & Hk)]; [lia..| |].
    + by left.
    + right. exists (S k). rewrite (Nat2Z.inj_succ (S k)), Z.pow_succ_r by lia.
      replace (8 * 8 ^ Z.of_nat (S k) * m) with (8 ^ Z.of_nat (S k) * (8 * m)) by lia. done.
  - case_bool_decide as Heq.
    + right. exists 0%nat. done.
    + left. decide_if. subst f. cbn [bin_find_gte_loop].
      rewrite find_probe_negative by lia. erewrite bind_crash; [done|].
      eapply entry_load_id_oob; [done|]. lia.
Qed.

Lemma find_gte_nonempty n needle s b fuel :
  bc_data (b_dev s) n = Some b → 4 ≤ zlen b → zlen b ≤ 2 ^ 40 →
  0 < node_length b → node_length b ≤ 100 → (16 ≤ fuel)%nat →
  bnode_bin_find_gte fuel n needle s = Crash OutOfBounds ∨
  ∃ i, 8 * node_length b ≤ i ∧ E i + 8 ≤ zlen b ∧ node_id_at b (E i) = needle ∧
       bnode_bin_find_gte fuel n needle s = Ok (Some (E i)) s.
Proof using.
  intros Hb Hsz Hsz' Hl Hl' Hf. unfold bnode_bin_find_gte.
  erewrite bind_ok by (by eapply bnode_length_ok).
  rewrite (bind_ok _ _ s tt s) by (unfold BUG_ON, bnode_capacity; by decide_if).
  decide_if. destruct fuel as [|[|fuel]]; [lia|lia|].
  change bnode_off_entries with (E 0). fold (E (node_length b)).
  assert (E 0 + node_length b * SIZEOF_BENTRY = E (node_length b)) as -> by (unfold E; lia).
  destruct (find_gte_loop_spec n (E (node_length b)) needle s b Hb Hsz' fuel (node_length b))
    as [Hc|(k & ? & ? & Hk)]; [lia|lia| |by left|].
  - assert (8 ^ 14 ≤ 8 ^ Z.of_nat fuel) by (apply Z.pow_le_mono_r; lia).
    assert (1 * 8 ^ Z.of_nat fuel ≤ node_length b * 8 ^ Z.of_nat fuel)
      by (apply Z.mul_le_mono_nonneg_r; lia).
    change (8 ^ 14) with (2 ^ 42) in *. lia.
  - right. exists (8 ^ Z.of_nat (S k) * node_length b). split; [|done].
    assert (8 ^ 1 ≤ 8 ^ Z.of_nat (S k)) by (apply Z.pow_le_mono_r; lia).
    change (8 ^ 1) with 8 in *. by apply Z.mul_le_mono_nonneg_r; lia.
Qed.

Lemma find_gte_empty n needle s b fuel :
  bc_data (b_dev s) n = Some b → 4 ≤ zlen b → node_length b = 0 →
  bnode_bin_find_gte fuel n needle s = Ok None s.
Proof using.
  intros Hb ? Hl. unfold bnode_bin_find_gte.
  erewrite bind_ok by (eapply bnode_length_ok; [done|done|lia]). rewrite Hl.
  by rewrite (bind_ok _ _ s tt s).
Qed.

Lemma index_of_entry n i :
  0 ≤ i →
  bnode_index_of n (PNode n (E i)) = if bool_decide (i ≤ 6) then 16 * i else bnode_capacity.
Proof using.
  intros. unfold bnode_index_of, E, SIZEOF_BENTRY, bnode_capacity.
  rewrite bool_decide_eq_false_2 by naive_solver. decide_if.
  case_bool_decide; case_bool_decide; lia.
Qed.

(** ** Stores into a node *)
Lemma bnode_set_child_ok n i c s b :
  bc_data (b_dev s) n = Some b → 0 ≤ i → bnode_off_children + 8 * i + 8 ≤ zlen b →
  ∃ d', bnode_set_child n i c s = Ok tt (Bufs d' (b_refs s)) ∧
    dev_upd (b_dev s) n (splice (bnode_off_children + i * 8) (be_split 4 c ++ zeros 4) b) d'.
Proof using L.
  intros. unfold bnode_set_child, SIZEOF_SECTOR in *. rewrite cpu_to_be32_bytes8.
  assert (0 ≤ bnode_off_children) by done. apply node_store_ok; [done|lia|slen].
Qed.

Lemma bnode_set_entry_ok n i e s b :
  bc_data (b_dev s) n = Some b → 0 ≤ i → E i + 16 ≤ zlen b →
  ∃ d', bnode_set_entry n i e s = Ok tt (Bufs d' (b_refs s)) ∧
    dev_upd (b_dev s) n (splice (E i) (bentry_bytes e) b) d'.
Proof using L.
  intros ? ? H. unfold bnode_set_entry. fold (E i).
  assert (0 ≤ E i) by (unfold E, SIZEOF_BENTRY, bnode_off_entries, bnode_off_length; lia).
  apply node_store_ok; [done|lia|]. unfold bentry_bytes. slen.
Qed.

Lemma bnode_set_length_ok n l s b :
  bc_data (b_dev s) n = Some b → 4 ≤ zlen b → l ≤ 100 →
  ∃ d', bnode_set_length n l s = Ok l (Bufs d' (b_refs s)) ∧
    dev_upd (b_dev s) n (splice 0 (be_split 4 l) b) d'.
Proof using L.
  intros Hb ??. unfold bnode_set_length.
  rewrite (bind_ok _ _ s tt s) by (unfold BUG_ON, bnode_capacity; by decide_if).
  rewrite cpu_to_be32_bytes.
  destruct (node_store_ok n bnode_off_length (be_split 4 l) s b Hb) as (d' & E1 & ?);
    [done|unfold bnode_off_length; slen|].
  exists d'. by rewrite (bind_ok _ _ _ _ _ E1).
Qed.

Lemma bnode_get_child_ok n i s b :
  bc_data (b_dev s) n = Some b → 0 ≤ i → i ≤ node_length b → node_length b ≤ 100 →
  bnode_off_children + 8 * i + 8 ≤ zlen b →
  bnode_get_child n i s = Ok (node_child b i) s.
Proof using.
  intros. assert (bnode_off_children = 1604) as Hc by done. unfold bnode_get_child.
  erewrite bind_ok by (eapply bnode_length_ok; [done|lia..]).
  rewrite (bind_ok _ _ s tt s) by (unfold BUG_ON; by decide_if).
  erewrite bind_ok by (eapply node_load_ok; [done|unfold SIZEOF_SECTOR; lia..]).
  unfold node_child. rewrite be32_of_bytes by (unfold SIZEOF_SECTOR in *; slen).
  by rewrite sub_sub, Z.add_0_r by (unfold SIZEOF_SECTOR; lia).
Qed.

Lemma bnode_make_ok n s b :
  bc_data (b_dev s) n = Some b →
  ∃ d', bnode_make n s = Ok tt (Bufs d' (b_refs s)) ∧ dev_upd (b_dev s) n (zeros (zlen b)) d'.
Proof using L.
  intros Hb. unfold bnode_make, bh_data, bh_set_data. mrun. rewrite Hb.
  eexists. split; [done|]. eapply dev_upd_store; [done|].
  apply zlen_zeros. apply zlen_nonneg.
Qed.

(** ** Insertion *)
Definition crashed {S A} (o : out S A) : Prop := ∃ c, o = Crash c.

(** Into a node that has entries already *)
Lemma bin_insert_nonempty n inp gt s b fuel :
  bc_data (b_dev s) n = Some b → 4 ≤ zlen b → zlen b ≤ 2 ^ 40 →
  0 < node_length b → node_length b < 100 → (16 ≤ fuel)%nat →
  crashed (bnode_bin_insert fuel n inp gt s).
Proof using.
  intros Hb Hsz Hsz' Hl Hl' Hf. unfold crashed, bnode_bin_insert, bnode_is_full, bnode_child_length.
  assert (Hlen : bnode_length n s = Ok (node_length b) s) by (eapply bnode_length_ok; [done|lia..]).
  rewrite (bind_ok _ _ s false s) by (mrun; rewrite Hlen; unfold bnode_capacity; by decide_if).
  rewrite (bind_ok _ _ s (node_length b + 1) s) by (mrun; rewrite Hlen; by decide_if).
  decide_if. rewrite (bind_ok _ _ s tt s) by done.
  destruct (find_gte_nonempty n (be32_to_cpu (be_id inp)) s b fuel)
    as [Hc|(i & Hi & Hin & Hid & Hk)]; [done|lia..| |].
  { rewrite (bind_crash _ _ _ _ Hc). eauto. }
  rewrite (bind_ok _ _ _ _ _ Hk).
  assert (0 ≤ E i) by (unfold E, SIZEOF_BENTRY, bnode_off_entries, bnode_off_length; lia).
  exists BugOn. erewrite bind_crash; [done|].
  erewrite bind_ok by (eapply entry_load_id_ok; [done|lia..]).
  apply bind_crash. unfold BUG_ON, bentry_is_eq. cbn [be_id].
  rewrite entry_id_at, Hid by lia. by decide_if by done.
Qed.

(** ... when no number behind the entries, where the search looks, is the one to insert *)
Lemma bin_insert_astray n inp gt s b fuel :
  bc_data (b_dev s) n = Some b → 4 ≤ zlen b → zlen b ≤ 2 ^ 40 →
  0 < node_length b → node_length b < 100 → (16 ≤ fuel)%nat →
  (∀ i, 8 * node_length b ≤ i → E i + 8 ≤ zlen b → node_id_at b (E i) ≠ be32_to_cpu (be_id inp)) →
  bnode_bin_insert fuel n inp gt s = Crash OutOfBounds.
Proof using.
  intros Hb Hsz Hsz' Hl Hl' Hf Hno. unfold bnode_bin_insert, bnode_is_full, bnode_child_length.
  assert (Hlen : bnode_length n s = Ok (node_length b) s) by (eapply bnode_length_ok; [done|lia..]).
  rewrite (bind_ok _ _ s false s) by (mrun; rewrite Hlen; unfold bnode_capacity; by decide_if).
  rewrite (bind_ok _ _ s (node_length b + 1) s) by (mrun; rewrite Hlen; by decide_if).
  decide_if. rewrite (bind_ok _ _ s tt s) by done.
  destruct (find_gte_nonempty n (be32_to_cpu (be_id inp)) s b fuel)
    as [Hc|(i & Hi & Hin & Hid & _)]; [done|lia..| |].
  - by rewrite (bind_crash _ _ _ _ Hc).
  - by destruct (Hno i).
Qed.

(** Into a node without entries: the block it leaves *)
Definition one_entry_node (inp : spfs_bentry) (gt : Z) (b : list byte) : list byte :=
  splice (bnode_off_children + 8) (be_split 4 gt ++ zeros 4)
    (splice 0 (be_split 4 1)
      (splice (E 0) (bentry_bytes inp)
        (splice bnode_off_children (be_split 4 0 ++ zeros 4) b))).

Lemma node_length_splice p raw b :
  4 ≤ p → p + zlen raw ≤ zlen b → node_length (splice p raw b) = node_length b.
Proof using.
  intros. unfold node_length, bnode_off_length. rewrite sub_splice_before by lia. done.
Qed.

Lemma node_length_set l b :
  4 ≤ zlen b → 0 ≤ l ≤ 100 → node_length (splice 0 (be_split 4 l) b) = l.
Proof using.
  intros. unfold node_length, bnode_off_length. rewrite sub_splice_eq by slen.
  rewrite be_combine_split. apply Z.mod_small. cbn. lia.
Qed.

Lemma bin_insert_empty n inp gt s b fuel :
  bc_data (b_dev s) n = Some b → NODE_BYTES ≤ zlen b → node_length b = 0 →
  ∃ d', bnode_bin_insert fuel n inp gt s = Ok (Some 4) (Bufs d' (b_refs s)) ∧
    dev_upd (b_dev s) n (one_entry_node inp gt b) d'.
Proof using L.
  unfold NODE_BYTES. intros Hb Hsz Hl. unfold bnode_bin_insert, bnode_is_full, bnode_child_length.
  assert (bnode_off_children = 1604) as Hoc by done. assert (E 0 = 4) as HE0 by done.
  assert (Hlen : bnode_length n s = Ok 0 s).
  { rewrite <-Hl. eapply bnode_length_ok; [done|lia..]. }
  rewrite (bind_ok _ _ s false s) by (mrun; by rewrite Hlen).
  rewrite (bind_ok _ _ s 0 s) by (mrun; by rewrite Hlen). decide_if by done.
  destruct (bnode_set_child_ok n 0 0 s b Hb) as (d1 & E1 & U1); [lia|lia|].
  rewrite Z.mul_0_l, Z.add_0_r in U1. rewrite (bind_ok _ _ _ _ _ E1).
  set (b1 := splice bnode_off_children _ b) in *.
  assert (Hz1 : zlen b1 = zlen b) by (unfold b1; slen).
  assert (Hl1 : node_length b1 = 0) by (unfold b1; rewrite node_length_splice; slen).
  pose proof (dev_upd_data _ _ _ _ U1) as Hb1. set (s1 := Bufs d1 (b_refs s)) in *.
  erewrite bind_ok by (eapply (find_gte_empty n _ s1); [done|lia|done]).
  rewrite (bind_ok _ _ s1 (E 0) s1), index_of_entry by done. cbn [Z.mul].
  rewrite (bool_decide_eq_true_2 (0 ≤ 6)) by lia.
  rewrite (bind_ok _ _ s1 tt s1) by done.
  rewrite (bind_ok _ _ s1 0 s1) by (rewrite <-Hl1; eapply bnode_length_ok; [done|lia..]).
  change (u64 (u64 (0 - 16 * 0) * SIZEOF_BENTRY)) with 0.
  erewrite bind_ok by (eapply (node_load_ok n _ _ s1); [done|lia..]). rewrite sub_nil.
  destruct (node_store_ok n (E 0 + SIZEOF_BENTRY) [] s1 b1 Hb1) as (d2 & E2 & U2);
    [done|rewrite Hz1; change (zlen []) with 0; change (E 0 + SIZEOF_BENTRY) with 20; lia|].
  rewrite splice_nil in U2. rewrite (bind_ok _ _ _ _ _ E2). cbn [b_refs s1].
  pose proof (dev_upd_data _ _ _ _ U2) as Hb2. set (s2 := Bufs d2 (b_refs s)) in *.
  destruct (bnode_set_entry_ok n 0 inp s2 b1 Hb2) as (d3 & E3 & U3); [lia|lia|].
  rewrite Z.mul_0_r, (bind_ok _ _ _ _ _ E3). cbn [b_refs s2].
  set (b3 := splice (E 0) _ b1) in *. pose proof (zlen_bentry_bytes inp) as Hzb.
  assert (Hz3 : zlen b3 = zlen b) by (unfold b3; rewrite zlen_splice; lia).
  pose proof (dev_upd_data _ _ _ _ U3) as Hb3. set (s3 := Bufs d3 (b_refs s)) in *.
  destruct (bnode_set_length_ok n (0 + 1) s3 b3 Hb3) as (d4 & E4 & U4); [lia|lia|].
  rewrite (bind_ok _ _ _ _ _ E4). cbn [b_refs s3]. rewrite Z.add_0_l in U4 |- *.
  set (b4 := splice 0 _ b3) in *. assert (Hz4 : zlen b4 = zlen b) by (unfold b4; slen).
  pose proof (dev_upd_data _ _ _ _ U4) as Hb4. set (s4 := Bufs d4 (b_refs s)) in *.
  destruct (bnode_set_child_ok n 1 gt s4 b4 Hb4) as (d5 & E5 & U5); [lia|lia|].
  rewrite (bind_ok _ _ _ _ _ E5). cbn [b_refs s4]. rewrite Z.mul_1_l in U5.
  pose proof (dev_upd_data _ _ _ _ U5) as Hb5. set (s5 := Bufs d5 (b_refs s)) in *.
  assert (Hl5 : node_length (splice (bnode_off_children + 8) (be_split 4 gt ++ zeros 4) b4) = 1).
  { rewrite node_length_splice by slen. unfold b4. apply node_length_set; lia. }
  rewrite (bind_ok _ _ s5 1 s5) by (rewrite <-Hl5; eapply bnode_length_ok; [done|slen|lia]).
  rewrite (bind_ok _ _ s5 tt s5) by done. exists d5. split; [done|].
  eapply dev_upd_trans; [exact U1|]. eapply dev_upd_trans; [exact U2|].
  eapply dev_upd_trans; [exact U3|]. eapply dev_upd_trans; [exact U4|exact U5].
Qed.

(** What the fields of that block are *)
Lemma one_entry_node_fields inp gt b :
  NODE_BYTES ≤ zlen b → 0 ≤ be_id inp < 2 ^ 64 → 0 ≤ be_offset inp < 2 ^ 64 →
  let b' := one_entry_node inp gt b in
  zlen b' = zlen b ∧ node_length b' = 1 ∧ node_entry b' 0 = inp ∧
  node_child b' 0 = 0 ∧ node_child b' 1 = u32 gt.
Proof using.
  unfold NODE_BYTES. intros Hsz Hi Ho. cbn zeta.
  assert (bnode_off_children = 1604) as Hoc by done. assert (E 0 = 4) as HE0 by done.
  pose proof (zlen_bentry_bytes inp) as Hzb.
  unfold one_entry_node. rewrite Hoc, HE0.
  assert (Hz : ∀ b, 2412 ≤ zlen b → zlen (splice 4 (bentry_bytes inp) b) = zlen b)
    by (intros; apply zlen_splice; lia).
  split_and!.
  - repeat (rewrite zlen_splice || rewrite Hz); slen.
  - rewrite node_length_splice by slen. apply node_length_set; slen.
  - unfold node_entry, bnode_off_entries, bnode_off_length, SIZEOF_BENTRY.
    rewrite sub_splice_before by slen. rewrite sub_splice_after by slen.
    rewrite sub_splice_eq by slen. unfold bentry_of_bytes, bentry_bytes.
    destruct inp as [i o]. cbn [be_id be_offset] in *. f_equal; sub_field.
    all: rewrite le_combine_split; apply Z.mod_small; cbn; lia.
  - unfold node_child. rewrite Hoc. unfold SIZEOF_SECTOR. rewrite Z.mul_0_l, Z.add_0_r.
    rewrite sub_splice_before by slen. rewrite sub_splice_after by slen.
    rewrite sub_splice_after by slen. rewrite sub_splice_in by slen. by sub_field.
  - unfold node_child. rewrite Hoc. unfold SIZEOF_SECTOR. rewrite Z.mul_1_l.
    rewrite sub_splice_in by slen. sub_field. by rewrite be_combine_split.
Qed.

(** Where the search looks there are zeros, if there were before. *)
Lemma one_entry_node_astray inp gt z i :
  NODE_BYTES ≤ z → 8 ≤ i → E i + 8 ≤ z → node_id_at (one_entry_node inp gt (zeros z)) (E i) = 0.
Proof using.
  unfold NODE_BYTES, E, SIZEOF_BENTRY. change bnode_off_entries with 4. intros Hz Hi Hin.
  pose proof (zlen_bentry_bytes inp) as Hzb. unfold node_id_at, one_entry_node.
  change (bnode_off_children + 8) with 1612. change bnode_off_children with 1604. change (E 0) with 4.
  assert (Hz1 : zlen (splice 1604 (be_split 4 0 ++ zeros 4) (zeros z)) = z) by slen.
  assert (Hz2 : zlen (splice 4 (bentry_bytes inp) (splice 1604 (be_split 4 0 ++ zeros 4) (zeros z))) = z)
    by (rewrite zlen_splice; lia).
  destruct (decide (i ≤ 100)); [rewrite sub_splice_before by slen|rewrite sub_splice_after by slen].
  all: rewrite sub_splice_after by (rewrite ?zlen_be_split; lia).
  all: rewrite sub_splice_after by lia.
  - destruct (decide (i = 100)) as [->|]; [rewrite sub_splice_in by slen; by sub_field|].
    rewrite sub_splice_before by slen. rewrite sub_zeros by lia. apply be_combine_zeros.
  - rewrite sub_splice_after by slen. rewrite sub_zeros by lia. apply be_combine_zeros.
Qed.
End node_ops.

(** ** Properties *)
Section properties.
Context {D : Type} {B : BufferCache D} {L : BufferCacheLaws D}.

(** A child stored at an index within the node is read back as its low 32 bits,
    and the store changes neither the length, nor an entry, nor another child. *)
Theorem bnode_child_roundtrip n i c (s : bufs D) b :
  bc_data (b_dev s) n = Some b → NODE_BYTES ≤ zlen b →
  0 ≤ i → i ≤ node_length b → node_length b ≤ 100 →
  ∃ d' b', bnode_set_child n i c s = Ok tt (Bufs d' (b_refs s)) ∧ dev_upd (b_dev s) n b' d' ∧
    bnode_get_child n i (Bufs d' (b_refs s)) = Ok (u32 c) (Bufs d' (b_refs s)) ∧
    node_length b' = node_length b ∧
    (∀ j, 0 ≤ j < 100 → node_entry b' j = node_entry b j) ∧
    (∀ j, 0 ≤ j → j ≠ i → node_child b' j = node_child b j).
Proof using L.
  unfold NODE_BYTES. intros Hb Hsz Hi Hil Hl.
  assert (bnode_off_children = 1604) as Hoc by done.
  destruct (bnode_set_child_ok n i c s b Hb) as (d' & E1 & U1); [lia|lia|].
  set (b' := splice _ _ b) in *. exists d', b'.
  assert (Hl' : node_length b' = node_length b) by (unfold b'; rewrite node_length_splice; slen).
  split_and!; [done|done| |done| |].
  - assert (node_child b' i = u32 c) as <-.
    { unfold node_child, b', SIZEOF_SECTOR. rewrite sub_splice_in by slen. sub_field.
      by rewrite be_combine_split. }
    apply (bnode_get_child_ok n i (Bufs d' (b_refs s)) b'); [by eapply dev_upd_data|lia..|].
    unfold b'. slen.
  - intros j ?. unfold node_entry, b', SIZEOF_BENTRY, bnode_off_entries, bnode_off_length.
    by rewrite sub_splice_before by slen.
  - intros j ? ?. unfold node_child, b', SIZEOF_SECTOR. f_equal.
    destruct (decide (j < i)); [by rewrite sub_splice_before by slen|].
    by rewrite sub_splice_after by slen.
Qed.

(** C38: the binary search of a node without entries answers NULL; on a node with
    entries it never answers NULL and never one of the entries: it reads outside of
    the block, or stops at an address at least eight times the length behind the
    first entry, where it happened to find the needle.  24 rounds are enough. *)
Theorem find_gte_returns n needle (s : bufs D) b fuel :
  bc_data (b_dev s) n = Some b → 4 ≤ zlen b → zlen b ≤ 2 ^ 40 →
  node_length b ≤ 100 → (16 ≤ fuel)%nat →
  if bool_decide (node_length b = 0) then bnode_bin_find_gte fuel n needle s = Ok None s
  else
    bnode_bin_find_gte fuel n needle s = Crash OutOfBounds ∨
    ∃ i, 8 * node_length b ≤ i ∧ node_id_at b (E i) = needle ∧
         bnode_bin_find_gte fuel n needle s = Ok (Some (E i)) s.
Proof using.
  intros Hb Hsz Hsz' Hl Hf. pose proof (node_length_range b Hsz).
  case_bool_decide; [by eapply find_gte_empty|].
  destruct (find_gte_nonempty n needle s b fuel) as [?|(i & ? & ? & ? & ?)]; [done|lia..|auto|].
  right. by exists i.
Qed.

(** Inserting into a node without entries gives the node with that one entry, a
    zero child below it and the given child above it, and touches no other block. *)
Theorem bin_insert_first n inp gt (s : bufs D) b fuel :
  bc_data (b_dev s) n = Some b → NODE_BYTES ≤ zlen b → node_length b = 0 →
  0 ≤ be_id inp < 2 ^ 64 → 0 ≤ be_offset inp < 2 ^ 64 →
  ∃ d' b', bnode_bin_insert fuel n inp gt s = Ok (Some 4) (Bufs d' (b_refs s)) ∧
    dev_upd (b_dev s) n b' d' ∧ zlen b' = zlen b ∧
    node_length b' = 1 ∧ node_entry b' 0 = inp ∧ node_child b' 0 = 0 ∧ node_child b' 1 = u32 gt.
Proof using L.
  intros Hb Hsz Hl Hi Ho. destruct (bin_insert_empty n inp gt s b fuel) as (d' & ? & ?); [done..|].
  exists d', (one_entry_node inp gt b). split; [done|]. split; [done|].
  by apply one_entry_node_fields.
Qed.

(** Inserting into a node that has entries and is not full never returns: the
    search goes out of bounds, or one of the assertions fires. *)
Theorem bin_insert_second n inp gt (s : bufs D) b fuel :
  bc_data (b_dev s) n = Some b → 4 ≤ zlen b → zlen b ≤ 2 ^ 40 →
  0 < node_length b → node_length b < 100 → (16 ≤ fuel)%nat →
  crashed (bnode_bin_insert fuel n inp gt s).
Proof using. apply bin_insert_nonempty. Qed.
End properties.

(** ** Witnesses *)
Definition node_dev : memdev :=
  MemDev 4096
    {[ 3 := splice 0 (be_split 4 2) (zeros 4096); 4 := zeros 4096 ]} ∅.

Lemma bnode_child_roundtrip_witness :
  ∃ d' b', bnode_set_child 3 1 77 (Bufs node_dev 0) = Ok tt (Bufs d' 0) ∧
    dev_upd node_dev 3 b' d' ∧
    bnode_get_child 3 1 (Bufs d' 0) = Ok (u32 77) (Bufs d' 0) ∧
    node_length b' = node_length (splice 0 (be_split 4 2) (zeros 4096)) ∧
    (∀ j, 0 ≤ j < 100 →
       node_entry b' j = node_entry (splice 0 (be_split 4 2) (zeros 4096)) j) ∧
    (∀ j, 0 ≤ j → j ≠ 1 →
       node_child b' j = node_child (splice 0 (be_split 4 2) (zeros 4096)) j).
Proof.
  apply (bnode_child_roundtrip 3 1 77 (Bufs node_dev 0)); vm_compute; (reflexivity || congruence).
Defined.

Lemma find_gte_returns_witness :
  bnode_bin_find_gte 24 4 7 (Bufs node_dev 0) = Ok None (Bufs node_dev 0).
Proof.
  apply (find_gte_returns 4 7 (Bufs node_dev 0) (zeros 4096) 24);
    vm_compute; (reflexivity || congruence || lia).
Defined.

Lemma bin_insert_first_witness :
  ∃ d' b', bnode_bin_insert 24 4 (bb_entry (bubble_make 2 9 0)) 0 (Bufs node_dev 0) =
      Ok (Some 4) (Bufs d' 0) ∧
    dev_upd node_dev 4 b' d' ∧ zlen b' = zlen (zeros 4096) ∧ node_length b' = 1 ∧
    node_entry b' 0 = bb_entry (bubble_make 2 9 0) ∧ node_child b' 0 = 0 ∧ node_child b' 1 = u32 0.
Proof.
  apply (bin_insert_first 4 (bb_entry (bubble_make 2 9 0)) 0 (Bufs node_dev 0));
    vm_compute; (reflexivity || (try split; congruence)).
Defined.

Lemma bin_insert_second_witness :
  crashed (bnode_bin_insert 24 3 (bb_entry (bubble_make 2 9 0)) 0 (Bufs node_dev 0)).
Proof.
  eapply (bin_insert_second 3 _ 0 (Bufs node_dev 0) (splice 0 (be_split 4 2) (zeros 4096)) 24);
    vm_compute; (reflexivity || congruence || lia).
Defined.
