(* ===== verification/Btree.v ===== *)
(** * btree.c: the tree of inode records

    The tree maps inode numbers to the blocks of their records.  Its state [btree_st]
    is the buffer cache, the free list it allocates from and [struct spfs_btree];
    its functions follow the source, with the results that C passes through pointers
    ([bubble], [out]) as components of the returned value and integer return codes
    that the callers inspect as values. *)
From S2P Require Import Prelude Util Buffers FreeList Inode Bnode.

Record spfs_btree := Btree {
  bt_lock : bool;
  bt_block_size : Z;
  bt_blocks : Z;
  bt_start : Z;
}.

Record btree_st (D : Type) := BtreeSt {
  t_bufs : bufs D;
  t_free : spfs_free_list;
  t_tree : spfs_btree;
}.
Arguments BtreeSt {D} _ _ _.
Arguments t_bufs {D} _.
Arguments t_free {D} _.
Arguments t_tree {D} _.

Definition set_start (start : Z) (t : spfs_btree) : spfs_btree :=
  Btree (bt_lock t) (bt_block_size t) (bt_blocks t) start.

(** [spfs_btree_init]: one block per node *)
Definition spfs_btree_init (block_size start : Z) : spfs_btree := Btree false block_size 1 start.

Section btree.
Context {D : Type} {B : BufferCache D}.
Abbreviation MT := (M (btree_st D)).

Definition t_bufs_lens : lens (btree_st D) (bufs D) :=
  Lens t_bufs (λ b s, BtreeSt b (t_free s) (t_tree s)).
Definition t_free_lens : lens (btree_st D) spfs_free_list :=
  Lens t_free (λ f s, BtreeSt (t_bufs s) f (t_tree s)).
Definition t_tree_lens : lens (btree_st D) spfs_btree :=
  Lens t_tree (λ t s, BtreeSt (t_bufs s) (t_free s) t).

(** fuel for [bnode_bin_find_gte]: see [find_gte_returns] *)
Definition FIND_FUEL : nat := 24.

Definition find_gte (n needle : Z) : M (bufs D) (option Z) :=
  bnode_bin_find_gte FIND_FUEL n needle.

(** ** Visiting one record *)
(** The callback gets the parsed record and says whether it changed it; [C] is what
    [closure] points to. *)
Definition btree_modify_cb (C : Type) : Type :=
  C → spfs_inode → M (bufs D) (bool * C * spfs_inode).

(** [cur0] is the uninitialised stack variable the record is parsed into; the result
    carries the closure's final contents. *)
Definition btree_visit_entry {C} (frame : Z → list byte) (cur0 : spfs_inode) (offset : Z)
    (closure : C) (cb : btree_modify_cb C) : M (bufs D) C :=
  if bool_decide (offset = 0) then err 1
  else
    ok ← sb_bread offset;
    if negb ok then err 10
    else
      r ← catch (in_bh offset 0 (spfs_inode_parse cur0));
      match r with
      | inl res => brelse offset;; err res
      | inr (cur, _) =>
          v ← cb closure cur;
          let '(dirty, closure, cur) := v in
          (if (dirty : bool) then
             catch (on_bh offset 0 (spfs_inode_make frame cur));;
             mark_buffer_dirty offset
           else mret tt);;
          brelse offset;;
          mret closure
      end.

(** The [goto Lit] descent of [spfs_btree_modify] *)
Fixpoint btree_modify_loop {C} (fuel : nat) (frame : Z → list byte) (cur0 : spfs_inode)
    (offset ino : Z) (closure : C) (cb : btree_modify_cb C) : M (bufs D) C :=
  match fuel with
  | O => crashes NoFuel
  | S fuel =>
      if bool_decide (offset = 0) then err 1
      else
        ok ← sb_bread offset;
        if negb ok then err (-EIO)
        else
          gte ← find_gte offset ino;
          match gte with
          | Some gte =>
              e ← entry_load_id offset gte;
              if bentry_is_eq e ino then
                e ← entry_load offset gte;
                let entry_offset := bentry_offset e in
                brelse offset;;
                btree_visit_entry frame cur0 entry_offset closure cb
              else
                let index := bnode_index_of offset (PNode offset gte) in
                child ← bnode_get_child offset index;
                brelse offset;;
                btree_modify_loop fuel frame cur0 child ino closure cb
          | None =>
              length ← bnode_length offset;
              child ← bnode_get_child offset length;
              brelse offset;;
              btree_modify_loop fuel frame cur0 child ino closure cb
          end
  end.

Definition spfs_btree_modify {C} (fuel : nat) (frame : Z → list byte) (cur0 : spfs_inode)
    (ino : Z) (closure : C) (cb : btree_modify_cb C) : MT C :=
  t ← gets t_tree;
  zoom t_bufs_lens (btree_modify_loop fuel frame cur0 (bt_start t) ino closure cb).

(** [memcpy(dest, result, sizeof( *result))] *)
Definition spfs_btree_lookup_cb : btree_modify_cb spfs_inode := λ dest result,
  mret (false, result, result).

Definition spfs_btree_lookup (fuel : nat) (frame : Z → list byte) (cur0 : spfs_inode)
    (ino : Z) (result : spfs_inode) : MT spfs_inode :=
  spfs_btree_modify fuel frame cur0 ino result spfs_btree_lookup_cb.

(** ** Splitting *)
(** The [for] loops of [bnode_partition], over [i]; the result is [drop]. *)
Fixpoint partition_from (fuel : nat) (from to i drop : Z) : M (bufs D) Z :=
  match fuel with
  | O => crashes NoFuel
  | S fuel =>
      length ← bnode_length from;
      if bool_decide (length ≤ i) then mret drop
      else
        src_gt ← bnode_get_child from (i + 1);
        src ← entry_load from (bnode_off_entries + i * SIZEOF_BENTRY);
        res ← bnode_bin_insert FIND_FUEL to src src_gt;
        BUG_ON (bool_decide (res = None));;
        partition_from fuel from to (i + 1) (drop + 1)
  end.

Fixpoint partition_above (fuel : nat) (from to : Z) (pivot : spfs_bentry) (i drop : Z)
    (move : bool) : M (bufs D) Z :=
  match fuel with
  | O => crashes NoFuel
  | S fuel =>
      length ← bnode_length from;
      if bool_decide (length ≤ i) then BUG_ON (negb move);; mret drop
      else
        src ← entry_load_id from (bnode_off_entries + i * SIZEOF_BENTRY);
        if spfs_bentry_entry_cmp src pivot then
          src_gt ← bnode_get_child from (i + 1);
          src ← entry_load from (bnode_off_entries + i * SIZEOF_BENTRY);
          res ← bnode_bin_insert FIND_FUEL to src src_gt;
          BUG_ON (bool_decide (res = None));;
          partition_above fuel from to pivot (i + 1) (drop + 1) true
        else
          BUG_ON move;;
          partition_above fuel from to pivot (i + 1) drop move
  end.

(** one round per entry of a full node, and the one that leaves the loop *)
Definition PARTITION_FUEL : nat := 102.

(** The id of the entry a pointer points at; [bubble] is the one on the stack. *)
Definition entry_deref (bubble : btree_bubble) (p : entry_ptr) : M (bufs D) spfs_bentry :=
  match p with
  | PNode n off => entry_load_id n off
  | PBubble => mret (bb_entry bubble)
  end.

Definition bnode_partition (from : Z) (bubble : btree_bubble) (pivot : entry_ptr) (to : Z) :
    M (bufs D) unit :=
  let idx := bnode_index_of from pivot in
  drop ←
    (if bool_decide (idx ≠ bnode_capacity) then
       partition_from PARTITION_FUEL from to (idx + 1) 0
     else
       e ← entry_deref bubble pivot;
       partition_above PARTITION_FUEL from to e 0 0 false);
  length ← bnode_length from;
  BUG_ON (bool_decide (length < drop));;
  bnode_set_length from (length - drop);;
  mret tt.

(** The new contents of [dest->entry]; [dest->greater] is left alone. *)
Definition bnode_extract (tree : Z) (needle : entry_ptr) (dest : btree_bubble) (right : Z) :
    M (bufs D) btree_bubble :=
  length ← bnode_length tree;
  let idx := bnode_index_of tree needle in
  BUG_ON (bool_decide (idx = bnode_capacity));;
  BUG_ON (bool_decide (idx ≠ u32 (length - 1)));;
  e ← entry_load tree (bnode_off_entries + idx * SIZEOF_BENTRY);
  gt ← bnode_get_child tree (idx + 1);
  bnode_set_length tree (u32 (length - 1));;
  empty ← bnode_is_empty right;
  BUG_ON empty;;
  first ← bnode_get_child right 0;
  BUG_ON (bool_decide (first ≠ 0));;
  bnode_set_child right 0 gt;;
  mret (Bubble e (bb_greater dest)).

(** ** Insertion *)
(** The return code and the new bubble *)
Definition btree_fixup (tree : Z) (bubble : btree_bubble) : MT (Z * btree_bubble) :=
  BUG_ON (negb (bubble_is_active bubble));;
  full ← zoom t_bufs_lens (bnode_is_full tree);
  if negb full then
    res ← zoom t_bufs_lens (bnode_bin_insert_b FIND_FUEL tree bubble);
    BUG_ON (bool_decide (res = None));;
    mret (0, bubble)
  else
    med ← zoom t_bufs_lens (bnode_median tree (bb_entry bubble));
    t ← gets t_tree;
    right ← zoom t_free_lens (spfs_free_alloc (bt_blocks t));
    BUG_ON (bool_decide (right = 0));;
    ok ← zoom t_bufs_lens (sb_bread right);
    if negb ok then mret (-EIO, bubble)
    else
      bubble ← zoom t_bufs_lens (
        bnode_make right;;
        bnode_partition tree bubble med right;;
        bubble ←
          (match med with
           | PNode _ _ =>
               m ← entry_deref bubble med;
               res ← (if spfs_bubble_cmp bubble (be_id m)
                      then bnode_bin_insert_b FIND_FUEL right bubble
                      else bnode_bin_insert_b FIND_FUEL tree bubble);
               BUG_ON (bool_decide (res = None));;
               bnode_extract tree med bubble right
           | PBubble =>
               first ← bnode_get_child right 0;
               BUG_ON (bool_decide (first ≠ 0));;
               bnode_set_child right 0 (bb_greater bubble);;
               mret bubble
           end);
        mark_buffer_dirty right;;
        brelse right;;
        mret bubble);
      mret (0, Bubble (bb_entry bubble) right).

(** [tree] is the block of the node, [None] for NULL; the result is the return code,
    [*bubble] and [*out]. *)
Fixpoint btree_insert (fuel : nat) (frame : Z → list byte) (tree : option Z) (inp : spfs_inode)
    (out : Z) : MT (Z * btree_bubble * Z) :=
  match fuel with
  | O => crashes NoFuel
  | S fuel =>
      match tree with
      | None =>
          t ← gets t_tree;
          page ← zoom t_free_lens (spfs_free_alloc (bt_blocks t));
          if bool_decide (page = 0) then mret (1, bubble_zero, out)
          else
            ok ← zoom t_bufs_lens (sb_bread page);
            if negb ok then mret (-EIO, bubble_zero, out)
            else
              r ← catch (zoom t_bufs_lens (on_bh page 0 (spfs_inode_make frame inp)));
              match r with
              | inl res => mret (res, bubble_zero, out)
              | inr _ =>
                  zoom t_bufs_lens (mark_buffer_dirty page);;
                  zoom t_bufs_lens (brelse page);;
                  mret (0, bubble_make (i_ino (i_inode inp)) page 0, page)
              end
      | Some tree =>
          let ino := i_ino (i_inode inp) in
          (* the child that is mapped and inserted into, in both branches *)
          let descend child :=
            ok ← zoom t_bufs_lens (sb_bread child);
            if negb ok then mret (inl (-EIO, bubble_zero, out))
            else
              r ← btree_insert fuel frame (Some child) inp out;
              zoom t_bufs_lens (mark_buffer_dirty child);;
              zoom t_bufs_lens (brelse child);;
              mret (inr r) in
          gte ← zoom t_bufs_lens (find_gte tree ino);
          r ←
            (match gte with
             | Some gte =>
                 e ← zoom t_bufs_lens (entry_load_id tree gte);
                 if bentry_is_eq e ino then
                   e ← zoom t_bufs_lens (entry_load tree gte);
                   mret (inl (1, bubble_zero, bentry_offset e))
                 else
                   let index := bnode_index_of tree (PNode tree gte) in
                   BUG_ON (bool_decide (index = bnode_capacity));;
                   child ← zoom t_bufs_lens (bnode_get_child tree index);
                   descend child
             | None =>
                 children ← zoom t_bufs_lens (bnode_child_length tree);
                 BUG_ON (bool_decide (children = 0));;
                 length ← zoom t_bufs_lens (bnode_length tree);
                 BUG_ON (bool_decide (length = 0));;
                 child ← zoom t_bufs_lens (bnode_get_child tree length);
                 descend child
             end);
          match r with
          | inl early => mret early
          | inr (res, bubble, out) =>
              if bubble_is_active bubble then
                f ← btree_fixup tree bubble;
                mret (f.1, f.2, out)
              else mret (res, bubble, out)
          end
      end
  end.

Definition bnode_alloc_root (bubble : btree_bubble) : MT Z :=
  t ← gets t_tree;
  let less := bt_start t in
  root ← zoom t_free_lens (spfs_free_alloc (bt_blocks t));
  if bool_decide (root = 0) then mret (-ENOMEM)
  else
    ok ← zoom t_bufs_lens (sb_bread less);
    if negb ok then mret (-EIO)
    else
      zoom t_bufs_lens (bnode_make less);;
      zoom t_tree_lens (modify (set_start root));;
      zoom t_bufs_lens (
        bnode_child_add_back less less;;
        ires ← bnode_bin_insert_b FIND_FUEL less bubble;
        BUG_ON (bool_decide (ires = None));;
        length ← bnode_length less;
        BUG_ON (bool_decide (length = 0));;
        children ← bnode_child_length less;
        BUG_ON (bool_decide (children = 0));;
        mark_buffer_dirty less;;
        brelse less);;
      mret 0.

Definition spfs_btree_insert (fuel : nat) (frame : Z → list byte) (inp : spfs_inode) : MT unit :=
  t ← gets t_tree;
  let start := bt_start t in
  tree ←
    (if bool_decide (start = 0) then mret None
     else
       ok ← zoom t_bufs_lens (sb_bread start);
       if negb ok then err (-EIO) else mret (Some start));
  r ← btree_insert fuel frame tree inp 0;
  let '(res, bubble, out) := r in
  (match tree with
   | Some start =>
       zoom t_bufs_lens (mark_buffer_dirty start);; zoom t_bufs_lens (brelse start)
   | None => mret tt
   end);;
  (if bubble_is_active bubble then
     nres ← bnode_alloc_root bubble;
     BUG_ON (bool_decide (nres ≠ 0))
   else mret tt);;
  if bool_decide (res = 0) then mret tt else err res.
End btree.

(** ** The functions on their main paths *)
Section btree_facts.
Context {D : Type} {B : BufferCache D} {L : BufferCacheLaws D}.
Implicit Types (d : D) (fl : spfs_free_list) (t : spfs_btree).

(** The block [bnode_alloc_root] leaves: a node with the bubble as its one entry *)
Definition new_root (bubble : btree_bubble) (less size : Z) : list byte :=
  one_entry_node (bb_entry bubble) (bb_greater bubble)
    (splice bnode_off_children (be_split 4 less ++ zeros 4) (zeros size)).

Lemma new_root_fields bubble less size :
  NODE_BYTES ≤ size →
  0 ≤ be_id (bb_entry bubble) < 2 ^ 64 → 0 ≤ be_offset (bb_entry bubble) < 2 ^ 64 →
  let b := new_root bubble less size in
  zlen b = size ∧ node_length b = 1 ∧ node_entry b 0 = bb_entry bubble ∧
  node_child b 0 = 0 ∧ node_child b 1 = u32 (bb_greater bubble).
Proof using.
  unfold NODE_BYTES. intros Hsz Hi Ho. assert (bnode_off_children = 1604) as Hoc by done.
  assert (zlen (splice bnode_off_children (be_split 4 less ++ zeros 4) (zeros size)) = size) as Hz
    by slen.
  cbv zeta. rewrite <-Hz at 2. apply one_entry_node_fields; [unfold NODE_BYTES; lia|done..].
Qed.

Lemma bnode_child_add_back_ok n c (s : bufs D) b :
  bc_data (b_dev s) n = Some b → NODE_BYTES ≤ zlen b → node_length b = 0 →
  ∃ d', bnode_child_add_back n c s = Ok tt (Bufs d' (b_refs s)) ∧
    dev_upd (b_dev s) n (splice bnode_off_children (be_split 4 c ++ zeros 4) b) d'.
Proof using L.
  unfold NODE_BYTES. intros Hb Hsz Hl. unfold bnode_child_add_back.
  assert (E1 : bnode_length n s = Ok 0 s).
  { rewrite <-Hl. eapply bnode_length_ok; [done|lia..]. }
  exec E1. rewrite Z.mul_0_l, Z.add_0_r, cpu_to_be32_bytes8.
  assert (bnode_off_children = 1604) as Hoc by done.
  apply node_store_ok; [done|lia|slen].
Qed.

Lemma node_length_zeros size : 4 ≤ size → node_length (zeros size) = 0.
Proof using.
  intros. unfold node_length, bnode_off_length. rewrite sub_zeros by lia. apply be_combine_zeros.
Qed.

Lemma bnode_alloc_root_ok bubble d r fl t root fl' b :
  spfs_free_alloc (bt_blocks t) fl = Ok root fl' → root ≠ 0 →
  bc_data d (bt_start t) = Some b → NODE_BYTES ≤ zlen b →
  ∃ d', bnode_alloc_root bubble (BtreeSt (Bufs d r) fl t) =
      Ok 0 (BtreeSt (Bufs d' r) fl' (set_start root t)) ∧
    dev_upd d (bt_start t) (new_root bubble (bt_start t) (zlen b)) d'.
Proof using L.
  intros E1 Hroot Hb Hsz. pose proof Hsz as Hsz0. unfold NODE_BYTES in Hsz0.
  assert (bnode_off_children = 1604) as Hoc by done. assert (E 0 = 4) as HE0 by done.
  set (n := bt_start t) in *.
  unfold bnode_alloc_root. erewrite bind_ok by done. cbn [t_tree]. fold n.
  exec E1. decide_if by done.
  pose proof (sb_bread_ok n (Bufs d r) b Hb) as E2. exec E2. cbn [negb].
  destruct (bnode_make_ok n (Bufs d (r + 1)) b Hb) as (d1 & E3 & U1).
  exec E3. erewrite bind_ok by done. cbn. pose proof (dev_upd_data _ _ _ _ U1) as Hb1.
  assert (Hz1 : zlen (zeros (zlen b)) = zlen b) by (apply zlen_zeros; lia).
  destruct (bnode_child_add_back_ok n n (Bufs d1 (r + 1)) _ Hb1) as (d2 & E4 & U2);
    [by rewrite Hz1|by apply node_length_zeros; lia|].
  set (b2 := splice _ _ _) in *. pose proof (dev_upd_data _ _ _ _ U2) as Hb2.
  assert (Hz2 : zlen b2 = zlen b) by (unfold b2; slen).
  destruct (bin_insert_empty n (bb_entry bubble) (bb_greater bubble) (Bufs d2 (r + 1)) b2 FIND_FUEL)
    as (d3 & E5 & U3); [done|by rewrite Hz2|by unfold b2; rewrite node_length_splice; [apply node_length_zeros|..]; slen|].
  pose proof (dev_upd_data _ _ _ _ U3) as Hb3.
  assert (Hl3 : node_length (one_entry_node (bb_entry bubble) (bb_greater bubble) b2) = 1).
  { unfold one_entry_node. rewrite node_length_splice by slen. apply node_length_set; slen. }
  assert (E6 : bnode_length n (Bufs d3 (r + 1)) = Ok 1 (Bufs d3 (r + 1))).
  { rewrite <-Hl3. eapply bnode_length_ok; [done| |lia]. unfold one_entry_node. slen. }
  exists (bc_dirty d3 n). split.
  - erewrite bind_ok; [|apply zoom_ok].
    2:{ cbn. exec E4. cbn [b_refs]. exec E5. cbn [b_refs]. erewrite bind_ok by done.
        exec E6. erewrite bind_ok by done.
        assert (E7 : bnode_child_length n (Bufs d3 (r + 1)) = Ok 2 (Bufs d3 (r + 1))).
        { unfold bnode_child_length. by exec E6. }
        exec E7. erewrite bind_ok by done. erewrite bind_ok by done. done. }
    cbn. unfold mret, M_ret. do 3 f_equal. lia.
  - apply dev_upd_dirty. eapply dev_upd_trans; [exact U1|].
    by eapply dev_upd_trans; [exact U2|].
Qed.

(** The first level of [btree_insert]: writing the record of a new inode *)
Lemma btree_insert_null_ok fuel frame inp out d r fl t page fl' b :
  spfs_free_alloc (bt_blocks t) fl = Ok page fl' → page ≠ 0 →
  bc_data d page = Some b → INODE_BYTES ≤ zlen b →
  zlen (frame SPOOKY_FS_NAME_MAX) = SPOOKY_FS_NAME_MAX →
  ∃ d', btree_insert (S fuel) frame None inp out (BtreeSt (Bufs d r) fl t) =
      Ok (0, bubble_make (i_ino (i_inode inp)) page 0, page) (BtreeSt (Bufs d' r) fl' t) ∧
    dev_upd d page (splice 0 (inode_record frame inp) b) d'.
Proof using L.
  intros E1 Hpage Hb Hsz Hf. cbn [btree_insert]. erewrite bind_ok by done. cbn [t_tree].
  exec E1. decide_if by done.
  pose proof (sb_bread_ok page (Bufs d r) b Hb) as E2. exec E2. cbn [negb t_bufs].
  pose proof (on_bh_ok page 0 _ (Bufs d (r + 1)) b _ _ Hb (spfs_inode_make_eq frame Hf inp b Hsz)) as E3.
  exec E3. cbn. erewrite bind_ok by done. erewrite bind_ok by done. cbn.
  exists (bc_dirty (bc_store d page (splice 0 (inode_record frame inp) b)) page). split.
  - unfold mret, M_ret. do 3 f_equal. lia.
  - apply dev_upd_dirty. eapply dev_upd_store; [done|].
    rewrite zlen_splice; rewrite ?zlen_inode_record by done; lia.
Qed.

Lemma bubble_make_active id page gt :
  u32 id ≠ 0 → bubble_is_active (bubble_make id page gt) = true.
Proof using.
  intros H. unfold bubble_is_active, bubble_make. cbn. apply bool_decide_eq_true_2.
  intros Hz. by apply H, cpu_to_be32_zero.
Qed.

Lemma bubble_make_range id page gt :
  0 ≤ be_id (bb_entry (bubble_make id page gt)) < 2 ^ 64 ∧
  0 ≤ be_offset (bb_entry (bubble_make id page gt)) < 2 ^ 64.
Proof using.
  unfold bubble_make. cbn [bb_entry be_id be_offset].
  pose proof (cpu_to_be32_range id). pose proof (cpu_to_be32_range page). lia.
Qed.

(** ** The tree once its root block has entries *)
Lemma descend_nonempty_insert fuel frame n inp out s b :
  bc_data (b_dev (t_bufs s)) n = Some b → 4 ≤ zlen b → zlen b ≤ 2 ^ 40 →
  crashed (btree_insert (S fuel) frame (Some n) inp out s) ∨
  ∃ out', btree_insert (S fuel) frame (Some n) inp out s = Ok (1, bubble_zero, out') s.
Proof using L.
  intros Hb Hsz Hsz'. pose proof (node_length_range b Hsz) as Hr. cbn [btree_insert].
  destruct (decide (100 < node_length b)) as [Hbig|Hsmall].
  { left. exists BugOn. apply bind_crash, zoom_crash. cbn. unfold find_gte, bnode_bin_find_gte.
    apply bind_crash. by eapply bnode_length_bug. }
  assert (Hlen : bnode_length n (t_bufs s) = Ok (node_length b) (t_bufs s)).
  { eapply bnode_length_ok; [done|lia..]. }
  destruct (decide (node_length b = 0)) as [Hz|Hnz].
  { left. exists BugOn.
    assert (E1 : find_gte n (i_ino (i_inode inp)) (t_bufs s) = Ok None (t_bufs s))
      by (by eapply find_gte_empty).
    exec E1. apply bind_crash.
    assert (E2 : bnode_child_length n (t_bufs s) = Ok 0 (t_bufs s)).
    { unfold bnode_child_length. exec Hlen. by decide_if. }
    exec E2. by apply bind_crash. }
  destruct (find_gte_nonempty n (i_ino (i_inode inp)) (t_bufs s) b FIND_FUEL)
    as [Hc|(i & Hi & Hin & Hid & E1)]; [done|lia..|unfold FIND_FUEL; lia| |].
  { left. exists OutOfBounds. by apply bind_crash, zoom_crash. }
  assert (0 ≤ E i) by (unfold E, SIZEOF_BENTRY, bnode_off_entries, bnode_off_length; lia).
  exec E1. pose proof (entry_load_id_ok n (E i) (t_bufs s) b Hb ltac:(lia) ltac:(lia)) as E2.
  destruct (decide (E i + 16 ≤ zlen b)).
  - right. eexists. erewrite bind_ok; cycle 1.
    { cbn [t_bufs t_bufs_lens lget lset]. exec E2.
      unfold bentry_is_eq. cbn [be_id]. rewrite entry_id_at, Hid by lia. decide_if by done.
      erewrite bind_ok; [done|]. apply zoom_ok. cbn. unfold entry_load.
      erewrite bind_ok; [done|]. by apply node_load_ok; [|unfold SIZEOF_BENTRY..]. }
    cbn. by destruct s.
  - left. exists OutOfBounds. apply bind_crash. exec E2.
    unfold bentry_is_eq. cbn [be_id]. rewrite entry_id_at, Hid by lia. decide_if by done.
    apply bind_crash, zoom_crash. cbn. apply bind_crash.
    eapply node_load_oob; [done|]. unfold SIZEOF_BENTRY. lia.
Qed.

(** ** Lookups *)
Lemma modify_loop_empty_root {C} fuel frame cur0 n ino (closure : C) cb (s : bufs D) b :
  n ≠ 0 → bc_data (b_dev s) n = Some b → NODE_BYTES ≤ zlen b →
  node_length b = 0 → node_child b 0 = 0 →
  btree_modify_loop (S (S fuel)) frame cur0 n ino closure cb s = Err 1 s.
Proof using.
  unfold NODE_BYTES. intros Hn Hb Hsz Hl Hc. assert (bnode_off_children = 1604) as Hoc by done.
  remember (S fuel) as f eqn:Hf. cbn [btree_modify_loop]. decide_if by done.
  pose proof (sb_bread_ok n s b Hb) as E1. exec E1. cbn [negb].
  set (s1 := Bufs _ _) in *.
  assert (E2 : find_gte n ino s1 = Ok None s1) by (eapply find_gte_empty; [done|lia|done]).
  exec E2.
  assert (E3 : bnode_length n s1 = Ok 0 s1).
  { rewrite <-Hl. eapply bnode_length_ok; [done|lia..]. }
  exec E3.
  assert (E4 : bnode_get_child n 0 s1 = Ok 0 s1).
  { rewrite <-Hc at 2. apply bnode_get_child_ok; [done|lia..]. }
  exec E4. erewrite bind_ok by done. subst f. cbn [btree_modify_loop]. decide_if by done.
  unfold s1. cbn. by rewrite bufs_ref_unref.
Qed.

(** The tree as [spfs_btree_insert] leaves it: no root, or a root without entries *)
Definition tree_barren (s : btree_st D) : Prop :=
  let root := bt_start (t_tree s) in
  root = 0 ∨ ∃ b, bc_data (b_dev (t_bufs s)) root = Some b ∧ NODE_BYTES ≤ zlen b ∧
                  node_length b = 0 ∧ node_child b 0 = 0.

Lemma modify_barren {C} fuel frame cur0 ino (closure : C) cb (s : btree_st D) :
  tree_barren s → spfs_btree_modify (S (S fuel)) frame cur0 ino closure cb s = Err 1 s.
Proof using.
  intros Hroot. unfold spfs_btree_modify. erewrite bind_ok by done.
  erewrite (zoom_err _ _ _ 1 (t_bufs s)); [by destruct s|]. cbn [lget t_bufs_lens].
  destruct Hroot as [->|(b & Hb & ? & ? & ?)].
  - remember (S fuel) as f. cbn [btree_modify_loop]. by decide_if.
  - destruct (decide (bt_start (t_tree s) = 0)) as [->|].
    + remember (S fuel) as f. cbn [btree_modify_loop]. by decide_if.
    + by eapply modify_loop_empty_root.
Qed.

Lemma btree_visit_entry_ok {C} frame cur0 n (closure : C) cb (s : bufs D) b dirty closure' cur' :
  n ≠ 0 → bc_data (b_dev s) n = Some b → INODE_BYTES ≤ zlen b →
  be_combine (sub 0 4 b) = SPFS_MAGIC →
  zlen (frame SPOOKY_FS_NAME_MAX) = SPOOKY_FS_NAME_MAX →
  (∀ s1, cb closure (inode_of_block cur0 b) s1 = Ok (dirty, closure', cur') s1) →
  ∃ d', btree_visit_entry frame cur0 n closure cb s = Ok closure' (Bufs d' (b_refs s)) ∧
    if (dirty : bool) then dev_upd (b_dev s) n (splice 0 (inode_record frame cur') b) d'
    else d' = b_dev s.
Proof using L.
  intros Hn Hb Hsz Hm Hf Hcb. unfold btree_visit_entry. decide_if by done.
  pose proof (sb_bread_ok n s b Hb) as E1. exec E1. cbn [negb]. set (s1 := Bufs _ _) in *.
  assert (E2 : in_bh n 0 (spfs_inode_parse cur0) s1 = Ok (inode_of_block cur0 b, 294) s1).
  { apply (in_bh_ok n 0 _ s1 b (inode_of_block cur0 b) (Cursor b 294)); [done|].
    rewrite spfs_inode_parse_eq by done. by decide_if by naive_solver. }
  exec E2. rewrite (bind_ok _ _ _ _ _ (Hcb s1)). destruct dirty; cycle 1.
  { exists (b_dev s). split; [|done]. erewrite bind_ok by done. erewrite bind_ok by done.
    unfold s1. cbn. rewrite bufs_ref_unref. by destruct s. }
  pose proof (on_bh_ok n 0 _ s1 b _ _ Hb (spfs_inode_make_eq frame Hf cur' b Hsz)) as E3.
  exists (bc_dirty (bc_store (b_dev s) n (splice 0 (inode_record frame cur') b)) n). split.
  - erewrite bind_ok; [|exec E3; reflexivity]. erewrite bind_ok by done. cbn. unfold mret, M_ret. cbn. do 2 f_equal. lia.
  - apply dev_upd_dirty. eapply dev_upd_store; [done|].
    rewrite zlen_splice; rewrite ?zlen_inode_record by done; lia.
Qed.

(** ** The first insertion *)
Lemma insert_first_ok fuel frame inp d r fl t page fl1 root fl2 b0 bp :
  bt_start t = 0 →
  spfs_free_alloc (bt_blocks t) fl = Ok page fl1 → page ≠ 0 →
  spfs_free_alloc (bt_blocks t) fl1 = Ok root fl2 → root ≠ 0 →
  bc_data d 0 = Some b0 → bc_data d page = Some bp → NODE_BYTES ≤ bc_bsize d →
  zlen (frame SPOOKY_FS_NAME_MAX) = SPOOKY_FS_NAME_MAX → u32 (i_ino (i_inode inp)) ≠ 0 →
  ∃ d1 d2, spfs_btree_insert (S fuel) frame inp (BtreeSt (Bufs d r) fl t) =
      Ok tt (BtreeSt (Bufs d2 r) fl2 (set_start root t)) ∧
    dev_upd d page (splice 0 (inode_record frame inp) bp) d1 ∧
    dev_upd d1 0 (new_root (bubble_make (i_ino (i_inode inp)) page 0) 0 (bc_bsize d)) d2.
Proof using L.
  intros Hs Ep Hp Er Hr H0 Hbp Hsz Hf Hino.
  assert (zlen b0 = bc_bsize d) as Hz0 by (by eapply bc_data_size).
  assert (zlen bp = bc_bsize d) as Hzp by (by eapply bc_data_size).
  destruct (btree_insert_null_ok fuel frame inp 0 d r fl t page fl1 bp) as (d1 & E1 & U1);
    [done..|unfold INODE_BYTES, NODE_BYTES in *; lia|done|].
  assert (Hb1 : bc_data d1 0 = Some b0) by (destruct U1 as (_ & _ & U1); by rewrite U1).
  destruct (bnode_alloc_root_ok (bubble_make (i_ino (i_inode inp)) page 0) d1 r fl1 t root fl2 b0)
    as (d2 & E2 & U2); [done|done|by rewrite Hs|by rewrite Hz0|].
  rewrite Hs, Hz0 in U2. exists d1, d2. split_and!; [|done|done].
  unfold spfs_btree_insert. erewrite bind_ok by done. cbn [t_tree]. rewrite Hs.
  erewrite bind_ok by done. exec E1. erewrite bind_ok by done.
  rewrite bubble_make_active by done. erewrite bind_ok by (by exec E2). done.
Qed.

Lemma node_child0_zeros size : 2412 ≤ size → node_child (zeros size) 0 = 0.
Proof using.
  intros. unfold node_child. rewrite sub_zeros; [apply be_combine_zeros|done|done|].
  change (bnode_off_children + 0 * SIZEOF_SECTOR) with 1604. lia.
Qed.

Lemma insert_existing fuel frame inp (s : btree_st D) b :
  bt_start (t_tree s) ≠ 0 → bc_data (b_dev (t_bufs s)) (bt_start (t_tree s)) = Some b →
  4 ≤ zlen b → zlen b ≤ 2 ^ 40 →
  crashed (spfs_btree_insert (S fuel) frame inp s) ∨
  ∃ s', spfs_btree_insert (S fuel) frame inp s = Err 1 s'.
Proof using L.
  intros Hs Hb Hsz Hsz'. destruct s as [[d r] fl t]. cbn in *.
  unfold spfs_btree_insert. erewrite bind_ok by done. cbn [t_tree]. decide_if by done.
  pose proof (sb_bread_ok (bt_start t) (Bufs d r) b Hb) as E1.
  erewrite (bind_ok _ _ (BtreeSt (Bufs d r) fl t)) by (exec E1; done).
  destruct (descend_nonempty_insert fuel frame (bt_start t) inp 0
              (BtreeSt (Bufs d (r + 1)) fl t) b) as [(c & E2)|(out & E2)]; [done..| |].
  - left. exists c. by rewrite (bind_crash _ _ _ _ E2).
  - right. eexists. exec E2. done.
Qed.
End btree_facts.

(** ** Properties *)
Section properties.
Context {D : Type} {B : BufferCache D} {L : BufferCacheLaws D}.

(** [bnode_alloc_root] replaces the contents of the old root's block by a node
    whose one entry is the bubble's and whose lower child is 0, so that the old root
    is linked from nowhere, and makes the newly allocated block, which it does not
    write, the root. *)
Theorem alloc_root_overwrites bubble d r fl t root fl' b :
  spfs_free_alloc (bt_blocks t) fl = Ok root fl' → root ≠ 0 → root ≠ bt_start t →
  bc_data d (bt_start t) = Some b → NODE_BYTES ≤ zlen b →
  0 ≤ be_id (bb_entry bubble) < 2 ^ 64 → 0 ≤ be_offset (bb_entry bubble) < 2 ^ 64 →
  ∃ d' b', bnode_alloc_root bubble (BtreeSt (Bufs d r) fl t) =
      Ok 0 (BtreeSt (Bufs d' r) fl' (set_start root t)) ∧
    dev_upd d (bt_start t) b' d' ∧ bc_data d' root = bc_data d root ∧
    node_length b' = 1 ∧ node_entry b' 0 = bb_entry bubble ∧
    node_child b' 0 = 0 ∧ node_child b' 1 = u32 (bb_greater bubble).
Proof using L.
  intros E1 Hr Hne Hb Hsz Hi Ho. pose proof Hsz as Hsz0. unfold NODE_BYTES in Hsz0.
  destruct (bnode_alloc_root_ok bubble d r fl t root fl' b) as (d' & E2 & U); [done..|].
  eexists _, _. split; [exact E2|]. split; [exact U|].
  split; [by destruct U as (_ & _ & U); apply U|].
  assert (bnode_off_children = 1604) as Hoc by done.
  assert (NODE_BYTES ≤ zlen (splice bnode_off_children (be_split 4 (bt_start t) ++ zeros 4)
                               (zeros (zlen b)))) as Hz by (unfold NODE_BYTES; slen).
  destruct (one_entry_node_fields (bb_entry bubble) (bb_greater bubble) _ Hz Hi Ho)
    as (_ & ? & ? & ? & ?). done.
Qed.

(** C33: the first insertion into an empty tree succeeds: the record goes to the first
    block allocated, the node that maps the inode number to it goes to block 0 (the
    superblock, whose magic number then reads 1), the root is set to the second block
    allocated, every other block is unchanged and no buffer reference is lost. *)
Theorem btree_first_insert fuel frame inp d r fl t page fl1 root fl2 b0 bp :
  bt_start t = 0 →
  spfs_free_alloc (bt_blocks t) fl = Ok page fl1 → page ≠ 0 →
  spfs_free_alloc (bt_blocks t) fl1 = Ok root fl2 → root ≠ 0 →
  bc_data d 0 = Some b0 → bc_data d page = Some bp → NODE_BYTES ≤ bc_bsize d →
  zlen (frame SPOOKY_FS_NAME_MAX) = SPOOKY_FS_NAME_MAX → u32 (i_ino (i_inode inp)) ≠ 0 →
  ∃ d' b', spfs_btree_insert (S fuel) frame inp (BtreeSt (Bufs d r) fl t) =
      Ok tt (BtreeSt (Bufs d' r) fl2 (set_start root t)) ∧
    bc_data d' page = Some (splice 0 (inode_record frame inp) bp) ∧
    bc_data d' 0 = Some b' ∧ be_combine (sub 0 4 b') = 1 ∧ node_length b' = 1 ∧
    be32_to_cpu (be_id (node_entry b' 0)) = u32 (i_ino (i_inode inp)) ∧
    bentry_offset (node_entry b' 0) = u32 page ∧
    ∀ n, n ≠ 0 → n ≠ page → bc_data d' n = bc_data d n.
Proof using L.
  intros Hs Ep Hp Er Hr H0 Hbp Hsz Hf Hino. pose proof Hsz as Hsz0. unfold NODE_BYTES in Hsz0.
  destruct (insert_first_ok fuel frame inp d r fl t page fl1 root fl2 b0 bp)
    as (d1 & d2 & E1 & (_ & U1 & U1') & (_ & U2 & U2')); [done..|].
  set (bub := bubble_make (i_ino (i_inode inp)) page 0) in *.
  eexists _, _. split; [exact E1|]. split; [by rewrite U2'|]. split; [exact U2|].
  destruct (bubble_make_range (i_ino (i_inode inp)) page 0) as [Hi Ho].
  destruct (new_root_fields bub 0 (bc_bsize d) Hsz Hi Ho) as (_ & H1 & H2 & _).
  rewrite H2. split; [exact H1|]. split; [exact H1|].
  split; [apply be32_cpu_to_be32|]. split; [apply be32_cpu_to_be32|].
  intros n ? ?. by rewrite U2', U1'.
Qed.

(** After that first insertion the tree is unusable: when the block that became
    the root holds zeros, every lookup, of the inserted inode too, answers "not
    found" (1), and a further insertion hits a BUG_ON. *)
Theorem btree_forgets fuel frame cur0 inp ino res0 (s : btree_st D) :
  let root := bt_start (t_tree s) in
  root ≠ 0 → NODE_BYTES ≤ bc_bsize (b_dev (t_bufs s)) → bc_bsize (b_dev (t_bufs s)) ≤ 2 ^ 40 →
  bc_data (b_dev (t_bufs s)) root = Some (zeros (bc_bsize (b_dev (t_bufs s)))) →
  spfs_btree_lookup (S (S fuel)) frame cur0 ino res0 s = Err 1 s ∧
  spfs_btree_insert (S fuel) frame inp s = Crash BugOn.
Proof using L.
  intros root Hr Hsz Hsz' Hb. pose proof Hsz as Hsz0. unfold NODE_BYTES in Hsz0.
  set (z := zeros _) in *. set (d := b_dev (t_bufs s)) in *.
  assert (Hz : zlen z = bc_bsize d) by (apply zlen_zeros; lia).
  assert (Hl : node_length z = 0) by (apply node_length_zeros; lia). split.
  - unfold spfs_btree_lookup, spfs_btree_modify. erewrite bind_ok by done.
    erewrite zoom_err; [|eapply (modify_loop_empty_root _ _ _ _ _ _ _ (t_bufs s) z)].
    + cbn. by destruct s.
    + done.
    + done.
    + by rewrite Hz.
    + done.
    + apply node_child0_zeros. lia.
  - unfold spfs_btree_insert. erewrite bind_ok by done. fold root. decide_if by done.
    pose proof (sb_bread_ok root (t_bufs s) z Hb) as E1.
    erewrite (bind_ok _ _ s (Some root)) by (exec E1; done). apply bind_crash.
    cbn [btree_insert]. set (s1 := Bufs _ _) in *.
    assert (E2 : find_gte root (i_ino (i_inode inp)) s1 = Ok None s1).
    { eapply find_gte_empty; [done|lia|done]. }
    exec E2. apply bind_crash.
    assert (E3 : bnode_child_length root s1 = Ok 0 s1).
    { unfold bnode_child_length.
      assert (E4 : bnode_length root s1 = Ok 0 s1).
      { rewrite <-Hl. eapply bnode_length_ok; [done|lia..]. }
      by exec E4. }
    exec E3. by apply bind_crash.
Qed.

(** No insertion into a tree that has a root succeeds: it crashes or returns 1
    ("duplicate"). *)
Theorem btree_insert_once fuel frame inp (s s' : btree_st D) b :
  bt_start (t_tree s) ≠ 0 → bc_data (b_dev (t_bufs s)) (bt_start (t_tree s)) = Some b →
  4 ≤ zlen b → zlen b ≤ 2 ^ 40 →
  spfs_btree_insert (S fuel) frame inp s ≠ Ok tt s'.
Proof using L.
  intros Hs Hb Hsz Hsz' E1.
  destruct (insert_existing fuel frame inp s b Hs Hb Hsz Hsz') as [(c & E2)|(s2 & E2)];
    by rewrite E2 in E1.
Qed.

(** Visiting a record hands the callback the parsed record and gives back its
    verdict: when it reports a change the block holds the changed record (and the rest
    of the block what it held), otherwise the device is untouched; the buffer is
    released either way. *)
Theorem btree_visit_entry_spec {C} frame cur0 n (closure : C) cb (s : bufs D) b dirty closure' cur' :
  n ≠ 0 → bc_data (b_dev s) n = Some b → INODE_BYTES ≤ zlen b →
  be_combine (sub 0 4 b) = SPFS_MAGIC →
  zlen (frame SPOOKY_FS_NAME_MAX) = SPOOKY_FS_NAME_MAX →
  (∀ s1, cb closure (inode_of_block cur0 b) s1 = Ok (dirty, closure', cur') s1) →
  ∃ d', btree_visit_entry frame cur0 n closure cb s = Ok closure' (Bufs d' (b_refs s)) ∧
    if (dirty : bool) then dev_upd (b_dev s) n (splice 0 (inode_record frame cur') b) d'
    else d' = b_dev s.
Proof using L. apply btree_visit_entry_ok. Qed.
End properties.

(** ** Witnesses *)
Definition tree_dev : memdev :=
  MemDev 4096
    {[ 0 := zeros 4096; 9 := zeros 4096; 10 := zeros 4096; 11 := zeros 4096;
       7 := splice 0 (be_split 4 1) (zeros 4096);
       8 := splice 0 (inode_record zeros example_inode) (zeros 4096) ]} ∅.
Definition tree_fl : spfs_free_list := FreeList false 10 [FreeNode 2 10].
Definition tree_st (start : Z) : btree_st memdev :=
  BtreeSt (Bufs tree_dev 0) tree_fl (spfs_btree_init 4096 start).

Lemma alloc_root_overwrites_witness :
  ∃ d' b', bnode_alloc_root (bubble_make 3 9 0) (tree_st 10) =
      Ok 0 (BtreeSt (Bufs d' 0) (FreeList false 9 [FreeNode 2 9])
              (set_start 11 (spfs_btree_init 4096 10))) ∧
    dev_upd tree_dev 10 b' d' ∧ bc_data d' 11 = bc_data tree_dev 11 ∧
    node_length b' = 1 ∧ node_entry b' 0 = bb_entry (bubble_make 3 9 0) ∧
    node_child b' 0 = 0 ∧ node_child b' 1 = u32 0.
Proof.
  apply (alloc_root_overwrites (bubble_make 3 9 0) tree_dev 0 tree_fl (spfs_btree_init 4096 10) 11
           (FreeList false 9 [FreeNode 2 9]) (zeros 4096));
    vm_compute; (reflexivity || (try split; congruence)).
Defined.

Lemma btree_first_insert_witness :
  ∃ d' b', spfs_btree_insert 1 zeros example_inode (tree_st 0) =
      Ok tt (BtreeSt (Bufs d' 0) (FreeList false 8 [FreeNode 2 8])
               (set_start 10 (spfs_btree_init 4096 0))) ∧
    bc_data d' 11 = Some (splice 0 (inode_record zeros example_inode) (zeros 4096)) ∧
    bc_data d' 0 = Some b' ∧ be_combine (sub 0 4 b') = 1 ∧ node_length b' = 1 ∧
    be32_to_cpu (be_id (node_entry b' 0)) = u32 2 ∧
    bentry_offset (node_entry b' 0) = u32 11 ∧
    ∀ n, n ≠ 0 → n ≠ 11 → bc_data d' n = bc_data tree_dev n.
Proof.
  eapply (btree_first_insert 0 zeros example_inode tree_dev 0 tree_fl (spfs_btree_init 4096 0) 11
            (FreeList false 9 [FreeNode 2 9]) 10 (FreeList false 8 [FreeNode 2 8])
            (zeros 4096) (zeros 4096)); vm_compute; (reflexivity || congruence).
Defined.

Lemma btree_forgets_witness :
  spfs_btree_lookup 2 zeros example_inode 2 example_inode (tree_st 10) = Err 1 (tree_st 10) ∧
  spfs_btree_insert 1 zeros example_inode (tree_st 10) = Crash BugOn.
Proof.
  apply (btree_forgets 0 zeros example_inode example_inode 2 example_inode (tree_st 10));
    vm_compute; (reflexivity || congruence).
Defined.

Lemma btree_insert_once_witness :
  spfs_btree_insert 1 zeros example_inode (tree_st 7) ≠ Ok tt (tree_st 7).
Proof.
  apply (btree_insert_once 0 zeros example_inode (tree_st 7) (tree_st 7)
           (splice 0 (be_split 4 1) (zeros 4096))); vm_compute; (reflexivity || congruence).
Defined.

Lemma btree_visit_entry_spec_witness :
  ∃ d', btree_visit_entry zeros example_inode 8 (5, 100)
      (λ c cur, mret (true, c, SpfsInode (i_inode cur) (si_lock cur) (snd c) (fst c) (si_name cur)))
      (Bufs tree_dev 0) = Ok (5, 100) (Bufs d' 0) ∧
    dev_upd tree_dev 8
      (splice 0 (inode_record zeros
        (let cur := inode_of_block example_inode
            (splice 0 (inode_record zeros example_inode) (zeros 4096)) in
         SpfsInode (i_inode cur) (si_lock cur) 100 5 (si_name cur)))
        (splice 0 (inode_record zeros example_inode) (zeros 4096))) d'.
Proof.
  eapply (btree_visit_entry_spec zeros example_inode 8 (5, 100) _ (Bufs tree_dev 0) _ true);
    try reflexivity; vm_compute; congruence.
Defined.
