(* ===== verification/Split.v ===== *)
(** * btree.c, the split of a full node: [bnode_median], [bnode_partition], [btree_fixup]

    A full node has 100 entries, in the order of their ids; one more is to be inserted.
    The median of the 101 entries is found; moving the entries behind it into a new node
    then ends outside of the block, since a node does not take a second entry: the search
    for its place measures the entries in bytes (see [Bnode]). *)
From S2P Require Import Prelude Util Buffers FreeList Inode Bnode Btree.

(** ** Numbers below a member of an increasing sequence *)
Definition count_below (m : Z) (l : list Z) : nat := length (filter (λ x, x < m) l).

Lemma count_below_app m l k : count_below m (l ++ k) = (count_below m l + count_below m k)%nat.
Proof. unfold count_below. by rewrite filter_app, length_app. Qed.

Lemma count_below_all m l : Forall (λ x, x < m) l → count_below m l = length l.
Proof. unfold count_below. induction 1 as [|x l Hx _ IH]; [done|]. rewrite filter_cons_True by done. cbn. lia. Qed.

Lemma count_below_none m l : Forall (λ x, m ≤ x) l → count_below m l = 0%nat.
Proof. unfold count_below. induction 1 as [|x l Hx _ IH]; [done|]. rewrite filter_cons_False by lia. done. Qed.

(** [j] members of the sequence [f 0, ..., f (n - 1)] are below [m]. *)
Lemma count_below_at f n j m :
  0 ≤ j ≤ n → (∀ i, 0 ≤ i < j → f i < m) → (∀ i, j ≤ i < n → m ≤ f i) →
  count_below m (f <$> seqZ 0 n) = Z.to_nat j.
Proof.
  intros Hj Hlo Hhi. replace n with (j + (n - j)) at 1 by lia. rewrite seqZ_app by lia.
  rewrite fmap_app, count_below_app, count_below_all, count_below_none.
  - rewrite length_fmap, length_seqZ. lia.
  - rewrite Forall_fmap, Forall_forall. intros i Hi%elem_of_seqZ. apply Hhi. lia.
  - rewrite Forall_fmap, Forall_forall. intros i Hi%elem_of_seqZ. apply Hlo. lia.
Qed.

(** ** The ids of a node *)
Definition node_id (b : list byte) (i : Z) : Z := node_id_at b (E i).
Definition node_ids (b : list byte) : list Z := node_id b <$> seqZ 0 100.
Definition entry_id (e : spfs_bentry) : Z := be32_to_cpu (be_id e).
Definition ptr_id (b : list byte) (extra : spfs_bentry) (p : entry_ptr) : Z :=
  match p with PNode _ off => node_id_at b off | PBubble => entry_id extra end.

Section split.
Context {D : Type} {B : BufferCache D} {L : BufferCacheLaws D}.
Implicit Types (s : bufs D) (b : list byte).

(** Block [n] holds a full node with its entries in order. *)
Record full_node s (n : Z) b : Prop := {
  fn_data : bc_data (b_dev s) n = Some b;
  fn_bytes : NODE_BYTES ≤ zlen b;
  fn_length : node_length b = 100;
  fn_sorted : ∀ i j, 0 ≤ i → i < j → j < 100 → node_id b i < node_id b j;
}.

Lemma full_node_length s n b : full_node s n b → bnode_length n s = Ok 100 s.
Proof using.
  intros [Hd Hb Hl _]. unfold NODE_BYTES in *. rewrite <-Hl. apply bnode_length_ok; [done|lia..].
Qed.

(** The entries with numbers below 101 lie inside of the node. *)
Lemma full_entry_id s n b i :
  full_node s n b → 0 ≤ i ≤ 100 →
  ∃ e, entry_load_id n (E i) s = Ok e s ∧ be32_to_cpu (be_id e) = node_id b i.
Proof using.
  intros [Hd Hb _ _] Hi. unfold NODE_BYTES in *. assert (E i = 4 + 16 * i) as He.
  { unfold E, bnode_off_entries, bnode_off_length, SIZEOF_BENTRY. lia. }
  exists (Bentry (le_combine (sub (E i) 8 b)) 0). split; [apply entry_load_id_ok; [done|lia..]|].
  cbn [be_id]. unfold node_id. rewrite entry_id_at by lia. done.
Qed.

Lemma median_cases s n b extra :
  full_node s n b →
  bnode_median n extra s =
    Ok (if bool_decide (node_id b 50 < entry_id extra) then PNode n (E 50)
        else if bool_decide (node_id b 49 < entry_id extra) then PBubble
        else PNode n (E 49)) s.
Proof using.
  intros Hn. pose proof (full_node_length _ _ _ Hn) as Hl. unfold bnode_median, bnode_is_full.
  erewrite bind_ok by (by erewrite bind_ok by done). erewrite bind_ok by done.
  rewrite (bind_ok _ _ _ _ _ Hl). erewrite bind_ok by done.
  destruct (full_entry_id s n b 50 Hn) as (e50 & E50 & I50); [lia|].
  destruct (full_entry_id s n b 49 Hn) as (e49 & E49 & I49); [lia|].
  change (bnode_off_entries + (100 + 1) / 2 * SIZEOF_BENTRY) with (E 50).
  change (E 50 - SIZEOF_BENTRY) with (E 49).
  rewrite (bind_ok _ _ _ _ _ E50). unfold spfs_be_id_cmp. rewrite I50. fold (entry_id extra).
  case_bool_decide; [done|]. rewrite (bind_ok _ _ _ _ _ E49), I49. by case_bool_decide.
Qed.

Lemma median_counts s n b extra :
  full_node s n b → (∀ i, 0 ≤ i < 100 → node_id b i ≠ entry_id extra) →
  ∃ p, bnode_median n extra s = Ok p s ∧
    (p = PBubble ∨ p = PNode n (E 49) ∨ p = PNode n (E 50)) ∧
    count_below (ptr_id b extra p) (entry_id extra :: node_ids b) = 50%nat.
Proof using.
  intros Hn Hne. rewrite (median_cases s n b extra Hn). eexists. split; [done|].
  set (x := entry_id extra) in *. pose proof (fn_sorted _ _ _ Hn) as Hs.
  pose proof (Hne 49 ltac:(lia)). pose proof (Hne 50 ltac:(lia)).
  change (x :: node_ids b) with ([x] ++ node_ids b). rewrite count_below_app. unfold node_ids.
  assert (Hsle : ∀ i j, 0 ≤ i → i ≤ j → j < 100 → node_id b i ≤ node_id b j).
  { intros i j ???. destruct (decide (i = j)) as [->|]; [lia|]. pose proof (Hs i j). lia. }
  case_bool_decide as H50; [|case_bool_decide as H49]; (split; [auto|]); cbn [ptr_id];
    fold (node_id b 50); fold (node_id b 49); fold x.
  - rewrite (count_below_none _ [x]) by (apply Forall_singleton; lia).
    rewrite (count_below_at _ _ 50); [done|lia|intros i ?; apply Hs; lia|intros i ?; apply Hsle; lia].
  - rewrite (count_below_none _ [x]) by (apply Forall_singleton; lia).
    rewrite (count_below_at _ _ 50); [done|lia| |].
    + intros i ?. pose proof (Hsle i 49). lia.
    + intros i ?. pose proof (Hsle 50 i). lia.
  - rewrite (count_below_all _ [x]) by (apply Forall_singleton; lia).
    rewrite (count_below_at _ _ 49); [done|lia|intros i ?; apply Hs; lia|intros i ?; apply Hsle; lia].
Qed.

(** C32: [bnode_median] finds the median.  On a full node whose entries are in order, and
    a further entry with an id of its own, it answers the one among the 101 entries that
    has exactly 50 below it: an entry of the node, or the further one. *)
Theorem bnode_median_exact s n b extra :
  full_node s n b → (∀ i, 0 ≤ i < 100 → node_id b i ≠ entry_id extra) →
  ∃ p, bnode_median n extra s = Ok p s ∧
    (p = PBubble ∨ p = PNode n (E 49) ∨ p = PNode n (E 50)) ∧
    count_below (ptr_id b extra p) (entry_id extra :: node_ids b) = 50%nat.
Proof using. apply median_counts. Qed.

(** ** Moving entries into an empty node *)
Lemma full_entry s n b i :
  full_node s n b → 0 ≤ i < 100 →
  entry_load n (bnode_off_entries + i * SIZEOF_BENTRY) s = Ok (node_entry b i) s ∧
  0 ≤ be_id (node_entry b i) < 2 ^ 64 ∧ 0 ≤ be_offset (node_entry b i) < 2 ^ 64.
Proof using.
  intros [Hd Hb _ _] Hi. unfold NODE_BYTES in *.
  assert (bnode_off_entries + i * SIZEOF_BENTRY = 4 + 16 * i) as He.
  { unfold bnode_off_entries, bnode_off_length, SIZEOF_BENTRY. lia. }
  assert (Hr : ∀ off, 0 ≤ off → off + 8 ≤ 16 →
    0 ≤ le_combine (sub off 8 (sub (4 + 16 * i) 16 b)) < 2 ^ 64).
  { intros off ??. pose proof (le_combine_range (sub off 8 (sub (4 + 16 * i) 16 b))) as Hr.
    by rewrite zlen_sub in Hr by (rewrite ?zlen_sub; lia). }
  unfold node_entry. rewrite He. change SIZEOF_BENTRY with 16. split.
  - unfold entry_load. change SIZEOF_BENTRY with 16. by erewrite bind_ok by (apply node_load_ok; [done|lia..]).
  - split; apply Hr; lia.
Qed.

(** The number of an entry, read as 4 or as 8 bytes *)
Lemma full_entry_be s n b i :
  full_node s n b → 0 ≤ i < 100 → be32_to_cpu (be_id (node_entry b i)) = node_id b i.
Proof using.
  intros [Hd Hb _ _] Hi. unfold NODE_BYTES in *. assert (E i = 4 + 16 * i) as He.
  { unfold E, bnode_off_entries, bnode_off_length, SIZEOF_BENTRY. lia. }
  unfold node_id. rewrite <-entry_id_at by lia. unfold node_entry, bentry_of_bytes. cbn [be_id].
  f_equal. f_equal. rewrite sub_sub by (unfold SIZEOF_BENTRY, bnode_off_entries, bnode_off_length; lia). f_equal. rewrite He.
  unfold bnode_off_entries, bnode_off_length, SIZEOF_BENTRY. lia.
Qed.

Lemma node_id_range b i : 0 ≤ node_id b i.
Proof using. apply be_combine_range. Qed.

Lemma full_node_upd s n b m b' d' r :
  full_node s n b → m ≠ n → dev_upd (b_dev s) m b' d' → full_node (Bufs d' r) n b.
Proof using. intros [Hd Hb Hl Hs] Hm (_ & _ & Hoth). split; [|done..]. cbn. by rewrite Hoth by congruence. Qed.

(** An entry behind the pivot is moved: into an empty node it fits, into one with an
    entry it does not. *)
Lemma partition_round fuel n to pivot i drop move s b :
  full_node s n b → 0 ≤ i < 100 → entry_id pivot < node_id b i →
  partition_above (S fuel) n to pivot i drop move s =
    (res ← bnode_bin_insert FIND_FUEL to (node_entry b i) (node_child b (i + 1));
     BUG_ON (bool_decide (res = None));;
     partition_above fuel n to pivot (i + 1) (drop + 1) true) s.
Proof using.
  intros Hn Hi Hp. pose proof (full_node_length _ _ _ Hn) as El. cbn [partition_above].
  rewrite (bind_ok _ _ _ _ _ El). decide_if.
  destruct (full_entry_id s n b i Hn) as (e & Ee & Ie); [lia|]. unfold E in Ee.
  rewrite (bind_ok _ _ _ _ _ Ee). unfold spfs_bentry_entry_cmp, spfs_be_id_cmp. rewrite Ie.
  fold (entry_id pivot). rewrite bool_decide_eq_true_2 by done.
  destruct Hn as [Hd Hb Hl Hs]. unfold NODE_BYTES in *. assert (bnode_off_children = 1604) by done.
  erewrite bind_ok by (apply bnode_get_child_ok; [done|lia..]).
  destruct (full_entry s n b i) as (E2 & _); [by split|done|]. by rewrite (bind_ok _ _ _ _ _ E2).
Qed.

Lemma partition_skip fuel n to pivot i drop s b :
  full_node s n b → 0 ≤ i < 100 → node_id b i ≤ entry_id pivot →
  partition_above (S fuel) n to pivot i drop false s = partition_above fuel n to pivot (i + 1) drop false s.
Proof using.
  intros Hn Hi Hp. pose proof (full_node_length _ _ _ Hn) as El. cbn [partition_above].
  rewrite (bind_ok _ _ _ _ _ El). decide_if.
  destruct (full_entry_id s n b i Hn) as (e & Ee & Ie); [lia|]. unfold E in Ee.
  rewrite (bind_ok _ _ _ _ _ Ee). unfold spfs_bentry_entry_cmp, spfs_be_id_cmp. rewrite Ie.
  fold (entry_id pivot). by rewrite bool_decide_eq_false_2 by lia.
Qed.

(** A second entry is not taken by the new node: the search for its place leaves the block. *)
Lemma move_two fuel n to pivot i drop move s b z :
  full_node s n b → bc_data (b_dev s) to = Some (zeros z) → NODE_BYTES ≤ z → z ≤ 2 ^ 40 → to ≠ n →
  0 ≤ i < 99 → entry_id pivot < node_id b i →
  ∃ d1, bnode_bin_insert FIND_FUEL to (node_entry b i) (node_child b (i + 1)) s =
      Ok (Some 4) (Bufs d1 (b_refs s)) ∧
    bnode_bin_insert FIND_FUEL to (node_entry b (i + 1)) (node_child b (i + 2)) (Bufs d1 (b_refs s)) =
      Crash OutOfBounds ∧
    partition_above (S (S fuel)) n to pivot i drop move s = Crash OutOfBounds.
Proof using L.
  intros Hn Hbt Hz Hz' Hto Hi Hp. pose proof (fn_sorted _ _ _ Hn i (i + 1)) as Hs. unfold NODE_BYTES in Hz.
  assert (Hzl : zlen (zeros z) = z) by (apply zlen_zeros; lia).
  rewrite (partition_round _ _ _ _ _ _ _ s b) by (done || lia).
  destruct (full_entry s n b i Hn) as (_ & Hr1 & Hr2); [lia|].
  destruct (bin_insert_empty to (node_entry b i) (node_child b (i + 1)) s (zeros z) FIND_FUEL Hbt) as (d1 & E1 & Hd1);
    [by rewrite Hzl|apply node_length_zeros; lia|].
  destruct (one_entry_node_fields (node_entry b i) (node_child b (i + 1)) (zeros z)) as (Hz1 & Hl1 & _);
    [by rewrite Hzl|done..|].
  assert (E2 : bnode_bin_insert FIND_FUEL to (node_entry b (i + 1)) (node_child b (i + 2))
    (Bufs d1 (b_refs s)) = Crash OutOfBounds).
  { apply (bin_insert_astray to _ _ _ (one_entry_node (node_entry b i) (node_child b (i + 1)) (zeros z)));
      [by eapply dev_upd_data|rewrite ?Hz1, ?Hl1, ?Hzl; unfold FIND_FUEL; lia..|].
    rewrite Hz1, Hl1, Hzl. intros j Hj Hin. rewrite one_entry_node_astray by (unfold NODE_BYTES; lia).
    rewrite (full_entry_be _ _ _ _ Hn) by lia. pose proof (node_id_range b i). lia. }
  exists d1. split; [done|]. split; [done|].
  rewrite (bind_ok _ _ _ _ _ E1). erewrite bind_ok by done.
  rewrite (partition_round _ _ _ _ _ _ _ _ b); [|by eapply full_node_upd|lia|lia].
  apply bind_crash. by rewrite <-Z.add_assoc.
Qed.

Lemma partition_astray fuel k n to pivot s b z :
  full_node s n b → bc_data (b_dev s) to = Some (zeros z) → NODE_BYTES ≤ z → z ≤ 2 ^ 40 → to ≠ n →
  0 ≤ k < 99 → (∀ i, 0 ≤ i < k → node_id b i ≤ entry_id pivot) → entry_id pivot < node_id b k →
  ∀ i, 0 ≤ i ≤ k → k - i + 2 ≤ Z.of_nat fuel →
  partition_above fuel n to pivot i 0 false s = Crash OutOfBounds.
Proof using L.
  intros Hn Ht Hz Hz' Hto Hk Hlo Hhi. induction fuel as [|fuel IH]; intros i Hi Hf; [lia|].
  destruct (decide (i = k)) as [->|Hne].
  - destruct fuel as [|fuel]; [lia|]. by destruct (move_two fuel n to pivot k 0 false s b z) as (? & _ & _ & ?).
  - rewrite (partition_skip _ _ _ _ _ _ s b) by (done || lia || (apply Hlo; lia)). apply IH; lia.
Qed.

(** Partitioning at the median *)
Lemma index_of_median n p :
  p = PBubble ∨ p = PNode n (E 49) ∨ p = PNode n (E 50) → bnode_index_of n p = bnode_capacity.
Proof using.
  intros [-> | [-> | ->]]; [done|..]; unfold bnode_index_of; rewrite bool_decide_eq_false_2 by (by intros []);
    by vm_compute.
Qed.

(** The first entry above the median is number 50 or 51. *)
Lemma median_split s n b bubble p :
  full_node s n b → bnode_median n (bb_entry bubble) s = Ok p s →
  ∃ e k, entry_deref bubble p s = Ok e s ∧ entry_id e = ptr_id b (bb_entry bubble) p ∧
    50 ≤ k ≤ 51 ∧ (∀ i, 0 ≤ i < k → node_id b i ≤ entry_id e) ∧ entry_id e < node_id b k.
Proof using.
  intros Hn Ep. rewrite (median_cases s n b _ Hn) in Ep. injection Ep as Ep.
  pose proof (fn_sorted _ _ _ Hn) as Hs. set (x := bb_entry bubble) in *.
  assert (Hsle : ∀ i j, 0 ≤ i → i ≤ j → j < 100 → node_id b i ≤ node_id b j).
  { intros i j ???. destruct (decide (i = j)) as [->|]; [lia|]. pose proof (Hs i j). lia. }
  assert (∃ e, entry_deref bubble p s = Ok e s ∧ entry_id e = ptr_id b x p ∧
    node_id b 49 ≤ entry_id e ≤ node_id b 50) as (e & Ee & He & Hlo & Hhi).
  { destruct (full_entry_id s n b 50 Hn) as (e50 & E50 & I50); [lia|].
    destruct (full_entry_id s n b 49 Hn) as (e49 & E49 & I49); [lia|]. pose proof (Hs 49 50).
    revert Ep. case_bool_decide; [|case_bool_decide]; intros <-.
    - exists e50. split; [done|]. split; [done|]. unfold entry_id. lia.
    - exists x. split; [done|]. split; [done|]. lia.
    - exists e49. split; [done|]. split; [done|]. unfold entry_id. lia. }
  exists e, (if decide (entry_id e < node_id b 50) then 50 else 51). split; [done|]. split; [done|].
  split; [destruct (decide _); lia|]. split.
  - intros i Hi. destruct (decide (i ≤ 49)); [pose proof (Hsle i 49); lia|].
    destruct (decide (entry_id e < node_id b 50)); [lia|]. pose proof (Hsle i 50). lia.
  - destruct (decide (entry_id e < node_id b 50)); [done|]. pose proof (Hs 50 51). lia.
Qed.

Lemma partition_median_astray n to bubble s b p z :
  full_node s n b → bc_data (b_dev s) to = Some (zeros z) → NODE_BYTES ≤ z → z ≤ 2 ^ 40 → to ≠ n →
  bnode_median n (bb_entry bubble) s = Ok p s → bnode_partition n bubble p to s = Crash OutOfBounds.
Proof using L.
  intros Hn Ht Hz Hz' Hto Ep. destruct (median_split s n b bubble p Hn Ep) as (e & k & Ee & _ & Hk & Hlo & Hhi).
  rewrite (median_cases s n b _ Hn) in Ep. injection Ep as Ep.
  unfold bnode_partition. rewrite (index_of_median n p).
  2:{ revert Ep. case_bool_decide; [|case_bool_decide]; intros <-; auto. }
  rewrite bool_decide_eq_false_2 by (by intros []). apply bind_crash. rewrite (bind_ok _ _ _ _ _ Ee).
  apply (partition_astray PARTITION_FUEL k n to e s b z); done || (unfold PARTITION_FUEL; lia).
Qed.

(** C39: a node is never split.  When an entry with an id of its own is to go into a full
    node whose entries are in order, [btree_fixup] gets a block for the new node, finds the
    median, with exactly 50 of the 101 entries below it, clears the block, and moves
    entry [k], the first one above the median, into it; inserting the next one then reads
    outside of the block, and that is where [btree_fixup] ends. *)
Theorem full_node_never_splits (s : btree_st D) tree bubble b right fl' br :
  full_node (t_bufs s) tree b → (∀ i, 0 ≤ i < 100 → node_id b i ≠ entry_id (bb_entry bubble)) →
  bubble_is_active bubble = true →
  spfs_free_alloc (bt_blocks (t_tree s)) (t_free s) = Ok right fl' → right ≠ 0 → right ≠ tree →
  bc_data (b_dev (t_bufs s)) right = Some br → NODE_BYTES ≤ zlen br → zlen br ≤ 2 ^ 40 →
  ∃ med k d1 d2, let r := b_refs (t_bufs s) + 1 in
    bnode_median tree (bb_entry bubble) (t_bufs s) = Ok med (t_bufs s) ∧
    count_below (ptr_id b (bb_entry bubble) med) (entry_id (bb_entry bubble) :: node_ids b) = 50%nat ∧
    (∀ i, 0 ≤ i < k → node_id b i ≤ ptr_id b (bb_entry bubble) med) ∧
    ptr_id b (bb_entry bubble) med < node_id b k ∧ k < 99 ∧
    dev_upd (b_dev (t_bufs s)) right (zeros (zlen br)) d1 ∧
    bnode_bin_insert FIND_FUEL right (node_entry b k) (node_child b (k + 1)) (Bufs d1 r) =
      Ok (Some 4) (Bufs d2 r) ∧
    bnode_bin_insert FIND_FUEL right (node_entry b (k + 1)) (node_child b (k + 2)) (Bufs d2 r) =
      Crash OutOfBounds ∧
    btree_fixup tree bubble s = Crash OutOfBounds.
Proof using L.
  destruct s as [bufs fl t]. cbn [t_bufs t_free t_tree].
  intros Hn Hne Hact Ea Hr Hrt Hbr Hz Hz'. pose proof (full_node_length _ _ _ Hn) as El.
  destruct (median_counts bufs tree b (bb_entry bubble) Hn Hne) as (med & Em & _ & Hcount).
  destruct (median_split bufs tree b bubble med Hn Em) as (e & k & _ & He & Hk & Hlo & Hhi).
  set (s1 := Bufs (b_dev bufs) (b_refs bufs + 1)).
  destruct (bnode_make_ok right s1 br Hbr) as (d1 & Emk & Hd1).
  assert (Hn1 : full_node (Bufs d1 (b_refs s1)) tree b) by by eapply full_node_upd.
  assert (Hb1 : bc_data d1 right = Some (zeros (zlen br))) by by eapply dev_upd_data.
  destruct (move_two 0 tree right e k 0 false (Bufs d1 (b_refs s1)) b (zlen br)) as (d2 & Ei1 & Ei2 & _);
    [done|done|done|done|done|lia|done|].
  exists med, k, d1, d2. cbn zeta. rewrite He in Hlo, Hhi. split_and!; try done; [lia|].
  unfold btree_fixup. rewrite Hact. erewrite bind_ok by done.
  erewrite bind_ok by (apply zoom_ok; unfold bnode_is_full; by erewrite bind_ok by done).
  rewrite bool_decide_eq_true_2 by done. cbn [negb].
  exec Em. erewrite bind_ok by done. exec Ea. cbn [lset t_bufs_lens t_free_lens t_bufs t_free t_tree].
  unfold BUG_ON at 1. rewrite bool_decide_eq_false_2 by done. erewrite bind_ok by done.
  pose proof (sb_bread_ok right bufs br Hbr) as Eb. exec Eb. cbn [negb].
  apply bind_crash, zoom_crash. cbn [lget lset t_bufs_lens t_bufs]. fold s1.
  rewrite (bind_ok _ _ _ _ _ Emk). apply bind_crash.
  apply (partition_median_astray tree right bubble (Bufs d1 (b_refs s1)) b med (zlen br)); try done.
  rewrite (median_cases _ _ b _ Hn1). rewrite (median_cases _ _ b _ Hn) in Em. by injection Em as ->.
Qed.
End split.

(** ** A full node with the ids 2, 4, ..., 200, and an empty block *)
Definition full_block : list byte :=
  splice 0 (be_split 4 100 ++ concat ((λ i, bentry_bytes (bb_entry (bubble_make (2 * i + 2) 9 0))) <$> seqZ 0 100))
    (zeros 4096).
Definition full_bufs : bufs memdev := Bufs (MemDev 4096 {[ 3 := full_block; 11 := zeros 4096 ]} ∅) 0.

Lemma full_block_ids i : 0 ≤ i → i < 100 → node_id full_block i = 2 * i + 2.
Proof.
  intros. assert (Forall (λ i, node_id full_block i = 2 * i + 2) (seqZ 0 100)) as Hall
    by (apply (bool_decide_unpack _); by vm_compute).
  rewrite Forall_forall in Hall. apply Hall, elem_of_seqZ. lia.
Qed.

Lemma full_bufs_node : full_node full_bufs 3 full_block.
Proof.
  split; [by vm_compute|by vm_compute|by vm_compute|].
  intros i j ???. rewrite !full_block_ids by lia. lia.
Qed.

(** The id 101 is between the entries 49 (id 100) and 50 (id 102). *)
Lemma bnode_median_exact_witness :
  ∃ p, bnode_median 3 (bb_entry (bubble_make 101 9 0)) full_bufs = Ok p full_bufs ∧
    count_below (ptr_id full_block (bb_entry (bubble_make 101 9 0)) p) (101 :: node_ids full_block) = 50%nat.
Proof.
  destruct (bnode_median_exact full_bufs 3 full_block (bb_entry (bubble_make 101 9 0))) as (p & E1 & _ & H);
    [apply full_bufs_node| |exists p; split; [exact E1|exact H]].
  intros i Hi. rewrite full_block_ids by lia.
  assert (entry_id (bb_entry (bubble_make 101 9 0)) = 101) as -> by (by vm_compute). lia.
Defined.

Lemma full_node_never_splits_witness :
  ∃ med, bnode_median 3 (bb_entry (bubble_make 101 9 0)) full_bufs = Ok med full_bufs ∧
    btree_fixup 3 (bubble_make 101 9 0) (BtreeSt full_bufs tree_fl (spfs_btree_init 4096 3)) = Crash OutOfBounds.
Proof.
  assert (entry_id (bb_entry (bubble_make 101 9 0)) = 101) as Hid by (by vm_compute).
  edestruct (full_node_never_splits (BtreeSt full_bufs tree_fl (spfs_btree_init 4096 3)) 3
    (bubble_make 101 9 0) full_block 11 (FreeList false 9 [FreeNode 2 9]) (zeros 4096)) as (med & k & d1 & d2 & Em & _ & _ & _ & _ & _ & _ & _ & E);
    [apply full_bufs_node| |by vm_compute|by vm_compute|done|done|by vm_compute|by vm_compute|by vm_compute|].
  - intros i Hi. rewrite full_block_ids, Hid by lia. lia.
  - exists med. split; [exact Em|exact E].
Defined.
