(* ===== verification/BtreeRemove.v ===== *)
(** * btree_remove.c, the part that is written

    The file is the beginning of a port of a B-tree's removal and not yet built.  Its
    first functions are complete: the predicates that decide how a node that has become
    too short is repaired, and [merge] over two functions that are still to be written
    and answer false.  The rest of the file (rotation, removal) is a mixture of the code
    to be ported and C, over functions and types that do not exist.

    The lemmas say what each predicate answers on a node: that [is_leaf] tells leaves
    from inner nodes, which lengths are too short or more than enough, and that [merge]
    never moves anything. *)
From S2P Require Import Prelude Util Buffers Bnode.

Section btree_remove.
Context {D : Type} {B : BufferCache D}.
Abbreviation MB := (M (bufs D)).

(** The loop over [i < len], with [k] rounds left *)
Fixpoint is_leaf_loop (k : nat) (node i : Z) : MB bool :=
  match k with
  | O => mret true
  | S k =>
      child ← bnode_get_child node i;
      if bool_decide (child ≠ 0) then mret false else is_leaf_loop k node (i + 1)
  end.

Definition is_leaf (node : Z) : MB bool :=
  length ← bnode_length node;
  let len := length + 1 in
  is_leaf_loop (Z.to_nat len) node 0.

Definition order : Z := bnode_capacity + 1.
Definition minimum_order : Z := order / 2.

Definition is_deficient (node : Z) : MB bool :=
  length ← bnode_length node; mret (bool_decide (length < minimum_order)).
Definition has_more_than_min (node : Z) : MB bool :=
  length ← bnode_length node; mret (bool_decide (minimum_order < length)).
Definition remaining_write (node : Z) : MB Z :=
  length ← bnode_length node; mret (u64 (bnode_capacity - length)).

(** Not written yet *)
Definition move_all_elements (dest src : Z) : MB bool := mret false.
Definition insert_all_children (dest src : Z) : MB bool := mret false.
Definition bnode_stable_take_elem (node index : Z) : MB bool := mret false.
Definition bnode_stable_remove_child (node index : Z) : MB bool := mret false.
Definition bnode_greatest_child (node : Z) : MB Z := mret 0.

Definition merge (dest src : Z) : MB bool :=
  length ← bnode_length src;
  room ← remaining_write dest;
  if bool_decide (room < length) then mret false
  else
    result ← move_all_elements dest src;
    (if (result : bool) then
       res ← insert_all_children dest src;
       BUG_ON (negb res)
     else mret tt);;
    mret result.
End btree_remove.

Section facts.
Context {D : Type} {B : BufferCache D} {L : BufferCacheLaws D}.
Implicit Types (s : bufs D) (b : list byte).

(** Block [n] holds the node [b]. *)
Record is_node s (n : Z) b : Prop := {
  nd_data : bc_data (b_dev s) n = Some b;
  nd_bytes : NODE_BYTES ≤ zlen b;
  nd_length : node_length b ≤ bnode_capacity;
}.

Lemma is_node_length s n b : is_node s n b → bnode_length n s = Ok (node_length b) s ∧ 0 ≤ node_length b.
Proof using.
  intros [Hd Hb Hl]. unfold NODE_BYTES, bnode_capacity in *. split; [by apply bnode_length_ok; try lia|].
  apply node_length_range. lia.
Qed.

Lemma is_leaf_loop_ok s n b k i :
  is_node s n b → 0 ≤ i → i + Z.of_nat k = node_length b + 1 →
  is_leaf_loop k n i s = Ok (bool_decide (Forall (λ j, node_child b j = 0) (seqZ i (Z.of_nat k)))) s.
Proof using.
  intros Hn. pose proof (is_node_length _ _ _ Hn) as [_ H0]. destruct Hn as [Hd Hb Hl].
  unfold NODE_BYTES, bnode_capacity in *. revert i. induction k as [|k IH]; intros i Hi Hk; [done|].
  rewrite seqZ_cons by lia. cbn [is_leaf_loop]. assert (bnode_off_children = 1604) by done.
  erewrite bind_ok by (apply bnode_get_child_ok; [done|lia..]).
  destruct (decide (node_child b i = 0)) as [Hz|Hz].
  - rewrite bool_decide_eq_false_2 by lia. rewrite IH by lia. f_equal. apply bool_decide_ext.
    replace (Z.pred (Z.of_nat (S k))) with (Z.of_nat k) by lia. rewrite Forall_cons.
    unfold Z.succ. tauto.
  - rewrite bool_decide_eq_true_2 by lia. rewrite bool_decide_eq_false_2; [done|].
    rewrite Forall_cons. tauto.
Qed.

(** A node counts as a leaf exactly when none of its children, one more than its
    entries, is there; the test always returns and changes nothing. *)
Theorem is_leaf_exact s n b :
  is_node s n b →
  ∃ leaf, is_leaf n s = Ok leaf s ∧ (leaf = true ↔ ∀ i, 0 ≤ i ≤ node_length b → node_child b i = 0).
Proof using.
  intros Hn. destruct (is_node_length _ _ _ Hn) as [E H0].
  unfold is_leaf. rewrite (bind_ok _ _ _ _ _ E), (is_leaf_loop_ok s n b) by (done || lia).
  eexists. split; [done|]. rewrite bool_decide_eq_true, Forall_forall, Z2Nat.id by lia. split.
  - intros H i Hi. apply H, elem_of_seqZ. lia.
  - intros H i Hi%elem_of_seqZ. apply H. lia.
Qed.

Lemma is_deficient_ok s n b :
  is_node s n b → is_deficient n s = Ok (bool_decide (node_length b < 50)) s.
Proof using. intros [E _]%is_node_length. unfold is_deficient. by rewrite (bind_ok _ _ _ _ _ E). Qed.
Lemma has_more_than_min_ok s n b :
  is_node s n b → has_more_than_min n s = Ok (bool_decide (50 < node_length b)) s.
Proof using. intros [E _]%is_node_length. unfold has_more_than_min. by rewrite (bind_ok _ _ _ _ _ E). Qed.
Lemma remaining_write_ok s n b : is_node s n b → remaining_write n s = Ok (100 - node_length b) s.
Proof using.
  intros Hn. destruct (is_node_length _ _ _ Hn) as [E H0]. destruct Hn as [_ _ Hl].
  unfold remaining_write, bnode_capacity in *. rewrite (bind_ok _ _ _ _ _ E). cbn. f_equal.
  apply u64_small; lia.
Qed.

(** The stub: whatever it has looked at, [merge] answers false and moves nothing. *)
Lemma merge_ok s n m b c : is_node s n b → is_node s m c → merge n m s = Ok false s.
Proof using.
  intros Hn [E _]%is_node_length. unfold merge.
  rewrite (bind_ok _ _ _ _ _ E), (bind_ok _ _ _ _ _ (remaining_write_ok _ _ _ Hn)). by case_bool_decide.
Qed.
End facts.

(** ** Concrete inputs *)
(** Node 3 with two entries, node 4 with 60 and a child *)
Definition siblings : bufs memdev :=
  Bufs (MemDev 4096
    {[ 3 := splice 0 (be_split 4 2) (zeros 4096);
       4 := splice 1612 (be_split 4 9) (splice 0 (be_split 4 60) (zeros 4096)) ]} ∅) 0.

Lemma siblings_node n k x :
  bc_data (b_dev siblings) n = Some x → zlen x = 4096 → node_length x = k → k ≤ 100 → is_node siblings n x.
Proof. intros H Hx Hk ?. split; [done|unfold NODE_BYTES; lia|unfold bnode_capacity; lia]. Qed.

Lemma is_leaf_exact_witness : is_leaf 3 siblings = Ok true siblings ∧ is_leaf 4 siblings = Ok false siblings.
Proof.
  split.
  - destruct (is_leaf_exact siblings 3 (splice 0 (be_split 4 2) (zeros 4096))) as (leaf & E & H);
      [apply (siblings_node _ 2); [by vm_compute..|done]|].
    rewrite E. assert (leaf = true) as ->; [|reflexivity]. apply H. intros i Hi.
    assert (node_length (splice 0 (be_split 4 2) (zeros 4096)) = 2) as E2 by (by vm_compute).
    assert (i = 0 ∨ i = 1 ∨ i = 2) as [->|[->| ->]] by lia; by vm_compute.
  - destruct (is_leaf_exact siblings 4 (splice 1612 (be_split 4 9) (splice 0 (be_split 4 60) (zeros 4096))))
      as (leaf & E & H); [apply (siblings_node _ 60); [by vm_compute..|done]|].
    rewrite E. destruct leaf; [|reflexivity]. destruct H as [H _]. specialize (H eq_refl 1).
    vm_compute in H. exfalso. by assert (9 = 0) by (apply H; intuition congruence).
Defined.
