(* ===== verification/Extent.v ===== *)
(** * sp.c, file extents

    A file is a chain of extents, each a run of consecutive blocks: a 16-byte header
    (magic, next extent, capacity in blocks, length in bytes) at the start of the
    first block, and the data behind it and in the following blocks.

    User memory: a source buffer is the list of the bytes from [in_buf] on; what
    [copy_to_user] is given is appended to [user], the second half of the state of the
    reading functions. *)
From S2P Require Import Prelude Util Buffers FreeList Inode Bnode Btree.

Definition MIN (f s : Z) : Z := if bool_decide (s < f) then s else f.

Record spfs_file_extent := FileExtent { fe_next : Z; fe_capacity : Z; fe_length : Z }.

Definition spfs_parse_file_extent : M cursor spfs_file_extent :=
  magic ← or_err (-EINVAL) spfs_sb_read_u32;
  next ← or_err (-EINVAL) spfs_sb_read_sector;
  capacity ← or_err (-EINVAL) spfs_sb_read_u32;
  length ← or_err (-EINVAL) spfs_sb_read_u32;
  if bool_decide (magic ≠ SPFS_MAGIC) then err (-EINVAL)
  else mret (FileExtent next capacity length).

Definition spfs_make_file_extent (inp : spfs_file_extent) : M cursor unit :=
  or_fail 1 (spfs_sb_write_u32 SPFS_MAGIC);;
  or_fail 1 (spfs_sb_write_u32 (fe_next inp));;
  or_fail 1 (spfs_sb_write_u32 (fe_capacity inp));;
  or_fail 1 (spfs_sb_write_u32 (fe_length inp));;
  mret tt.

Definition spfs_sizeof_file_extent_header : Z := 4 + 4 + 4 + 4.

Definition spfs_file_extent_data_bytes {S} (block_size blocks : Z) : M S Z :=
  BUG_ON (bool_decide (blocks = 0));;
  let bytes := u64 (blocks * block_size) in
  mret (u64 (bytes - spfs_sizeof_file_extent_header)).

(** [loff_t] is signed: the comparison with a [size_t] in [MIN] is unsigned. *)
Section extent.
Context {D : Type} {B : BufferCache D}.

(** ** Reading *)
(** One round of [spfs_read_file_extent] on the buffer of block [start], up to its
    [brelse]: skip towards [*pos], then copy.  [length] is [header.length]; the result
    is [header.length], [*in_len], [*pos] and [read]. *)
Definition read_extent_round (start bh_pos length in_len pos read : Z) :
    M (bufs D * list byte) (Z * Z * Z * Z) :=
  b ← zoom fst_lens (bh_data start);
  rem ← spfs_sb_remaining b bh_pos;
  let con := MIN (u64 pos) (MIN rem length) in
  let bh_pos := bh_pos + con in
  let pos := s64 (pos - con) in
  let length := u32 (length - con) in
  if bool_decide (pos = 0) then
    rem ← spfs_sb_remaining b bh_pos;
    let con := MIN in_len (MIN rem length) in
    if bool_decide (0 < con) then
      chunk ← mload b bh_pos con;
      zoom snd_lens (modify (λ user, user ++ chunk));;
      mret (u32 (length - con), in_len - con, pos, read + con)
    else mret (length, in_len, pos, read)
  else mret (length, in_len, pos, read).

(** The [do ... while (1)]; the result is [read], with the final [*in_len] and [*pos]. *)
Fixpoint read_extent_loop (fuel : nat) (start bh_pos length in_len pos read : Z) :
    M (bufs D * list byte) (Z * Z * Z) :=
  match fuel with
  | O => crashes NoFuel
  | S fuel =>
      r ← read_extent_round start bh_pos length in_len pos read;
      let '(length, in_len, pos, read) := r in
      zoom fst_lens (brelse start);;
      if bool_decide (0 < length) then
        ok ← zoom fst_lens (sb_bread (start + 1));
        if negb ok then err (-EIO)
        else read_extent_loop fuel (start + 1) 0 length in_len pos read
      else mret (read, in_len, pos)
  end.

(** The result is [read], [*next], [*in_len] and [*pos]. *)
Definition spfs_read_file_extent (fuel : nat) (start in_len pos : Z) :
    M (bufs D * list byte) (Z * Z * Z * Z) :=
  ok ← zoom fst_lens (sb_bread start);
  if negb ok then err (-EIO)
  else
    h ← zoom fst_lens (in_bh start 0 spfs_parse_file_extent);
    let '(header, bh_pos) := h in
    r ← read_extent_loop fuel start bh_pos (fe_length header) in_len pos 0;
    let '(read, in_len, pos) := r in
    mret (read, fe_next header, in_len, pos).

(** ** Writing *)
(** The result is [written], [*bh_pos], [*in_buf], [*in_len] and [*ppos]. *)
Definition spfs_do_write (n bh_pos : Z) (in_buf : list byte) (in_len ppos : Z) :
    M (bufs D) (Z * Z * list byte * Z * Z) :=
  b ← bh_data n;
  rem ← spfs_sb_remaining b bh_pos;
  let con := MIN (u64 ppos) rem in
  let ppos := s64 (ppos - con) in
  let bh_pos := bh_pos + con in
  if bool_decide (ppos = 0) then
    rem ← spfs_sb_remaining b bh_pos;
    let con := MIN in_len rem in
    if bool_decide (0 < con) then
      b' ← mstore b bh_pos (sub 0 con in_buf);
      bh_set_data n b';;
      mret (con, bh_pos, drop (Z.to_nat con) in_buf, in_len - con, ppos)
    else mret (0, bh_pos, in_buf, in_len, ppos)
  else mret (0, bh_pos, in_buf, in_len, ppos).

Definition spfs_in_sector (block_size pos : Z) : bool := bool_decide (pos < block_size).

(** The [while] over the blocks behind the head; the result is [header->length],
    [*in_buf], [*in_len], [*ppos] and [head_dirty]. *)
Fixpoint write_extent_loop (fuel : nat) (block_size it end_ length : Z) (in_buf : list byte)
    (in_len ppos : Z) (head_dirty : bool) : M (bufs D) (Z * list byte * Z * Z * bool) :=
  match fuel with
  | O => crashes NoFuel
  | S fuel =>
      if bool_decide (0 < in_len ∧ it < end_) then
        if spfs_in_sector block_size ppos then
          ok ← sb_bread it;
          if negb ok then err (-EIO)
          else
            w ← spfs_do_write it 0 in_buf in_len ppos;
            let '(res, _, in_buf, in_len, ppos) := w in
            let length := u32 (length + res) in
            (if bool_decide (0 < res) then mark_buffer_dirty it else mret tt);;
            brelse it;;
            write_extent_loop fuel block_size (it + 1) end_ length in_buf in_len ppos
              (head_dirty || bool_decide (0 < res))
        else
          BUG_ON (bool_decide (ppos < block_size));;
          write_extent_loop fuel block_size (it + 1) end_ length in_buf in_len
            (ppos - block_size) head_dirty
      else mret (length, in_buf, in_len, ppos, head_dirty)
  end.

(** The result is [written], [*header], [*in_buf], [*in_len], [*ppos] and [*extra].
    [written] counts the head block only: the [res] of the loop is another variable. *)
Definition spfs_write_file_extent (block_size start : Z) (in_buf : list byte)
    (in_len ppos extra : Z) :
    M (bufs D) (Z * spfs_file_extent * list byte * Z * Z * Z) :=
  ok ← sb_bread start;
  if negb ok then err (-EIO)
  else
    h ← in_bh start 0 spfs_parse_file_extent;
    let '(header, head_pos) := h in
    let link := bool_decide (fe_next header = 0 ∧ extra ≠ 0) in
    let next := if link then extra else fe_next header in
    let extra := if link then 0 else extra in
    w ← spfs_do_write start head_pos in_buf in_len ppos;
    let '(res, _, in_buf, in_len, ppos) := w in
    let written := res in
    let length := u32 (fe_length header + res) in
    let head_dirty := link || bool_decide (0 < res) in
    let end_ := u64 (start + fe_capacity header) in
    l ← write_extent_loop (S (Z.to_nat (fe_capacity header))) block_size (start + 1) end_
          length in_buf in_len ppos head_dirty;
    let '(length, in_buf, in_len, ppos, head_dirty) := l in
    let header := FileExtent next (fe_capacity header) length in
    (if (head_dirty : bool) then
       res ← catch (on_bh start 0 (spfs_make_file_extent header));
       BUG_ON (match res with inl _ => true | inr _ => false end);;
       mark_buffer_dirty start
     else mret tt);;
    brelse start;;
    mret (written, header, in_buf, in_len, ppos, extra).

(** ** Space *)
Fixpoint blocks_for_loop {S} (fuel : nat) (block_size bytes result : Z) : M S Z :=
  match fuel with
  | O => crashes NoFuel
  | S fuel =>
      if bool_decide (bytes ≠ 0)
      then blocks_for_loop fuel block_size (bytes - MIN bytes block_size) (result + 1)
      else mret result
  end.

Definition spfs_blocks_for {S} (fuel : nat) (block_size bytes : Z) : M S Z :=
  blocks_for_loop fuel block_size bytes 0.

Definition spfs_calc_extra_blocks {S} (fuel : nat) (block_size capacity in_pos in_len : Z) : M S Z :=
  let end_ := u64 (in_pos + in_len) in
  if bool_decide (end_ ≤ capacity) then mret 0
  else
    let extra_bytes := end_ - capacity in
    let extra_bytes := u64 (extra_bytes + spfs_sizeof_file_extent_header) in
    spfs_blocks_for fuel block_size extra_bytes.

(** 0 when there is no space *)
Definition spfs_file_extent_alloc (blocks : Z) : M (btree_st D) Z :=
  result ← zoom t_free_lens (spfs_free_alloc blocks);
  if bool_decide (result = 0) then mret result
  else
    ok ← zoom t_bufs_lens (sb_bread result);
    BUG_ON (negb ok);;
    r ← catch (zoom t_bufs_lens (on_bh result 0 (spfs_make_file_extent (FileExtent 0 (u32 blocks) 0))));
    match r with
    | inl _ => mret 0
    | inr _ =>
        zoom t_bufs_lens (mark_buffer_dirty result);;
        zoom t_bufs_lens (brelse result);;
        mret result
    end.
End extent.

(** ** Specification: the bytes of an extent *)
(** [bs] are the contents of the blocks [start], [start + 1], ... *)
Definition run_at {D} `{BufferCache D} (d : D) (start : Z) (bs : list (list byte)) : Prop :=
  ∀ i b, bs !! i = Some b → bc_data d (start + Z.of_nat i) = Some b.

Definition extent_header (b : list byte) : spfs_file_extent :=
  FileExtent (be_combine (sub 4 4 b)) (be_combine (sub 8 4 b)) (be_combine (sub 12 4 b)).

Definition extent_magic (b : list byte) : Z := be_combine (sub 0 4 b).

Definition header_bytes (h : spfs_file_extent) : list byte :=
  be_split 4 SPFS_MAGIC ++ be_split 4 (fe_next h) ++ be_split 4 (fe_capacity h) ++
  be_split 4 (fe_length h).

(** All bytes behind the header, used or not *)
Definition extent_space (bs : list (list byte)) : list byte := drop 16 (concat bs).

(** The blocks hold an extent with [data]: nothing but them is read. *)
Record extent_at {D} `{BufferCache D} (d : D) (start : Z) (bs : list (list byte))
    (next : Z) (data : list byte) : Prop := {
  ea_run : run_at d start bs;
  ea_head : ∃ b rest, bs = b :: rest ∧ extent_magic b = SPFS_MAGIC ∧
              fe_next (extent_header b) = next ∧ fe_length (extent_header b) = zlen data;
  ea_size : 16 ≤ bc_bsize d;
  ea_data : ∃ slack, extent_space bs = data ++ slack;
}.

Lemma MIN_min f s : MIN f s = Z.min f s.
Proof. unfold MIN. case_bool_decide; lia. Qed.

(** ** Headers *)
Lemma spfs_parse_file_extent_eq b :
  16 ≤ zlen b →
  spfs_parse_file_extent (Cursor b 0) =
    if bool_decide (extent_magic b ≠ SPFS_MAGIC) then Err (-EINVAL) (Cursor b 16)
    else Ok (extent_header b) (Cursor b 16).
Proof.
  intros. unfold spfs_parse_file_extent. do 4 codec_ok.
  unfold extent_magic, extent_header. by case_bool_decide.
Qed.

Lemma spfs_make_file_extent_eq h b :
  16 ≤ zlen b →
  spfs_make_file_extent h (Cursor b 0) = Ok tt (Cursor (splice 0 (header_bytes h) b) 16).
Proof.
  intros. unfold spfs_make_file_extent. do 4 codec_ok. unfold header_bytes.
  by rewrite <-!app_assoc.
Qed.

Lemma zlen_header_bytes h : zlen (header_bytes h) = 16.
Proof. unfold header_bytes. by zlen_simpl. Qed.
#[export] Hint Rewrite zlen_header_bytes : zlen.

Definition header_fits (h : spfs_file_extent) : Prop :=
  0 ≤ fe_next h < 2 ^ 32 ∧ 0 ≤ fe_capacity h < 2 ^ 32 ∧ 0 ≤ fe_length h < 2 ^ 32.

Lemma header_bytes_fields h b :
  16 ≤ zlen b → header_fits h →
  extent_magic (splice 0 (header_bytes h) b) = SPFS_MAGIC ∧
  extent_header (splice 0 (header_bytes h) b) = h.
Proof.
  intros Hb (H1 & H2 & H3). unfold extent_magic, extent_header.
  rewrite !sub_splice_in by slen. unfold header_bytes. destruct h as [n c l].
  cbn [fe_next fe_capacity fe_length] in *. split.
  - sub_field. rewrite be_combine_split. done.
  - f_equal; sub_field; rewrite be_combine_split; apply Z.mod_small; done.
Qed.

(** ** Runs of blocks *)
Section runs.
Context {D : Type} {B : BufferCache D} {L : BufferCacheLaws D}.

Lemma run_at_cons (d : D) start b bs :
  run_at d start (b :: bs) ↔ bc_data d start = Some b ∧ run_at d (start + 1) bs.
Proof using.
  unfold run_at. split.
  - intros H. split; [rewrite <-(Z.add_0_r start); by apply (H 0%nat)|].
    intros i x Hi. replace (start + 1 + Z.of_nat i) with (start + Z.of_nat (S i)) by lia.
    by apply H.
  - intros [H1 H2] [|i] x Hi; cbn in Hi.
    + injection Hi as <-. by rewrite Z.add_0_r.
    + replace (start + Z.of_nat (S i)) with (start + 1 + Z.of_nat i) by lia. by apply H2.
Qed.

Lemma read_round_ok (d : D) start p len in_len pos read r user b :
  bc_data d start = Some b → 0 ≤ p → p ≤ zlen b → 0 ≤ len → len < 2 ^ 32 →
  0 ≤ pos → pos < 2 ^ 63 → 0 ≤ in_len →
  let m := Z.min (zlen b - p) len in
  let c := Z.min pos m in
  let k := Z.min in_len (m - c) in
  read_extent_round start p len in_len pos read (Bufs d r, user) =
    Ok (len - c - k, in_len - k, pos - c, read + k) (Bufs d r, user ++ sub (p + c) k b).
Proof using.
  intros Hb Hp Hpb Hl Hl' Hpos Hpos' Hin m c k. unfold read_extent_round.
  assert (E1 : bh_data start (Bufs d r) = Ok b (Bufs d r)) by (unfold bh_data; cbn; by rewrite Hb).
  exec E1. erewrite bind_ok by (apply sb_remaining_ok; unfold b_size; lia).
  unfold b_size. rewrite !MIN_min, u64_small by lia. fold m c.
  assert (s64 (pos - c) = pos - c) as -> by (unfold s64; rewrite Z.mod_small; lia).
  rewrite (u32_small (len - c)) by lia. unfold fst_lens. cbn [lset lget fst snd].
  case_bool_decide as Hz; cycle 1.
  { assert (k = 0) as -> by lia. unfold mret, M_ret. rewrite sub_nil, app_nil_r.
    by rewrite !Z.sub_0_r, Z.add_0_r. }
  erewrite bind_ok by (apply sb_remaining_ok; unfold b_size; lia). unfold b_size.
  rewrite !MIN_min. assert (in_len `min` ((zlen b - (p + c)) `min` (len - c)) = k) as -> by lia.
  case_bool_decide; cycle 1.
  { assert (k = 0) as -> by lia. unfold mret, M_ret. rewrite sub_nil, app_nil_r.
    by rewrite !Z.sub_0_r, Z.add_0_r. }
  unfold mload. decide_if by lia. erewrite bind_ok by done. rewrite u32_small by lia. done.
Qed.

(** The loop reads what is left of the current block and the following ones, as long
    as the user wants it all. *)
Lemma read_extent_loop_ok (d : D) bs : ∀ b fuel start p len in_len pos read r user,
  run_at d start (b :: bs) → (length bs < fuel)%nat →
  0 ≤ p → p ≤ zlen b → 0 ≤ len → len < 2 ^ 32 → 0 ≤ pos → pos < 2 ^ 63 → 0 ≤ in_len →
  len - pos ≤ in_len → len ≤ zlen (drop (Z.to_nat p) b ++ concat bs) →
  read_extent_loop fuel start p len in_len pos read (Bufs d r, user) =
    Ok (read + Z.max 0 (len - pos), in_len - Z.max 0 (len - pos), Z.max 0 (pos - len))
       (Bufs d (r - 1), user ++ sub pos (len - pos) (drop (Z.to_nat p) b ++ concat bs)).
Proof using.
  induction bs as [|b' bs IH]; intros b fuel start p len in_len pos read r user
    Hrun Hf Hp Hpb Hl Hl' Hpos Hpos' Hin Hall Hs;
    (destruct fuel as [|fuel]; [lia|]); apply run_at_cons in Hrun as [Hb Hrun];
    cbn [read_extent_loop]; rewrite zlen_app, zlen_drop in Hs by lia;
    rewrite (bind_ok _ _ _ _ _ (read_round_ok d start p len in_len pos read r user b
                                  Hb Hp Hpb Hl Hl' Hpos Hpos' Hin));
    set (m := Z.min (zlen b - p) len); set (c := Z.min pos m);
    set (k := Z.min in_len (m - c)); erewrite bind_ok by done; cbn.
  - change (zlen (concat [])) with 0 in Hs.
    assert (len - c - k = 0) as -> by lia. cbn [concat]. rewrite app_nil_r, sub_drop by lia.
    decide_if. unfold mret, M_ret. f_equal; [tuple_lia|]. do 2 f_equal.
    destruct (decide (pos ≤ len)); [f_equal; lia|]. rewrite !sub_nonpos by lia. done.
  - case_bool_decide as Hmore.
    + apply run_at_cons in Hrun as Hrun'. destruct Hrun' as [Hb' _].
      pose proof (sb_bread_ok (start + 1) (Bufs d (r - 1)) b' Hb') as E2. exec E2.
      cbn [negb fst_lens lset lget fst snd b_dev b_refs].
      rewrite (IH b'); try lia; [|done|cbn [length] in Hf; lia|apply zlen_nonneg|]; cycle 1.
      { change (Z.to_nat 0) with 0%nat. rewrite drop_0. cbn [concat] in Hs. lia. }
      change (Z.to_nat 0) with 0%nat. rewrite drop_0. change (b' ++ concat bs) with (concat (b' :: bs)).
      f_equal; [tuple_lia|]. f_equal; [f_equal; lia|].
      rewrite <-app_assoc. f_equal.
      destruct (decide (pos ≤ zlen b - p)).
      * rewrite (sub_app_both pos) by (rewrite ?zlen_drop; lia). rewrite zlen_drop by lia.
        rewrite sub_drop by lia. f_equal; f_equal; lia.
      * rewrite (sub_app_r pos) by (rewrite zlen_drop; lia). rewrite zlen_drop by lia.
        rewrite (sub_nonpos (p + c)) by lia. cbn [app]. f_equal; lia.
    + assert (len - c - k = 0) as Hz by lia. unfold mret, M_ret.
      f_equal; [tuple_lia|]. f_equal. f_equal.
      destruct (decide (pos ≤ len)); [|by rewrite !sub_nonpos by lia].
      rewrite sub_app_l by (rewrite ?zlen_drop; lia). rewrite sub_drop by lia. f_equal; lia.
Qed.

(** A user that wants less than the extent has makes the loop run off the device. *)
Lemma read_extent_loop_short (d : D) bs : ∀ b fuel start p len in_len pos read r user,
  run_at d start (b :: bs) → bc_data d (start + zlen (b :: bs)) = None →
  (length bs < fuel)%nat →
  0 ≤ p → p ≤ zlen b → 0 ≤ len → len < 2 ^ 32 → 0 ≤ pos → pos < 2 ^ 63 → 0 ≤ in_len →
  in_len < len - pos →
  ∃ s, read_extent_loop fuel start p len in_len pos read (Bufs d r, user) = Err (-EIO) s.
Proof using.
  induction bs as [|b' bs IH]; intros b fuel start p len in_len pos read r user
    Hrun Hend Hf Hp Hpb Hl Hl' Hpos Hpos' Hin Hshort;
    (destruct fuel as [|fuel]; [lia|]); apply run_at_cons in Hrun as [Hb Hrun];
    cbn [read_extent_loop];
    rewrite (bind_ok _ _ _ _ _ (read_round_ok d start p len in_len pos read r user b
                                  Hb Hp Hpb Hl Hl' Hpos Hpos' Hin));
    set (m := Z.min (zlen b - p) len); set (c := Z.min pos m);
    set (k := Z.min in_len (m - c)); erewrite bind_ok by done; decide_if.
  - assert (E2 : sb_bread (start + 1) (Bufs d (r - 1)) = Ok false (Bufs d (r - 1))).
    { apply sb_bread_null. exact Hend. }
    exec E2. cbn [negb]. eauto.
  - apply run_at_cons in Hrun as Hrun'. destruct Hrun' as [Hb' _].
    pose proof (sb_bread_ok (start + 1) (Bufs d (r - 1)) b' Hb') as E2. exec E2.
    cbn [negb fst_lens lset lget fst snd b_dev b_refs].
    apply (IH b'); try lia; [done| |cbn [length] in Hf; lia|apply zlen_nonneg].
    rewrite <-Hend. f_equal. rewrite !zlen_cons. lia.
Qed.

Lemma extent_at_head (d : D) start bs next data :
  extent_at d start bs next data →
  ∃ b rest, bs = b :: rest ∧ run_at d start (b :: rest) ∧ zlen b = bc_bsize d ∧ 16 ≤ zlen b ∧
    spfs_parse_file_extent (Cursor b 0) = Ok (extent_header b) (Cursor b 16) ∧
    fe_next (extent_header b) = next ∧ fe_length (extent_header b) = zlen data ∧
    ∃ slack, drop (Z.to_nat 16) b ++ concat rest = data ++ slack.
Proof using L.
  intros [Hrun (b & rest & -> & Hm & Hn & Hl) Hsz [slack Hs]]. exists b, rest.
  assert (zlen b = bc_bsize d) as Hz.
  { apply run_at_cons in Hrun as [Hb _]. by eapply bc_data_size. }
  split_and!; [done..|lia| |done|done|].
  - rewrite spfs_parse_file_extent_eq by lia. by decide_if by naive_solver.
  - exists slack. rewrite <-Hs. unfold extent_space. cbn [concat].
    rewrite drop_app_le by (unfold zlen in *; lia). done.
Qed.

Lemma extent_length_range (b : list byte) : 16 ≤ zlen b → 0 ≤ fe_length (extent_header b) < 2 ^ 32.
Proof using.
  intros. cbn [extent_header fe_length]. pose proof (be_combine_range (sub 12 4 b)) as Hr.
  by rewrite zlen_sub in Hr by lia.
Qed.

Lemma read_file_extent_ok (d : D) fuel start bs next data in_len p0 r user :
  extent_at d start bs next data → (length bs ≤ fuel)%nat →
  0 ≤ p0 → p0 < 2 ^ 63 → 0 ≤ in_len → zlen data - p0 ≤ in_len →
  spfs_read_file_extent fuel start in_len p0 (Bufs d r, user) =
    Ok (Z.max 0 (zlen data - p0), next, in_len - Z.max 0 (zlen data - p0),
        Z.max 0 (p0 - zlen data))
       (Bufs d r, user ++ drop (Z.to_nat p0) data).
Proof using L.
  intros He Hf Hpos Hpos' Hin Hall.
  destruct (extent_at_head _ _ _ _ _ He)
    as (b & rest & -> & Hrun & Hz & Hz16 & Hparse & Hnext & Hlen & slack & Hs).
  pose proof (extent_length_range b Hz16) as Hr. rewrite Hlen in Hr.
  apply run_at_cons in Hrun as Hrun'. destruct Hrun' as [Hb _].
  unfold spfs_read_file_extent.
  pose proof (sb_bread_ok start (Bufs d r) b Hb) as E1. exec E1.
  cbn [negb fst_lens lset lget fst snd b_dev b_refs].
  pose proof (in_bh_ok start 0 _ (Bufs d (r + 1)) b _ _ Hb Hparse) as E2. exec E2.
  cbn [pos fst_lens lset lget fst snd]. rewrite Hlen.
  assert (zlen data ≤ zlen (drop (Z.to_nat 16) b ++ concat rest)) as Hsp
    by (rewrite Hs, zlen_app; pose proof (zlen_nonneg slack); lia).
  cbn [length] in Hf.
  pose proof (read_extent_loop_ok d rest b fuel start 16 (zlen data) in_len p0 0 (r + 1) user Hrun)
    as E3. specialize_lia E3. exec E3.
  rewrite Hs, Hnext. unfold mret, M_ret. f_equal.
  f_equal; [f_equal; lia|]. f_equal. unfold zlen in *.
  destruct (decide (p0 ≤ Z.of_nat (length data))).
  - rewrite sub_app_l by (unfold zlen; lia). unfold sub. apply take_ge.
    rewrite length_drop. lia.
  - rewrite sub_nonpos, drop_ge by lia. done.
Qed.

(** ** Writing a block *)
Lemma do_write_ok (d : D) n p in_buf in_len ppos r b :
  bc_data d n = Some b → 0 ≤ p → p ≤ zlen b → 0 ≤ ppos → ppos < 2 ^ 63 →
  0 ≤ in_len → in_len ≤ zlen in_buf →
  let c := Z.min ppos (zlen b - p) in
  let k := Z.min in_len (zlen b - (p + c)) in
  ∃ d', spfs_do_write n p in_buf in_len ppos (Bufs d r) =
          Ok (k, p + c, drop (Z.to_nat k) in_buf, in_len - k, ppos - c) (Bufs d' r) ∧
        dev_upd d n (splice (p + c) (sub 0 k in_buf) b) d'.
Proof using L.
  intros Hb Hp Hpb Hpos Hpos' Hin Hin' c k. unfold spfs_do_write.
  assert (E1 : bh_data n (Bufs d r) = Ok b (Bufs d r)) by (unfold bh_data; cbn; by rewrite Hb).
  exec E1. erewrite bind_ok by (apply sb_remaining_ok; unfold b_size; lia).
  unfold b_size. rewrite !MIN_min, u64_small by lia. fold c.
  assert (s64 (ppos - c) = ppos - c) as -> by (unfold s64; rewrite Z.mod_small; lia).
  assert (Hnone : k = 0 → ∃ d',
    (Ok (0, p + c, in_buf, in_len, ppos - c) (Bufs d r) : out (bufs D) _) =
      Ok (k, p + c, drop (Z.to_nat k) in_buf, in_len - k, ppos - c) (Bufs d' r) ∧
    dev_upd d n (splice (p + c) (sub 0 k in_buf) b) d').
  { intros ->. exists d. rewrite sub_nil, splice_nil, drop_0, Z.sub_0_r. split; [done|].
    by apply dev_upd_refl. }
  case_bool_decide as Hz; cycle 1.
  { apply Hnone. lia. }
  erewrite bind_ok by (apply sb_remaining_ok; unfold b_size; lia). unfold b_size.
  rewrite MIN_min. fold k. case_bool_decide; [|apply Hnone; lia].
  unfold mstore. rewrite zlen_sub by lia. decide_if by lia. erewrite bind_ok by done.
  erewrite bind_ok by done. eexists. split; [reflexivity|].
  apply (dev_upd_store d n b); [done|]. rewrite zlen_splice; [done|lia|]. rewrite zlen_sub by lia. lia.
Qed.

(** ** Writing a run of blocks *)
(** [d'] is [d] with the run [bs] at [start] overwritten by [bs']. *)
Definition run_upd (d : D) (start : Z) (bs bs' : list (list byte)) (d' : D) : Prop :=
  bc_bsize d' = bc_bsize d ∧ length bs' = length bs ∧ run_at d' start bs' ∧
  ∀ m, m < start ∨ start + zlen bs ≤ m → bc_data d' m = bc_data d m.

Lemma run_upd_refl d start bs : run_at d start bs → run_upd d start bs bs d.
Proof using. intros. unfold run_upd. by split_and!. Qed.

Lemma run_at_nil (d : D) start : run_at d start [].
Proof using. intros i b Hi. by rewrite lookup_nil in Hi. Qed.

Lemma run_at_ext (d d' : D) start bs :
  (∀ m, start ≤ m → m < start + zlen bs → bc_data d' m = bc_data d m) →
  run_at d start bs → run_at d' start bs.
Proof using.
  intros He H i b Hi. apply lookup_lt_Some in Hi as Hl. unfold zlen in He.
  rewrite He by lia. by apply H.
Qed.

Lemma run_upd_cons d start b b' bs bs' d1 d' :
  dev_upd d start b' d1 → run_upd d1 (start + 1) bs bs' d' →
  run_upd d start (b :: bs) (b' :: bs') d'.
Proof using.
  intros (Hs1 & Hd1 & Hf1) (Hs & Hl & Hr & Hf). unfold run_upd. split_and!.
  - congruence.
  - cbn. by rewrite Hl.
  - apply run_at_cons. split; [|done]. by rewrite Hf by lia.
  - intros m Hm. rewrite zlen_cons in Hm. pose proof (zlen_nonneg bs).
    rewrite Hf by lia. apply Hf1. lia.
Qed.

Lemma u32_add_u32 a b : u32 (u32 a + b) = u32 (a + b).
Proof using. unfold u32. by rewrite Zplus_mod_idemp_l. Qed.

Lemma concat_in_block (b rest buf : list byte) pos k k1 k2 :
  0 ≤ pos → pos ≤ zlen b → k1 + k2 = k → 0 ≤ k1 → 0 ≤ k2 → k ≤ zlen buf →
  k1 = Z.min k (zlen b - pos) → (k2 = 0 ∨ k1 = zlen b - pos) →
  k2 ≤ zlen rest →
  splice pos (sub 0 k1 buf) b ++ splice 0 (sub 0 k2 (drop (Z.to_nat k1) buf)) rest =
  splice pos (sub 0 k buf) (b ++ rest).
Proof using.
  intros Hp Hpb Hk H1 H2 Hb Hk1 Hk2 Hr. destruct Hk2 as [->|Hk2].
  - rewrite sub_nil, splice_nil. rewrite splice_app_l by slen. do 3 f_equal. lia.
  - assert (k1 ≤ k) by lia. rewrite splice_app_both by slen. rewrite <-Hk2, sub_sub by lia.
    do 2 f_equal. unfold sub. rewrite !drop_0, skipn_firstn_comm. f_equal. lia.
Qed.

Lemma write_extent_loop_ok bs : ∀ (d : D) sz fuel it end_ length in_buf in_len ppos dirty r,
  run_at d it bs → end_ = it + zlen bs → (List.length bs < fuel)%nat →
  bc_bsize d = sz → 0 < sz → 0 ≤ length → length < 2 ^ 32 → 0 ≤ ppos → ppos < 2 ^ 63 →
  0 ≤ in_len → in_len ≤ zlen in_buf → (in_len = 0 → ppos = 0) →
  let k := Z.max 0 (Z.min in_len (zlen (concat bs) - ppos)) in
  ∃ bs' d',
    write_extent_loop fuel sz it end_ length in_buf in_len ppos dirty (Bufs d r) =
      Ok (u32 (length + k), drop (Z.to_nat k) in_buf, in_len - k,
          Z.max 0 (ppos - zlen (concat bs)), dirty || bool_decide (0 < k)) (Bufs d' r) ∧
    run_upd d it bs bs' d' ∧ concat bs' = splice ppos (sub 0 k in_buf) (concat bs).
Proof using L.
  induction bs as [|b bs IH]; intros d sz fuel it end_ len in_buf in_len ppos dirty r
    Hrun Hend Hf Hsz Hs Hl Hl' Hpos Hpos' Hin Hin' H0 k;
    (destruct fuel as [|fuel]; [lia|]); cbn [write_extent_loop].
  { change (zlen []) with 0 in Hend. change (zlen (concat [])) with 0 in *.
    assert (k = 0) as -> by lia. decide_if. exists [], d.
    rewrite drop_0, Z.add_0_r, u32_small, Z.sub_0_r, sub_nil, splice_nil, orb_false_r by lia.
    split_and!; [|by apply run_upd_refl|done]. unfold mret, M_ret. do 2 f_equal. f_equal. lia. }
  rewrite zlen_cons in Hend. pose proof (zlen_nonneg bs). cbn [concat List.length] in *.
  pose proof (zlen_nonneg (concat bs)).
  assert (bc_data d it = Some b ∧ run_at d (it + 1) bs) as [Hb Hrun'] by by apply run_at_cons.
  assert (zlen b = sz) as Hbz by (subst sz; by eapply bc_data_size).
  assert (k = Z.max 0 (Z.min in_len (zlen b + zlen (concat bs) - ppos))) as Hkd
    by (unfold k; by rewrite zlen_app).
  clearbody k. rewrite zlen_app.
  destruct (decide (in_len = 0)) as [Hz|Hz].
  { specialize (H0 Hz). assert (k = 0) as -> by lia. decide_if. exists (b :: bs), d.
    rewrite drop_0, Z.add_0_r, u32_small, Z.sub_0_r, sub_nil, splice_nil, orb_false_r by lia.
    split_and!; [|by apply run_upd_refl|done]. unfold mret, M_ret. do 2 f_equal. f_equal. lia. }
  decide_if. unfold spfs_in_sector. case_bool_decide as Hsec.
  - pose proof (sb_bread_ok it (Bufs d r) b Hb) as E1. exec E1. cbn [negb b_dev b_refs].
    edestruct (do_write_ok d it 0 in_buf in_len ppos (r + 1) b) as (d1 & E2 & Hupd);
      [done|lia..|]. exec E2. clear E1 E2.
    set (k1 := Z.min in_len (zlen b - (0 + Z.min ppos (zlen b - 0)))) in *.
    assert (E3 : (if bool_decide (0 < k1) then mark_buffer_dirty it else mret tt) (Bufs d1 (r + 1))
              = Ok tt (Bufs (if bool_decide (0 < k1) then bc_dirty d1 it else d1) (r + 1)))
      by by case_bool_decide.
    exec E3. clear E3. erewrite bind_ok by done. cbn [b_dev b_refs].
    set (d2 := if bool_decide (0 < k1) then _ else _).
    assert (Hupd2 : dev_upd d it (splice ppos (sub 0 k1 in_buf) b) d2).
    { replace (0 + Z.min ppos (zlen b - 0)) with ppos in Hupd by lia.
      unfold d2. case_bool_decide; [by apply dev_upd_dirty|done]. }
    clearbody d2. clear Hupd d1.
    assert (Hrun2 : run_at d2 (it + 1) bs).
    { destruct Hupd2 as (_ & _ & Hf2). eapply run_at_ext; [|done]. intros. apply Hf2. lia. }
    edestruct (IH d2 sz fuel (it + 1) end_ (u32 (len + k1)) (drop (Z.to_nat k1) in_buf)
                 (in_len - k1) (ppos - Z.min ppos (zlen b - 0)) (dirty || bool_decide (0 < k1)) r)
      as (bs' & d' & E4 & Hupd' & Hc); try done; try lia.
    { destruct Hupd2 as [-> _]. done. }
    { apply u32_range. }
    { apply u32_range. }
    { rewrite zlen_drop by lia. lia. }
    set (k2 := Z.max 0 (Z.min (in_len - k1) (zlen (concat bs) - (ppos - Z.min ppos (zlen b - 0))))) in *.
    replace (r + 1 - 1) with r by lia. rewrite E4. exists (splice ppos (sub 0 k1 in_buf) b :: bs'), d'.
    assert (k = k1 + k2) as Hk by lia. split_and!.
    + assert (dirty || bool_decide (0 < k1) || bool_decide (0 < k2) = dirty || bool_decide (0 < k))
        as -> by (rewrite <-orb_assoc; f_equal; repeat case_bool_decide; done || lia).
      rewrite u32_add_u32, drop_drop. f_equal. f_equal. f_equal; [|lia]. f_equal; [|lia].
      f_equal; f_equal; lia.
    + eapply run_upd_cons; done.
    + cbn [concat]. rewrite Hc.
      replace (ppos - Z.min ppos (zlen b - 0)) with 0 in * by lia.
      rewrite (concat_in_block b (concat bs) in_buf ppos k k1 k2); [done|lia..].
  - erewrite bind_ok by done.
    edestruct (IH d sz fuel (it + 1) end_ len in_buf in_len (ppos - sz) dirty r)
      as (bs' & d' & E4 & Hupd' & Hc); try done; try lia.
    rewrite E4. exists (b :: bs'), d'.
    replace (Z.max 0 (Z.min in_len (zlen (concat bs) - (ppos - sz)))) with k in * by lia.
    split_and!.
    + do 2 f_equal. f_equal. lia.
    + eapply run_upd_cons; [by apply dev_upd_refl|done].
    + cbn [concat]. rewrite Hc, splice_app_r by lia. do 3 f_equal. lia.
Qed.

(** ** Writing an extent *)
(** The header [spfs_write_file_extent] leaves: a missing [next] is linked to [extra],
    the length grows by the number [k] of bytes stored. *)
Definition written_header (h : spfs_file_extent) (extra k : Z) : spfs_file_extent :=
  FileExtent (if bool_decide (fe_next h = 0) then extra else fe_next h) (fe_capacity h)
    (u32 (fe_length h + k)).

Lemma extent_header_fits b : 16 ≤ zlen b → header_fits (extent_header b).
Proof using.
  intros. unfold header_fits, extent_header. cbn [fe_next fe_capacity fe_length].
  pose proof (be_combine_range (sub 4 4 b)) as H1.
  pose proof (be_combine_range (sub 8 4 b)) as H2.
  pose proof (be_combine_range (sub 12 4 b)) as H3.
  rewrite zlen_sub in H1, H2, H3 by lia. done.
Qed.

Lemma drop_16_head (b : list byte) rest :
  16 ≤ zlen b → drop (Z.to_nat 16) (concat (b :: rest)) = drop (Z.to_nat 16) b ++ concat rest.
Proof using. intros. cbn [concat]. apply drop_app_le. unfold zlen in *. lia. Qed.

(** The head block: the data goes behind the header, a new header over the old one. *)
Lemma drop_16_head_written (b : list byte) off d h :
  0 ≤ off → off + zlen d ≤ zlen b - 16 →
  drop (Z.to_nat 16) (splice 0 (header_bytes h) (splice (16 + off) d b)) =
    splice off d (drop (Z.to_nat 16) b).
Proof using.
  intros. pose proof (zlen_nonneg d). rewrite drop_splice_lt by slen.
  rewrite drop_splice_ge by lia. f_equal. lia.
Qed.

Lemma extent_fields_ext (b b' : list byte) :
  16 ≤ zlen b → sub 0 16 b' = sub 0 16 b →
  extent_magic b' = extent_magic b ∧ extent_header b' = extent_header b.
Proof using.
  intros Hb He. assert (Hs : ∀ o n, 0 ≤ o → 0 ≤ n → o + n ≤ 16 → sub o n b' = sub o n b).
  { intros o n ???. transitivity (sub o n (sub 0 16 b')); [by rewrite sub_sub by lia|].
    rewrite He. by rewrite sub_sub by lia. }
  unfold extent_magic, extent_header. by rewrite !Hs by lia.
Qed.

Lemma run_upd_head d start b b1 b2 bs bs' d1 d2 d' :
  dev_upd d start b1 d1 → run_upd d1 (start + 1) bs bs' d2 → dev_upd d2 start b2 d' →
  run_upd d start (b :: bs) (b2 :: bs') d'.
Proof using.
  intros (Hs1 & Hd1 & Hf1) (Hs & Hl & Hr & Hf) (Hs2 & Hd2 & Hf2). unfold run_upd. split_and!.
  - congruence.
  - cbn. by rewrite Hl.
  - apply run_at_cons. split; [done|]. eapply run_at_ext; [|done]. intros. apply Hf2. lia.
  - intros m Hm. rewrite zlen_cons in Hm. pose proof (zlen_nonneg bs).
    rewrite Hf2, Hf, Hf1 by lia. done.
Qed.

(** The end of [spfs_write_file_extent]: the header is stored if something changed. *)
Lemma write_header_ok (d : D) start b1 h (dirty : bool) r :
  bc_data d start = Some b1 → 16 ≤ zlen b1 → header_fits h →
  (dirty = false → extent_magic b1 = SPFS_MAGIC ∧ extent_header b1 = h) →
  ∃ b' d',
    ((if dirty then
        res ← catch (on_bh start 0 (spfs_make_file_extent h));
        BUG_ON (match res with inl _ => true | inr _ => false end);;
        mark_buffer_dirty start
      else mret tt) : M (bufs D) unit) (Bufs d r) = Ok tt (Bufs d' r) ∧
    dev_upd d start b' d' ∧ extent_magic b' = SPFS_MAGIC ∧ extent_header b' = h ∧
    drop (Z.to_nat 16) b' = drop (Z.to_nat 16) b1.
Proof using L.
  intros Hb Hl Hfit Hclean. destruct dirty; cycle 1.
  { exists b1, d. split_and!; [done|by apply dev_upd_refl|apply Hclean; done..|done]. }
  pose proof (spfs_make_file_extent_eq h b1 Hl) as Hm.
  pose proof (on_bh_ok start 0 _ (Bufs d r) b1 _ _ Hb Hm) as E. exec E. clear E.
  unfold BUG_ON. erewrite bind_ok by done. cbn [b_dev b_refs bh].
  exists (splice 0 (header_bytes h) b1). eexists. split; [reflexivity|].
  cbn [b_dev b_refs bh]. destruct (header_bytes_fields h b1 Hl Hfit) as [H1 H2].
  split_and!; [|done|done|by apply drop_splice_lt; slen].
  apply dev_upd_dirty, (dev_upd_store d start b1); [done|]. by apply zlen_splice; slen.
Qed.

Lemma write_file_extent_spec (d : D) sz start b rest in_buf in_len ppos extra r :
  run_at d start (b :: rest) → bc_bsize d = sz → 16 ≤ sz →
  extent_magic b = SPFS_MAGIC → fe_capacity (extent_header b) = zlen (b :: rest) →
  0 ≤ start → start + zlen (b :: rest) < 2 ^ 64 → 0 ≤ extra → extra < 2 ^ 32 →
  0 ≤ ppos → ppos < 2 ^ 63 → 0 < in_len → in_len ≤ zlen in_buf →
  let space := zlen (extent_space (b :: rest)) in
  let k := Z.max 0 (Z.min in_len (space - ppos)) in
  let h := written_header (extent_header b) extra k in
  ∃ b' rest' d',
    spfs_write_file_extent sz start in_buf in_len ppos extra (Bufs d r) =
      Ok (Z.max 0 (Z.min in_len (sz - 16 - ppos)), h, drop (Z.to_nat k) in_buf, in_len - k,
          Z.max 0 (ppos - space), if bool_decide (fe_next (extent_header b) = 0) then 0 else extra)
         (Bufs d' r) ∧
    run_upd d start (b :: rest) (b' :: rest') d' ∧
    extent_magic b' = SPFS_MAGIC ∧ extent_header b' = h ∧
    extent_space (b' :: rest') = splice ppos (sub 0 k in_buf) (extent_space (b :: rest)).
Proof using L.
  intros Hrun Hsz Hsz16 Hmag Hcap Hst Hst' Hex Hex' Hpos Hpos' Hin Hin' space k h.
  assert (bc_data d start = Some b ∧ run_at d (start + 1) rest) as [Hb Hrun'] by by apply run_at_cons.
  assert (zlen b = sz) as Hbz by (subst sz; by eapply bc_data_size).
  pose proof (extent_header_fits b ltac:(lia)) as (Hfn & Hfc & Hfl).
  pose proof (zlen_nonneg (concat rest)).
  assert (space = sz - 16 + zlen (concat rest)) as Hspace.
  { unfold space, extent_space. change 16%nat with (Z.to_nat 16).
    rewrite drop_16_head, zlen_app, zlen_drop by lia. lia. }
  unfold spfs_write_file_extent. pose proof (sb_bread_ok start (Bufs d r) b Hb) as E1. exec E1.
  cbn [negb b_dev b_refs].
  assert (Hparse : spfs_parse_file_extent (Cursor b 0) = Ok (extent_header b) (Cursor b 16)).
  { rewrite spfs_parse_file_extent_eq by lia. by decide_if by naive_solver. }
  pose proof (in_bh_ok start 0 _ (Bufs d (r + 1)) b _ _ Hb Hparse) as E2. exec E2. clear E1 E2.
  cbn [pos].
  edestruct (do_write_ok d start 16 in_buf in_len ppos (r + 1) b) as (d1 & E3 & Hupd1);
    [done|lia..|]. exec E3. clear E3.
  set (c := Z.min ppos (zlen b - 16)) in *.
  set (k1 := Z.min in_len (zlen b - (16 + c))) in *.
  set (link := bool_decide (fe_next (extent_header b) = 0 ∧ extra ≠ 0)).
  rewrite Hcap. rewrite (u64_small (start + _)) by lia.
  assert (Hrun1 : run_at d1 (start + 1) rest).
  { destruct Hupd1 as (_ & _ & Hf1). eapply run_at_ext; [|done]. intros. apply Hf1. lia. }
  rewrite zlen_cons in *.
  edestruct (write_extent_loop_ok rest d1 sz (S (Z.to_nat (1 + zlen rest))) (start + 1)
    (start + (1 + zlen rest)) (u32 (fe_length (extent_header b) + k1))
    (drop (Z.to_nat k1) in_buf) (in_len - k1) (ppos - c) (link || bool_decide (0 < k1)) (r + 1))
    as (rest' & d2 & E4 & Hupd2 & Hcat); try done; try lia.
  { unfold zlen. lia. }
  { destruct Hupd1 as [-> _]. done. }
  { apply u32_range. }
  { apply u32_range. }
  { rewrite zlen_drop by lia. lia. }
  set (k2 := Z.max 0 (Z.min (in_len - k1) (zlen (concat rest) - (ppos - c)))) in *.
  exec E4. clear E4.
  assert (k = k1 + k2) as Hk by lia.
  set (b1 := splice (16 + c) (sub 0 k1 in_buf) b) in *.
  assert (zlen b1 = sz) as Hb1 by (unfold b1; rewrite zlen_splice; [done|lia|rewrite zlen_sub; lia]).
  assert (Hh : FileExtent (if link then extra else fe_next (extent_header b)) (1 + zlen rest)
                (u32 (u32 (fe_length (extent_header b) + k1) + k2)) = h).
  { unfold h, written_header. rewrite Hcap, u32_add_u32. f_equal; [|f_equal; lia].
    unfold link. repeat case_bool_decide; lia. }
  rewrite Hh.
  assert (bc_data d2 start = Some b1) as Hb2.
  { destruct Hupd2 as (_ & _ & _ & Hf2). rewrite Hf2 by lia. by eapply dev_upd_data. }
  edestruct (write_header_ok d2 start b1 h (link || bool_decide (0 < k1) || bool_decide (0 < k2))
               (r + 1)) as (b' & d' & E5 & Hupd' & Hmag' & Hhead' & Hdrop); [done|lia| | |].
  { unfold h, written_header, header_fits.
    cbn [fe_next fe_capacity fe_length]. pose proof (u32_range (fe_length (extent_header b) + k)). case_bool_decide; lia. }
  { intros Hd. apply orb_false_iff in Hd as [Hd Hd2]. apply orb_false_iff in Hd as [Hd Hd1].
    apply bool_decide_eq_false in Hd, Hd1, Hd2.
    assert (k1 = 0) as Hk1 by lia. unfold b1. rewrite Hk1, sub_nil, splice_nil. split; [done|].
    unfold h, written_header. destruct (extent_header b) as [hn hc hl].
    cbn [fe_next fe_capacity fe_length] in *. f_equal; [case_bool_decide; lia|]. rewrite u32_small by lia. lia. }
  exec E5. erewrite bind_ok by done. cbn [b_dev b_refs].
  exists b', rest', d'. split_and!; [| |done|done|].
  - replace (r + 1 - 1) with r by lia. unfold mret, M_ret. f_equal.
    rewrite drop_drop. f_equal; [|unfold link; repeat case_bool_decide; lia].
    f_equal; [|lia]. f_equal; [|lia]. f_equal; [f_equal; lia|]. f_equal. lia.
  - by eapply run_upd_head.
  - unfold extent_space in *. change 16%nat with (Z.to_nat 16).
    assert (16 ≤ zlen b').
    { destruct Hupd' as (Hs' & Hd' & _). apply bc_data_size in Hd'. rewrite Hd', Hs'.
      destruct Hupd2 as [-> _], Hupd1 as [-> _]. lia. }
    rewrite !drop_16_head, Hdrop, Hcat by lia. unfold b1.
    rewrite drop_splice_ge by lia. replace (16 + c - 16) with c by lia.
    assert (zlen (drop (Z.to_nat 16) b) = sz - 16) as Hd by (rewrite zlen_drop; lia).
    destruct (decide (ppos ≤ sz - 16)).
    + replace (ppos - c) with 0 by lia. replace c with ppos by lia. apply concat_in_block; lia.
    + assert (k1 = 0) as Hk1 by lia. rewrite Hk1, sub_nil, splice_nil, drop_0.
      rewrite splice_app_r by lia. f_equal. rewrite Hd. f_equal; [lia|]. f_equal. lia.
Qed.
End runs.

(** ** Space *)
Definition ceil_div (a b : Z) : Z := (a + b - 1) / b.

Lemma ceil_div_step a b : 0 < b → ceil_div a b = 1 + ceil_div (a - b) b.
Proof.
  intros. unfold ceil_div. replace (a + b - 1) with (a - b + b - 1 + 1 * b) by lia.
  rewrite Z.div_add by lia. lia.
Qed.

Lemma ceil_div_small a b : 0 < a → a ≤ b → ceil_div a b = 1.
Proof.
  intros. unfold ceil_div. replace (a + b - 1) with (a - 1 + 1 * b) by lia.
  rewrite Z.div_add, Z.div_small by lia. done.
Qed.

Lemma ceil_div_bounds a b : 0 < b → 0 ≤ a → a ≤ ceil_div a b * b ∧ ceil_div a b * b < a + b.
Proof.
  intros. unfold ceil_div. pose proof (Z.div_mod (a + b - 1) b ltac:(lia)).
  pose proof (Z.mod_pos_bound (a + b - 1) b ltac:(lia)). lia.
Qed.

Lemma ceil_div_nonneg a b : 0 < b → 0 ≤ a → 0 ≤ ceil_div a b.
Proof. intros. unfold ceil_div. apply Z.div_pos; lia. Qed.

Lemma blocks_for_loop_ok {S} fuel bs bytes result (s : S) :
  0 < bs → 0 ≤ bytes → ceil_div bytes bs < Z.of_nat fuel →
  blocks_for_loop fuel bs bytes result s = Ok (result + ceil_div bytes bs) s.
Proof.
  revert bytes result. induction fuel as [|fuel IH]; intros bytes result Hbs Hb Hf.
  { pose proof (ceil_div_nonneg bytes bs). lia. }
  cbn [blocks_for_loop]. case_bool_decide as Hz; cycle 1.
  { assert (bytes = 0) as -> by lia. unfold ceil_div. rewrite Z.div_small, Z.add_0_r by lia. done. }
  rewrite MIN_min. destruct (decide (bytes ≤ bs)).
  - rewrite (ceil_div_small bytes) in * by lia. rewrite IH; try lia.
    + rewrite Z.min_l, Z.sub_diag by lia. unfold ceil_div. rewrite (Z.div_small _ bs) by lia.
      f_equal. lia.
    + rewrite Z.min_l, Z.sub_diag by lia. unfold ceil_div. rewrite (Z.div_small _ bs) by lia. lia.
  - rewrite ceil_div_step in * by lia. rewrite Z.min_r by lia. rewrite IH by lia. f_equal. lia.
Qed.

Lemma blocks_for_loop_zero {S} fuel bytes result (s : S) :
  0 < bytes → blocks_for_loop fuel 0 bytes result s = Crash NoFuel.
Proof.
  revert result. induction fuel as [|fuel IH]; intros result Hb; [done|].
  cbn [blocks_for_loop]. decide_if. rewrite MIN_min, Z.min_r, Z.sub_0_r by lia. by apply IH.
Qed.

(** The computations on sizes do not touch the state. *)
Lemma blocks_for_pure {S} fuel sz bytes result (s : S) n s' :
  blocks_for_loop fuel sz bytes result s = Ok n s' → s' = s.
Proof.
  revert bytes result. induction fuel as [|fuel IH]; intros bytes result H; [done|].
  cbn [blocks_for_loop] in H. case_bool_decide; [by eapply IH|by injection H].
Qed.

Lemma calc_extra_pure {S} fuel sz capacity p len (s : S) n s' :
  spfs_calc_extra_blocks fuel sz capacity p len s = Ok n s' → s' = s.
Proof.
  unfold spfs_calc_extra_blocks. case_bool_decide; [by intros [= ? <-]|apply blocks_for_pure].
Qed.

Lemma calc_extra_none {S} fuel sz capacity p len (s : S) :
  0 ≤ p → 0 ≤ len → p + len < 2 ^ 64 → p + len ≤ capacity →
  spfs_calc_extra_blocks fuel sz capacity p len s = Ok 0 s.
Proof. intros. unfold spfs_calc_extra_blocks. rewrite u64_small by lia. by decide_if. Qed.

(** ** Properties *)
Section properties.
Context {D : Type} {B : BufferCache D} {L : BufferCacheLaws D}.

Lemma extent_write_at (d : D) start b rest next data sz buf ppos extra r :
  extent_at d start (b :: rest) next data → bc_bsize d = sz →
  fe_capacity (extent_header b) = zlen (b :: rest) →
  0 ≤ start → start + zlen (b :: rest) < 2 ^ 64 → 0 ≤ extra → extra < 2 ^ 32 →
  0 < zlen buf → 0 ≤ ppos → ppos ≤ zlen data →
  ppos + zlen buf ≤ zlen (extent_space (b :: rest)) → zlen data + zlen buf < 2 ^ 32 →
  let next' := if bool_decide (next = 0) then extra else next in
  let h := FileExtent next' (zlen (b :: rest)) (zlen data + zlen buf) in
  ∃ b' rest' d',
    spfs_write_file_extent sz start buf (zlen buf) ppos extra (Bufs d r) =
      Ok (Z.max 0 (Z.min (zlen buf) (sz - 16 - ppos)), h, [], 0, 0,
          if bool_decide (next = 0) then 0 else extra) (Bufs d' r) ∧
    run_upd d start (b :: rest) (b' :: rest') d' ∧
    extent_magic b' = SPFS_MAGIC ∧ extent_header b' = h ∧
    extent_space (b' :: rest') = splice ppos buf (extent_space (b :: rest)).
Proof using L.
  intros [Hrun (b0 & rest0 & [= <- <-] & Hm & Hn & Hl) Hz [slack Hs]] Hsz Hcap ???? Hbuf ?? Hfit Hlen
    next' h.
  assert (zlen data ≤ zlen (extent_space (b :: rest))) as Hd
    by (rewrite Hs, zlen_app; pose proof (zlen_nonneg slack); lia).
  edestruct (write_file_extent_spec d sz start b rest buf (zlen buf) ppos extra r)
    as (b' & rest' & d' & E & Hupd & Hm' & Hh' & Hs'); try done; try lia.
  replace (Z.max 0 (Z.min (zlen buf) (zlen (extent_space (b :: rest)) - ppos)))
    with (zlen buf) in * by lia.
  replace (Z.max 0 (ppos - zlen (extent_space (b :: rest)))) with 0 in E by lia.
  unfold written_header in *. rewrite Hn, Hl, Hcap, u32_small in * by lia.
  exists b', rest', d'. split_and!; [|done..|by rewrite Hs', sub_all].
  rewrite E. do 5 f_equal; [|lia]. f_equal. apply drop_ge. unfold zlen. lia.
Qed.

Lemma spfs_file_extent_alloc_ok n (d : D) r fl t x fl' b :
  spfs_free_alloc n fl = Ok x fl' → x ≠ 0 → bc_data d x = Some b → 16 ≤ zlen b →
  ∃ d', spfs_file_extent_alloc n (BtreeSt (Bufs d r) fl t) = Ok x (BtreeSt (Bufs d' r) fl' t) ∧
    dev_upd d x (splice 0 (header_bytes (FileExtent 0 (u32 n) 0)) b) d'.
Proof using L.
  intros Ha Hx Hb Hl. unfold spfs_file_extent_alloc.
  assert (E1 : zoom t_free_lens (spfs_free_alloc n) (BtreeSt (Bufs d r) fl t) =
               Ok x (BtreeSt (Bufs d r) fl' t)) by (unfold zoom; cbn; by rewrite Ha).
  rewrite (bind_ok _ _ _ _ _ E1). decide_if. cbn [t_bufs].
  pose proof (sb_bread_ok x (Bufs d r) b Hb) as E2. exec E2. unfold BUG_ON. cbn [negb].
  erewrite bind_ok by done. cbn [t_bufs t_bufs_lens lset b_dev b_refs].
  pose proof (spfs_make_file_extent_eq (FileExtent 0 (u32 n) 0) b Hl) as Hm.
  pose proof (on_bh_ok x 0 _ (Bufs d (r + 1)) b _ _ Hb Hm) as E3. exec E3. clear E1 E2 E3.
  do 2 erewrite bind_ok by done. unfold mret, M_ret.
  cbn -[header_bytes splice]. rewrite Z.add_simpl_r.
  eexists. split; [reflexivity|]. apply dev_upd_dirty, (dev_upd_store d x b); [done|].
  apply zlen_splice; slen.
Qed.

Lemma extent_written (d d' : D) start b rest b' rest' next next' data data' cap :
  extent_at d start (b :: rest) next data → run_upd d start (b :: rest) (b' :: rest') d' →
  extent_magic b' = SPFS_MAGIC → extent_header b' = FileExtent next' cap (zlen data') →
  (∃ slack, extent_space (b' :: rest') = data' ++ slack) →
  extent_at d' start (b' :: rest') next' data'.
Proof using.
  intros [_ _ Hz _] (Hs & _ & Hr & _) Hm Hh Hsl. split; [done| |by rewrite Hs|done].
  exists b', rest'. by rewrite Hh.
Qed.

(** Appending to an extent with room for it and reading the extent back gives the
    old data followed by the new; the extent keeps its capacity, takes over [extra] as
    its successor when it had none, and no block outside of it changes.  The count
    returned is that of the head block only, the [res] of the loop being another
    variable. *)
Theorem extent_append_read (d : D) start b rest next data sz buf extra fuel r user :
  extent_at d start (b :: rest) next data → bc_bsize d = sz →
  fe_capacity (extent_header b) = zlen (b :: rest) →
  0 ≤ start → start + zlen (b :: rest) < 2 ^ 64 → 0 ≤ extra → extra < 2 ^ 32 →
  0 < zlen buf → zlen (data ++ buf) ≤ zlen (extent_space (b :: rest)) →
  zlen (data ++ buf) < 2 ^ 32 → (length (b :: rest) ≤ fuel)%nat →
  let next' := if bool_decide (next = 0) then extra else next in
  ∃ d',
    spfs_write_file_extent sz start buf (zlen buf) (zlen data) extra (Bufs d r) =
      Ok (Z.max 0 (Z.min (zlen buf) (sz - 16 - zlen data)),
          FileExtent next' (zlen (b :: rest)) (zlen (data ++ buf)), [], 0, 0,
          if bool_decide (next = 0) then 0 else extra) (Bufs d' r) ∧
    spfs_read_file_extent fuel start (zlen (data ++ buf)) 0 (Bufs d' r, user) =
      Ok (zlen (data ++ buf), next', 0, 0) (Bufs d' r, user ++ data ++ buf) ∧
    ∀ m, m < start ∨ start + zlen (b :: rest) ≤ m → bc_data d' m = bc_data d m.
Proof using L.
  intros He Hsz Hcap ? ? ? ? Hbuf Hfit Hlen Hfuel next'. rewrite zlen_app in *.
  pose proof (zlen_nonneg data). destruct (ea_data _ _ _ _ _ He) as [slack Hs].
  edestruct (extent_write_at d start b rest next data sz buf (zlen data) extra r)
    as (b' & rest' & d' & E & Hupd & Hm' & Hh' & Hs'); try done; try lia.
  exists d'. split_and!; [exact E| |by apply Hupd].
  assert (He' : extent_at d' start (b' :: rest') next' (data ++ buf)).
  { eapply extent_written; [done..|by rewrite zlen_app|]. rewrite Hs, zlen_app in Hfit.
    rewrite Hs', Hs, splice_at_end by lia. rewrite app_assoc. eauto. }
  pose proof (read_file_extent_ok d' fuel start _ next' _ (zlen (data ++ buf)) 0 r user He') as E'.
  destruct Hupd as (_ & Hl' & _ & _). rewrite zlen_app in E'. specialize_lia E'. rewrite E'.
  f_equal. tuple_lia.
Qed.

(** A write inside of the data of an extent stores the bytes at their place, but
    the recorded length grows by their number all the same: the bytes behind the old
    end become part of the file. *)
Theorem extent_overwrite_grows (d : D) start b rest next data sz buf ppos r :
  extent_at d start (b :: rest) next data → bc_bsize d = sz →
  fe_capacity (extent_header b) = zlen (b :: rest) →
  0 ≤ start → start + zlen (b :: rest) < 2 ^ 64 → 0 < zlen buf → 0 ≤ ppos →
  ppos + zlen buf ≤ zlen data → zlen data + zlen buf ≤ zlen (extent_space (b :: rest)) →
  zlen data + zlen buf < 2 ^ 32 →
  ∃ w h d' bs' tail,
    spfs_write_file_extent sz start buf (zlen buf) ppos 0 (Bufs d r) =
      Ok (w, h, [], 0, 0, 0) (Bufs d' r) ∧
    fe_length h = zlen data + zlen buf ∧ zlen tail = zlen buf ∧
    extent_at d' start bs' next (splice ppos buf data ++ tail) ∧
    tail = sub (zlen data) (zlen buf) (extent_space (b :: rest)).
Proof using L.
  intros He Hsz Hcap ? ? Hbuf Hpos Hin Hfit Hlen.
  destruct (ea_data _ _ _ _ _ He) as [slack Hs].
  edestruct (extent_write_at d start b rest next data sz buf ppos 0 r)
    as (b' & rest' & d' & E & Hupd & Hm' & Hh' & Hs'); try done; try lia.
  assert ((if bool_decide (next = 0) then 0 else next) = next) as Hn
    by (case_bool_decide; lia). rewrite Hn in *.
  rewrite Hs, zlen_app in Hfit. eexists _, _, d', _, (sub 0 (zlen buf) slack).
  split_and!; [rewrite E; by destruct (bool_decide _)|done|by rewrite zlen_sub by lia| |].
  - eapply extent_written; [done..| |].
    + rewrite zlen_app, zlen_splice, zlen_sub by lia. done.
    + exists (drop (Z.to_nat (zlen buf)) slack). rewrite Hs', Hs, splice_app_l by lia.
      by rewrite <-app_assoc, sub_0_drop by lia.
  - rewrite Hs, sub_app_r, Z.sub_diag by lia. done.
Qed.
End properties.

(** [spfs_blocks_for] returns for a number of bytes exactly when there are none
    or the block size is not 0; with it the loop turns once per block started. *)
Theorem blocks_for_terminates sz bytes :
  0 ≤ sz → 0 ≤ bytes →
  (∃ fuel n, spfs_blocks_for (S := unit) fuel sz bytes tt = Ok n tt) ↔ bytes = 0 ∨ 0 < sz.
Proof.
  intros Hsz Hb. split.
  - intros (fuel & n & H). destruct (decide (bytes = 0)); [by left|right].
    destruct (decide (sz = 0)) as [->|]; [|lia].
    unfold spfs_blocks_for in H. by rewrite blocks_for_loop_zero in H by lia.
  - intros [->|Hp]; [by exists 1%nat, 0|].
    exists (S (Z.to_nat (ceil_div bytes sz))), (ceil_div bytes sz).
    unfold spfs_blocks_for. rewrite blocks_for_loop_ok; [done..|].
    pose proof (ceil_div_nonneg bytes sz). lia.
Qed.

(** The loop of [spfs_blocks_for] computes the quotient rounded up: with more rounds
    than that it returns it, in every state and without changing it; for a block size of
    0, which no mounted file system has, it would never return. *)
Theorem blocks_for_ceil {S} fuel sz bytes (s : S) :
  0 ≤ bytes →
  (0 < sz → ceil_div bytes sz < Z.of_nat fuel →
   spfs_blocks_for fuel sz bytes s = Ok (ceil_div bytes sz) s) ∧
  (sz = 0 → 0 < bytes → spfs_blocks_for fuel sz bytes s = Crash NoFuel).
Proof.
  intros Hb. unfold spfs_blocks_for. split; [by intros; rewrite blocks_for_loop_ok by lia|].
  intros -> ?. by apply blocks_for_loop_zero.
Qed.

(** C31: the blocks [spfs_calc_extra_blocks] asks for are enough and not one too many:
    one extent of that many blocks, header included, makes the capacity reach the end
    of the write, and none of fewer blocks does; nothing is asked for when it fits. *)
Theorem calc_extra_enough sz capacity in_pos in_len fuel :
  0 < sz → sz < 2 ^ 32 → 0 ≤ capacity → 0 ≤ in_pos → 0 ≤ in_len →
  in_pos + in_len < 2 ^ 63 → in_pos + in_len + 16 < Z.of_nat fuel →
  (in_pos + in_len ≤ capacity ∧
    spfs_calc_extra_blocks fuel sz capacity in_pos in_len tt = Ok 0 tt) ∨
  ∃ n bytes,
    capacity < in_pos + in_len ∧ 0 < n ∧
    spfs_calc_extra_blocks fuel sz capacity in_pos in_len tt = Ok n tt ∧
    spfs_file_extent_data_bytes sz n tt = Ok bytes tt ∧
    in_pos + in_len ≤ capacity + bytes ∧ capacity + (bytes - sz) < in_pos + in_len.
Proof.
  intros Hsz Hsz' Hc Hp Hl Hend Hf. unfold spfs_calc_extra_blocks.
  change spfs_sizeof_file_extent_header with 16.
  rewrite (u64_small (in_pos + in_len)) by lia. case_bool_decide; [left; by split|right].
  rewrite u64_small by lia. set (x := in_pos + in_len - capacity + 16).
  pose proof (ceil_div_bounds x sz ltac:(lia) ltac:(lia)) as [H1 H2].
  assert (0 < ceil_div x sz) by nia.
  assert (ceil_div x sz ≤ x) by nia.
  exists (ceil_div x sz), (ceil_div x sz * sz - 16). unfold spfs_blocks_for.
  rewrite blocks_for_loop_ok by lia. unfold spfs_file_extent_data_bytes, BUG_ON. decide_if.
  erewrite bind_ok by done. change spfs_sizeof_file_extent_header with 16.
  rewrite (u64_small (_ * _)), u64_small by lia. split_and!; done || lia.
Qed.

(** ** Concrete inputs *)
(** An extent of two 32-byte blocks at block 5 with the given data *)
Definition example_extent (data : list byte) : list (list byte) :=
  let bytes := header_bytes (FileExtent 0 2 (zlen data)) ++ data ++ zeros (48 - zlen data) in
  [sub 0 32 bytes; sub 32 32 bytes].
Definition example_extent_dev (data : list byte) : memdev :=
  MemDev 32 (<[5 := sub 0 32 (concat (example_extent data))]>
            (<[6 := sub 32 32 (concat (example_extent data))]> ∅)) ∅.

Lemma run_at_checked {D} `{BufferCache D} (d : D) start bs :
  (λ i : nat, bc_data d (start + Z.of_nat i)) <$> seq 0 (length bs) = Some <$> bs →
  run_at d start bs.
Proof.
  intros Hc i b Hi. apply (f_equal (lookup i)) in Hc.
  rewrite !list_lookup_fmap, Hi, lookup_seq_lt in Hc by (by eapply lookup_lt_Some).
  by injection Hc.
Qed.

Definition example_data : list byte := [x01; x02; x03; x04].
Definition example_buf : list byte := replicate 20 x07.

Lemma example_extent_at :
  extent_at (example_extent_dev example_data) 5 (example_extent example_data) 0 example_data.
Proof.
  split; [by apply run_at_checked; vm_compute| | |].
  - eexists _, _. split; [reflexivity|]. by vm_compute.
  - by vm_compute.
  - exists (zeros 44). by vm_compute.
Qed.

Lemma extent_append_read_witness :
  ∃ d', spfs_read_file_extent 3 5 24 0 (Bufs d' 0, []) =
    Ok (24, 0, 0, 0) (Bufs d' 0, example_data ++ example_buf).
Proof.
  destruct (extent_append_read (example_extent_dev example_data) 5
    (sub 0 32 (concat (example_extent example_data)))
    [sub 32 32 (concat (example_extent example_data))] 0 example_data 32 example_buf 0 3 0 [])
    as (d' & _ & H & _); [exact example_extent_at|eval_side..|].
  exists d'. exact H.
Defined.

Lemma extent_overwrite_grows_witness :
  ∃ d' bs' tail,
    extent_at d' 5 bs' 0 (splice 1 [x09] example_data ++ tail) ∧ zlen tail = 1.
Proof.
  destruct (extent_overwrite_grows (example_extent_dev example_data) 5
    (sub 0 32 (concat (example_extent example_data)))
    [sub 32 32 (concat (example_extent example_data))] 0 example_data 32 [x09] 1 0)
    as (w & h & d' & bs' & tail & _ & _ & Ht & H & _); [exact example_extent_at|eval_side..|].
  exists d', bs', tail. split; [exact H|exact Ht].
Defined.

Lemma blocks_for_ceil_witness : spfs_blocks_for (S := unit) 5 512 1025 tt = Ok 3 tt.
Proof. apply (proj1 (blocks_for_ceil 5 512 1025 tt ltac:(lia))); [lia|by vm_compute]. Defined.

Lemma blocks_for_terminates_witness :
  ∃ fuel n, spfs_blocks_for (S := unit) fuel 512 1300 tt = Ok n tt.
Proof. apply blocks_for_terminates; [lia|lia|right; lia]. Defined.

Lemma calc_extra_enough_witness :
  (10 + 1000 ≤ 496 ∧ spfs_calc_extra_blocks 2000 512 496 10 1000 tt = Ok 0 tt) ∨
  ∃ n bytes, 496 < 10 + 1000 ∧ 0 < n ∧
    spfs_calc_extra_blocks 2000 512 496 10 1000 tt = Ok n tt ∧
    spfs_file_extent_data_bytes 512 n tt = Ok bytes tt ∧
    10 + 1000 ≤ 496 + bytes ∧ 496 + (bytes - 512) < 10 + 1000.
Proof. apply calc_extra_enough; lia. Defined.
