(* ===== verification/File.v ===== *)
(** * sp.c, reading and writing regular files

    [file_st] is what [spfs_read] and [spfs_write] work on: the file system's tree and
    free list over the buffer cache, the [struct spfs_inode] of the open file, the
    user's buffer (bytes copied to it so far) and [*ppos].  The data is found by
    following the chain of extents from the inode's [start].

    An error return leaves the effects made so far in place; in particular the inode's
    mutex stays locked where the source returns without unlocking it. *)
From S2P Require Import Prelude Util Buffers FreeList Inode Bnode Btree Extent.

Record file_st (D : Type) := FileSt {
  f_tree : btree_st D;
  f_inode : spfs_inode;
  f_user : list byte;
  f_ppos : Z;
}.
Arguments FileSt {D} _ _ _ _.
Arguments f_tree {D} _.
Arguments f_inode {D} _.
Arguments f_user {D} _.
Arguments f_ppos {D} _.

Section file.
Context {D : Type} {B : BufferCache D}.

Definition f_tree_lens : lens (file_st D) (btree_st D) :=
  Lens f_tree (λ t s, FileSt t (f_inode s) (f_user s) (f_ppos s)).
Definition f_inode_lens : lens (file_st D) spfs_inode :=
  Lens f_inode (λ i s, FileSt (f_tree s) i (f_user s) (f_ppos s)).
Definition f_ppos_lens : lens (file_st D) Z :=
  Lens f_ppos (λ p s, FileSt (f_tree s) (f_inode s) (f_user s) p).
Definition f_bufs_lens : lens (file_st D) (bufs D) :=
  Lens (λ s, t_bufs (f_tree s))
       (λ b s, FileSt (lset t_bufs_lens b (f_tree s)) (f_inode s) (f_user s) (f_ppos s)).
Definition f_io_lens : lens (file_st D) (bufs D * list byte) :=
  Lens (λ s, (t_bufs (f_tree s), f_user s))
       (λ p s, FileSt (lset t_bufs_lens p.1 (f_tree s)) (f_inode s) p.2 (f_ppos s)).
Definition f_lock_lens : lens (file_st D) bool :=
  Lens (λ s, si_lock (f_inode s)) (λ b s, lset f_inode_lens (set_lock b (f_inode s)) s).

(** ** Reading *)
(** From [Lit:] on; the result is [read]. *)
Fixpoint read_chain (fuel : nat) (start in_len pos read : Z) : M (file_st D) Z :=
  match fuel with
  | O => crashes NoFuel
  | S fuel' =>
      if bool_decide (start = 0) then mret read
      else
        r ← zoom f_io_lens (spfs_read_file_extent fuel start in_len pos);
        let '(res, next, in_len, pos) := r in
        if bool_decide (0 < in_len) then read_chain fuel' next in_len pos (read + res)
        else mret (read + res)
  end.

Definition spfs_read (fuel : nat) (in_len : Z) : M (file_st D) Z :=
  pos ← gets f_ppos;
  if bool_decide (in_len = 0) then mret 0
  else
    inode ← gets f_inode;
    if negb (S_ISREG (i_mode (i_inode inode))) then err (-EINVAL)
    else
      mutex_lock f_lock_lens;;
      read ← read_chain fuel (si_start inode) in_len pos 0;
      mutex_unlock f_lock_lens;;
      zoom f_ppos_lens (modify (λ p, p + read));;
      mret read.

(** ** Capacity *)
Definition spfs_modify_start_cb : btree_modify_cb (D := D) (Z * Z) := λ ctx inode,
  BUG_ON (negb (S_ISREG (i_mode (i_inode inode))));;
  mret (true, ctx, set_extent ctx.1 ctx.2 inode).

Definition f_tree_lock_lens : lens (file_st D) bool :=
  Lens (λ s, bt_lock (t_tree (f_tree s)))
       (λ b s, lset f_tree_lens
          (let t := f_tree s in
           BtreeSt (t_bufs t) (t_free t)
             (Btree b (bt_block_size (t_tree t)) (bt_blocks (t_tree t)) (bt_start (t_tree t)))) s).

(** The result is [*extra]; a positive error code is what [spfs_btree_modify] gave. *)
Definition spfs_ensure_capacity (fuel : nat) (frame : Z → list byte) (cur0 : spfs_inode)
    (block_size in_pos in_len : Z) : M (file_st D) Z :=
  inode ← gets f_inode;
  extra_blocks ← spfs_calc_extra_blocks fuel block_size (si_capacity inode) in_pos in_len;
  if bool_decide (extra_blocks = 0) then mret 0
  else
    extra ← zoom f_tree_lens (spfs_file_extent_alloc extra_blocks);
    if bool_decide (extra = 0) then err (-EIO)
    else
      let first := bool_decide (si_start inode = 0) in
      let start := if first then extra else si_start inode in
      let extra := if first then 0 else extra in
      bytes ← spfs_file_extent_data_bytes block_size extra_blocks;
      let capacity := u32 (si_capacity inode + bytes) in
      zoom f_inode_lens (modify (set_extent start capacity));;
      mutex_lock f_tree_lock_lens;;
      res ← catch (zoom f_tree_lens
              (spfs_btree_modify fuel frame cur0 (i_ino (i_inode inode)) (start, capacity)
                 spfs_modify_start_cb));
      mutex_unlock f_tree_lock_lens;;
      match res with inl e => err e | inr _ => mret extra end.

(** ** Writing *)
(** [mutex_lock_interruptible]: [false] when a signal ends the wait *)
Definition mutex_lock_interruptible (interrupted : bool) : M (file_st D) bool := λ s,
  if si_lock (f_inode s) then if interrupted then Ok false s else Crash Deadlock
  else Ok true (lset f_lock_lens true s).

(** From [Lit:] on; the result is [in_len], [extra] and [written]. *)
Fixpoint write_chain (fuel : nat) (block_size start : Z) (in_buf : list byte)
    (in_len pos extra written : Z) : M (file_st D) (Z * Z * Z) :=
  match fuel with
  | O => crashes NoFuel
  | S fuel =>
      if bool_decide (start = 0) then mret (in_len, extra, written)
      else
        r ← catch (zoom f_bufs_lens
              (spfs_write_file_extent block_size start in_buf in_len pos extra));
        match r with
        | inl _ => err (-EIO)
        | inr (ires, header, in_buf, in_len, pos, extra) =>
            if bool_decide (ires ≠ 0) then err (-EIO)
            else
              let written := written + ires in
              if bool_decide (0 < in_len)
              then write_chain fuel block_size (fe_next header) in_buf in_len pos extra written
              else mret (in_len, extra, written)
        end
  end.

Definition spfs_write (fuel : nat) (frame : Z → list byte) (cur0 : spfs_inode)
    (interrupted : bool) (block_size : Z) (in_buf : list byte) : M (file_st D) Z :=
  let in_len := zlen in_buf in
  if bool_decide (in_len = 0) then mret 0
  else
    inode ← gets f_inode;
    if negb (S_ISREG (i_mode (i_inode inode))) then err (-EINVAL)
    else
      locked ← mutex_lock_interruptible interrupted;
      if negb locked then err (-EINTR)
      else
        let orig_file_sz := i_size (i_inode inode) in
        zoom f_ppos_lens (modify (λ p, if bool_decide (orig_file_sz < p) then orig_file_sz else p));;
        ppos ← gets f_ppos;
        extra ← spfs_ensure_capacity fuel frame cur0 block_size ppos in_len;
        start ← gets (λ s, si_start (f_inode s));
        w ← write_chain fuel block_size start in_buf in_len ppos extra 0;
        let '(in_len, extra, written) := w in
        BUG_ON (bool_decide (extra ≠ 0));;
        BUG_ON (bool_decide (in_len ≠ 0));;
        zoom f_inode_lens (modify (set_size (orig_file_sz + written)));;
        mutex_unlock f_lock_lens;;
        zoom f_ppos_lens (modify (λ p, p + written));;
        mret written.
End file.

(** ** Specification: the chain of extents of a file *)
(** The data of the extents from [start] on; [k] blocks in all *)
Inductive file_chain {D} `{BufferCache D} (d : D) : Z → list (list byte) → nat → Prop :=
| chain_end : file_chain d 0 [] 0
| chain_extent start bs next data rest k :
    start ≠ 0 → extent_at d start bs next data → file_chain d next rest k →
    file_chain d start (data :: rest) (length bs + k).

(** What a read does to the state: nothing but the user's memory changes. *)
Definition set_user {D} (user : list byte) (s : file_st D) : file_st D :=
  FileSt (f_tree s) (f_inode s) user (f_ppos s).

Section chains.
Context {D : Type} {B : BufferCache D} {L : BufferCacheLaws D}.

Lemma extent_at_nonempty (d : D) start bs next data :
  extent_at d start bs next data → (0 < length bs)%nat.
Proof using. intros [_ (b & rest & -> & _) _ _]. cbn. lia. Qed.

Lemma f_io_id (s : file_st D) b : t_bufs (f_tree s) = b →
  ∀ user, lset f_io_lens (b, user) s = set_user user s.
Proof using. intros <- user. by destruct s as [[???]???]. Qed.

Lemma read_extent_step (d : D) fuel start bs next data in_len p r (s : file_st D) :
  t_bufs (f_tree s) = Bufs d r → extent_at d start bs next data → (length bs ≤ fuel)%nat →
  0 ≤ p → p < 2 ^ 63 → 0 ≤ in_len → zlen data - p ≤ in_len →
  zoom f_io_lens (spfs_read_file_extent fuel start in_len p) s =
    Ok (Z.max 0 (zlen data - p), next, in_len - Z.max 0 (zlen data - p), Z.max 0 (p - zlen data))
       (set_user (f_user s ++ drop (Z.to_nat p) data) s).
Proof using L.
  intros Hs He Hf Hp Hp' Hin Hall. erewrite zoom_ok; cycle 1.
  { cbn [lget f_io_lens]. rewrite Hs. by apply (read_file_extent_ok d fuel start bs next). }
  by rewrite f_io_id.
Qed.

Lemma drop_app_max (p : Z) (l l' : list byte) :
  0 ≤ p → drop (Z.to_nat p) (l ++ l') =
    drop (Z.to_nat p) l ++ drop (Z.to_nat (Z.max 0 (p - zlen l))) l'.
Proof using. intros. unfold zlen. rewrite drop_app. do 2 f_equal. lia. Qed.

Lemma read_chain_ok (d : D) start datas k :
  file_chain d start datas k → ∀ fuel in_len p read r (s : file_st D),
  t_bufs (f_tree s) = Bufs d r → (k < fuel)%nat →
  0 ≤ p → p < 2 ^ 63 → 0 < in_len → zlen (concat datas) - p ≤ in_len →
  read_chain fuel start in_len p read s =
    Ok (read + Z.max 0 (zlen (concat datas) - p))
       (set_user (f_user s ++ drop (Z.to_nat p) (concat datas)) s).
Proof using L.
  induction 1 as [|start bs next data rest k Hst He Hc IH];
    intros fuel in_len p read r s Hs Hf Hp Hp' Hin Hall;
    (destruct fuel as [|fuel]; [lia|]); cbn [read_chain].
  - decide_if. cbn [concat]. rewrite drop_nil, app_nil_r. change (zlen []) with 0.
    rewrite Z.max_l, Z.add_0_r by lia. by destruct s.
  - decide_if. pose proof (extent_at_nonempty _ _ _ _ _ He).
    cbn [concat] in *. rewrite zlen_app in *. pose proof (zlen_nonneg (concat rest)).
    pose proof (zlen_nonneg data).
    pose proof (read_extent_step d (S fuel) start bs next data in_len p r s Hs He) as E.
    specialize_lia E. exec E. rewrite drop_app_max by lia. case_bool_decide.
    + rewrite (IH fuel _ _ _ r); [|done|lia..]. cbn [f_user set_user]. rewrite <-app_assoc.
      f_equal. lia.
    + assert (concat rest = []) as Hr by (apply length_zero_iff_nil; unfold zlen in *; lia).
      rewrite Hr in *. change (zlen (@nil byte)) with 0 in *. rewrite drop_nil, app_nil_r.
      unfold mret, M_ret. f_equal. lia.
Qed.
End chains.

(** ** Reading past what the user wants *)
Section shorts.
Context {D : Type} {B : BufferCache D} {L : BufferCacheLaws D}.

Lemma run_exists (d : D) n : ∀ start,
  (∀ m, start ≤ m → m < start + Z.of_nat n → is_Some (bc_data d m)) →
  ∃ bs, length bs = n ∧ run_at d start bs.
Proof using.
  induction n as [|n IH]; intros start H.
  - exists []. split; [done|apply run_at_nil].
  - destruct (H start) as [b Hb]; [lia..|]. destruct (IH (start + 1)) as (bs & Hl & Hr).
    { intros m ??. apply H; lia. }
    exists (b :: bs). split; [cbn; lia|]. by apply run_at_cons.
Qed.

Lemma read_file_extent_short (d : D) fuel start bs next data in_len p lim r user :
  extent_at d start bs next data →
  (∀ m, start ≤ m → m < lim → is_Some (bc_data d m)) → bc_data d lim = None →
  start < lim → lim - start ≤ Z.of_nat fuel →
  0 ≤ p → p < 2 ^ 63 → 0 ≤ in_len → in_len < zlen data - p →
  ∃ s, spfs_read_file_extent fuel start in_len p (Bufs d r, user) = Err (-EIO) s.
Proof using L.
  intros He Hall Hend Hst Hf Hp Hp' Hin Hshort.
  destruct (extent_at_head _ _ _ _ _ He)
    as (b & rest & -> & Hrun & Hz & Hz16 & Hparse & Hnext & Hlen & slack & Hs).
  pose proof (extent_length_range b Hz16) as Hr. rewrite Hlen in Hr.
  apply run_at_cons in Hrun as Hrun'. destruct Hrun' as [Hb _].
  unfold spfs_read_file_extent.
  pose proof (sb_bread_ok start (Bufs d r) b Hb) as E1. exec E1.
  cbn [negb fst_lens lset lget fst snd b_dev b_refs].
  pose proof (in_bh_ok start 0 _ (Bufs d (r + 1)) b _ _ Hb Hparse) as E2. exec E2.
  cbn [pos fst_lens lset lget fst snd]. rewrite Hlen.
  destruct (run_exists d (Z.to_nat (lim - start - 1)) (start + 1)) as (bs & Hl & Hr').
  { intros m ??. apply Hall; lia. }
  edestruct (read_extent_loop_short d bs b fuel start 16 (zlen data) in_len p 0 (r + 1) user)
    as [s Es]; try lia.
  - by apply run_at_cons.
  - rewrite <-Hend. f_equal. rewrite zlen_cons. unfold zlen. lia.
  - exists s. by apply bind_err.
Qed.

(** What the functions need to know about the inode they work on *)
Definition regular_unlocked (i : spfs_inode) : Prop :=
  S_ISREG (i_mode (i_inode i)) = true ∧ si_lock i = false.

Lemma spfs_read_enter fuel in_len (s : file_st D) :
  in_len ≠ 0 → regular_unlocked (f_inode s) →
  spfs_read fuel in_len s =
    (read ← read_chain fuel (si_start (f_inode s)) in_len (f_ppos s) 0;
     mutex_unlock f_lock_lens;;
     zoom f_ppos_lens (modify (λ p, p + read));;
     mret read) (lset f_lock_lens true s).
Proof using.
  intros Hin [Hreg Hlock]. unfold spfs_read. erewrite bind_ok by done. decide_if.
  erewrite bind_ok by done. rewrite Hreg. cbn [negb].
  unfold mutex_lock. erewrite bind_ok; [done|]. cbn [lget f_lock_lens]. by rewrite Hlock.
Qed.

Lemma spfs_read_locked fuel in_len (s : file_st D) :
  in_len ≠ 0 → S_ISREG (i_mode (i_inode (f_inode s))) = true → si_lock (f_inode s) = true →
  spfs_read fuel in_len s = Crash Deadlock.
Proof using.
  intros Hin Hreg Hlock. unfold spfs_read. erewrite bind_ok by done. decide_if.
  erewrite bind_ok by done. rewrite Hreg. cbn [negb].
  unfold mutex_lock. apply bind_crash. cbn [lget f_lock_lens]. by rewrite Hlock.
Qed.

Lemma spfs_read_all (d : D) datas k fuel in_len r (s : file_st D) :
  regular_unlocked (f_inode s) → t_bufs (f_tree s) = Bufs d r →
  file_chain d (si_start (f_inode s)) datas k → (k < fuel)%nat →
  0 ≤ f_ppos s → f_ppos s < 2 ^ 63 → 0 < in_len → zlen (concat datas) - f_ppos s ≤ in_len →
  let n := Z.max 0 (zlen (concat datas) - f_ppos s) in
  spfs_read fuel in_len s =
    Ok n (FileSt (f_tree s) (f_inode s) (f_user s ++ drop (Z.to_nat (f_ppos s)) (concat datas))
            (f_ppos s + n)).
Proof using L.
  intros [Hreg Hlock] Hs Hc Hf Hp Hp' Hin Hall n. rewrite spfs_read_enter by (done || lia).
  rewrite (bind_ok _ _ _ _ _ (read_chain_ok d _ datas k Hc fuel in_len (f_ppos s) 0 r
                                 (lset f_lock_lens true s) Hs Hf Hp Hp' Hin Hall)).
  do 2 erewrite bind_ok by done. unfold mret, M_ret. fold n. f_equal.
  destruct s as [t [? ? ? ? ?] u p]. cbn in *. by rewrite Hlock.
Qed.

(** C11: reading a regular file with a buffer at least as long as what is left of it
    copies exactly the data of its chain of extents from [*ppos] on, returns its
    length, advances [*ppos] by it, and leaves the inode unlocked and everything else,
    the buffers' reference counts included, as it was. *)
Theorem read_whole_file (d : D) datas k fuel in_len r (s : file_st D) :
  regular_unlocked (f_inode s) → t_bufs (f_tree s) = Bufs d r →
  file_chain d (si_start (f_inode s)) datas k → (k < fuel)%nat →
  0 ≤ f_ppos s → f_ppos s < 2 ^ 63 → 0 < in_len → zlen (concat datas) - f_ppos s ≤ in_len →
  let n := Z.max 0 (zlen (concat datas) - f_ppos s) in
  spfs_read fuel in_len s =
    Ok n (FileSt (f_tree s) (f_inode s) (f_user s ++ drop (Z.to_nat (f_ppos s)) (concat datas))
            (f_ppos s + n)).
Proof using L. apply spfs_read_all. Qed.

(** A user who asks for less than what is left of the first extent gets -EIO, and
    the inode's mutex stays locked: the loop that copies goes on behind the extent and
    stops at the first block of the device that cannot be read. *)
Theorem short_read_fails (d : D) bs next data lim fuel in_len r (s : file_st D) :
  regular_unlocked (f_inode s) → t_bufs (f_tree s) = Bufs d r → si_start (f_inode s) ≠ 0 →
  extent_at d (si_start (f_inode s)) bs next data →
  (∀ m, si_start (f_inode s) ≤ m → m < lim → is_Some (bc_data d m)) → bc_data d lim = None →
  si_start (f_inode s) < lim → lim - si_start (f_inode s) ≤ Z.of_nat fuel →
  0 ≤ f_ppos s → f_ppos s < 2 ^ 63 → 0 < in_len → in_len < zlen data - f_ppos s →
  ∃ s', spfs_read fuel in_len s = Err (-EIO) s' ∧ si_lock (f_inode s') = true ∧
    ∀ fuel' in_len', in_len' ≠ 0 → spfs_read fuel' in_len' s' = Crash Deadlock.
Proof using L.
  intros [Hreg Hlock] Hs Hst He Hall Hend Hlim Hf Hp Hp' Hin Hshort.
  rewrite spfs_read_enter by (done || lia). destruct fuel as [|fuel]; [lia|].
  edestruct (read_file_extent_short d (S fuel) (si_start (f_inode s)) bs next data in_len
    (f_ppos s) lim r (f_user s)) as [[b u] Hr]; try done; try lia.
  assert (E : read_chain (S fuel) (si_start (f_inode s)) in_len (f_ppos s) 0
                (lset f_lock_lens true s)
            = Err (-EIO) (lset f_io_lens (b, u) (lset f_lock_lens true s))).
  { cbn [read_chain]. decide_if. apply bind_err, zoom_err. cbn. by rewrite Hs. }
  eexists. split; [by apply bind_err|]. split; [done|]. intros. by apply spfs_read_locked.
Qed.
End shorts.

(** ** Writing *)
Section writing.
Context {D : Type} {B : BufferCache D} {L : BufferCacheLaws D}.

Lemma write_chain_written fuel : ∀ sz start buf len pos extra written (s s' : file_st D) l e w,
  write_chain fuel sz start buf len pos extra written s = Ok (l, e, w) s' →
  w = written ∧ i_size (i_inode (f_inode s')) = i_size (i_inode (f_inode s)).
Proof using.
  induction fuel as [|fuel IH]; intros sz start buf len pos extra written s s' l e w H; [done|].
  cbn [write_chain] in H. case_bool_decide; [by injection H as <- <- <- <-|].
  apply bind_inv in H as (r & s1 & H1 & H).
  assert (f_inode s1 = f_inode s) as Hi.
  { eapply (catch_frame f_inode), H1; intros ??; [by apply zoom_frame|by apply zoom_err_frame]. }
  destruct r as [|[[[[[ires h] b] l1] p1] e1]]; [done|]. case_bool_decide as Hr; [done|].
  subst ires. rewrite Z.add_0_r in H. rewrite <-Hi.
  case_bool_decide; [by apply IH in H|]. by injection H as <- <- <- <-.
Qed.

Lemma ensure_capacity_size fuel frame cur0 sz p n (s s' : file_st D) e :
  spfs_ensure_capacity fuel frame cur0 sz p n s = Ok e s' →
  i_size (i_inode (f_inode s')) = i_size (i_inode (f_inode s)).
Proof using.
  intros H. unfold spfs_ensure_capacity in H.
  apply bind_inv in H as (i & s1 & [= <- <-] & H).
  apply bind_inv in H as (n' & s1 & H1 & H).
  assert (s1 = s) as ->.
  { by apply calc_extra_pure in H1. }
  case_bool_decide; [by injection H as <- <-|].
  apply bind_inv in H as (x & s2 & H2 & H).
  assert (f_inode s2 = f_inode s) as Hi.
  { by eapply (zoom_frame f_inode), H2. }
  case_bool_decide; [done|]. apply bind_inv in H as (y & s3 & H3' & H).
  assert (s3 = s2) as ->.
  { unfold spfs_file_extent_data_bytes in H3'. apply bind_inv in H3' as (? & s4 & [_ ->]%BUG_ON_inv & H4).
    by injection H4. }
  apply bind_inv in H as (? & s4 & [= <- <-] & H).
  apply bind_inv in H as (? & s5 & H5 & H).
  unfold mutex_lock in H5. destruct (lget f_tree_lock_lens _); [done|].
  injection H5 as _ <-. apply bind_inv in H as (res & s6 & H6 & H).
  apply bind_inv in H as (? & s7 & [= <- <-] & H).
  destruct res; [done|]. injection H as <- <-. apply (catch_frame f_inode) in H6.
  - cbn. rewrite H6. cbn. by rewrite Hi.
  - intros ??. by apply zoom_frame.
  - intros ??. by apply zoom_err_frame.
Qed.

(** [spfs_write] never reports a byte written: when it returns a count at all, the
    count is 0 and the file's size is what it was. *)
Theorem write_never_progresses fuel frame cur0 interrupted sz buf (s s' : file_st D) n :
  spfs_write fuel frame cur0 interrupted sz buf s = Ok n s' →
  n = 0 ∧ i_size (i_inode (f_inode s')) = i_size (i_inode (f_inode s)).
Proof using.
  intros H. unfold spfs_write in H. case_bool_decide; [by injection H as <- <-|].
  apply bind_inv in H as (i & s1 & [= <- <-] & H).
  destruct (negb (S_ISREG _)); [done|]. apply bind_inv in H as (locked & s1 & H1 & H).
  assert (i_size (i_inode (f_inode s1)) = i_size (i_inode (f_inode s))) as Hi.
  { unfold mutex_lock_interruptible in H1. destruct (si_lock (f_inode s)), interrupted;
      by try injection H1 as <- <-. }
  destruct (negb locked); [done|]. apply bind_inv in H as (? & s2 & [= <- <-] & H).
  apply bind_inv in H as (? & s3 & [= <- <-] & H).
  apply bind_inv in H as (extra & s4 & H4 & H). apply ensure_capacity_size in H4.
  apply bind_inv in H as (? & s5 & [= <- <-] & H).
  apply bind_inv in H as ([[l e] w] & s6 & H6 & H). apply write_chain_written in H6 as [-> H6].
  apply bind_inv in H as (? & s7 & [_ ->]%BUG_ON_inv & H).
  apply bind_inv in H as (? & s7 & [_ ->]%BUG_ON_inv & H).
  injection H as <- <-. split; [done|]. cbn. lia.
Qed.

Lemma spfs_write_locked fuel frame cur0 sz buf (s : file_st D) :
  buf ≠ [] → S_ISREG (i_mode (i_inode (f_inode s))) = true → si_lock (f_inode s) = true →
  spfs_write fuel frame cur0 false sz buf s = Crash Deadlock ∧
  spfs_write fuel frame cur0 true sz buf s = Err (-EINTR) s.
Proof using.
  intros Hb Hreg Hlock. assert (zlen buf ≠ 0) by (destruct buf; done).
  split; unfold spfs_write; decide_if; erewrite bind_ok by done; rewrite Hreg; cbn [negb];
    unfold mutex_lock_interruptible.
  - apply bind_crash. by rewrite Hlock.
  - erewrite bind_ok by (by rewrite Hlock). done.
Qed.

Lemma ensure_capacity_enough fuel frame cur0 sz p n (s : file_st D) :
  0 ≤ p → 0 ≤ n → p + n < 2 ^ 64 → p + n ≤ si_capacity (f_inode s) →
  spfs_ensure_capacity fuel frame cur0 sz p n s = Ok 0 s.
Proof using.
  intros. unfold spfs_ensure_capacity. erewrite bind_ok by done.
  by erewrite bind_ok by (by apply calc_extra_none).
Qed.

(** The state in which [spfs_write] starts to write: locked, with [*ppos] clamped *)
Definition write_st (s : file_st D) : file_st D :=
  FileSt (f_tree s) (set_lock true (f_inode s)) (f_user s)
    (Z.min (f_ppos s) (i_size (i_inode (f_inode s)))).

Lemma spfs_write_start fuel frame cur0 intr sz buf (s : file_st D) :
  let p := Z.min (f_ppos s) (i_size (i_inode (f_inode s))) in
  0 < zlen buf → regular_unlocked (f_inode s) →
  spfs_write fuel frame cur0 intr sz buf s =
    (extra ← spfs_ensure_capacity fuel frame cur0 sz p (zlen buf);
     start ← gets (λ s, si_start (f_inode s));
     w ← write_chain fuel sz start buf (zlen buf) p extra 0;
     let '(in_len, extra, written) := w in
     BUG_ON (bool_decide (extra ≠ 0));;
     BUG_ON (bool_decide (in_len ≠ 0));;
     zoom f_inode_lens (modify (set_size (i_size (i_inode (f_inode s)) + written)));;
     mutex_unlock f_lock_lens;;
     zoom f_ppos_lens (modify (λ p, p + written));;
     mret written) (write_st s).
Proof using.
  intros p Hb [Hreg Hlock]. unfold spfs_write. decide_if. erewrite bind_ok by done.
  rewrite Hreg. cbn [negb]. unfold mutex_lock_interruptible.
  erewrite bind_ok by (by rewrite Hlock). cbn [negb].
  assert (E : zoom f_ppos_lens (modify (λ q, if bool_decide (i_size (i_inode (f_inode s)) < q)
                then i_size (i_inode (f_inode s)) else q)) (lset f_lock_lens true s)
              = Ok tt (write_st s)).
  { unfold zoom, modify, write_st. cbn. do 2 f_equal. case_bool_decide; lia. }
  rewrite (bind_ok _ _ _ _ _ E). by erewrite bind_ok by done.
Qed.

(** Appending to a file whose first extent has room in its head block stores the
    data, and only then fails: the caller gets -EIO, the recorded size does not grow,
    and the inode's mutex stays locked, so that every later read or write of the file
    hangs, or ends with -EINTR. *)
Theorem write_stores_then_fails (d : D) b rest next data sz buf fuel frame cur0 intr r
    (s : file_st D) :
  let start := si_start (f_inode s) in
  regular_unlocked (f_inode s) → t_bufs (f_tree s) = Bufs d r → start ≠ 0 →
  extent_at d start (b :: rest) next data → bc_bsize d = sz →
  fe_capacity (extent_header b) = zlen (b :: rest) →
  0 ≤ start → start + zlen (b :: rest) < 2 ^ 64 → (0 < fuel)%nat → 0 < zlen buf →
  zlen (data ++ buf) ≤ zlen (extent_space (b :: rest)) → zlen (data ++ buf) < 2 ^ 32 →
  zlen (data ++ buf) ≤ si_capacity (f_inode s) → zlen data < sz - 16 →
  i_size (i_inode (f_inode s)) = zlen data → zlen data ≤ f_ppos s →
  ∃ s' bs', spfs_write fuel frame cur0 intr sz buf s = Err (-EIO) s' ∧
    extent_at (b_dev (t_bufs (f_tree s'))) start bs' next (data ++ buf) ∧
    f_inode s' = set_lock true (f_inode s) ∧
    (∀ fuel' n, n ≠ 0 → spfs_read fuel' n s' = Crash Deadlock) ∧
    (∀ fuel' buf', buf' ≠ [] → spfs_write fuel' frame cur0 false sz buf' s' = Crash Deadlock).
Proof using L.
  intros start [Hreg Hlock] Hs Hst He Hsz Hcap ? ? Hf Hbuf Hfit Hlen Hcp Hhead Hsize Hpos.
  rewrite zlen_app in *. pose proof (zlen_nonneg data). destruct fuel as [|fuel]; [lia|].
  destruct (ea_data _ _ _ _ _ He) as [slack Hsp].
  edestruct (extent_write_at d start b rest next data sz buf (zlen data) 0 r)
    as (b' & rest' & d' & E & Hupd & Hm' & Hh' & Hs'); try done; try lia.
  assert (Z.min (f_ppos s) (i_size (i_inode (f_inode s))) = zlen data) as Hp by lia.
  rewrite spfs_write_start, Hp by (done || lia).
  rewrite (bind_ok _ _ _ _ _ (ensure_capacity_enough (S fuel) frame cur0 sz (zlen data) (zlen buf)
             (write_st s) ltac:(lia) ltac:(lia) ltac:(lia) Hcp)).
  erewrite bind_ok by done.
  assert ((if bool_decide (next = 0) then 0 else next) = next) as Hn
    by (case_bool_decide; lia). rewrite Hn in *.
  assert (Ec : write_chain (S fuel) sz start buf (zlen buf) (zlen data) 0 0 (write_st s) =
               Err (-EIO) (lset f_bufs_lens (Bufs d' r) (write_st s))).
  { cbn [write_chain]. decide_if. erewrite bind_ok; cycle 1.
    { apply catch_ok, zoom_ok. cbn [lget f_bufs_lens f_tree write_st]. rewrite Hs. exact E. }
    cbv beta iota. by rewrite (bool_decide_eq_true_2 (_ ≠ 0)) by lia. }
  eexists _, _. split; [by apply bind_err|]. split_and!.
  - eapply extent_written; [done..|by rewrite zlen_app|]. rewrite Hsp, zlen_app in Hfit.
    rewrite Hs', Hsp, splice_at_end by lia. rewrite app_assoc. eauto.
  - done.
  - intros. by apply spfs_read_locked.
  - intros. by apply spfs_write_locked.
Qed.

(** ** A write that needs more space *)
Lemma ensure_capacity_barren fuel frame cur0 sz p len n x fl' b d r (s : file_st D) :
  let i := f_inode s in
  spfs_calc_extra_blocks (S (S fuel)) sz (si_capacity i) p len s = Ok n s →
  0 < n → n * sz < 2 ^ 64 → 16 ≤ n * sz →
  t_bufs (f_tree s) = Bufs d r → spfs_free_alloc n (t_free (f_tree s)) = Ok x fl' → x ≠ 0 →
  bc_data d x = Some b → 16 ≤ zlen b → tree_barren (f_tree s) → bt_lock (t_tree (f_tree s)) = false →
  x ≠ bt_start (t_tree (f_tree s)) →
  ∃ d', dev_upd d x (splice 0 (header_bytes (FileExtent 0 (u32 n) 0)) b) d' ∧
    spfs_ensure_capacity (S (S fuel)) frame cur0 sz p len s =
      Err 1 (FileSt (BtreeSt (Bufs d' r) fl' (t_tree (f_tree s)))
               (set_extent (if bool_decide (si_start i = 0) then x else si_start i)
                  (u32 (si_capacity i + (n * sz - 16))) i) (f_user s) (f_ppos s)).
Proof using L.
  intros i Hcalc Hn Hnsz Hnsz' Hs Ha Hx Hb Hl Hbar Htl Hroot.
  destruct s as [[bufs fl t] i' user pp]. cbn [f_tree f_inode t_bufs t_free t_tree f_user f_ppos] in *.
  subst bufs. destruct (spfs_file_extent_alloc_ok n d r fl t x fl' b Ha Hx Hb Hl) as (d' & E1 & Hupd).
  exists d'. split; [done|]. unfold spfs_ensure_capacity. erewrite bind_ok by done.
  rewrite (bind_ok _ _ _ _ _ Hcalc). rewrite (bool_decide_eq_false_2 (n = 0)) by lia. exec E1.
  rewrite (bool_decide_eq_false_2 (x = 0)) by lia.
  assert (E2 : ∀ s : file_st D, spfs_file_extent_data_bytes sz n s = Ok (n * sz - 16) s).
  { intros s. unfold spfs_file_extent_data_bytes, BUG_ON. decide_if. erewrite bind_ok by done.
    change spfs_sizeof_file_extent_header with 16. rewrite (u64_small (n * sz)), u64_small by lia. done. }
  rewrite (bind_ok _ _ _ _ _ (E2 _)). erewrite bind_ok by done.
  destruct t as [tl tb tn root]. cbn in Htl, Hroot. subst tl.
  erewrite bind_ok by done. cbn [lset lget f_tree_lens f_tree f_inode_lens f_inode f_tree_lock_lens
    t_bufs t_free t_tree f_user f_ppos bt_block_size bt_blocks bt_start].
  set (t1 := Btree true tb tn root). set (i1 := set_extent _ _ _).
  assert (E3 : zoom f_tree_lens (spfs_btree_modify (S (S fuel)) frame cur0 (i_ino (i_inode i))
      (if bool_decide (si_start i = 0) then x else si_start i, u32 (si_capacity i + (n * sz - 16)))
      spfs_modify_start_cb) (FileSt (BtreeSt (Bufs d' r) fl' t1) i1 user pp) =
      Err 1 (FileSt (BtreeSt (Bufs d' r) fl' t1) i1 user pp)).
  { erewrite zoom_err; [done|]. cbn [lget f_tree_lens f_tree]. apply modify_barren.
    unfold tree_barren in *. cbn in *. destruct Hbar as [|(nb & Hnb & Hrest)]; [by left|right].
    exists nb. destruct Hupd as (_ & _ & Hf). by rewrite Hf. }
  erewrite bind_ok by (apply catch_err; exact E3). by erewrite bind_ok by done.
Qed.

(** A write that needs a new extent, on a file system whose tree is as the first
    insertion leaves it, stores nothing: it fails with -EIO when there is no space, and
    otherwise takes the blocks, writes the header of an empty extent, points the
    in-memory inode at it if it had none, and returns 1, the tree's "not found", which
    the caller takes for one byte written.  The inode's mutex stays locked either way,
    and the blocks are lost: no record on the device refers to them. *)
Theorem growing_write_fails fuel frame cur0 intr sz buf n d r (s : file_st D) :
  let i := f_inode s in
  let p := Z.min (f_ppos s) (i_size (i_inode i)) in
  let fl := t_free (f_tree s) in
  regular_unlocked i → 0 < zlen buf → t_bufs (f_tree s) = Bufs d r →
  tree_barren (f_tree s) → bt_lock (t_tree (f_tree s)) = false →
  fl_wf fl → fl_lock fl = false → ¬ free_in (bt_start (t_tree (f_tree s))) fl →
  (∀ x, free_in x fl → is_Some (bc_data d x)) → 16 ≤ bc_bsize d →
  spfs_calc_extra_blocks (S (S fuel)) sz (si_capacity i) p (zlen buf) (write_st s) =
    Ok n (write_st s) →
  0 < n → 16 ≤ n * sz → n * sz < 2 ^ 64 →
  (alloc_fails n fl ∧ spfs_write (S (S fuel)) frame cur0 intr sz buf s = Err (-EIO) (write_st s)) ∨
  ∃ x fl' d' b', alloc_takes n x fl fl' ∧
    dev_upd d x b' d' ∧ extent_magic b' = SPFS_MAGIC ∧ extent_header b' = FileExtent 0 (u32 n) 0 ∧
    spfs_write (S (S fuel)) frame cur0 intr sz buf s =
      Err 1 (FileSt (BtreeSt (Bufs d' r) fl' (t_tree (f_tree s)))
        (set_lock true (set_extent (if bool_decide (si_start i = 0) then x else si_start i)
           (u32 (si_capacity i + (n * sz - 16))) i)) (f_user s) p).
Proof using L.
  intros i p fl Hi Hb Hs Hbar Htl Hwf Hlock Hroot Hdev Hsz Hcalc Hn Hnsz Hnsz'.
  rewrite spfs_write_start by done. fold i p.
  destruct (alloc_cases n fl Hwf Hlock ltac:(lia)) as (x & fl' & Ha & _ & _ & Hcase).
  destruct Hcase as [(-> & -> & Hfail)|[Htake Hok]]; [left|right].
  - split; [done|]. apply bind_err. unfold spfs_ensure_capacity. erewrite bind_ok by done.
    rewrite (bind_ok _ _ _ _ _ Hcalc). rewrite (bool_decide_eq_false_2 (n = 0)) by lia.
    assert (E : zoom f_tree_lens (spfs_file_extent_alloc n) (write_st s) = Ok 0 (write_st s)).
    { erewrite (zoom_ok _ _ _ 0 (lset t_free_lens fl (f_tree s))).
      - unfold write_st. cbn. unfold fl. by destruct (f_tree s).
      - unfold spfs_file_extent_alloc. erewrite bind_ok by (apply zoom_ok; exact Ha).
        by decide_if. }
    rewrite (bind_ok _ _ _ _ _ E). by decide_if.
  - pose proof Htake as (Hx & _ & _ & _ & _ & Hfree & _).
    destruct (Hdev x) as [b Hbx]; [apply Hfree; lia|].
    assert (zlen b = bc_bsize d) as Hbl by (by eapply bc_data_size).
    edestruct (ensure_capacity_barren fuel frame cur0 sz p (zlen buf) n x fl' b d r (write_st s))
      as (d' & Hupd & E); try done; try lia.
    { change (f_tree (write_st s)) with (f_tree s). intros Hx'. apply Hroot. rewrite <-Hx'.
      apply Hfree. lia. }
    exists x, fl', d', (splice 0 (header_bytes (FileExtent 0 (u32 n) 0)) b).
    destruct (header_bytes_fields (FileExtent 0 (u32 n) 0) b) as [Hm Hh]; [lia| |].
    { unfold header_fits. cbn [fe_next fe_capacity fe_length]. pose proof (u32_range n). lia. }
    split_and!; [done..|]. by apply bind_err.
Qed.
End writing.

(** ** Concrete inputs *)
(** A regular file whose first extent is [example_extent] at block 5 *)
Definition example_file_inode (capacity size start : Z) : spfs_inode :=
  SpfsInode (Inode 2 33188 1000 1000 0 0 0 size 1) false capacity start [].
Definition example_file (data : list byte) (ppos : Z) : file_st memdev :=
  FileSt (BtreeSt (Bufs (example_extent_dev data) 0) (FreeList false 0 []) (Btree false 32 1 0))
    (example_file_inode 48 (zlen data) 5) [] ppos.

Lemma example_chain : file_chain (example_extent_dev example_data) 5 [example_data] 2.
Proof. apply (chain_extent _ 5 (example_extent example_data) 0); [done|exact example_extent_at|constructor]. Qed.

Lemma read_whole_file_witness :
  spfs_read 3 10 (example_file example_data 1) =
    Ok 3 (FileSt (f_tree (example_file example_data 1)) (f_inode (example_file example_data 1))
            [x02; x03; x04] 4).
Proof.
  apply (read_whole_file (example_extent_dev example_data) [example_data] 2 3 10 0
           (example_file example_data 1)); [done|done|exact example_chain|eval_side..].
Defined.

Lemma short_read_fails_witness :
  ∃ s', spfs_read 9 2 (example_file example_data 0) = Err (-EIO) s' ∧
    spfs_read 9 2 s' = Crash Deadlock.
Proof.
  destruct (short_read_fails (example_extent_dev example_data) (example_extent example_data) 0
    example_data 7 9 2 0 (example_file example_data 0)) as (s' & H1 & _ & H2);
    [done|done|done|exact example_extent_at| |by vm_compute|eval_side..|].
  - intros m ? ?. assert (m = 5 ∨ m = 6) as [-> | ->] by (cbn in *; lia); vm_compute; eauto.
  - exists s'. split; [exact H1|]. by apply H2.
Defined.

(** The second block of the extent is written, 0 is returned. *)
Lemma write_never_progresses_witness :
  ∃ s', spfs_write 3 zeros (example_file_inode 0 0 0) false 32 [x01] (example_file (replicate 20 x07) 20) =
    Ok 0 s' ∧ i_size (i_inode (f_inode s')) = 20.
Proof.
  destruct (spfs_write 3 zeros (example_file_inode 0 0 0) false 32 [x01]
              (example_file (replicate 20 x07) 20)) as [n s'|e s'|c] eqn:E.
  - destruct (write_never_progresses _ _ _ _ _ _ _ _ _ E) as [-> Hs]. exists s'. split; [done|].
    rewrite Hs. by vm_compute.
  - exfalso. vm_compute in E. discriminate E.
  - exfalso. vm_compute in E. discriminate E.
Defined.

Lemma write_stores_then_fails_witness :
  ∃ s' bs',
    spfs_write 3 zeros (example_file_inode 0 0 0) false 32 example_buf (example_file example_data 4)
      = Err (-EIO) s' ∧
    extent_at (b_dev (t_bufs (f_tree s'))) 5 bs' 0 (example_data ++ example_buf).
Proof.
  destruct (write_stores_then_fails (example_extent_dev example_data)
    (sub 0 32 (concat (example_extent example_data)))
    [sub 32 32 (concat (example_extent example_data))] 0 example_data 32 example_buf 3 zeros
    (example_file_inode 0 0 0) false 0 (example_file example_data 4)) as (s' & bs' & H1 & H2 & _);
    [done|done|done|exact example_extent_at|eval_side..|].
  exists s', bs'. split; [exact H1|exact H2].
Defined.

(** A new file on a device whose free blocks are 3, 4 and 5 *)
Definition example_new_file : file_st memdev :=
  FileSt (BtreeSt (Bufs (blank_dev 64 8) 0) (FreeList false 3 [FreeNode 3 3]) (Btree false 64 1 0))
    (example_file_inode 0 0 0) [] 0.

Lemma example_new_file_free x : free_in x (t_free (f_tree example_new_file)) → 3 ≤ x < 6.
Proof.
  unfold free_in. cbn [example_new_file f_tree t_free fl_root].
  rewrite Exists_cons, Exists_nil. unfold in_node. cbn. lia.
Qed.

Lemma growing_write_fails_witness :
  ∃ x s', spfs_write 99 zeros (example_file_inode 0 0 0) false 64 example_buf example_new_file =
    Err x s' ∧ si_lock (f_inode s') = true.
Proof.
  destruct (growing_write_fails 97 zeros (example_file_inode 0 0 0) false 64 example_buf 1
    (blank_dev 64 8) 0 example_new_file) as [[_ H]|(x & fl' & d' & b' & _ & _ & _ & _ & H)];
    try eval_side.
  - split.
    + repeat constructor; eval_side.
    + repeat constructor.
    + done.
    + done.
  - intros Hf%example_new_file_free. cbn in Hf. lia.
  - intros x Hf%example_new_file_free. assert (x = 3 ∨ x = 4 ∨ x = 5) as [->|[->| ->]] by lia;
      vm_compute; eauto.
  - eexists _, _. split; [exact H|done].
Defined.
