(* ===== verification/FileEnds.v ===== *)
(** * Reading a file comes to an end

    [spfs_read] follows pointers of the device and counts down lengths it finds there,
    while it holds the inode's mutex.  It ends on every device without empty extents,
    however long and even if the chain of extents runs in a circle: what is left to skip
    and to read shrinks by every extent, and the blocks of one extent end with the device
    at the latest.  An empty extent that names itself as the next one keeps it busy for
    ever. *)
From S2P Require Import Prelude Util Buffers FreeList Inode Bnode Btree Extent File.

(** The outcome of a run that returns, with [Q] for a result; an error is not asked about,
    and a crash, of whatever kind, is none. *)
Definition comes_to {S A} (Q : A → S → Prop) (o : out S A) : Prop :=
  match o with Ok a s => Q a s | Err _ _ => True | Crash _ => False end.

Lemma comes_to_bind {S A C} (Q : A → S → Prop) (R : C → S → Prop) (m : M S A) (k : A → M S C) s :
  comes_to Q (m s) → (∀ a s', Q a s' → comes_to R (k a s')) → comes_to R ((m ≫= k) s).
Proof. intros Hm Hk. unfold mbind, M_bind. destruct (m s); [by apply Hk|done..]. Qed.

Lemma comes_to_zoom {S T A} (l : lens S T) (Q : A → T → Prop) (R : A → S → Prop) (m : M T A) s :
  comes_to Q (m (lget l s)) → (∀ a t, Q a t → R a (lset l t s)) → comes_to R (zoom l m s).
Proof. intros Hm HR. unfold zoom. destruct (m (lget l s)); cbn in *; auto. Qed.

Lemma comes_to_weaken {S A} (Q R : A → S → Prop) (o : out S A) :
  comes_to Q o → (∀ a s, Q a s → R a s) → comes_to R o.
Proof. intros Hm HR. destruct o; cbn in *; auto. Qed.

(** A device that ends before block [n], on which every extent has data *)
Record good_extents {D} `{BufferCache D} (d : D) (n : Z) : Prop := {
  ge_end : ∀ m, n ≤ m → bc_data d m = None;
  ge_size : ∀ m b, bc_data d m = Some b → 16 ≤ zlen b;
  ge_data : ∀ m b, bc_data d m = Some b → extent_magic b = SPFS_MAGIC → 0 < fe_length (extent_header b);
}.

Section ends.
Context {D : Type} {B : BufferCache D}.
Context (d : D) (n : Z) (Hd : good_extents d n).

(** What reading leaves to be skipped and read when [used] bytes of the file have been
    passed *)
Definition passed (in_len pos used : Z) (in_len' pos' : Z) : Prop :=
  0 ≤ in_len' ∧ 0 ≤ pos' ∧ pos' < 2 ^ 63 ∧ pos' + in_len' = pos + in_len - used.

Lemma read_loop_ends fuel : ∀ start p len in_len pos read r user b,
  bc_data d start = Some b → 0 ≤ p → p ≤ zlen b → 0 ≤ len → len < 2 ^ 32 →
  0 ≤ pos → pos < 2 ^ 63 → 0 ≤ in_len → (Z.to_nat (n - start) < fuel)%nat →
  comes_to (λ '(_, in_len', pos') s', b_dev s'.1 = d ∧ passed in_len pos len in_len' pos')
    (read_extent_loop fuel start p len in_len pos read (Bufs d r, user)).
Proof using Hd.
  induction fuel as [|fuel IH]; intros start p len in_len pos read r user b Hb Hp Hp' Hl Hl' Hps Hps' Hin Hf; [lia|].
  cbn [read_extent_loop]. erewrite bind_ok by (by apply (read_round_ok d start p len in_len pos read r user b)).
  set (c := Z.min pos _). set (k := Z.min in_len _). cbv beta iota. erewrite bind_ok by done.
  cbn [fst_lens lset lget fst snd b_dev b_refs].
  assert (start < n) as Hstart by (apply Z.nle_gt; intros Hle; by rewrite (ge_end d n Hd start Hle) in Hb).
  case_bool_decide as Hlen; cycle 1.
  { cbn. split; [done|]. unfold passed. lia. }
  destruct (bc_data d (start + 1)) as [b1|] eqn:Hb1.
  - erewrite bind_ok by (by apply zoom_ok, (sb_bread_ok _ (Bufs d (r - 1)) b1)). cbn [negb].
    eapply comes_to_weaken; [apply (IH _ _ _ _ _ _ _ _ b1 Hb1); pose proof (zlen_nonneg b1); lia|].
    intros [[? in_len'] pos'] s' [Hs' H]. split; [done|]. unfold passed in *. lia.
  - by erewrite bind_ok by (by apply zoom_ok, (sb_bread_null _ (Bufs d (r - 1)))).
Qed.

Lemma read_extent_ends fuel start in_len pos r user :
  0 ≤ pos → pos < 2 ^ 63 → 0 ≤ in_len → (Z.to_nat (n - start) < fuel)%nat →
  comes_to (λ '(_, next, in_len', pos') s', b_dev s'.1 = d ∧ 0 ≤ next ∧
      ∃ len, 0 < len ∧ passed in_len pos len in_len' pos')
    (spfs_read_file_extent fuel start in_len pos (Bufs d r, user)).
Proof using Hd.
  intros Hps Hps' Hin Hf. unfold spfs_read_file_extent. destruct (bc_data d start) as [b|] eqn:Hb; cycle 1.
  { by erewrite bind_ok by (by apply zoom_ok, (sb_bread_null _ (Bufs d r))). }
  erewrite bind_ok by (by apply zoom_ok, (sb_bread_ok _ (Bufs d r) b)).
  cbn [negb fst_lens lset lget fst snd b_dev b_refs].
  pose proof (ge_size d n Hd start b Hb) as Hsz. pose proof (spfs_parse_file_extent_eq b Hsz) as Hparse.
  case_bool_decide as Hm.
  { by erewrite bind_err by (apply zoom_err, (in_bh_err start 0 _ (Bufs d (r + 1)) b _ _ Hb Hparse)). }
  erewrite bind_ok by (apply zoom_ok, (in_bh_ok start 0 _ (Bufs d (r + 1)) b _ _ Hb Hparse)). cbv beta iota.
  cbn [fst_lens lset lget fst snd].
  pose proof (extent_length_range b Hsz) as Hlen. destruct (decide (extent_magic b = SPFS_MAGIC)) as [Hmg|]; [|done].
  pose proof (ge_data d n Hd start b Hb Hmg) as Hpos.
  eapply comes_to_bind; [apply (read_loop_ends fuel start 16 _ in_len pos 0 (r + 1) user b); try done; lia|].
  intros [[? in_len'] pos'] s' [Hs' H]. cbn. split_and!; [done|apply be_combine_range|by eexists].
Qed.

Lemma read_chain_ends fuel : ∀ start in_len pos read (s : file_st D),
  b_dev (t_bufs (f_tree s)) = d → 0 ≤ start → 0 ≤ pos → pos < 2 ^ 63 → 0 ≤ in_len →
  (Z.to_nat (pos + in_len) + Z.to_nat n < fuel)%nat →
  comes_to (λ _ _, True) (read_chain fuel start in_len pos read s).
Proof using Hd.
  induction fuel as [|fuel IH]; intros start in_len pos read s Hs Hst Hps Hps' Hin Hf; [lia|].
  cbn [read_chain]. case_bool_decide; [done|].
  assert (Hb : (t_bufs (f_tree s), f_user s) = (Bufs d (b_refs (t_bufs (f_tree s))), f_user s))
    by (rewrite <-Hs; by destruct (t_bufs (f_tree s))).
  eapply comes_to_bind.
  - apply (comes_to_zoom _ (λ '(_, next, in_len', pos') s', b_dev s'.1 = d ∧ 0 ≤ next ∧
        ∃ len, 0 < len ∧ passed in_len pos len in_len' pos')
      (λ '(_, next, in_len', pos') s', b_dev (t_bufs (f_tree s')) = d ∧ 0 ≤ next ∧
        ∃ len, 0 < len ∧ passed in_len pos len in_len' pos')).
    + cbn [lget f_io_lens]. rewrite Hb. apply read_extent_ends; lia.
    + intros [[[? next] in_len'] pos'] [b' user'] Hend. exact Hend.
  - intros [[[res next] in_len'] pos'] s' (Hs' & Hn & len & Hlen & Hi & Hp & Hp' & Heq).
    case_bool_decide; [|done]. apply IH; try done. lia.
Qed.

Lemma spfs_read_ends fuel in_len (s : file_st D) :
  b_dev (t_bufs (f_tree s)) = d → si_lock (f_inode s) = false → 0 ≤ si_start (f_inode s) →
  0 ≤ f_ppos s → f_ppos s < 2 ^ 63 →
  0 ≤ in_len → (Z.to_nat (f_ppos s + in_len) + Z.to_nat n < fuel)%nat →
  comes_to (λ _ _, True) (spfs_read fuel in_len s).
Proof using Hd.
  intros Hs Hl Hst Hps Hps' Hin Hf. unfold spfs_read. erewrite bind_ok by done. case_bool_decide; [done|].
  erewrite bind_ok by done. destruct (S_ISREG _); [|done]. cbn [negb].
  unfold mutex_lock. unfold mbind at 1, M_bind at 1. cbn [lget f_lock_lens]. rewrite Hl.
  eapply comes_to_bind; [by apply read_chain_ends|]. by intros.
Qed.
End ends.

(** C18: reading comes to an end.  On a device of [n] blocks, each with room for an extent's
    header, on which no extent is empty, whatever else it holds and wherever the extents
    point, a read of a file whose mutex is free returns the bytes read or an error, and
    crashes in no way, after at most as many extents as bytes are to be skipped and read,
    and at most [n] blocks of each. *)
Theorem read_ends {D} {B : BufferCache D} (d : D) n fuel in_len (s : file_st D) :
  good_extents d n → b_dev (t_bufs (f_tree s)) = d → si_lock (f_inode s) = false →
  0 ≤ si_start (f_inode s) →
  0 ≤ f_ppos s → f_ppos s < 2 ^ 63 → 0 ≤ in_len →
  (Z.to_nat (f_ppos s + in_len) + Z.to_nat n < fuel)%nat →
  ∃ s', (∃ read, spfs_read fuel in_len s = Ok read s') ∨ (∃ e, spfs_read fuel in_len s = Err e s').
Proof.
  intros Hd Hs Hl Hst Hps Hps' Hin Hf. pose proof (spfs_read_ends d n Hd fuel in_len s) as H.
  destruct (spfs_read fuel in_len s) as [read s'|e s'|c]; [by eauto..|]. by destruct H.
Qed.

(** An empty extent that is its own successor is read for ever. *)
Lemma read_chain_diverges {D} {B : BufferCache D} (d : D) start b in_len pos fuel : ∀ read r user tr i pp,
  start ≠ 0 → bc_data d start = Some b → 16 ≤ zlen b → extent_magic b = SPFS_MAGIC →
  extent_header b = FileExtent start (fe_capacity (extent_header b)) 0 →
  0 ≤ pos → pos < 2 ^ 63 → 0 < in_len →
  read_chain fuel start in_len pos read (FileSt (BtreeSt (Bufs d r) tr i) pp user pos) = Crash NoFuel.
Proof.
  induction fuel as [|fuel IH]; intros read r user tr i pp Hst Hb Hsz Hm Hh Hps Hps' Hin; [done|].
  cbn [read_chain]. decide_if. pose proof (spfs_parse_file_extent_eq b Hsz) as Hparse.
  rewrite bool_decide_eq_false_2 in Hparse by (intros Hx; by apply Hx).
  assert (E : spfs_read_file_extent (S fuel) start in_len pos (Bufs d r, user) =
              Ok (0, start, in_len, pos) (Bufs d r, user)).
  { unfold spfs_read_file_extent. erewrite bind_ok by (by apply zoom_ok, (sb_bread_ok _ (Bufs d r) b)).
    cbn [negb fst_lens lset lget fst snd b_dev b_refs].
    erewrite bind_ok by (apply zoom_ok, (in_bh_ok start 0 _ (Bufs d (r + 1)) b _ _ Hb Hparse)).
    rewrite Hh. cbn [fst_lens lset lget fst snd fe_length fe_next read_extent_loop].
    erewrite bind_ok; cycle 1.
    { erewrite bind_ok by (apply (read_round_ok d start 16 0 in_len pos 0 (r + 1) user b Hb); lia).
      cbv beta iota. erewrite bind_ok by done. rewrite bool_decide_eq_false_2 by lia. reflexivity. }
    cbv beta iota. unfold mret, M_ret. rewrite (Z.min_r (zlen b - 16) 0), (Z.min_r pos 0) by lia.
    rewrite Z.sub_diag, (Z.min_r in_len 0), !Z.sub_0_r, Z.add_0_r by lia.
    rewrite sub_nil, app_nil_r. cbn. do 3 f_equal. lia. }
  erewrite bind_ok by (apply zoom_ok; exact E). cbv beta iota. decide_if.
  by apply IH.
Qed.

(** ** Concrete inputs *)
(** Block 5 holds an extent of one byte that names itself as the next one. *)
Definition circle_block : list byte := header_bytes (FileExtent 5 1 1) ++ [x07] ++ zeros 15.
Definition circle_file : file_st memdev :=
  FileSt (BtreeSt (Bufs (MemDev 32 {[5 := circle_block]} ∅) 0) (FreeList false 0 []) (Btree false 32 1 0))
    (example_file_inode 16 1 5) [] 0.

Lemma circle_data m b : bc_data (b_dev (t_bufs (f_tree circle_file))) m = Some b → m = 5 ∧ b = circle_block.
Proof.
  cbn [bc_data memdev_cache b_dev t_bufs f_tree circle_file md_blocks].
  intros (b' & [<- <-]%lookup_singleton_Some & H)%bind_Some. split; [done|]. case_bool_decide; congruence.
Qed.

Lemma read_ends_witness :
  (∃ s', (∃ read, spfs_read 10 3 circle_file = Ok read s') ∨ (∃ e, spfs_read 10 3 circle_file = Err e s')) ∧
  ∃ s', spfs_read 10 3 circle_file = Ok 3 s' ∧ f_user s' = [x07; x07; x07].
Proof.
  split.
  - apply (read_ends (b_dev (t_bufs (f_tree circle_file))) 6); [|done|done|by cbn; lia..].
    split.
    + intros m Hm. destruct (bc_data _ m) as [b|] eqn:E; [|done]. apply circle_data in E as [-> _]. lia.
    + intros m b [_ ->]%circle_data. by vm_compute.
    + intros m b [_ ->]%circle_data _. by vm_compute.
  - eexists. split; by vm_compute.
Defined.
