(* ===== verification/FileWrite.v ===== *)
(** * What a write does

    [spfs_write] on a file with enough capacity, for every position and length: which of
    the bytes reach the device, where, and what is returned.  A file is its extents one
    after the other; behind the header of each there is its space, and the write is a
    write into the concatenation of these spaces.  It goes from extent to extent until
    it has stored a byte in the first block of one: the count of these bytes is taken for
    an error, and the write stops behind that extent.  The bytes of the other blocks
    are stored and not counted. *)
From S2P Require Import Prelude Util Buffers FreeList Inode Bnode Btree Extent File.

(** ** The extents of a file *)
(** An extent is the block it starts at and the contents of its blocks. *)
Definition extent : Type := Z * list (list byte).
Implicit Types (e : extent) (es : list extent).

Definition ext_space e : list byte := extent_space e.2.
Definition ext_length e : Z := fe_length (extent_header (hd [] e.2)).
Definition in_extent e (m : Z) : Prop := e.1 ≤ m < e.1 + zlen e.2.
Definition in_file es (m : Z) : Prop := Exists (λ e, in_extent e m) es.
Definition apart es : Prop := ForallOrdPairs (λ e e', ∀ m, in_extent e m → ¬ in_extent e' m) es.

(** All bytes a file has room for *)
Definition file_space es : list byte := concat (ext_space <$> es).

Inductive file_extents {D} `{BufferCache D} (d : D) : Z → list extent → Prop :=
| file_extents_nil : file_extents d 0 []
| file_extents_cons start b rest es :
    0 < start → start + zlen (b :: rest) < 2 ^ 64 → run_at d start (b :: rest) →
    extent_magic b = SPFS_MAGIC → fe_capacity (extent_header b) = zlen (b :: rest) →
    file_extents d (fe_next (extent_header b)) es →
    file_extents d start ((start, b :: rest) :: es).

(** ** Specification: how many bytes go to each extent, and whether the write fails *)
(** [head] is the room in the first block of an extent, [spaces] that of the extents. *)
Fixpoint stored (head : Z) (spaces : list Z) (pos len : Z) : list Z * bool :=
  match spaces with
  | [] => ([], false)
  | space :: spaces =>
      let k := Z.max 0 (Z.min len (space - pos)) in
      if bool_decide (pos < head) then (k :: replicate (length spaces) 0, true)
      else if bool_decide (k < len) then
        let r := stored head spaces (Z.max 0 (pos - space)) (len - k) in (k :: r.1, r.2)
      else (k :: replicate (length spaces) 0, false)
  end.

Fixpoint total (ks : list Z) : Z :=
  match ks with [] => 0 | k :: ks => k + total ks end.

(** [es'] is [es] with other contents, [ks] bytes more recorded in each. *)
Definition same_place e e' : Prop := e'.1 = e.1 ∧ length e'.2 = length e.2.
Definition grown es (ks : list Z) es' : Prop :=
  Forall2 same_place es es' ∧ ext_length <$> es' = zip_with (λ e k, u32 (ext_length e + k)) es ks.

Lemma total_zeros n : total (replicate n 0) = 0.
Proof. induction n; cbn [replicate total]; lia. Qed.

Lemma total_nonneg ks : Forall (λ k, 0 ≤ k) ks → 0 ≤ total ks.
Proof. induction 1; cbn [total]; lia. Qed.

Lemma stored_range head spaces : ∀ pos len,
  0 ≤ pos → 0 ≤ len → Forall (λ n, 0 ≤ n) spaces →
  length (stored head spaces pos len).1 = length spaces ∧
  0 ≤ total (stored head spaces pos len).1 ≤ Z.max 0 (Z.min len (total spaces - pos)).
Proof.
  induction spaces as [|space spaces IH]; intros pos len Hp Hl Hs; cbn [stored]; [cbn; lia|].
  apply Forall_cons in Hs as [Hs0 Hs].
  pose proof (total_nonneg _ Hs).
  remember (Z.max 0 (Z.min len (space - pos))) as k eqn:Hkd.
  repeat case_bool_decide; cbn [fst length]; cbn [total];
    rewrite ?length_replicate, ?total_zeros; try lia.
  destruct (IH (Z.max 0 (pos - space)) (len - k)) as [-> Hk]; [lia..|done|]. lia.
Qed.

(** A write that does not fail stores everything that fits, and no byte of it lies in
    the first block of an extent. *)
Lemma stored_clean head spaces : ∀ pos len,
  0 ≤ head → 0 ≤ pos → 0 < len → pos + len ≤ total spaces → Forall (λ n, head ≤ n) spaces →
  (stored head spaces pos len).2 = false →
  total (stored head spaces pos len).1 = len.
Proof.
  induction spaces as [|space spaces IH]; intros pos len H0 Hp Hl Hfit Hs; cbn [stored total] in *; [lia|].
  apply Forall_cons in Hs as [Hs0 Hs]. case_bool_decide; [done|].
  case_bool_decide; cbn [fst snd].
  - intros Hr. cbn [total].
    rewrite IH; [lia..| |done|done]. lia.
  - intros _. cbn [total]. rewrite total_zeros. lia.
Qed.

(** ... and it fails if one does. *)
Lemma stored_fails head spaces : ∀ pos len,
  0 ≤ pos → 0 < len → 0 < head → Forall (λ n, head ≤ n) spaces →
  (stored head spaces pos len).2 = true ↔
  ∃ pre space post, spaces = pre ++ space :: post ∧ pos < total pre + head ∧ total pre < pos + len.
Proof.
  induction spaces as [|space spaces IH]; intros pos len Hp Hl H0 Hs; cbn [stored].
  { split; [done|]. by intros (pre & sp & post & ?%app_cons_not_nil & _). }
  apply Forall_cons in Hs as [Hs0 Hs]. case_bool_decide as Hh; cbn [snd].
  { split; [|done]. intros _. exists [], space, spaces. cbn. split; [done|lia]. }
  remember (Z.max 0 (Z.min len (space - pos))) as k eqn:Hkd. case_bool_decide as Hk; cbn [snd].
  - rewrite IH by (done || lia). split.
    + intros (pre & sp & post & -> & ? & ?). exists (space :: pre), sp, post. split; [done|].
      cbn [total]. lia.
    + intros ([|x pre] & sp & post & [= -> ->] & H1 & H2); cbn [total] in *; [lia|].
      exists pre, sp, post. split; [done|]. apply Forall_app in Hs as [Hs _].
      assert (0 ≤ total pre); [|lia]. apply total_nonneg. eapply Forall_impl; [exact Hs|]. cbn. lia.
  - split; [done|]. intros ([|x pre] & sp & post & [= -> ->] & H1 & H2); cbn [total] in *; [lia|].
    apply Forall_app in Hs as [Hs _]. assert (0 ≤ total pre); [|lia].
    apply total_nonneg. eapply Forall_impl; [exact Hs|]. cbn. lia.
Qed.

(** ** The extents on the device *)
Section extents.
Context {D : Type} {B : BufferCache D} {L : BufferCacheLaws D}.

Lemma run_in_extent (d d' : D) start bs :
  (∀ m, in_extent (start, bs) m → bc_data d' m = bc_data d m) → run_at d start bs → run_at d' start bs.
Proof using. intros H. apply run_at_ext. intros m ??. by apply H. Qed.

Lemma file_extents_frame (d d' : D) start es :
  file_extents d start es → (∀ m, in_file es m → bc_data d' m = bc_data d m) → file_extents d' start es.
Proof using.
  induction 1 as [|start b rest es H0 H1 Hrun Hm Hc _ IH]; intros Hf; [constructor|]. constructor; try done.
  - eapply run_in_extent, Hrun. intros m Hm'. apply Hf. by left.
  - apply IH. intros m Hm'. apply Hf. by right.
Qed.

Lemma ext_space_size (d : D) start b rest :
  run_at d start (b :: rest) → 16 ≤ bc_bsize d →
  zlen (ext_space (start, b :: rest)) = bc_bsize d - 16 + zlen (concat rest).
Proof using L.
  intros Hrun Hz. apply run_at_cons in Hrun as [Hb _]. apply bc_data_size in Hb as Hbz.
  unfold ext_space, extent_space. cbn [snd]. change 16%nat with (Z.to_nat 16).
  rewrite drop_16_head, zlen_app, zlen_drop by lia. lia.
Qed.

Lemma file_spaces (d : D) start es :
  file_extents d start es → 16 ≤ bc_bsize d →
  Forall (λ n, bc_bsize d - 16 ≤ n) ((λ e, zlen (ext_space e)) <$> es).
Proof using L.
  induction 1 as [|start b rest es H0 H1 Hrun Hm Hc _ IH]; intros Hz; [constructor|]. constructor; [|by apply IH].
  rewrite (ext_space_size d) by done. pose proof (zlen_nonneg (concat rest)). lia.
Qed.

Lemma total_space es : total ((λ e, zlen (ext_space e)) <$> es) = zlen (file_space es).
Proof using.
  unfold file_space. induction es as [|e es IH]; [done|]. cbn [fmap list_fmap total concat].
  rewrite zlen_app. by rewrite <-IH.
Qed.

Lemma in_extent_same e e' m : same_place e e' → in_extent e' m ↔ in_extent e m.
Proof using. intros [H1 H2]. unfold in_extent, zlen. by rewrite H1, H2. Qed.

Lemma in_file_same es es' m : Forall2 same_place es es' → in_file es' m ↔ in_file es m.
Proof using.
  unfold in_file. induction 1 as [|e e' es es' He _ IH]; [done|].
  by rewrite !Exists_cons, IH, (in_extent_same e e').
Qed.

(** A write that covers the end of one space and the start of the next *)
Lemma splice_over (A C buf : list byte) pos k k' :
  0 ≤ pos → k = Z.max 0 (Z.min (zlen buf) (zlen A - pos)) → 0 ≤ k' → k + k' ≤ zlen buf →
  k' ≤ zlen C - Z.max 0 (pos - zlen A) ∨ k' = 0 → (k' = 0 ∨ k < zlen buf) →
  splice pos (sub 0 k buf) A ++ splice (Z.max 0 (pos - zlen A)) (sub 0 k' (drop (Z.to_nat k) buf)) C =
  splice pos (sub 0 (k + k') buf) (A ++ C).
Proof using.
  intros Hp Hk Hk' Hle Hfit Hcov. destruct (decide (k' = 0)) as [->|Hk0].
  { rewrite sub_nil, splice_nil, Z.add_0_r. destruct (decide (k = 0)) as [->|].
    - by rewrite sub_nil, !splice_nil.
    - rewrite splice_app_l by (rewrite ?zlen_sub; lia). done. }
  destruct (decide (pos ≤ zlen A)).
  - rewrite Z.max_l by lia. apply concat_in_block; lia.
  - assert (k = 0) as -> by lia. rewrite sub_nil, splice_nil, drop_0, Z.max_r by lia.
    by rewrite splice_app_r by lia.
Qed.

Lemma grown_refl es : Forall (λ e, 0 ≤ ext_length e < 2 ^ 32) es → grown es (replicate (length es) 0) es.
Proof using.
  intros Hl. split; [by apply Forall_Forall2_diag, Forall_forall|].
  induction Hl as [|e es [He1 He2] _ IH]; [done|]. cbn [length replicate zip_with fmap list_fmap].
  rewrite Z.add_0_r, u32_small by lia. f_equal. exact IH.
Qed.

Lemma file_lengths (d : D) start es :
  file_extents d start es → 16 ≤ bc_bsize d → Forall (λ e, 0 ≤ ext_length e < 2 ^ 32) es.
Proof using L.
  induction 1 as [|start b rest es H0 H1 Hrun Hm Hc _ IH]; intros Hz; constructor; [|by apply IH].
  apply run_at_cons in Hrun as [Hb _]. apply bc_data_size in Hb. apply (extent_length_range b). lia.
Qed.

(** [d'] is [d] with the contents of the extents replaced. *)
Record rewritten (d : D) (start : Z) es ks es' (d' : D) : Prop := {
  rw_extents : file_extents d' start es';
  rw_grown : grown es ks es';
  rw_size : bc_bsize d' = bc_bsize d;
  rw_frame : ∀ m, ¬ in_file es m → bc_data d' m = bc_data d m;
}.

Lemma rewritten_head (d d1 d2 : D) start b b' rest rest' es ks es' k :
  rewritten d1 (fe_next (extent_header b)) es ks es' d2 →
  run_upd d start (b :: rest) (b' :: rest') d1 →
  0 < start → start + zlen (b :: rest) < 2 ^ 64 → apart ((start, b :: rest) :: es) →
  extent_magic b' = SPFS_MAGIC → fe_capacity (extent_header b) = zlen (b :: rest) →
  extent_header b' = FileExtent (fe_next (extent_header b)) (fe_capacity (extent_header b))
                       (u32 (fe_length (extent_header b) + k)) →
  rewritten d start ((start, b :: rest) :: es) (k :: ks) ((start, b' :: rest') :: es') d2.
Proof using.
  intros [Hes [Hplace Hlens] Hsz Hf] (Hsz1 & Hlen & Hrun & Hf1) H0 H1 Hap Hm Hc Hh.
  inversion Hap as [|? ? Hdis _]; subst.
  assert (Hz : zlen (b' :: rest') = zlen (b :: rest)) by (unfold zlen; congruence).
  assert (Hout : ∀ m, in_extent (start, b :: rest) m → ¬ in_file es m).
  { intros m Hin Hin'. apply Exists_exists in Hin' as (e & He & Hin'). rewrite Forall_forall in Hdis.
    by apply (Hdis e He m). }
  split.
  - constructor; rewrite ?Hz, ?Hh; try done. eapply run_in_extent, Hrun. intros m Hin. apply Hf, Hout.
    unfold in_extent in *. cbn [fst snd] in *. by rewrite <-Hz.
  - split; [by constructor|]. cbn [fmap list_fmap zip_with]. f_equal; [|exact Hlens]. unfold ext_length. cbn [hd snd]. by rewrite Hh.
  - congruence.
  - intros m Hn. unfold in_file in Hn. rewrite Exists_cons in Hn. rewrite Hf by tauto. apply Hf1.
    assert (¬ in_extent (start, b :: rest) m) as Hn' by tauto. unfold in_extent in Hn'. cbn [fst snd] in Hn'. lia.
Qed.

Lemma rewritten_refl (d : D) start es :
  file_extents d start es → 16 ≤ bc_bsize d → rewritten d start es (replicate (length es) 0) es d.
Proof using L. intros H Hz. split; try done. by eapply grown_refl, file_lengths. Qed.

Lemma file_extents_kept (d d' : D) start b rest bs' es :
  run_upd d start (b :: rest) bs' d' → apart ((start, b :: rest) :: es) →
  file_extents d (fe_next (extent_header b)) es → file_extents d' (fe_next (extent_header b)) es.
Proof using.
  intros (_ & _ & _ & Hf) Hap Hes. inversion Hap as [|? ? Hdis _]; subst.
  eapply file_extents_frame; [exact Hes|]. intros m Hm. apply Hf.
  apply Exists_exists in Hm as (e & He & Hm). rewrite Forall_forall in Hdis.
  assert (¬ in_extent (start, b :: rest) m) as Hn by (intros Hin; by apply (Hdis e He m)).
  unfold in_extent in Hn. cbn [fst snd] in Hn. lia.
Qed.

(** The walk over the extents stores [total ks] bytes, [ks] of them in each extent. *)
Lemma write_chain_ok es : ∀ (d : D) start fuel sz buf pos r written (s : file_st D),
  file_extents d start es → apart es → t_bufs (f_tree s) = Bufs d r → (length es < fuel)%nat →
  bc_bsize d = sz → 16 ≤ sz → 0 ≤ pos → pos < 2 ^ 63 → 0 < zlen buf →
  let r' := stored (sz - 16) ((λ e, zlen (ext_space e)) <$> es) pos (zlen buf) in
  ∃ es' d',
    write_chain fuel sz start buf (zlen buf) pos 0 written s =
      (if r'.2 then Err (-EIO) else Ok (zlen buf - total r'.1, 0, written))
        (lset f_bufs_lens (Bufs d' r) s) ∧
    rewritten d start es r'.1 es' d' ∧
    file_space es' = splice pos (sub 0 (total r'.1) buf) (file_space es).
Proof using L.
  induction es as [|e es IH]; intros d start fuel sz buf pos r written s Hes Hap Hs Hf Hsz Hsz' Hp Hp' Hb;
    (destruct fuel as [|fuel]; [cbn in Hf; lia|]); inversion Hes as [|? b rest ? H0 H1 Hrun Hm Hc Htl]; subst.
  { exists [], d. cbn [stored fmap list_fmap total fst snd]. rewrite Z.sub_0_r, sub_nil, splice_nil.
    split; [|split; [by apply rewritten_refl|done]].
    cbn [write_chain]. destruct s as [[? fl t] i u p]. cbn in Hs. by subst. }
  cbn [fmap list_fmap stored]. set (sp := zlen (ext_space (start, b :: rest))). assert (0 ≤ sp) as Hsp0 by apply zlen_nonneg.
  remember (Z.max 0 (Z.min (zlen buf) (sp - pos))) as k eqn:Hk.
  edestruct (write_file_extent_spec d (bc_bsize d) start b rest buf (zlen buf) pos 0 r)
    as (b' & rest' & d1 & E & Hupd & Hm' & Hh' & Hsp'); try done; try lia.
  change (zlen (extent_space (b :: rest))) with sp in *. rewrite <-Hk in *.
  unfold written_header in *.
  assert ((if bool_decide (fe_next (extent_header b) = 0) then 0 else fe_next (extent_header b)) =
          fe_next (extent_header b)) as Hn by (case_bool_decide; lia). rewrite Hn in *.
  replace (if bool_decide (fe_next (extent_header b) = 0) then 0 else 0) with 0 in E by by case_bool_decide.
  pose proof (file_extents_kept _ _ _ _ _ _ _ Hupd Hap Htl) as Htl1.
  assert (bc_bsize d1 = bc_bsize d) as Hz1 by apply Hupd.
  assert (∀ es' ks d2, rewritten d1 (fe_next (extent_header b)) es ks es' d2 →
    rewritten d start ((start, b :: rest) :: es) (k :: ks) ((start, b' :: rest') :: es') d2) as Hrw.
  { intros es' ks d2 H2. by eapply rewritten_head. }
  assert (∀ k' es', file_space es' = splice (Z.max 0 (pos - sp)) (sub 0 k' (drop (Z.to_nat k) buf)) (file_space es) →
    0 ≤ k' → k + k' ≤ zlen buf → k' ≤ zlen (file_space es) - Z.max 0 (pos - sp) ∨ k' = 0 → k' = 0 ∨ k < zlen buf →
    file_space ((start, b' :: rest') :: es') = splice pos (sub 0 (k + k') buf) (file_space ((start, b :: rest) :: es))) as Hspace.
  { intros k' es' He ????. unfold file_space. cbn [fmap list_fmap concat]. fold (file_space es') (file_space es).
    rewrite <-splice_over by done. rewrite He. unfold ext_space at 1. cbn [snd]. by rewrite Hsp'. }
  cbn [write_chain]. rewrite (bool_decide_eq_false_2 (start = 0)) by lia.
  erewrite bind_ok; cycle 1.
  { apply catch_ok, zoom_ok. cbn [lget f_bufs_lens]. rewrite Hs. exact E. }
  cbv beta iota. set (s1 := lset f_bufs_lens (Bufs d1 r) s). destruct (decide (pos < bc_bsize d - 16)) as [Hhead|Hhead].
  { rewrite (bool_decide_eq_true_2 (pos < _)) by done. rewrite (bool_decide_eq_true_2 (_ ≠ 0)) by lia.
    cbn [fst snd total]. rewrite total_zeros.
    exists ((start, b' :: rest') :: es), d1. split; [done|]. rewrite length_fmap.
    split; [by apply Hrw, rewritten_refl; [|lia]|]. apply Hspace; [|lia..]. by rewrite sub_nil, splice_nil. }
  rewrite (bool_decide_eq_false_2 (pos < _)) by done. rewrite (bool_decide_eq_false_2 (_ ≠ 0)) by lia.
  replace (written + _) with written by lia. destruct (decide (k < zlen buf)) as [Hmore|Hmore].
  - rewrite (bool_decide_eq_true_2 (k < _)) by done. rewrite (bool_decide_eq_true_2 (0 < _)) by lia.
    cbn [fst snd total].
    assert (zlen (drop (Z.to_nat k) buf) = zlen buf - k) as Hdrop by (rewrite zlen_drop; lia).
    assert (apart es) as Hap' by by inversion Hap.
    edestruct (IH d1 (fe_next (extent_header b)) fuel (bc_bsize d) (drop (Z.to_nat k) buf) (Z.max 0 (pos - sp)) r written s1)
      as (es' & d2 & E2 & Hrw2 & Hsp2); try done; try lia; [cbn [length] in Hf; lia|].
    rewrite Hdrop in *. set (r' := stored _ _ _ _) in *. cbn [fe_next]. rewrite E2.
    assert (length r'.1 = length es ∧ 0 ≤ total r'.1 ≤ Z.max 0 (Z.min (zlen buf - k) (zlen (file_space es) - Z.max 0 (pos - sp))))
      as [_ Hr'].
    { unfold r'. rewrite <-total_space, <-(length_fmap (λ e, zlen (ext_space e)) es). apply stored_range; [lia..|].
      eapply Forall_impl; [by eapply file_spaces; [exact Htl|]|]. cbn. lia. }
    exists ((start, b' :: rest') :: es'), d2. split; [|split; [by apply Hrw|]].
    + replace (zlen buf - k - total r'.1) with (zlen buf - (k + total r'.1)) by lia. done.
    + apply Hspace; [done|lia..].
  - rewrite (bool_decide_eq_false_2 (k < _)) by done. rewrite (bool_decide_eq_false_2 (0 < _)) by lia.
    cbn [fst snd total]. rewrite total_zeros, length_fmap.
    exists ((start, b' :: rest') :: es), d1. split; [by rewrite Z.add_0_r|].
    split; [by apply Hrw, rewritten_refl; [|lia]|]. apply Hspace; [|lia..]. by rewrite sub_nil, splice_nil.
Qed.
End extents.

(** ** Writing to a file *)
Section outcome.
Context {D : Type} {B : BufferCache D} {L : BufferCacheLaws D}.

(** What the file keeps of the write: all but the data is as before. *)
Definition written_st (d : D) (r : Z) (locked : bool) (s : file_st D) : file_st D :=
  lset f_bufs_lens (Bufs d r)
    (FileSt (f_tree s) (set_lock locked (f_inode s)) (f_user s)
       (Z.min (f_ppos s) (i_size (i_inode (f_inode s))))).

(** The walk over the extents decides. *)
Lemma spfs_write_enough (d : D) sz buf fuel frame cur0 intr r (fails : bool) rest (s : file_st D) :
  let i := f_inode s in
  let p := Z.min (f_ppos s) (i_size (i_inode i)) in
  regular_unlocked i → 0 < zlen buf → 0 ≤ p → p + zlen buf ≤ si_capacity i → p + zlen buf < 2 ^ 63 →
  write_chain fuel sz (si_start i) buf (zlen buf) p 0 0 (write_st s) =
    (if fails then Err (-EIO) else Ok (rest, 0, 0)) (lset f_bufs_lens (Bufs d r) (write_st s)) →
  spfs_write fuel frame cur0 intr sz buf s =
    if fails then Err (-EIO) (written_st d r true s)
    else if bool_decide (rest = 0) then Ok 0 (written_st d r false s) else Crash BugOn.
Proof using.
  intros i p Hi Hb Hp Hcap Hbig E. rewrite spfs_write_start by done. fold i p.
  rewrite (bind_ok _ _ _ _ _ (ensure_capacity_enough fuel frame cur0 sz p (zlen buf)
             (write_st s) ltac:(lia) ltac:(lia) ltac:(lia) Hcap)).
  erewrite bind_ok by done. change (si_start (f_inode (write_st s))) with (si_start i).
  destruct fails; [by rewrite (bind_err _ _ _ _ _ E)|].
  rewrite (bind_ok _ _ _ _ _ E). cbv beta iota. rewrite (bool_decide_eq_false_2 (0 ≠ 0)) by lia.
  erewrite bind_ok by done. destruct (decide (rest = 0)) as [Ht|Ht].
  - rewrite (bool_decide_eq_true_2 _ Ht), (bool_decide_eq_false_2 (_ ≠ 0)) by lia.
    do 4 erewrite bind_ok by done. unfold mret, M_ret. f_equal.
    unfold written_st. destruct s as [t [[]] u q]. cbn in *. by rewrite !Z.add_0_r.
  - by rewrite (bool_decide_eq_false_2 _ Ht), (bool_decide_eq_true_2 (_ ≠ 0)) by lia.
Qed.

(** C12: [spfs_write] on a file that has the capacity writes the bytes of the buffer
    where the position, cut to the size of the file, says, as many as [stored] counts,
    and nothing outside of the file's extents changes.  It fails with -EIO and leaves
    the inode locked exactly if one of the bytes belongs in the first block of an extent;
    otherwise all bytes are stored and it returns 0, with the size of the file and the
    position as they were.  When the extents have less space than the inode's capacity
    claims, it runs into [BUG_ON]. *)
Theorem write_outcome (d : D) es sz buf fuel frame cur0 intr r (s : file_st D) :
  let i := f_inode s in
  let p := Z.min (f_ppos s) (i_size (i_inode i)) in
  let r' := stored (sz - 16) ((λ e, zlen (ext_space e)) <$> es) p (zlen buf) in
  regular_unlocked i → t_bufs (f_tree s) = Bufs d r →
  file_extents d (si_start i) es → apart es → (length es < fuel)%nat →
  bc_bsize d = sz → 16 < sz → 0 < zlen buf → 0 ≤ p → p + zlen buf ≤ si_capacity i →
  p + zlen buf < 2 ^ 63 →
  ∃ es' d',
    rewritten d (si_start i) es r'.1 es' d' ∧
    file_space es' = splice p (sub 0 (total r'.1) buf) (file_space es) ∧
    spfs_write fuel frame cur0 intr sz buf s =
      (if r'.2 then Err (-EIO) (written_st d' r true s)
       else if bool_decide (total r'.1 = zlen buf) then Ok 0 (written_st d' r false s)
       else Crash BugOn) ∧
    (r'.2 = false → p + zlen buf ≤ zlen (file_space es) → total r'.1 = zlen buf) ∧
    (r'.2 = true ↔ ∃ pre e post, es = pre ++ e :: post ∧
       p < zlen (file_space pre) + (sz - 16) ∧ zlen (file_space pre) < p + zlen buf).
Proof using L.
  intros i p r' Hi Hs Hes Hap Hf Hsz Hsz' Hb Hp Hcap Hbig.
  edestruct (write_chain_ok es d (si_start i) fuel sz buf p r 0 (write_st s))
    as (es' & d' & E & Hrw & Hsp); try done; try lia.
  fold r' in E, Hrw, Hsp. pose proof (file_spaces d _ es Hes ltac:(lia)) as Hspaces. rewrite Hsz in Hspaces.
  exists es', d'. split_and!; [done|done| | |].
  - erewrite spfs_write_enough by (done || fold i p; lia || exact E). destruct r'.2; [done|].
    by rewrite (bool_decide_ext (zlen buf - total r'.1 = 0) (total r'.1 = zlen buf)) by lia.
  - intros Hr Hfit. apply stored_clean; rewrite ?total_space; try lia; try done.
  - unfold r'. rewrite stored_fails by (done || lia). split.
    + intros (pre & x & post & He & H1 & H2).
      apply fmap_app_inv in He as (pre' & es2 & -> & He2 & ->).
      symmetry in He2. apply fmap_cons_inv in He2 as (e & post' & -> & -> & ->).
      rewrite total_space in *. by exists pre', e, post'.
    + intros (pre & e & post & -> & H1 & H2). rewrite fmap_app, fmap_cons.
      do 3 eexists. split; [done|]. by rewrite total_space.
Qed.

(** ** Writing and reading the file *)
Definition ext_data e : list byte := sub 0 (ext_length e) (ext_space e).
Definition file_data es : list byte := concat (ext_data <$> es).

Lemma file_extents_chain (d : D) start es :
  file_extents d start es → 16 ≤ bc_bsize d → Forall (λ e, ext_length e ≤ zlen (ext_space e)) es →
  file_chain d start (ext_data <$> es) (sum_list_with (λ e, length e.2) es).
Proof using L.
  induction 1 as [|start b rest es H0 H1 Hrun Hm Hc _ IH]; intros Hz Hl; [constructor|].
  apply Forall_cons in Hl as [Hl Hls]. cbn [fmap list_fmap sum_list_with snd].
  eapply chain_extent; [lia| |by apply IH]. apply run_at_cons in Hrun as Hrun'. destruct Hrun' as [Hb _].
  apply bc_data_size in Hb. destruct (extent_length_range b) as [Hr _]; [lia|]. unfold ext_length in Hl. cbn [hd snd] in Hl.
  split; [done| |done|].
  - exists b, rest. split_and!; [done..|]. unfold ext_data. rewrite zlen_sub; unfold ext_length; cbn [hd snd]; lia.
  - exists (drop (Z.to_nat (fe_length (extent_header b))) (ext_space (start, b :: rest))).
    unfold ext_data, ext_length. cbn [hd snd]. rewrite sub_0_drop by lia. done.
Qed.

Lemma run_size (d : D) bs : ∀ start, run_at d start bs → zlen (concat bs) = zlen bs * bc_bsize d.
Proof using L.
  induction bs as [|b bs IH]; intros start H; [done|]. apply run_at_cons in H as [Hb H].
  cbn [concat]. rewrite zlen_app, zlen_cons, (IH _ H), (bc_data_size d start b Hb). lia.
Qed.

Lemma spaces_kept (d d' : D) start es ks es' :
  file_extents d start es → 16 ≤ bc_bsize d → rewritten d start es ks es' d' →
  (λ e, zlen (ext_space e)) <$> es' = (λ e, zlen (ext_space e)) <$> es.
Proof using L.
  intros Hes Hz [Hes' [Hpl _] Hz' _].
  assert (∀ (d : D) start es, file_extents d start es → 16 ≤ bc_bsize d →
    Forall (λ e, zlen (ext_space e) = zlen e.2 * bc_bsize d - 16) es) as Hsize.
  { clear -L. intros d start es. induction 1 as [|start b rest es _ _ Hrun _ _ _ IH]; intros Hz; [done|].
    constructor; [|by apply IH]. cbv beta. rewrite (ext_space_size d) by done. cbn [snd]. rewrite zlen_cons.
    apply run_at_cons in Hrun as [_ Hrest]. rewrite (run_size d _ _ Hrest). lia. }
  apply Hsize in Hes; [|done]. apply Hsize in Hes'; [|by rewrite Hz']. rewrite Hz' in Hes'. clear -Hpl Hes Hes'.
  induction Hpl as [|e e' es es' [_ He] _ IH]; [done|]. apply Forall_cons in Hes as [H1 Hes], Hes' as [H2 Hes'].
  cbn [fmap list_fmap]. cbv beta in H1, H2. rewrite IH by done. f_equal. rewrite H1, H2. unfold zlen. by rewrite He.
Qed.

Lemma same_blocks es es' :
  Forall2 same_place es es' → sum_list_with (λ e, length e.2) es' = sum_list_with (λ e, length e.2) es.
Proof using. induction 1 as [|e e' es es' [_ He] _ IH]; [done|]. cbn [sum_list_with]. congruence. Qed.

(** Lists of the same lengths are given by what they are together. *)
Lemma concat_inj {A} (ls ls' : list (list A)) :
  zlen <$> ls = zlen <$> ls' → concat ls = concat ls' → ls = ls'.
Proof using.
  revert ls'. induction ls as [|l ls IH]; intros [|l' ls'] Hlen Hc; try done.
  injection Hlen as Hl Hlen. cbn [concat] in Hc. apply app_inj_1 in Hc as [-> Hc]; [|unfold zlen in Hl; lia].
  by rewrite (IH ls').
Qed.

Lemma sub_splice_whole {A} n (d l : list A) :
  zlen d ≤ n → n ≤ zlen l → sub 0 n (splice 0 d l) = splice 0 d (sub 0 n l).
Proof using.
  unfold sub, splice, zlen. intros. change (Z.to_nat 0) with 0%nat. rewrite !drop_0, !take_0, Nat.add_0_l. cbn [app].
  rewrite take_app_ge by lia. f_equal. rewrite skipn_firstn_comm. done.
Qed.

(** What a write to the start of the first extent leaves: [n] bytes more are recorded there,
    and the others are as before. *)
Lemma grown_first e es es1 n :
  Forall (λ e, 0 ≤ ext_length e < 2 ^ 32) es → 0 ≤ ext_length e + n < 2 ^ 32 →
  grown (e :: es) (n :: replicate (length es) 0) es1 →
  ∃ e' es', es1 = e' :: es' ∧ ext_length e' = ext_length e + n ∧ ext_length <$> es' = ext_length <$> es.
Proof using.
  intros Hes He [Hpl Hlen]. apply Forall2_cons_inv_l in Hpl as (e' & es' & _ & Hpl & ->).
  cbn [fmap list_fmap zip_with] in Hlen. injection Hlen as He' Hes'. rewrite u32_small in He' by lia.
  exists e', es'. split_and!; [done|done|]. rewrite Hes'. symmetry. by apply grown_refl.
Qed.

Lemma first_data e es e' es' (buf : list byte) :
  0 ≤ ext_length e → ext_length e + zlen buf ≤ zlen (ext_space e) →
  Forall (λ e, ext_length e ≤ zlen (ext_space e)) es →
  ext_length e' = ext_length e + zlen buf → ext_length <$> es' = ext_length <$> es →
  (λ e, zlen (ext_space e)) <$> (e' :: es') = (λ e, zlen (ext_space e)) <$> (e :: es) →
  file_space (e' :: es') = splice 0 buf (file_space (e :: es)) →
  file_data (e' :: es') = splice 0 buf (sub 0 (ext_length e + zlen buf) (ext_space e)) ++ file_data es ∧
  Forall (λ e, ext_length e ≤ zlen (ext_space e)) (e' :: es').
Proof using.
  intros H0 Hfit Hle He Hes Hspaces Hsp. cbn [fmap list_fmap] in Hspaces. injection Hspaces as Hs Hss.
  pose proof (zlen_nonneg buf). unfold file_space in Hsp. cbn [fmap list_fmap concat] in Hsp.
  rewrite splice_app_l in Hsp by lia.
  apply app_inj_1 in Hsp as [Hsp Hrest]; cycle 1.
  { pose proof (zlen_splice 0 buf (ext_space e)) as Hz. unfold zlen in *. lia. }
  assert (ext_space <$> es' = ext_space <$> es) as Hsps.
  { apply concat_inj; [|done]. rewrite <-!list_fmap_compose. exact Hss. }
  assert (ext_data <$> es' = ext_data <$> es) as Hdata.
  { clear -Hsps Hes. revert es' Hsps Hes. induction es as [|x es IH]; intros [|x' es'] H1 H2; try done.
    injection H1 as H1 H1'. injection H2 as H2 H2'. cbn [fmap list_fmap]. rewrite IH by done. unfold ext_data. by rewrite H1, H2. }
  split.
  - unfold file_data. cbn [fmap list_fmap concat]. rewrite Hdata. f_equal. unfold ext_data.
    rewrite He, Hsp. apply sub_splice_whole; lia.
  - constructor; [lia|]. clear -Hle Hsps Hes. revert es' Hsps Hes. induction Hle as [|x es Hx _ IH]; intros [|x' es'] H1 H2; try done.
    injection H1 as H1 H1'. injection H2 as H2 H2'. constructor; [congruence|]. by apply IH.
Qed.

(** C13: a write goes to the start of the file, wherever the position is, when the size of
    the inode is 0 as the driver leaves every size (it is not part of the record, and no
    write changes it), since the position is cut to the size.  Take a well-formed chain of
    extents that share no block, let the in-memory inode claim
    the capacity for the buffer (a write that has to grow the file fails instead,
    [growing_write_fails]), and let there be room for it behind the data of the first
    extent.  Then the buffer takes the place of the first bytes, but the recorded length
    grows by as many bytes although they replaced others; the write returns -EIO and keeps
    the inode's mutex, so that reading it waits for ever; and read through an inode of the
    same first extent with a free mutex, the file is the buffer, then what followed it in the
    extent up to the new length, then the data of the other extents as it was. *)
Theorem write_goes_to_start (d : D) e es sz buf fuel frame cur0 intr r (s : file_st D) :
  let i := f_inode s in
  let new := splice 0 buf (sub 0 (ext_length e + zlen buf) (ext_space e)) ++ file_data es in
  regular_unlocked i → i_size (i_inode i) = 0 → 0 ≤ f_ppos s → t_bufs (f_tree s) = Bufs d r →
  file_extents d (si_start i) (e :: es) → apart (e :: es) → (S (length es) < fuel)%nat →
  bc_bsize d = sz → 16 < sz → 0 < zlen buf → zlen buf ≤ si_capacity i → zlen buf < 2 ^ 63 →
  ext_length e + zlen buf ≤ zlen (ext_space e) → ext_length e + zlen buf < 2 ^ 32 →
  Forall (λ e, ext_length e ≤ zlen (ext_space e)) es →
  ∃ s', spfs_write fuel frame cur0 intr sz buf s = Err (-EIO) s' ∧
    (∀ fuel' in_len, 0 < in_len → spfs_read fuel' in_len s' = Crash Deadlock) ∧
    ∀ i' fuel' in_len user, regular_unlocked i' → si_start i' = si_start i →
      (sum_list_with (λ e, length e.2) (e :: es) < fuel')%nat → zlen new ≤ in_len →
      spfs_read fuel' in_len (FileSt (f_tree s') i' user 0) =
        Ok (zlen new) (FileSt (f_tree s') i' (user ++ new) (zlen new)).
Proof using L.
  intros i new Hi Hsize Hpos Hs Hes Hap Hf Hsz Hsz' Hb Hcap Hbig Hfit Hlen Hle.
  pose proof (file_lengths d _ _ Hes ltac:(lia)) as Hlens. apply Forall_cons in Hlens as [Hl0 Hlens].
  assert (Z.min (f_ppos s) (i_size (i_inode i)) = 0) as Hp by lia.
  destruct (write_chain_ok (e :: es) d (si_start i) fuel sz buf 0 r 0 (write_st s))
    as (es1 & d' & E & Hrw & Hsp); try done; try lia.
  assert (stored (sz - 16) ((λ e, zlen (ext_space e)) <$> (e :: es)) 0 (zlen buf) =
          (zlen buf :: replicate (length es) 0, true)) as Hst.
  { cbn [fmap list_fmap stored]. rewrite (bool_decide_eq_true_2 (0 < sz - 16)) by lia.
    rewrite length_fmap. do 2 f_equal. lia. }
  rewrite Hst in E, Hrw, Hsp. cbn [fst snd] in E, Hrw, Hsp. cbn [total] in Hsp. rewrite total_zeros in Hsp.
  rewrite Z.add_0_r, sub_all in Hsp.
  exists (written_st d' r true s). split_and!.
  - erewrite (spfs_write_enough d' _ _ _ _ _ _ r true 0) by (fold i; rewrite ?Hp; done || lia || exact E). done.
  - intros fuel' in_len Hin. apply spfs_read_locked; [lia|apply Hi|done].
  - intros i' fuel' in_len user Hi' Hst' Hf' Hin. pose proof (rw_grown _ _ _ _ _ _ Hrw) as Hgrown.
    destruct (grown_first e es es1 (zlen buf)) as (e' & es' & -> & He' & Hes'); [done|lia|done|].
    destruct (first_data e es e' es' buf) as [Hdata Hle']; try done; try lia.
    { eapply spaces_kept; [exact Hes|lia|exact Hrw]. }
    fold new in Hdata.
    assert (file_chain d' (si_start i') (ext_data <$> (e' :: es')) (sum_list_with (λ e, length e.2) (e' :: es'))) as Hc.
    { rewrite Hst'. apply file_extents_chain; [by apply Hrw|rewrite (rw_size _ _ _ _ _ _ Hrw); lia|done]. }
    rewrite (same_blocks _ _ (proj1 Hgrown)) in Hc. unfold file_data in Hdata.
    assert (0 < zlen new).
    { unfold new. rewrite zlen_app. pose proof (zlen_nonneg (file_data es)).
      rewrite zlen_splice; rewrite ?zlen_sub; lia. }
    erewrite (spfs_read_all d' (ext_data <$> (e' :: es')) _ fuel' in_len r); try done; cbn [f_ppos]; rewrite ?Hdata; try lia.
    cbn [f_tree f_inode f_user]. by rewrite Z.sub_0_r, Z.max_r, drop_0 by lia.
Qed.

(** ** What a write leaves alone *)
Lemma calc_extra_cases {S} fuel sz capacity p len (s : S) :
  0 < sz → sz < 2 ^ 32 → 0 ≤ capacity → 0 ≤ p → 0 ≤ len → p + len < 2 ^ 63 → p + len + 16 < Z.of_nat fuel →
  p + len ≤ capacity ∨
  ∃ n, spfs_calc_extra_blocks fuel sz capacity p len s = Ok n s ∧ 0 < n ∧ n * sz < 2 ^ 64.
Proof using.
  intros ???????. destruct (decide (p + len ≤ capacity)); [by left|right].
  unfold spfs_calc_extra_blocks, spfs_blocks_for. change spfs_sizeof_file_extent_header with 16.
  rewrite (u64_small (p + len)) by lia. rewrite (bool_decide_eq_false_2 (_ ≤ _)) by lia.
  rewrite u64_small by lia. set (x := p + len - capacity + 16).
  destruct (ceil_div_bounds x sz) as [Hc1 Hc2]; [lia..|].
  assert (0 < ceil_div x sz) by nia. assert (ceil_div x sz ≤ x) by nia.
  exists (ceil_div x sz). rewrite blocks_for_loop_ok by lia. split_and!; done || lia.
Qed.

Definition wrote (d : D) es (fl : spfs_free_list) (s : file_st D) : Prop :=
  ∃ d' r, t_bufs (f_tree s) = Bufs d' r ∧ bc_bsize d' = bc_bsize d ∧
    ∀ m, ¬ in_file es m → ¬ free_in m fl → bc_data d' m = bc_data d m.

Lemma spfs_write_wrote (d : D) es sz buf fuel frame cur0 intr r (s : file_st D) n s' :
  let i := f_inode s in
  let p := Z.min (f_ppos s) (i_size (i_inode i)) in
  let t := f_tree s in
  t_bufs t = Bufs d r → file_extents d (si_start i) es → apart es → (length es < fuel)%nat →
  bc_bsize d = sz → 16 < sz → sz < 2 ^ 32 → 0 ≤ p → 0 ≤ si_capacity i →
  p + zlen buf < 2 ^ 63 → p + zlen buf + 16 < Z.of_nat fuel →
  tree_barren t → bt_lock (t_tree t) = false → ¬ free_in (bt_start (t_tree t)) (t_free t) →
  fl_wf (t_free t) → fl_lock (t_free t) = false → (∀ x, free_in x (t_free t) → is_Some (bc_data d x)) →
  spfs_write fuel frame cur0 intr sz buf s = Ok n s' ∨ spfs_write fuel frame cur0 intr sz buf s = Err n s' →
  wrote d es (t_free t) s'.
Proof using L.
  intros i p t Hs Hes Hap Hf Hsz Hsz' Hsz32 Hp Hcp Hbig Hfuel Hbar Htl Hroot Hwf Hfl Hdev Hout.
  assert (wrote d es (t_free t) s) as Hsame by by exists d, r.
  pose proof (zlen_nonneg buf). destruct (decide (zlen buf = 0)) as [Hb|Hb].
  { unfold spfs_write in Hout. rewrite (bool_decide_eq_true_2 (zlen buf = 0)) in Hout by done.
    by destruct Hout as [[= _ <-]|]. }
  destruct (S_ISREG (i_mode (i_inode i))) eqn:Hreg; cycle 1.
  { unfold spfs_write in Hout. rewrite (bool_decide_eq_false_2 (zlen buf = 0)) in Hout by done.
    erewrite bind_ok in Hout by done. fold i in Hout. rewrite Hreg in Hout.
    by destruct Hout as [|[= _ <-]]. }
  destruct (si_lock i) eqn:Hlock.
  { destruct (spfs_write_locked fuel frame cur0 sz buf s) as [H1 H2]; try done; [by intros ->|].
    destruct intr; [rewrite H2 in Hout|rewrite H1 in Hout]; by destruct Hout as [|[= _ <-]]. }
  destruct (calc_extra_cases fuel sz (si_capacity i) p (zlen buf) (write_st s)) as [Hcap|(k & Hcalc & Hk & Hksz)];
    try done; try lia.
  - edestruct (write_chain_ok es d (si_start i) fuel sz buf p r 0 (write_st s))
      as (es' & d' & E & [_ _ Hz' Hfr] & _); try done; try lia.
    erewrite (spfs_write_enough d') in Hout by (done || lia || exact E).
    exists d', r. destruct (stored _ _ _ _).2; [|case_bool_decide].
    + destruct Hout as [|[= _ <-]]; [done|]. split_and!; [done..|]. intros. by apply Hfr.
    + destruct Hout as [[= _ <-]|]; [|done]. split_and!; [done..|]. intros. by apply Hfr.
    + by destruct Hout.
  - destruct fuel as [|[|fuel]]; [lia..|].
    destruct (growing_write_fails fuel frame cur0 intr sz buf k d r s)
      as [[_ E]|(x & fl' & d' & b' & Htake & Hupd & _ & _ & E)]; try done; try lia; try nia.
    + rewrite E in Hout. by destruct Hout as [|[= _ <-]].
    + rewrite E in Hout. destruct Hout as [|[= _ <-]]; [done|]. exists d', r.
      destruct Hupd as (Hz' & _ & Hfr). split_and!; [done..|]. intros m _ Hm. apply Hfr. intros ->.
      apply Hm. destruct Htake as (_ & _ & _ & _ & _ & Hfree & _). apply Hfree. lia.
Qed.

(** A file without blocks, on a file system whose tree is as the first insertion leaves
    it: reading it gives nothing, and every write to it fails, with -EIO or 1, and leaves
    the file such that reading it waits for its mutex for ever. *)
Definition stays_empty (sz : Z) (s : file_st D) : Prop :=
  (∀ fuel in_len, 0 < in_len → spfs_read (S fuel) in_len s = Ok 0 s) ∧
  ∀ fuel frame cur0 intr buf, 0 < zlen buf → zlen buf < 2 ^ 62 → zlen buf + 16 < Z.of_nat fuel →
    ∃ (code : Z) s', spfs_write fuel frame cur0 intr sz buf s = Err code s' ∧ (code = -EIO ∨ code = 1) ∧
      ∀ fuel' in_len, 0 < in_len → spfs_read fuel' in_len s' = Crash Deadlock.

Lemma empty_file_stays (d : D) r (s : file_st D) :
  let i := f_inode s in
  let t := f_tree s in
  regular_unlocked i → si_start i = 0 → si_capacity i = 0 → i_size (i_inode i) = 0 →
  0 ≤ f_ppos s → f_ppos s < 2 ^ 63 →
  t_bufs t = Bufs d r → 16 < bc_bsize d → bc_bsize d < 2 ^ 32 →
  tree_barren t → bt_lock (t_tree t) = false → ¬ free_in (bt_start (t_tree t)) (t_free t) →
  fl_wf (t_free t) → fl_lock (t_free t) = false → (∀ x, free_in x (t_free t) → is_Some (bc_data d x)) →
  stays_empty (bc_bsize d) s.
Proof using L.
  intros i t Hi Hst Hcap Hsz Hp Hp' Hs Hbs Hbs' Hbar Htl Hroot Hwf Hfl Hdev. split.
  - intros fuel in_len Hin.
    assert (file_chain d (si_start (f_inode s)) [] 0) as Hc by (fold i; rewrite Hst; apply chain_end).
    rewrite (spfs_read_all d [] 0 (S fuel) in_len r) by (done || lia || (change (zlen (concat [])) with 0; lia)).
    change (zlen (concat [])) with 0. replace (Z.max 0 _) with 0 by lia. cbn [concat]. rewrite drop_nil, app_nil_r, Z.add_0_r. by destruct s.
  - intros fuel frame cur0 intr buf Hb Hb' Hf. set (sz := bc_bsize d) in *.
    destruct (calc_extra_cases fuel sz (si_capacity i) 0 (zlen buf) (write_st s)) as [?|(k & Hcalc & Hk & Hksz)];
      [lia..|]. destruct fuel as [|[|fuel]]; [lia..|].
    destruct (growing_write_fails fuel frame cur0 intr sz buf k d r s)
      as [[_ E]|(x & fl' & d' & b' & _ & _ & _ & _ & E)];
      fold i; rewrite ?Hsz, ?Z.min_r; try done; try lia; try nia.
    + eexists _, _. split; [exact E|]. split; [by left|]. intros. apply spfs_read_locked; [lia|apply Hi|done].
    + eexists _, _. split; [exact E|]. split; [by right|]. intros. apply spfs_read_locked; [lia|apply Hi|done].
Qed.

(** C14: whatever [spfs_write] returns, every other file that shares no block with the
    file written or the free list reads as before, on a file system whose tree is as the
    first insertion leaves it. *)
Theorem write_spares_others (d : D) es es2 sz buf fuel frame cur0 intr r (s : file_st D) other n s' :
  let i := f_inode s in
  let p := Z.min (f_ppos s) (i_size (i_inode i)) in
  let t := f_tree s in
  t_bufs t = Bufs d r → file_extents d (si_start i) es → apart es → (length es < fuel)%nat →
  bc_bsize d = sz → 16 < sz → sz < 2 ^ 32 → 0 ≤ p → 0 ≤ si_capacity i →
  p + zlen buf < 2 ^ 63 → p + zlen buf + 16 < Z.of_nat fuel →
  tree_barren t → bt_lock (t_tree t) = false → ¬ free_in (bt_start (t_tree t)) (t_free t) →
  fl_wf (t_free t) → fl_lock (t_free t) = false → (∀ x, free_in x (t_free t) → is_Some (bc_data d x)) →
  regular_unlocked other → file_extents d (si_start other) es2 →
  Forall (λ e, ext_length e ≤ zlen (ext_space e)) es2 →
  (∀ m, in_file es2 m → ¬ in_file es m ∧ ¬ free_in m (t_free t)) →
  spfs_write fuel frame cur0 intr sz buf s = Ok n s' ∨ spfs_write fuel frame cur0 intr sz buf s = Err n s' →
  ∀ fuel' in_len user, (sum_list_with (λ e, length e.2) es2 < fuel')%nat → 0 < in_len →
    zlen (file_data es2) ≤ in_len →
    spfs_read fuel' in_len (FileSt (f_tree s') other user 0) =
      Ok (zlen (file_data es2)) (FileSt (f_tree s') other (user ++ file_data es2) (zlen (file_data es2))).
Proof using L.
  intros i p t Hs Hes Hap Hf Hsz Hsz' Hsz32 Hp Hcp Hbig Hfuel Hbar Htl Hroot Hwf Hfl Hdev Hother Hes2 Hle Hapart Hout
    fuel' in_len user Hf' Hin0 Hin.
  destruct (spfs_write_wrote d es sz buf fuel frame cur0 intr r s n s') as (d' & r' & Hs' & Hz' & Hfr); try done.
  assert (file_chain d' (si_start other) (ext_data <$> es2) (sum_list_with (λ e, length e.2) es2)) as Hc.
  { apply file_extents_chain; [|lia|done]. eapply file_extents_frame; [exact Hes2|].
    intros m [H1 H2]%Hapart. by apply Hfr. }
  unfold file_data in *. pose proof (zlen_nonneg (concat (ext_data <$> es2))).
  rewrite (spfs_read_all d' (ext_data <$> es2) (sum_list_with (λ e, length e.2) es2) fuel' in_len r')
    by (done || cbn [f_ppos]; lia).
  cbn [f_ppos f_tree f_inode f_user]. by rewrite Z.sub_0_r, Z.max_r, drop_0 by lia.
Qed.
End outcome.

(** ** Concrete inputs *)
(** A full extent at block 5, its successor [next], and one with 16 bytes at block 8 *)
Definition two_blocks (next : Z) : list (list byte) :=
  [header_bytes (FileExtent next 2 48) ++ replicate 16 x01; replicate 32 x02].
Definition last_blocks : list (list byte) :=
  [header_bytes (FileExtent 0 2 16) ++ replicate 16 x03; zeros 32].
Definition files_dev (next : Z) : memdev :=
  MemDev 32 (list_to_map (zip [3; 4; 5; 6; 8; 9] ([zeros 32; zeros 32] ++ two_blocks next ++ last_blocks))) ∅.
Definition files_st (next capacity size : Z) : file_st memdev :=
  FileSt (BtreeSt (Bufs (files_dev next) 0) (FreeList false 2 [FreeNode 3 2]) (Btree false 32 1 0))
    (example_file_inode capacity size 5) [] size.

Lemma files_dev_last next : file_extents (files_dev next) 8 [(8, last_blocks)].
Proof.
  apply file_extents_cons; [lia|by vm_compute|by apply run_at_checked; vm_compute|by vm_compute..|].
  change (fe_next _) with 0. constructor.
Qed.

Lemma files_dev_two : file_extents (files_dev 8) 5 [(5, two_blocks 8); (8, last_blocks)].
Proof.
  apply file_extents_cons; [lia|by vm_compute|by apply run_at_checked; vm_compute|by vm_compute..|].
  change (fe_next _) with 8. apply files_dev_last.
Qed.

Lemma two_apart next : apart [(5, two_blocks next); (8, last_blocks)].
Proof.
  repeat constructor. intros m. unfold in_extent. change (zlen _) with 2. cbn. lia.
Qed.
Lemma files_st_free next capacity size x : free_in x (t_free (f_tree (files_st next capacity size))) → 3 ≤ x < 5.
Proof.
  unfold free_in. cbn [files_st f_tree t_free fl_root]. rewrite Exists_cons, Exists_nil. unfold in_node. cbn. lia.
Qed.

(** Behind the data of the second extent there is room; the start of the file is in the
    first block of the first. *)
Lemma write_outcome_witness :
  (∃ s', spfs_write 9 zeros (example_file_inode 0 0 0) false 32 [x09] (files_st 8 96 64) = Ok 0 s') ∧
  (∃ s', spfs_write 9 zeros (example_file_inode 0 0 0) false 32 [x09] (files_st 8 96 60) = Err (-EIO) s').
Proof.
  split.
  - destruct (write_outcome (files_dev 8) [(5, two_blocks 8); (8, last_blocks)] 32 [x09] 9 zeros
      (example_file_inode 0 0 0) false 0 (files_st 8 96 64)) as (es' & d' & _ & _ & E & _);
      [done|done|exact files_dev_two|apply two_apart|eval_side..|].
    eexists. exact E.
  - destruct (write_outcome (files_dev 8) [(5, two_blocks 8); (8, last_blocks)] 32 [x09] 9 zeros
      (example_file_inode 0 0 0) false 0 (files_st 8 96 60)) as (es' & d' & _ & _ & E & _);
      [done|done|exact files_dev_two|apply two_apart|eval_side..|].
    eexists. exact E.
Defined.

(** The file at block 8 has 16 bytes; two are written at position 7. *)
Lemma write_goes_to_start_witness :
  ∃ s', spfs_write 9 zeros (example_file_inode 0 0 0) false 32 [x09; x0a]
      (FileSt (f_tree (files_st 0 0 0)) (example_file_inode 48 0 8) [] 7) = Err (-EIO) s' ∧
    ∃ s'', spfs_read 9 100 (FileSt (f_tree s') (example_file_inode 48 0 8) [] 0) = Ok 18 s'' ∧
      f_user s'' = [x09; x0a] ++ replicate 14 x03 ++ [x00; x00].
Proof.
  destruct (write_goes_to_start (files_dev 0) (8, last_blocks) [] 32 [x09; x0a] 9 zeros
    (example_file_inode 0 0 0) false 0 (FileSt (f_tree (files_st 0 0 0)) (example_file_inode 48 0 8) [] 7))
    as (s' & E & _ & H); [done|done|done|done|exact (files_dev_last 0)|repeat constructor|try eval_side..|done|].
  exists s'. split; [exact E|]. eexists. split; [apply H; [done|done|cbn; lia|by vm_compute]|reflexivity].
Defined.

(** The file at block 5 gets a new extent, its write fails, and the file at block 8 is read. *)
Lemma write_spares_others_witness :
  ∃ s', spfs_write 99 zeros (example_file_inode 0 0 0) false 32 [x09] (files_st 0 48 48) = Err 1 s' ∧
    ∃ s'', spfs_read 9 100 (FileSt (f_tree s') (example_file_inode 48 16 8) [] 0) = Ok 16 s''.
Proof.
  assert (match spfs_write 99 zeros (example_file_inode 0 0 0) false 32 [x09] (files_st 0 48 48) with
          | Err n _ => bool_decide (n = 1) | _ => false end = true) as Hw by by vm_compute.
  destruct (spfs_write _ _ _ _ _ _ _) as [?|n s'|?] eqn:E; [done| |done].
  apply bool_decide_eq_true in Hw as ->. exists s'. split; [done|]. eexists.
  apply (write_spares_others (files_dev 0) [(5, two_blocks 0)] [(8, last_blocks)] 32 [x09] 99 zeros
    (example_file_inode 0 0 0) false 0 (files_st 0 48 48) (example_file_inode 48 16 8) 1 s');
    [done| | |eval_side|done|done|done|done|done|done|done|by left|done| | |done| |done|apply files_dev_last| | |by right|eval_side|done|done].
  - apply file_extents_cons; [lia|by vm_compute|by apply run_at_checked; vm_compute|by vm_compute..|].
    change (fe_next _) with 0. constructor.
  - repeat constructor.
  - intros Hx%files_st_free. cbn in Hx. lia.
  - split; [repeat constructor; eval_side|repeat constructor|done|done].
  - intros x Hx%files_st_free. assert (x = 3 ∨ x = 4) as [-> | ->] by lia; vm_compute; eauto.
  - repeat constructor. by vm_compute.
  - intros m Hm. assert (8 ≤ m < 10) as Hm' by (inversion Hm as [? ? Hi|? ? Hi]; [exact Hi|inversion Hi]).
    split; [|by intros Hx%files_st_free; lia].
    intros Hm2. inversion Hm2 as [? ? Hi|? ? Hi]; [|inversion Hi]. unfold in_extent in Hi.
    change (zlen _) with 2 in Hi. cbn in Hi. lia.
Defined.
