(* ===== verification/Super.v ===== *)
(** * sp.c, the super block

    [spfs_super_block] is [struct spfs_super_block] without the tree and the free list,
    which are in [btree_st].  The super block is read with the initial block size of
    512 bytes; the block size it records is then set. *)
From S2P Require Import Prelude Util Buffers.

Definition SPOOKY_FS_INITIAL_BLOCK_SIZE : Z := 512.

Record spfs_super_block := SuperBlock {
  sb_version : Z;
  sb_magic : Z;
  sb_block_size : Z;
  sb_btree_offset : Z;
  sb_free_list_offset : Z;
  sb_id : Z;
  sb_id_lock : bool;
  sb_root_id : Z;
}.

Definition spfs_read_super_block : M cursor spfs_super_block :=
  magic ← or_err (-EINVAL) spfs_sb_read_u32;
  version ← or_err (-EINVAL) spfs_sb_read_u32;
  block_size ← or_err (-EINVAL) spfs_sb_read_u32;
  id ← or_err (-EINVAL) spfs_sb_read_ino;
  root_id ← or_err (-EINVAL) spfs_sb_read_ino;
  btree_offset ← or_err (-EINVAL) spfs_sb_read_sector;
  free_list_offset ← or_err (-EINVAL) spfs_sb_read_sector;
  mret (SuperBlock version magic block_size btree_offset free_list_offset id false root_id).

Section super.
Context {D : Type} {B : BufferCache D}.

Definition spfs_super_block_init (start : Z) : M (bufs D) spfs_super_block :=
  ok ← sb_bread start;
  if negb ok then err (-EIO)
  else
    r ← catch (in_bh start 0 spfs_read_super_block);
    match r with
    | inl res => brelse start;; err res
    | inr (super, _) =>
        if bool_decide (sb_magic super ≠ SPFS_MAGIC) then brelse start;; err (-EINVAL)
        else if bool_decide (sb_block_size super < SPOOKY_FS_INITIAL_BLOCK_SIZE)
        then brelse start;; err (-EINVAL)
        else brelse start;; mret super
    end.
End super.

(** ** Specification: the super block at the start of a block *)
Definition SUPER_BYTES : Z := 28.

Definition super_of_block (b : list byte) : spfs_super_block :=
  SuperBlock (be_combine (sub 4 4 b)) (be_combine (sub 0 4 b)) (be_combine (sub 8 4 b))
    (be_combine (sub 20 4 b)) (be_combine (sub 24 4 b)) (be_combine (sub 12 4 b)) false
    (be_combine (sub 16 4 b)).

(** The super block is one of spfs, with a block size the driver takes. *)
Definition good_super (b : list byte) : Prop :=
  sb_magic (super_of_block b) = SPFS_MAGIC ∧
  SPOOKY_FS_INITIAL_BLOCK_SIZE ≤ sb_block_size (super_of_block b).
#[export] Instance good_super_dec b : Decision (good_super b).
Proof. unfold good_super. apply _. Defined.

Lemma spfs_read_super_block_eq b :
  32 ≤ zlen b → spfs_read_super_block (Cursor b 0) = Ok (super_of_block b) (Cursor b SUPER_BYTES).
Proof. intros. unfold spfs_read_super_block. do 7 codec_ok. done. Qed.

Section super_facts.
Context {D : Type} {B : BufferCache D}.

Lemma spfs_super_block_init_eq n (s : bufs D) b :
  bc_data (b_dev s) n = Some b → 32 ≤ zlen b →
  spfs_super_block_init n s =
    if bool_decide (good_super b) then Ok (super_of_block b) s else Err (-EINVAL) s.
Proof using.
  intros Hb Hl. unfold spfs_super_block_init, good_super. pose proof (sb_bread_ok n s b Hb) as E1. exec E1.
  cbn [negb].
  pose proof (in_bh_ok n 0 _ (Bufs (b_dev s) (b_refs s + 1)) b _ _ Hb (spfs_read_super_block_eq b Hl))
    as E2. exec E2. clear E1 E2.
  assert (Hs : Bufs (b_dev s) (b_refs s + 1 - 1) = s) by (destruct s; cbn; f_equal; lia).
  set (m := sb_magic _). set (z := sb_block_size _).
  destruct (decide (m = SPFS_MAGIC)) as [Hm|Hm]; [destruct (decide (SPOOKY_FS_INITIAL_BLOCK_SIZE ≤ z))|].
  - rewrite (bool_decide_eq_false_2 (m ≠ _)), (bool_decide_eq_false_2 (z < _)),
      bool_decide_eq_true_2 by (done || lia || naive_solver).
    erewrite bind_ok by done. cbn [b_dev b_refs]. by rewrite Hs.
  - rewrite (bool_decide_eq_false_2 (m ≠ _)), (bool_decide_eq_true_2 (z < _)),
      bool_decide_eq_false_2 by (lia || naive_solver).
    erewrite bind_ok by done. cbn [b_dev b_refs]. by rewrite Hs.
  - rewrite (bool_decide_eq_true_2 (m ≠ _)), bool_decide_eq_false_2 by naive_solver.
    erewrite bind_ok by done. cbn [b_dev b_refs]. by rewrite Hs.
Qed.
End super_facts.
