(* ===== verification/Vfs.v ===== *)
(** * sp.c, in-core inodes: [spfs_new_inode], [spfs_inode_by_id], [spfs_generic_create],
    [spfs_write_inode]

    The kernel's inode cache and dentries are not part of the repository: they enter
    as the class [Kernel], with what the driver relies on as [KernelLaws].  A pointer to
    an in-core inode is identified with its inode number, since the cache holds one
    object per number: all users of a number share it, its mutex included.

    [vfs_st] is a mounted file system: tree, free list and buffer cache ([v_fs]), the
    super block, the inode cache, and the operations table chosen for each inode. *)
From S2P Require Import Prelude Util Buffers FreeList Inode Bnode Btree Super.

Record dentry := Dentry { d_name : list byte; d_inode : option Z }.

Class Kernel (K : Type) := {
  (** contents of, and stores to, the in-core inode of a number *)
  k_inode : K → Z → spfs_inode;
  k_set_inode : K → Z → spfs_inode → K;
  (** is the number in the cache? *)
  k_cached : K → Z → bool;
  (** [iget_locked]: [None] without memory, otherwise with "[I_NEW] is set" *)
  k_iget_locked : K → Z → option (bool * K);
  k_unlock_new_inode : K → Z → K;
  k_iget_failed : K → Z → K;
  k_mark_inode_dirty : K → Z → K;
  (** [inode_init_owner(inode, dir, mode)], [inc_nlink], [current_time] *)
  k_inode_init_owner : K → inode → inode → Z → inode;
  k_inc_nlink : inode → inode;
  k_current_time : K → Z;
  (** [d_instantiate], [d_add] *)
  k_d_instantiate : dentry → Z → dentry;
  k_d_add : dentry → Z → dentry;
}.

Class KernelLaws (K : Type) {KK : Kernel K} : Prop := {
  k_inode_set : ∀ k n i, k_inode (k_set_inode k n i) n = i;
  k_inode_set_ne : ∀ k n m i, n ≠ m → k_inode (k_set_inode k n i) m = k_inode k m;
  k_cached_set : ∀ k n i m, k_cached (k_set_inode k n i) m = k_cached k m;
  k_iget_hit : ∀ k n, k_cached k n = true → k_iget_locked k n = Some (false, k);
  k_iget_miss : ∀ k n new k', k_cached k n = false → k_iget_locked k n = Some (new, k') →
    new = true ∧ k_cached k' n = true ∧ i_ino (i_inode (k_inode k' n)) = n ∧
    ∀ m, m ≠ n → k_inode k' m = k_inode k m ∧ k_cached k' m = k_cached k m;
  k_inode_unlock_new : ∀ k n m, k_inode (k_unlock_new_inode k n) m = k_inode k m;
  k_cached_unlock_new : ∀ k n m, k_cached (k_unlock_new_inode k n) m = k_cached k m;
  k_cached_failed : ∀ k n, k_cached (k_iget_failed k n) n = false;
  k_inode_failed_ne : ∀ k n m, n ≠ m →
    k_inode (k_iget_failed k n) m = k_inode k m ∧ k_cached (k_iget_failed k n) m = k_cached k m;
  k_inode_dirty : ∀ k n m, k_inode (k_mark_inode_dirty k n) m = k_inode k m;
  k_cached_dirty : ∀ k n m, k_cached (k_mark_inode_dirty k n) m = k_cached k m;
  k_init_owner_ino : ∀ k i dir mode, i_ino (k_inode_init_owner k i dir mode) = i_ino i;
  k_init_owner_fmt : ∀ k i dir mode,
    Z.land (i_mode (k_inode_init_owner k i dir mode)) 0xF000 = Z.land mode 0xF000;
  k_inc_nlink_ino : ∀ i, i_ino (k_inc_nlink i) = i_ino i;
  k_inc_nlink_mode : ∀ i, i_mode (k_inc_nlink i) = i_mode i;
  k_init_owner_size : ∀ k i dir mode, i_size (k_inode_init_owner k i dir mode) = i_size i;
  k_inc_nlink_size : ∀ i, i_size (k_inc_nlink i) = i_size i;
  k_d_instantiate_inode : ∀ d n, d_inode (k_d_instantiate d n) = Some n;
}.

(** [IS_ERR] pointers, NULL, and the in-core inode of a number *)
Inductive inode_ptr :=
| PErr (e : Z)
| PNull
| PInode (n : Z).

Inductive spfs_fops := spfs_file_ops | spfs_dir_ops.

(** Fuel for the loops, and the stack memory the tree functions read uninitialised *)
Record env := Env { e_fuel : nat; e_frame : Z → list byte; e_cur0 : spfs_inode }.

Record vfs_st (D K : Type) := VfsSt {
  v_fs : btree_st D;
  v_sbi : spfs_super_block;
  v_cache : K;
  v_fops : gmap Z spfs_fops;
}.
Arguments VfsSt {D K} _ _ _ _.
Arguments v_fs {D K} _.
Arguments v_sbi {D K} _.
Arguments v_cache {D K} _.
Arguments v_fops {D K} _.

Section vfs.
Context {D K : Type} {B : BufferCache D} {KK : Kernel K}.
Abbreviation VM := (M (vfs_st D K)).

Definition v_fs_lens : lens (vfs_st D K) (btree_st D) :=
  Lens v_fs (λ x s, VfsSt x (v_sbi s) (v_cache s) (v_fops s)).
Definition v_sbi_lens : lens (vfs_st D K) spfs_super_block :=
  Lens v_sbi (λ x s, VfsSt (v_fs s) x (v_cache s) (v_fops s)).
Definition v_cache_lens : lens (vfs_st D K) K :=
  Lens v_cache (λ x s, VfsSt (v_fs s) (v_sbi s) x (v_fops s)).
Definition v_fops_lens : lens (vfs_st D K) (gmap Z spfs_fops) :=
  Lens v_fops (λ x s, VfsSt (v_fs s) (v_sbi s) (v_cache s) x).
Definition v_bufs_lens : lens (vfs_st D K) (bufs D) :=
  Lens (λ s, t_bufs (v_fs s)) (λ b s, lset v_fs_lens (lset t_bufs_lens b (v_fs s)) s).

Definition set_tree_lock (b : bool) (t : spfs_btree) : spfs_btree :=
  Btree b (bt_block_size t) (bt_blocks t) (bt_start t).
Definition v_tree_lock : lens (vfs_st D K) bool :=
  Lens (λ s, bt_lock (t_tree (v_fs s)))
       (λ b s, lset v_fs_lens (lset t_tree_lens (set_tree_lock b (t_tree (v_fs s))) (v_fs s)) s).

Definition set_id (id : Z) (s : spfs_super_block) : spfs_super_block :=
  SuperBlock (sb_version s) (sb_magic s) (sb_block_size s) (sb_btree_offset s)
    (sb_free_list_offset s) id (sb_id_lock s) (sb_root_id s).
Definition set_id_lock (b : bool) (s : spfs_super_block) : spfs_super_block :=
  SuperBlock (sb_version s) (sb_magic s) (sb_block_size s) (sb_btree_offset s)
    (sb_free_list_offset s) (sb_id s) b (sb_root_id s).
Definition v_id_lock : lens (vfs_st D K) bool :=
  Lens (λ s, sb_id_lock (v_sbi s)) (λ b s, lset v_sbi_lens (set_id_lock b (v_sbi s)) s).

(** Stores through, and loads from, the in-core inode [n], and its mutex *)
Definition get_inode (n : Z) : VM spfs_inode := gets (λ s, k_inode (v_cache s) n).
Definition upd_inode (n : Z) (f : spfs_inode → spfs_inode) : VM unit :=
  zoom v_cache_lens (modify (λ k, k_set_inode k n (f (k_inode k n)))).
Definition v_lock (n : Z) : lens (vfs_st D K) bool :=
  Lens (λ s, si_lock (k_inode (v_cache s) n))
       (λ b s, lset v_cache_lens
          (k_set_inode (v_cache s) n (set_lock b (k_inode (v_cache s) n))) s).

Definition iget_locked (n : Z) : VM (option bool) := λ s,
  match k_iget_locked (v_cache s) n with
  | None => Ok None s
  | Some (new, k) => Ok (Some new) (lset v_cache_lens k s)
  end.
Definition unlock_new_inode (n : Z) : VM unit :=
  zoom v_cache_lens (modify (λ k, k_unlock_new_inode k n)).
Definition iget_failed (n : Z) : VM unit :=
  zoom v_cache_lens (modify (λ k, k_iget_failed k n)).
Definition mark_inode_dirty (n : Z) : VM unit :=
  zoom v_cache_lens (modify (λ k, k_mark_inode_dirty k n)).

Definition spfs_setup_inode_fp (n : Z) : VM unit :=
  i ← get_inode n;
  let mode := i_mode (i_inode i) in
  if S_ISREG mode then zoom v_fops_lens (modify <[n := spfs_file_ops]>)
  else if S_ISDIR mode then
    zoom v_fops_lens (modify <[n := spfs_dir_ops]>);;
    upd_inode n (λ i, set_inode (k_inc_nlink (i_inode i)) i)
  else crashes BugOn.

Definition spfs_new_inode (parent : option Z) (mode : Z) : VM inode_ptr :=
  mutex_lock v_id_lock;;
  needle ← gets (λ s, sb_id (v_sbi s));
  zoom v_sbi_lens (modify (λ sb, set_id (u64 (sb_id sb + 1)) sb));;
  mutex_unlock v_id_lock;;
  r ← iget_locked needle;
  match r with
  | None => mret (PErr (-ENOMEM))
  | Some true =>
      (match parent with
       | Some p =>
           dir ← get_inode p;
           k ← gets v_cache;
           upd_inode needle (λ i, set_inode (k_inode_init_owner k (i_inode i) (i_inode dir) mode) i)
       | None => upd_inode needle (λ i, set_inode (set_mode mode (i_inode i)) i)
       end);;
      now ← gets (λ s, k_current_time (v_cache s));
      upd_inode needle (λ i, set_inode (set_times now (i_inode i)) i);;
      spfs_setup_inode_fp needle;;
      unlock_new_inode needle;;
      mret (PInode needle)
  | Some false => iget_failed needle;; mret (PErr (-ENOMEM))
  end.

(** [spfs_btree_lookup] copies the record over the whole in-core inode. *)
Definition spfs_inode_by_id (e : env) (needle : Z) : VM inode_ptr :=
  r ← iget_locked needle;
  match r with
  | None => mret (PErr (-ENOMEM))
  | Some false => mret (PInode needle)
  | Some true =>
      mutex_lock v_tree_lock;;
      dest ← get_inode needle;
      res ← catch (zoom v_fs_lens (spfs_btree_lookup (e_fuel e) (e_frame e) (e_cur0 e) needle dest));
      mutex_unlock v_tree_lock;;
      match res with
      | inl _ => iget_failed needle;; mret PNull
      | inr result =>
          upd_inode needle (λ _, result);;
          spfs_setup_inode_fp needle;;
          unlock_new_inode needle;;
          mret (PInode needle)
      end
  end.

(** The result is the dentry; storing the name through an error pointer is fatal. *)
Definition spfs_generic_create (e : env) (parent : Z) (subject : dentry) (mode : Z) : VM dentry :=
  let name := d_name subject in
  if bool_decide (SPOOKY_FS_NAME_MAX < zlen name) then err (-ENAMETOOLONG)
  else
    inode ← spfs_new_inode (Some parent) mode;
    match inode with
    | PNull => err (-ENOENT)
    | PErr _ => crashes OutOfBounds
    | PInode n =>
        upd_inode n (set_name (splice 0 name (zeros SPOOKY_FS_NAME_MAX)));;
        mutex_lock v_tree_lock;;
        inode ← get_inode n;
        res ← catch (zoom v_fs_lens (spfs_btree_insert (e_fuel e) (e_frame e) inode));
        mutex_unlock v_tree_lock;;
        match res with
        | inl res => err res
        | inr _ =>
            let subject := k_d_instantiate subject n in
            BUG_ON (bool_decide (d_inode subject ≠ Some n));;
            mret subject
        end
    end.

(** ** Write-back: the record is marked dirty as it is *)
Definition spfs_mod_inode_cb : btree_modify_cb (D := D) Z := λ closure entry,
  mret (true, closure, entry).

Definition spfs_write_inode (e : env) (n : Z) : VM unit :=
  inode ← get_inode n;
  mutex_lock v_tree_lock;;
  res ← catch (zoom v_fs_lens
          (spfs_btree_modify (e_fuel e) (e_frame e) (e_cur0 e) (i_ino (i_inode inode)) n
             spfs_mod_inode_cb));
  mutex_unlock v_tree_lock;;
  match res with inl res => err res | inr _ => mret tt end.
End vfs.

(** ** Creating in-core inodes *)
Section vfs_facts.
Context {D K : Type} {B : BufferCache D} {L : BufferCacheLaws D} {KK : Kernel K} {KL : KernelLaws K}.
Implicit Types (s : vfs_st D K) (k : K).

(** [k'] is [k] but for inode [n], which is in the cache with contents [i]. *)
Definition cache_upd k n (i : spfs_inode) k' : Prop :=
  k_inode k' n = i ∧ k_cached k' n = true ∧
  ∀ m, m ≠ n → k_inode k' m = k_inode k m ∧ k_cached k' m = k_cached k m.

Lemma cache_upd_set k n i k' f :
  cache_upd k n i k' → cache_upd k n (f i) (k_set_inode k' n (f (k_inode k' n))).
Proof using KL.
  intros (H1 & H2 & H3). split_and!.
  - by rewrite k_inode_set, H1.
  - by rewrite k_cached_set.
  - intros m Hm. rewrite k_inode_set_ne, k_cached_set by done. by apply H3.
Qed.

Lemma cache_upd_unlock_new k n i k' : cache_upd k n i k' → cache_upd k n i (k_unlock_new_inode k' n).
Proof using KL.
  intros (H1 & H2 & H3). unfold cache_upd. setoid_rewrite k_inode_unlock_new.
  setoid_rewrite k_cached_unlock_new. by split_and!.
Qed.

Lemma cache_upd_miss k n new k' :
  k_cached k n = false → k_iget_locked k n = Some (new, k') →
  new = true ∧ cache_upd k n (k_inode k' n) k' ∧ i_ino (i_inode (k_inode k' n)) = n.
Proof using KL.
  intros H1 H2. destruct (k_iget_miss k n new k' H1 H2) as (? & ? & ? & ?).
  unfold cache_upd. by split_and!.
Qed.

(** The file operations [spfs_setup_inode_fp] selects, and its effect on the inode *)
Definition fops_of (mode : Z) : spfs_fops := if S_ISREG mode then spfs_file_ops else spfs_dir_ops.
Definition setup_inode (i : spfs_inode) : spfs_inode :=
  if S_ISREG (i_mode (i_inode i)) then i else set_inode (k_inc_nlink (i_inode i)) i.

Lemma setup_inode_fp_ok n s i k0 :
  cache_upd k0 n i (v_cache s) → S_ISREG (i_mode (i_inode i)) || S_ISDIR (i_mode (i_inode i)) = true →
  ∃ k', spfs_setup_inode_fp n s =
      Ok tt (VfsSt (v_fs s) (v_sbi s) k' (<[n := fops_of (i_mode (i_inode i))]> (v_fops s))) ∧
    cache_upd k0 n (setup_inode i) k'.
Proof using KL.
  intros Hk Hm. pose proof Hk as (Hi & _). unfold spfs_setup_inode_fp.
  erewrite bind_ok by done. rewrite Hi. unfold fops_of, setup_inode.
  destruct (S_ISREG (i_mode (i_inode i))); cbn [orb] in Hm.
  - eexists. split; [reflexivity|done].
  - rewrite Hm. erewrite bind_ok by done. eexists. split; [reflexivity|]. cbn.
    by apply (cache_upd_set k0 n i (v_cache s) (λ i, set_inode (k_inc_nlink (i_inode i)) i)).
Qed.

Lemma S_ISREG_fmt m m' : Z.land m 0xF000 = Z.land m' 0xF000 → S_ISREG m = S_ISREG m'.
Proof using. unfold S_ISREG. by intros ->. Qed.
Lemma S_ISDIR_fmt m m' : Z.land m 0xF000 = Z.land m' 0xF000 → S_ISDIR m = S_ISDIR m'.
Proof using. unfold S_ISDIR. by intros ->. Qed.

(** The inode [spfs_new_inode] makes of the blank one [i] *)
Definition owned (k : K) (dir : option spfs_inode) (mode : Z) (n : inode) : inode :=
  match dir with
  | Some dir => k_inode_init_owner k n (i_inode dir) mode
  | None => set_mode mode n
  end.
Definition fresh_inode (k : K) (now : Z) (dir : option spfs_inode) (mode : Z) (i : spfs_inode) :
    spfs_inode :=
  setup_inode (set_inode (set_times now (owned k dir mode (i_inode i))) i).

Lemma owned_fmt k dir mode n : Z.land (i_mode (owned k dir mode n)) 0xF000 = Z.land mode 0xF000.
Proof using KL. destruct dir; [apply k_init_owner_fmt|done]. Qed.

(** The part of [spfs_new_inode] behind [inode_init_owner] *)
Lemma new_inode_finish k0 k1 n dir mode s :
  cache_upd k0 n (set_inode (owned k1 dir mode (i_inode (k_inode k1 n))) (k_inode k1 n)) (v_cache s) →
  S_ISREG mode || S_ISDIR mode = true →
  ∃ k' now,
    (now ← gets (λ s, k_current_time (v_cache s));
     upd_inode n (λ i, set_inode (set_times now (i_inode i)) i);;
     spfs_setup_inode_fp n;;
     unlock_new_inode n;;
     mret (PInode n)) s =
      Ok (PInode n) (VfsSt (v_fs s) (v_sbi s) k' (<[n := fops_of mode]> (v_fops s))) ∧
    cache_upd k0 n (fresh_inode k1 now dir mode (k_inode k1 n)) k'.
Proof using KL.
  intros Hupd2 Hm. do 2 erewrite bind_ok by done.
  cbn [lset lget v_cache_lens v_fs v_sbi v_fops v_cache]. set (now := k_current_time (v_cache s)) in *.
  pose proof (cache_upd_set _ _ _ _ (λ i, set_inode (set_times now (i_inode i)) i) Hupd2) as Hupd3.
  cbv beta in Hupd3. set (k3 := k_set_inode (v_cache s) n _) in *.
  set (i3 := set_inode (set_times _ _) _) in Hupd3.
  assert (Hfmt : Z.land (i_mode (i_inode i3)) 0xF000 = Z.land mode 0xF000)
    by apply (owned_fmt k1 dir mode (i_inode (k_inode k1 n))).
  edestruct (setup_inode_fp_ok n (VfsSt (v_fs s) (v_sbi s) k3 (v_fops s)) i3)
    as (k4 & E4 & Hupd4); [exact Hupd3| |].
  { by rewrite (S_ISREG_fmt _ _ Hfmt), (S_ISDIR_fmt _ _ Hfmt). }
  exec E4. erewrite bind_ok by done.
  cbn [lset lget v_cache_lens v_fs v_sbi v_fops v_cache].
  eexists _, now. split; [|by apply cache_upd_unlock_new, Hupd4].
  unfold fops_of. by rewrite (S_ISREG_fmt _ _ Hfmt).
Qed.

Lemma spfs_new_inode_ok parent mode s id k1 :
  id = sb_id (v_sbi s) → sb_id_lock (v_sbi s) = false → parent ≠ Some id →
  k_cached (v_cache s) id = false →
  k_iget_locked (v_cache s) id = Some (true, k1) → S_ISREG mode || S_ISDIR mode = true →
  ∃ k' now, spfs_new_inode parent mode s =
      Ok (PInode id) (VfsSt (v_fs s) (set_id (u64 (id + 1)) (v_sbi s)) k'
                        (<[id := fops_of mode]> (v_fops s))) ∧
    cache_upd (v_cache s) id
      (fresh_inode k1 now (k_inode (v_cache s) <$> parent) mode (k_inode k1 id)) k'.
Proof using KL.
  intros -> Hlock Hp Hc Hk Hm. set (id := sb_id (v_sbi s)) in *.
  destruct (cache_upd_miss _ _ _ _ Hc Hk) as (_ & Hupd & _).
  unfold spfs_new_inode, mutex_lock. erewrite bind_ok by (cbn [lget v_id_lock]; by rewrite Hlock).
  do 3 erewrite bind_ok by done. cbn [lset lget v_id_lock v_sbi_lens v_sbi v_fs v_cache v_fops].
  assert (Hsb : set_id_lock false (set_id (u64 (sb_id (set_id_lock true (v_sbi s)) + 1))
                  (set_id_lock true (v_sbi s))) = set_id (u64 (id + 1)) (v_sbi s)).
  { unfold id. destruct (v_sbi s). cbn in *. by rewrite Hlock. }
  rewrite Hsb. change (sb_id (set_id_lock true (v_sbi s))) with id.
  erewrite bind_ok; cycle 1.
  { unfold iget_locked. cbn [v_cache]. rewrite Hk. reflexivity. }
  cbn [lset v_cache_lens v_fs v_sbi v_fops].
  pose proof (cache_upd_set _ _ _ _ (λ i, set_inode (owned k1 (k_inode (v_cache s) <$> parent) mode
                (i_inode i)) i) Hupd) as Hupd2. cbv beta in Hupd2.
  destruct parent as [p|]; cbn [fmap option_fmap option_map owned] in *.
  - pose proof Hupd as (_ & _ & Hne). destruct (Hne p ltac:(congruence)) as [Hpp _].
    erewrite bind_ok by (do 2 erewrite bind_ok by done; reflexivity).
    cbn [lset lget v_cache_lens v_fs v_sbi v_fops v_cache]. rewrite Hpp.
    by eapply (new_inode_finish (v_cache s) k1 id (Some (k_inode (v_cache s) p)) mode (VfsSt _ _ _ _)).
  - erewrite bind_ok by reflexivity. cbn [lset lget v_cache_lens v_fs v_sbi v_fops v_cache].
    by eapply (new_inode_finish (v_cache s) k1 id None mode (VfsSt _ _ _ _)).
Qed.

(** ** Finding in-core inodes *)
Lemma inode_by_id_cached e n s :
  k_cached (v_cache s) n = true → spfs_inode_by_id e n s = Ok (PInode n) s.
Proof using KL.
  intros Hc. unfold spfs_inode_by_id. erewrite bind_ok; cycle 1.
  { unfold iget_locked. rewrite (k_iget_hit _ _ Hc). reflexivity. }
  by destruct s.
Qed.

(** The state after a search that failed: the number is not in the cache. *)
Lemma inode_by_id_barren fuel frame cur0 n s k1 :
  k_cached (v_cache s) n = false → k_iget_locked (v_cache s) n = Some (true, k1) →
  tree_barren (v_fs s) → bt_lock (t_tree (v_fs s)) = false →
  spfs_inode_by_id (Env (S (S fuel)) frame cur0) n s =
    Ok PNull (lset v_cache_lens (k_iget_failed k1 n) s).
Proof using KL.
  intros Hc Hk Hbar Hlock. unfold spfs_inode_by_id. erewrite bind_ok; cycle 1.
  { unfold iget_locked. rewrite Hk. reflexivity. }
  destruct s as [[bufs fl [tl tb tn root]] sbi cache fops]. cbn in Hlock. subst tl.
  erewrite bind_ok by done. erewrite bind_ok by done.
  cbn [e_fuel e_frame e_cur0]. erewrite bind_ok; cycle 1.
  { apply catch_err, zoom_err. unfold spfs_btree_lookup. apply modify_barren. exact Hbar. }
  do 2 erewrite bind_ok by done. done.
Qed.

(** ** Creating files *)
Lemma spfs_generic_create_start e p subject mode s k1 :
  let id := sb_id (v_sbi s) in
  zlen (d_name subject) ≤ SPOOKY_FS_NAME_MAX →
  sb_id_lock (v_sbi s) = false → bt_lock (t_tree (v_fs s)) = false →
  p ≠ id → k_cached (v_cache s) id = false →
  k_iget_locked (v_cache s) id = Some (true, k1) → S_ISREG mode || S_ISDIR mode = true →
  ∃ k' now,
    let i := set_name (splice 0 (d_name subject) (zeros SPOOKY_FS_NAME_MAX))
               (fresh_inode k1 now (Some (k_inode (v_cache s) p)) mode (k_inode k1 id)) in
    let s1 := VfsSt (lset t_tree_lens (set_tree_lock true (t_tree (v_fs s))) (v_fs s))
                (set_id (u64 (id + 1)) (v_sbi s)) k' (<[id := fops_of mode]> (v_fops s)) in
    cache_upd (v_cache s) id i k' ∧
    spfs_generic_create e p subject mode s =
      (res ← catch (zoom v_fs_lens (spfs_btree_insert (e_fuel e) (e_frame e) i));
       mutex_unlock v_tree_lock;;
       match res with
       | inl res => err res
       | inr _ => mret (k_d_instantiate subject id)
       end) s1.
Proof using KL.
  intros id Hname Hid Hlock Hp Hc Hk Hm.
  destruct (spfs_new_inode_ok (Some p) mode s id k1) as (k' & now & E & Hupd);
    [done|done|congruence|done..|].
  pose proof (cache_upd_set _ _ _ _
    (set_name (splice 0 (d_name subject) (zeros SPOOKY_FS_NAME_MAX))) Hupd) as Hupd2.
  eexists _, now. split; [exact Hupd2|]. unfold spfs_generic_create. decide_if. exec E.
  erewrite bind_ok by done. unfold mutex_lock.
  erewrite bind_ok by (cbn; by rewrite Hlock).
  erewrite bind_ok by done. cbn [v_cache lset v_tree_lock v_fs_lens v_cache_lens].
  pose proof Hupd2 as [-> _].
  unfold mbind, M_bind. destruct (catch _ _) as [[?|?]| |]; try done. cbn.
  unfold BUG_ON. rewrite k_d_instantiate_inode. rewrite bool_decide_eq_false_2 by naive_solver. done.
Qed.

Lemma fresh_inode_rest k now dir mode i :
  let i' := fresh_inode k now dir mode i in
  i_mode (i_inode i') = i_mode (owned k dir mode (i_inode i)) ∧
  si_lock i' = si_lock i ∧ si_start i' = si_start i ∧ si_capacity i' = si_capacity i.
Proof using KL.
  unfold fresh_inode, setup_inode. destruct (S_ISREG _); [done|]. cbn. by rewrite k_inc_nlink_mode.
Qed.

Lemma fresh_inode_ino k now dir mode i : i_ino (i_inode (fresh_inode k now dir mode i)) = i_ino (i_inode i).
Proof using KL.
  unfold fresh_inode, setup_inode, owned.
  destruct (S_ISREG _), dir; cbn; rewrite ?k_inc_nlink_ino; (apply k_init_owner_ino || done).
Qed.

Lemma fresh_inode_size k now dir mode i :
  i_size (i_inode (fresh_inode k now dir mode i)) = i_size (i_inode i).
Proof using KL.
  unfold fresh_inode, setup_inode, owned.
  destruct (S_ISREG _), dir; cbn; rewrite ?k_inc_nlink_size; (apply k_init_owner_size || done).
Qed.

(** A new inode gets the next number, which is then used up; its operations are
    those of its type, it is not in [I_NEW] state for anyone else to wait for, no other
    in-core inode changes, and neither the device nor the tree is touched.  Its first
    block, capacity and mutex are what the slab's memory held: nothing sets them. *)
Theorem new_inode_fresh p mode s k1 :
  let id := sb_id (v_sbi s) in
  sb_id_lock (v_sbi s) = false → p ≠ id → k_cached (v_cache s) id = false →
  k_iget_locked (v_cache s) id = Some (true, k1) → S_ISREG mode || S_ISDIR mode = true →
  ∃ s' i, spfs_new_inode (Some p) mode s = Ok (PInode id) s' ∧
    cache_upd (v_cache s) id i (v_cache s') ∧ i_ino (i_inode i) = id ∧
    (let i0 := k_inode k1 id in
     si_start i = si_start i0 ∧ si_capacity i = si_capacity i0 ∧ si_lock i = si_lock i0) ∧
    v_fs s' = v_fs s ∧ sb_id (v_sbi s') = u64 (id + 1) ∧ sb_id_lock (v_sbi s') = false ∧
    v_fops s' = <[id := if S_ISREG mode then spfs_file_ops else spfs_dir_ops]> (v_fops s).
Proof using KL.
  intros id Hlock Hp Hc Hk Hm.
  destruct (cache_upd_miss _ _ _ _ Hc Hk) as (_ & _ & Hino).
  destruct (spfs_new_inode_ok (Some p) mode s id k1) as (k' & now & E & Hupd);
    [done|done|congruence|done..|].
  eexists _, _. split; [exact E|]. split; [exact Hupd|]. split; [by rewrite fresh_inode_ino|].
  destruct (fresh_inode_rest k1 now (Some (k_inode (v_cache s) p)) mode (k_inode k1 id)) as (_ & ? & ? & ?).
  by repeat split.
Qed.

(** A file system with an empty tree and room for the first record and the root, on
    which inode [id] is not yet in the cache *)
Record create_ready (frame : Z → list byte) (p mode : Z) (k1 : K) (d : D) (r : Z) fl page fl1 root fl2
    (b0 bp : list byte) s : Prop := {
  cr_id_lock : sb_id_lock (v_sbi s) = false;
  cr_tree_lock : bt_lock (t_tree (v_fs s)) = false;
  cr_parent : p ≠ sb_id (v_sbi s);
  cr_uncached : k_cached (v_cache s) (sb_id (v_sbi s)) = false;
  cr_iget : k_iget_locked (v_cache s) (sb_id (v_sbi s)) = Some (true, k1);
  cr_mode : S_ISREG mode || S_ISDIR mode = true;
  cr_id : u32 (sb_id (v_sbi s)) ≠ 0;
  cr_fs : v_fs s = BtreeSt (Bufs d r) fl (t_tree (v_fs s));
  cr_start : bt_start (t_tree (v_fs s)) = 0;
  cr_page : spfs_free_alloc (bt_blocks (t_tree (v_fs s))) fl = Ok page fl1;
  cr_page_ne : page ≠ 0;
  cr_root : spfs_free_alloc (bt_blocks (t_tree (v_fs s))) fl1 = Ok root fl2;
  cr_root_ne : root ≠ 0;
  cr_data0 : bc_data d 0 = Some b0;
  cr_data_page : bc_data d page = Some bp;
  cr_bsize : NODE_BYTES ≤ bc_bsize d;
  cr_frame : zlen (frame SPOOKY_FS_NAME_MAX) = SPOOKY_FS_NAME_MAX;
}.

(** A new inode keeps of the memory it is in all that nothing sets. *)
Definition made_of (i0 : spfs_inode) (mode : Z) (i : spfs_inode) : Prop :=
  Z.land (i_mode (i_inode i)) 0xF000 = Z.land mode 0xF000 ∧
  si_lock i = si_lock i0 ∧ si_start i = si_start i0 ∧ si_capacity i = si_capacity i0 ∧
  i_size (i_inode i) = i_size (i_inode i0).

Lemma fresh_inode_made k now dir mode i : made_of i mode (fresh_inode k now dir mode i).
Proof using KL.
  destruct (fresh_inode_rest k now dir mode i) as (Hm & ? & ? & ?). split; [by rewrite Hm; apply owned_fmt|].
  split_and!; [done..|]. apply fresh_inode_size.
Qed.

Lemma generic_create_first fuel frame cur0 p subject mode s k1 d r fl page fl1 root fl2 b0 bp :
  let id := sb_id (v_sbi s) in
  zlen (d_name subject) ≤ SPOOKY_FS_NAME_MAX →
  create_ready frame p mode k1 d r fl page fl1 root fl2 b0 bp s →
  ∃ i s' d1 d2,
    spfs_generic_create (Env (S fuel) frame cur0) p subject mode s = Ok (k_d_instantiate subject id) s' ∧
    cache_upd (v_cache s) id i (v_cache s') ∧
    i_ino (i_inode i) = id ∧ si_name i = splice 0 (d_name subject) (zeros SPOOKY_FS_NAME_MAX) ∧
    v_fs s' = BtreeSt (Bufs d2 r) fl2 (set_start root (t_tree (v_fs s))) ∧
    dev_upd d page (splice 0 (inode_record frame i) bp) d1 ∧
    dev_upd d1 0 (new_root (bubble_make id page 0) 0 (bc_bsize d)) d2 ∧
    made_of (k_inode k1 id) mode i.
Proof using L KL.
  intros id Hname [Hid Hlock Hp Hc Hk Hm Hu Hs Hst Ep Hpg Er Hr H0 Hbp Hsz Hfr].
  fold id in Hp, Hc, Hk, Hu. set (t := t_tree (v_fs s)) in *.
  destruct (cache_upd_miss _ _ _ _ Hc Hk) as (_ & _ & Hino).
  edestruct (spfs_generic_create_start (Env (S fuel) frame cur0) p subject mode s k1)
    as (k' & now & Hupd & E); [done..|]. rewrite E. cbn [e_fuel e_frame]. clear E.
  set (i := set_name _ _) in *. assert (Hii : i_ino (i_inode i) = id).
  { change (i_inode i) with (i_inode (fresh_inode k1 now (Some (k_inode (v_cache s) p)) mode (k_inode k1 id))).
    by rewrite fresh_inode_ino. }
  rewrite Hs. cbn [lset t_tree_lens t_bufs t_free]. fold t.
  destruct (insert_first_ok fuel frame i d r fl (set_tree_lock true t) page fl1 root fl2 b0 bp)
    as (d1 & d2 & E & U1 & U2); [done..|by rewrite Hii|]. rewrite Hii in U2.
  erewrite bind_ok by (apply catch_ok, zoom_ok; exact E). erewrite bind_ok by done.
  eexists i, _, d1, d2. split; [reflexivity|]. split_and!; try done.
  - cbn. f_equal. clearbody t. destruct t. cbn in *. by rewrite Hlock.
  - by apply (fresh_inode_made k1 now (Some (k_inode (v_cache s) p)) mode (k_inode k1 id)).
Qed.

(** The first file of a file system is created: the dentry gets the new in-core
    inode, which has the name; the record on the device is at the first block
    allocated, with stack memory in place of the name; and block 0, the super block, is
    overwritten by the tree node. *)
Theorem create_first fuel frame cur0 p subject mode s k1 d r fl page fl1 root fl2 b0 bp :
  let id := sb_id (v_sbi s) in
  let t := t_tree (v_fs s) in
  zlen (d_name subject) ≤ SPOOKY_FS_NAME_MAX → sb_id_lock (v_sbi s) = false → bt_lock t = false →
  p ≠ id → k_cached (v_cache s) id = false → k_iget_locked (v_cache s) id = Some (true, k1) →
  S_ISREG mode || S_ISDIR mode = true → u32 id ≠ 0 →
  v_fs s = BtreeSt (Bufs d r) fl t → bt_start t = 0 →
  spfs_free_alloc (bt_blocks t) fl = Ok page fl1 → page ≠ 0 →
  spfs_free_alloc (bt_blocks t) fl1 = Ok root fl2 → root ≠ 0 →
  bc_data d 0 = Some b0 → bc_data d page = Some bp → NODE_BYTES ≤ bc_bsize d →
  zlen (frame SPOOKY_FS_NAME_MAX) = SPOOKY_FS_NAME_MAX →
  ∃ i s' d1 d2,
    spfs_generic_create (Env (S fuel) frame cur0) p subject mode s = Ok (k_d_instantiate subject id) s' ∧
    cache_upd (v_cache s) id i (v_cache s') ∧
    i_ino (i_inode i) = id ∧ si_name i = splice 0 (d_name subject) (zeros SPOOKY_FS_NAME_MAX) ∧
    v_fs s' = BtreeSt (Bufs d2 r) fl2 (set_start root t) ∧
    dev_upd d page (splice 0 (inode_record frame i) bp) d1 ∧
    dev_upd d1 0 (new_root (bubble_make id page 0) 0 (bc_bsize d)) d2.
Proof using L KL.
  intros id t Hname Hid Hlock Hp Hc Hk Hm Hu Hs Hst Ep Hpg Er Hr H0 Hbp Hsz Hfr.
  destruct (generic_create_first fuel frame cur0 p subject mode s k1 d r fl page fl1 root fl2 b0 bp Hname)
    as (i & s' & d1 & d2 & E & Hupd & Hino & Hnm & Hfs & U1 & U2 & _); [by constructor|].
  by exists i, s', d1, d2.
Qed.

(** On a file system whose tree has a root no file is created any more: the
    operation crashes, or returns 1 with the tree unlocked. *)
Theorem create_again_fails fuel frame cur0 p subject mode s k1 b :
  let id := sb_id (v_sbi s) in
  let root := bt_start (t_tree (v_fs s)) in
  zlen (d_name subject) ≤ SPOOKY_FS_NAME_MAX → sb_id_lock (v_sbi s) = false →
  bt_lock (t_tree (v_fs s)) = false →
  p ≠ id → k_cached (v_cache s) id = false → k_iget_locked (v_cache s) id = Some (true, k1) →
  S_ISREG mode || S_ISDIR mode = true →
  root ≠ 0 → bc_data (b_dev (t_bufs (v_fs s))) root = Some b → 4 ≤ zlen b → zlen b ≤ 2 ^ 40 →
  crashed (spfs_generic_create (Env (S fuel) frame cur0) p subject mode s) ∨
  ∃ s', spfs_generic_create (Env (S fuel) frame cur0) p subject mode s = Err 1 s' ∧
    bt_lock (t_tree (v_fs s')) = false.
Proof using L KL.
  intros id root Hname Hid Hlock Hp Hc Hk Hm Hr Hb Hsz Hsz'.
  edestruct (spfs_generic_create_start (Env (S fuel) frame cur0) p subject mode s k1)
    as (k' & now & Hupd & E); [done..|]. rewrite E. cbn [e_fuel e_frame]. clear E.
  set (i := set_name _ _) in *. set (s1 := VfsSt _ _ _ _).
  destruct (insert_existing fuel frame i (v_fs s1) b) as [(c & E)|(s2 & E)]; [done..| |].
  - left. exists c. apply bind_crash. unfold catch, zoom. cbn [lget v_fs_lens]. by rewrite E.
  - right. eexists. split.
    + erewrite bind_ok by (apply catch_err, zoom_err; exact E). by erewrite bind_ok by done.
    + done.
Qed.

(** C34: writing an inode back stores nothing of it.  The callback of [spfs_write_inode]
    reports a change without making one, so that the record is written as it was read,
    whatever the in-core inode holds; only the name on the device is replaced, by stack
    memory. *)
Theorem write_back_keeps_record frame cur0 off n (s : bufs D) b :
  off ≠ 0 → bc_data (b_dev s) off = Some b → INODE_BYTES ≤ zlen b →
  be_combine (sub 0 4 b) = SPFS_MAGIC → zlen (frame SPOOKY_FS_NAME_MAX) = SPOOKY_FS_NAME_MAX →
  ∃ d', btree_visit_entry frame cur0 off n spfs_mod_inode_cb s = Ok n (Bufs d' (b_refs s)) ∧
    dev_upd (b_dev s) off (splice 38 (frame SPOOKY_FS_NAME_MAX) b) d'.
Proof using L.
  intros Hoff Hb Hsz Hm Hf.
  destruct (btree_visit_entry_ok frame cur0 off n spfs_mod_inode_cb s b true n (inode_of_block cur0 b))
    as (d' & E & Hd); [done..|]. rewrite record_of_block in Hd by done. by exists d'.
Qed.
End vfs_facts.

(** ** A concrete inode cache: the inodes held in memory, files owned by root *)
Record memkernel := MemKernel { mk_inodes : gmap Z spfs_inode; mk_cache : gset Z; mk_time : Z }.

Definition blank_inode (n : Z) : spfs_inode :=
  SpfsInode (Inode n 0 0 0 0 0 0 0 1) false 0 0 (zeros SPOOKY_FS_NAME_MAX).

#[export] Instance memkernel_kernel : Kernel memkernel := {
  k_inode k n := default (blank_inode n) (mk_inodes k !! n);
  k_set_inode k n i := MemKernel (<[n := i]> (mk_inodes k)) (mk_cache k) (mk_time k);
  k_cached k n := bool_decide (n ∈ mk_cache k);
  k_iget_locked k n :=
    if decide (n ∈ mk_cache k) then Some (false, k)
    else Some (true, MemKernel (<[n := blank_inode n]> (mk_inodes k)) ({[n]} ∪ mk_cache k) (mk_time k));
  k_unlock_new_inode k n := k;
  k_iget_failed k n := MemKernel (mk_inodes k) (mk_cache k ∖ {[n]}) (mk_time k);
  k_mark_inode_dirty k n := k;
  k_inode_init_owner k i dir mode := set_mode mode (set_owner 0 0 i);
  k_inc_nlink i :=
    Inode (i_ino i) (i_mode i) (i_uid i) (i_gid i) (i_atime i) (i_mtime i) (i_ctime i) (i_size i)
      (i_nlink i + 1);
  k_current_time k := mk_time k;
  k_d_instantiate d n := Dentry (d_name d) (Some n);
  k_d_add d n := Dentry (d_name d) (Some n);
}.

#[export] Instance memkernel_laws : KernelLaws memkernel.
Proof.
  split; cbn; try done.
  - intros k n i. by rewrite lookup_insert_eq.
  - intros k n m i Hn. by rewrite lookup_insert_ne.
  - intros k n Hc%bool_decide_eq_true. by rewrite decide_True.
  - intros k n new k' Hc%bool_decide_eq_false. rewrite decide_False by done. intros [= <- <-].
    cbn. split_and!; [done|by apply bool_decide_eq_true; set_solver|by rewrite lookup_insert_eq|].
    intros m Hm. rewrite lookup_insert_ne by done. split; [done|]. apply bool_decide_ext. set_solver.
  - intros k n. apply bool_decide_eq_false. set_solver.
  - intros k n m Hn. split; [done|]. apply bool_decide_ext. set_solver.
Qed.

(** ** Concrete inputs *)
(** A mounted file system whose one inode, 1, is the root directory *)
Definition example_root : spfs_inode :=
  SpfsInode (Inode 1 0x41ED 0 0 0 0 0 0 2) false 0 0 (zeros SPOOKY_FS_NAME_MAX).
Definition example_vfs (tree_start : Z) : vfs_st memdev memkernel :=
  VfsSt (tree_st tree_start) (SuperBlock 1 SPFS_MAGIC 4096 0 1 2 false 1)
    (MemKernel {[1 := example_root]} {[1]} 0) {[1 := spfs_dir_ops]}.
Definition example_dentry : dentry := Dentry [x61; x62] None.
Definition example_env : env := Env 9 zeros (blank_inode 0).
Definition example_k1 : memkernel :=
  MemKernel (<[2 := blank_inode 2]> {[1 := example_root]}) ({[2]} ∪ {[1]}) 0.

Lemma new_inode_fresh_witness :
  ∃ s' i, spfs_new_inode (Some 1) 0x81A4 (example_vfs 0) = Ok (PInode 2) s' ∧
    cache_upd (v_cache (example_vfs 0)) 2 i (v_cache s').
Proof.
  destruct (new_inode_fresh 1 0x81A4 (example_vfs 0) example_k1) as (s' & i & H1 & H2 & _);
    [done..|]. exists s', i. split; [exact H1|exact H2].
Defined.

Lemma create_first_witness :
  ∃ i s' d1 d2,
    spfs_generic_create example_env 1 example_dentry 0x81A4 (example_vfs 0) =
      Ok (Dentry [x61; x62] (Some 2)) s' ∧
    dev_upd tree_dev 11 (splice 0 (inode_record zeros i) (zeros 4096)) d1 ∧
    dev_upd d1 0 (new_root (bubble_make 2 11 0) 0 4096) d2.
Proof.
  destruct (create_first 8 zeros (blank_inode 0) 1 example_dentry 0x81A4 (example_vfs 0) example_k1
    tree_dev 0 tree_fl 11 (FreeList false 9 [FreeNode 2 9]) 10 (FreeList false 8 [FreeNode 2 8])
    (zeros 4096) (zeros 4096)) as (i & s' & d1 & d2 & H1 & _ & _ & _ & _ & H2 & H3);
    [try done; eval_side..|].
  exists i, s', d1, d2. split; [exact H1|]. split; [exact H2|exact H3].
Defined.

Lemma create_again_fails_witness :
  crashed (spfs_generic_create example_env 1 example_dentry 0x81A4 (example_vfs 7)) ∨
  ∃ s', spfs_generic_create example_env 1 example_dentry 0x81A4 (example_vfs 7) = Err 1 s' ∧
    bt_lock (t_tree (v_fs s')) = false.
Proof.
  apply (create_again_fails 8 zeros (blank_inode 0) 1 example_dentry 0x81A4 (example_vfs 7)
    example_k1 (splice 0 (be_split 4 1) (zeros 4096))); try done; eval_side.
Defined.

Lemma write_back_keeps_record_witness :
  ∃ d', btree_visit_entry zeros (blank_inode 0) 8 2 spfs_mod_inode_cb (Bufs tree_dev 0) = Ok 2 (Bufs d' 0) ∧
    bc_data d' 8 = bc_data tree_dev 8.
Proof.
  destruct (write_back_keeps_record zeros (blank_inode 0) 8 2 (Bufs tree_dev 0)
    (splice 0 (inode_record zeros example_inode) (zeros 4096))) as (d' & E & (_ & Hd & _));
    [done|by vm_compute|by vm_compute|by vm_compute|done|].
  exists d'. split; [exact E|]. change (bc_data d' 8 = bc_data tree_dev 8). rewrite Hd. by vm_compute.
Defined.
