(* ===== verification/Concurrent.v ===== *)
(** * Concurrent allocation of blocks and of inode numbers

    [spfs_free_alloc] and the critical section of [spfs_new_inode], statement by
    statement, as steps of threads that share the free list and the super block.  A
    node of the free list is named by its place in the list: the list never changes its
    length after the mount, so that the place stands for the pointer. *)
From S2P Require Import Prelude FreeList Super Vfs Threads.

(** ** [spfs_free_alloc] *)
Inductive alloc_pc :=
| at_lock (blocks : Z)               (* [mutex_lock(&free_list->lock)] *)
| at_check (blocks : Z)              (* [if (free_list->blocks > blocks)] *)
| at_node (blocks : Z) (i : nat)     (* [Lit: if (list)], [if (list->blocks >= blocks)] *)
| at_take (blocks : Z) (i : nat)     (* [list->blocks -= blocks] *)
| at_count (blocks : Z) (i : nat)    (* [free_list->blocks -= blocks] *)
| at_result (blocks : Z) (i : nat)   (* [result = list->start + list->blocks] *)
| at_unlock (blocks result : Z)      (* [mutex_unlock(&free_list->lock)] *)
| at_return (blocks result : Z).     (* [return result] *)

Definition set_fl_lock (b : bool) (fl : spfs_free_list) : spfs_free_list :=
  FreeList b (fl_blocks fl) (fl_root fl).
Definition take_blocks (blocks : Z) (m : spfs_free_node) : spfs_free_node :=
  FreeNode (fn_start m) (u32 (fn_blocks m - blocks)).

(** The next step of a thread; [None] when it waits or has returned *)
Definition alloc_step (fl : spfs_free_list) (p : alloc_pc) : option (spfs_free_list * alloc_pc) :=
  match p with
  | at_lock blocks => if fl_lock fl then None else Some (set_fl_lock true fl, at_check blocks)
  | at_check blocks =>
      Some (fl, if bool_decide (blocks < fl_blocks fl) then at_node blocks 0 else at_unlock blocks 0)
  | at_node blocks i =>
      Some (fl, match fl_root fl !! i with
                | None => at_unlock blocks 0
                | Some m => if bool_decide (blocks ≤ fn_blocks m) then at_take blocks i else at_node blocks (S i)
                end)
  | at_take blocks i =>
      Some (FreeList (fl_lock fl) (fl_blocks fl) (alter (take_blocks blocks) i (fl_root fl)), at_count blocks i)
  | at_count blocks i =>
      Some (FreeList (fl_lock fl) (u32 (fl_blocks fl - blocks)) (fl_root fl), at_result blocks i)
  | at_result blocks i =>
      m ← fl_root fl !! i; Some (fl, at_unlock blocks (u64 (fn_start m + fn_blocks m)))
  | at_unlock blocks result => Some (set_fl_lock false fl, at_return blocks result)
  | at_return _ _ => None
  end.

Definition alloc_thread (fl : spfs_free_list) (p : alloc_pc) (fl' : spfs_free_list) (p' : alloc_pc) : Prop :=
  alloc_step fl p = Some (fl', p').

Definition request (p : alloc_pc) : Z :=
  match p with
  | at_lock n | at_check n | at_node n _ | at_take n _ | at_count n _ | at_result n _
  | at_unlock n _ | at_return n _ => n
  end.
Definition alloc_inside (p : alloc_pc) : bool :=
  match p with at_lock _ | at_return _ _ => false | _ => true end.
Definition returned (p : alloc_pc) : bool := match p with at_return _ _ => true | _ => false end.

(** The first [i] nodes are too small, node [i] is large enough. *)
Definition walked (n : Z) (i : nat) (fl : spfs_free_list) : Prop :=
  n < fl_blocks fl ∧ Forall (λ m, fn_blocks m < n) (take i (fl_root fl)).
Definition found (n : Z) (i : nat) (fl : spfs_free_list) : Prop :=
  walked n i fl ∧ ∃ m, fl_root fl !! i = Some m ∧ n ≤ fn_blocks m.

(** The list [fl] of a thread that took the mutex when the list was [b] *)
Definition alloc_inv (b fl : spfs_free_list) (p : alloc_pc) : Prop :=
  fl_lock b = false ∧
  match p with
  | at_check n => fl = set_fl_lock true b
  | at_node n i => fl = set_fl_lock true b ∧ walked n i b
  | at_take n i => fl = set_fl_lock true b ∧ found n i b
  | at_count n i => fl = FreeList true (fl_blocks b) (alter (take_blocks n) i (fl_root b)) ∧ found n i b
  | at_result n i =>
      fl = FreeList true (u32 (fl_blocks b - n)) (alter (take_blocks n) i (fl_root b)) ∧ found n i b
  | at_unlock n r => spfs_free_alloc n b = Ok r (set_fl_lock false fl)
  | at_lock _ | at_return _ _ => False
  end.

Definition alloc_op (b : spfs_free_list) (p : alloc_pc) (fl : spfs_free_list) : Prop :=
  ∃ n r, p = at_return n r ∧ spfs_free_alloc n b = Ok r fl.

Lemma walk_found n root : ∀ i m,
  Forall (λ m, fn_blocks m < n) (take i root) → root !! i = Some m → n ≤ fn_blocks m →
  free_alloc_walk n root =
    Some (u64 (fn_start m + fn_blocks (take_blocks n m)), alter (take_blocks n) i root).
Proof.
  induction root as [|x root IH]; intros [|i] m Hs Hi Hm; [done..| |]; cbn.
  - injection Hi as ->. by rewrite bool_decide_eq_true_2.
  - apply Forall_cons in Hs as [Hx Hs]. rewrite bool_decide_eq_false_2 by lia.
    by erewrite IH by done.
Qed.

Lemma alloc_found n i b m :
  fl_lock b = false → found n i b → fl_root b !! i = Some m →
  spfs_free_alloc n b =
    Ok (u64 (fn_start m + fn_blocks (take_blocks n m)))
       (FreeList false (u32 (fl_blocks b - n)) (alter (take_blocks n) i (fl_root b))).
Proof.
  intros Hl [[Hn Hs] (m' & Hi & Hm)] Hi'. rewrite Hi in Hi'. injection Hi' as <-.
  rewrite spfs_free_alloc_eq, bool_decide_eq_true_2 by done. by erewrite walk_found by done.
Qed.

Lemma unlock_lock b : fl_lock b = false → set_fl_lock false (set_fl_lock true b) = b.
Proof. destruct b. cbn. by intros ->. Qed.

Lemma walked_next n i b m :
  walked n i b → fl_root b !! i = Some m → fn_blocks m < n → walked n (S i) b.
Proof.
  intros [Hn Hs] Hi Hm. split; [done|]. rewrite (take_S_r _ _ m) by done. apply Forall_app. by split; [|constructor].
Qed.

Lemma walked_out n i b :
  fl_lock b = false → walked n i b → fl_root b !! i = None → spfs_free_alloc n b = Ok 0 b.
Proof.
  intros Hl [Hn Hs] Hi%lookup_ge_None. rewrite take_ge in Hs by done.
  rewrite spfs_free_alloc_eq, bool_decide_eq_true_2 by done. by apply free_alloc_walk_none in Hs as ->.
Qed.

Ltac alloc_cases p H :=
  unfold alloc_thread in H; destruct p; cbn [alloc_step] in H;
  repeat match type of H with context [if fl_lock ?b then _ else _] => destruct (fl_lock b) eqn:? end;
  try (injection H as <- <-); try done.

(** What a step inside the section makes of the list *)
Lemma alloc_inv_step b fl p fl' p' :
  alloc_thread fl p fl' p' → alloc_inside p = true → alloc_inv b fl p →
  if alloc_inside p' then fl_lock fl' = true ∧ alloc_inv b fl' p'
  else fl_lock fl' = false ∧ returned p' = true ∧ alloc_op b p' fl'.
Proof.
  intros H Hin [Hl Hinv]. alloc_cases p H.
  - subst fl. cbn [fl_blocks set_fl_lock]. case_bool_decide as Hlt; cbn; (split; [done|]); (split; [done|]).
    + by split.
    + rewrite spfs_free_alloc_eq, bool_decide_eq_false_2 by done. f_equal. by apply (eq_sym (unlock_lock b Hl)).
  - destruct Hinv as [-> Hw]. cbn [fl_root set_fl_lock]. destruct (fl_root b !! i) as [m|] eqn:Hi.
    + case_bool_decide as Hm; cbn; (split; [done|]); (split; [done|]); (split; [done|]).
      * split; [done|]. by exists m.
      * apply (walked_next _ _ _ m); [done..|lia].
    + cbn. split; [done|]. split; [done|]. rewrite (walked_out _ i) by done. f_equal. by apply (eq_sym (unlock_lock b Hl)).
  - destruct Hinv as [-> Hf]. by cbn.
  - destruct Hinv as [-> Hf]. by cbn.
  - destruct Hinv as [-> [Hw (m & Hi & Hm)]]. cbn [fl_root] in H.
    rewrite list_lookup_alter_eq, Hi in H. cbn in H. injection H as <- <-. cbn. split; [done|]. split; [done|].
    rewrite (alloc_found _ i _ m); [reflexivity|done| |done]. split; [done|]. by exists m.
  - cbn. split; [done|]. split; [done|]. by exists blocks, result.
Qed.

#[export] Instance alloc_section :
  CriticalSection fl_lock alloc_inside returned alloc_thread alloc_inv alloc_op.
Proof.
  split.
  - by intros [].
  - intros fl p fl' p' H. by alloc_cases p H.
  - intros fl p fl' p' H Hp. by alloc_cases p H.
  - intros b fl p fl' p' H Hp Hp' _ Hinv. pose proof (alloc_inv_step b _ _ _ _ H Hp Hinv) as Hs. by rewrite Hp' in Hs.
  - intros b fl p fl' p' H Hp Hp' Hinv. pose proof (alloc_inv_step b _ _ _ _ H Hp Hinv) as Hs. by rewrite Hp' in Hs.
  - intros fl [] Hp Hr Hl; try done. unfold alloc_thread. cbn. rewrite Hl. by eexists _, _.
  - intros b fl p Hp [_ Hinv]. unfold alloc_thread. destruct p; try done; cbn; try (by eexists _, _).
    destruct Hinv as [-> [_ (m & Hi & _)]]. cbn. rewrite list_lookup_alter_eq, Hi. by eexists _, _.
Qed.

(** ** Any number of threads that allocate *)
Definition answer (p : alloc_pc) : option (Z * Z) :=
  match p with at_return n r => Some (r, n) | _ => None end.
Definition answers (ts : list alloc_pc) : list (Z * Z) := omap answer ts.

Lemma op_run_allocs b ps fl :
  op_run alloc_op b ps fl → Forall (λ p, 0 ≤ request p) ps → alloc_run b (answers ps) fl.
Proof.
  induction 1 as [b|b p fl1 ps fl (n & r & -> & E) _ IH]; intros Hps; [constructor|].
  apply Forall_cons in Hps as [Hn Hps]. cbn. econstructor; eauto.
Qed.

Lemma answers_finished ts : answers (finished returned ts) = answers ts.
Proof.
  unfold finished. induction ts as [|p ts IH]; [done|]. rewrite filter_cons.
  case_decide as Hp; destruct p; try done; try exact IH. exact (f_equal (cons _) IH).
Qed.

Lemma requests_kept c c' :
  rtc (machine_step alloc_thread) c c' → request <$> c'.2 = request <$> c.2.
Proof.
  apply machine_kept. intros fl p fl' p' Hs. alloc_cases p Hs; try done; [by case_bool_decide| |].
  - destruct (_ !! i); [by case_bool_decide|done].
  - destruct (_ !! i); [|done]. by injection Hs as <- <-.
Qed.

Lemma two_of_list {A} (l : list A) t t' x x' :
  t ≠ t' → l !! t = Some x → l !! t' = Some x' → ∃ rest, l ≡ₚ x :: x' :: rest.
Proof.
  intros Hne Ht Ht'. assert (x' ∈ delete t l) as Hx.
  { destruct (decide (t' < t)%nat).
    - apply (list_elem_of_lookup_2 _ t'). by rewrite list_lookup_delete_lt.
    - apply (list_elem_of_lookup_2 _ (t' - 1)). rewrite list_lookup_delete_ge by lia. rewrite <-Ht'. f_equal. lia. }
  apply elem_of_Permutation in Hx as [rest Hrest]. exists rest. rewrite (delete_Permutation _ _ _ Ht). by rewrite Hrest.
Qed.

Lemma ordpairs_first_two {A} (R : A → A → Prop) l x x' rest :
  (∀ y z, R y z → R z y) → ForallOrdPairs R l → l ≡ₚ x :: x' :: rest → R x x'.
Proof.
  intros Hsym Hl Hp. assert (ForallOrdPairs R (x :: x' :: rest)) as H; cycle 1.
  { inversion H as [|? ? Hx]; subst. by apply Forall_cons in Hx as []. }
  revert Hl. induction Hp as [|y l l' Hp IH|y z l|l l' l'' Hp IH Hp' IH']; [done| | |by auto].
  - inversion 1 as [|? ? Hy Hl']; subst. constructor; [by rewrite <-Hp|by apply IH].
  - inversion 1 as [|? ? Hy Hl']; subst. inversion Hl' as [|? ? Hz Hl'']; subst. apply Forall_cons in Hy as [Hyz Hy].
    constructor; [constructor; [by apply Hsym|done]|]. by constructor.
Qed.

Section allocating.
Context (fl0 : spfs_free_list) (ns : list Z).
Hypothesis Hlock : fl_lock fl0 = false.

Lemma allocs_ok c : rtc (machine_step alloc_thread) (fl0, at_lock <$> ns) c →
  machine_ok (locked := fl_lock) (inside := alloc_inside) (final := returned) (inv := alloc_inv) (op := alloc_op) fl0 c.
Proof using Hlock.
  destruct c as [fl ts]. apply machine_atomic; [done|].
  apply Forall_fmap, Forall_forall. by intros n _.
Qed.

Lemma allocs_run fl ts :
  Forall (λ n, 0 ≤ n) ns → rtc (machine_step alloc_thread) (fl0, at_lock <$> ns) (fl, ts) →
  ∃ rs base, alloc_run fl0 rs base ∧ rs ≡ₚ answers ts ∧ (fl_lock fl = false → base = fl).
Proof using Hlock.
  intros Hns Hrun. destruct (allocs_ok _ Hrun) as (b & ps & Hps & Hperm & Hex). cbn [fst snd] in *.
  exists (answers ps), b. split_and!.
  - apply op_run_allocs; [done|]. rewrite Hperm. apply Forall_forall. intros p [_ Hp]%list_elem_of_filter.
    apply requests_kept in Hrun. cbn [snd] in Hrun. rewrite <-list_fmap_compose in Hrun.
    assert (request p ∈ request <$> ts) as Hr by (by apply list_elem_of_fmap_2). rewrite Hrun in Hr.
    apply list_elem_of_fmap in Hr as (n & -> & Hn). by eapply Forall_forall in Hns.
  - rewrite <-(answers_finished ts). unfold answers. by rewrite Hperm.
  - intros Hl. destruct Hex as [(_ & -> & _)|(Hl' & _)]; congruence.
Qed.
End allocating.

(** C8: threads that allocate at the same time do not disturb each other.  In whatever order
    the single statements of any number of calls of [spfs_free_alloc] are executed, the
    calls that have returned got what they would have got one after the other in some
    order, the list the others find when the mutex is free is the one those calls leave,
    and the blocks handed to different threads are disjoint. *)
Theorem alloc_threads_refine fl0 ns fl ts :
  fl_wf fl0 → fl_lock fl0 = false → Forall (λ n, 0 ≤ n) ns →
  rtc (machine_step alloc_thread) (fl0, at_lock <$> ns) (fl, ts) →
  (∃ rs base, alloc_run fl0 rs base ∧ rs ≡ₚ answers ts ∧ (fl_lock fl = false → base = fl)) ∧
  ∀ t t' n n' r r', t ≠ t' → ts !! t = Some (at_return n r) → ts !! t' = Some (at_return n' r') →
    ∀ b, range_of (r, n) b → ¬ range_of (r', n') b.
Proof.
  intros Hwf Hlock Hns Hrun. destruct (allocs_run fl0 ns Hlock fl ts Hns Hrun) as (rs & base & Hrs & Hperm & Hbase).
  split; [by exists rs, base|]. intros t t' n n' r r' Hne Ht Ht'.
  destruct (alloc_run_facts _ _ _ Hrs Hwf Hlock) as (_ & _ & _ & _ & _ & Hdisj).
  destruct (two_of_list ts t t' _ _ Hne Ht Ht') as [rest Hrest].
  apply (ordpairs_first_two _ rs (r, n) (r', n') (answers rest)) in Hdisj; [done| |].
  - intros a a' H b Hb Hb'. by apply (H b).
  - rewrite Hperm. unfold answers. by rewrite Hrest.
Qed.

(** The steps a thread can still make, with a list of [len] nodes *)
Definition alloc_left (len : nat) (p : alloc_pc) : nat :=
  match p with
  | at_lock _ => len + 7
  | at_check _ => len + 6
  | at_node _ i => len - i + 5
  | at_take _ _ => 4
  | at_count _ _ => 3
  | at_result _ _ => 2
  | at_unlock _ _ => 1
  | at_return _ _ => 0
  end.

Definition fl_length (fl : spfs_free_list) : nat := length (fl_root fl).

Lemma alloc_step_left fl p fl' p' :
  alloc_thread fl p fl' p' →
  fl_length fl' = fl_length fl ∧ (alloc_left (fl_length fl) p' < alloc_left (fl_length fl) p)%nat.
Proof.
  intros H. unfold fl_length. alloc_cases p H; cbn; rewrite ?length_alter; try (split; [done|lia]).
  - split; [done|]. case_bool_decide; cbn; lia.
  - split; [done|]. destruct (fl_root fl !! i) eqn:Hi; [|cbn; lia]. apply lookup_lt_Some in Hi.
    case_bool_decide; cbn; lia.
  - destruct (fl_root fl !! i); [|done]. injection H as <- <-. cbn. split; [done|lia].
Qed.

(** C19: threads that allocate at the same time all come to an end.  However they are
    scheduled, they make together at most [n + 7] steps per thread on a list of [n] nodes, and
    as long as one of them has not returned, one of them can make a step; when all have,
    the mutex is free. *)
Theorem alloc_threads_end fl0 ns k fl ts :
  fl_lock fl0 = false → nsteps (machine_step alloc_thread) k (fl0, at_lock <$> ns) (fl, ts) →
  (k ≤ length ns * (length (fl_root fl0) + 7))%nat ∧
  ((∃ c, machine_step alloc_thread (fl, ts) c) ∨ Forall (λ p, returned p = true) ts ∧ fl_lock fl = false).
Proof.
  intros Hlock Hk. split.
  - destruct (machine_bounded fl_length alloc_left (λ s p s' p' H, proj1 (alloc_step_left s p s' p' H))
      (λ s p s' p' H, proj2 (alloc_step_left s p s' p' H)) k _ _ Hk) as [Hb _]. cbn [fst snd] in Hb.
    assert (sum_list_with (alloc_left (fl_length fl0)) (at_lock <$> ns) = length ns * (fl_length fl0 + 7))%nat as Hs.
    { clear. induction ns as [|n ns IH]; [done|]. cbn. cbn in IH. lia. }
    unfold fl_length in Hs, Hb. lia.
  - pose proof (allocs_ok fl0 ns Hlock _ (rtc_nsteps_2 _ _ _ Hk)) as Hok.
    destruct (machine_progress _ _ _ Hok) as [Hall|]; [right|by left]. split; [done|].
    destruct Hok as (b & ps & _ & _ & [(Hl & _)|(_ & t & p & Ht & Hp & _)]); [done|].
    apply (Forall_lookup_1 _ _ _ _ Hall) in Ht. by destruct p.
Qed.

(** ** The number of a new inode, in [spfs_new_inode] *)
Inductive id_pc :=
| id_lock                      (* [mutex_lock(&sbi->id_lock)] *)
| id_read                      (* [needle = sbi->id++], the reading *)
| id_write (needle : Z)        (* ... and the writing *)
| id_unlock (needle : Z)       (* [mutex_unlock(&sbi->id_lock)] *)
| id_have (needle : Z).        (* [inode = iget_locked(sb, needle)] *)

Definition id_step (sb : spfs_super_block) (p : id_pc) : option (spfs_super_block * id_pc) :=
  match p with
  | id_lock => if sb_id_lock sb then None else Some (set_id_lock true sb, id_read)
  | id_read => Some (sb, id_write (sb_id sb))
  | id_write needle => Some (set_id (u64 (needle + 1)) sb, id_unlock needle)
  | id_unlock needle => Some (set_id_lock false sb, id_have needle)
  | id_have _ => None
  end.

Definition id_thread (sb : spfs_super_block) (p : id_pc) (sb' : spfs_super_block) (p' : id_pc) : Prop :=
  id_step sb p = Some (sb', p').

Definition id_inside (p : id_pc) : bool := match p with id_lock | id_have _ => false | _ => true end.
Definition has_id (p : id_pc) : bool := match p with id_have _ => true | _ => false end.

Definition next_id (sb : spfs_super_block) : spfs_super_block := set_id (u64 (sb_id sb + 1)) sb.

Definition id_inv (b sb : spfs_super_block) (p : id_pc) : Prop :=
  sb_id_lock b = false ∧
  match p with
  | id_read => sb = set_id_lock true b
  | id_write needle => sb = set_id_lock true b ∧ needle = sb_id b
  | id_unlock needle => sb = set_id_lock true (next_id b) ∧ needle = sb_id b
  | id_lock | id_have _ => False
  end.

Definition id_op (b : spfs_super_block) (p : id_pc) (sb : spfs_super_block) : Prop :=
  p = id_have (sb_id b) ∧ sb = next_id b.

#[export] Instance id_section :
  CriticalSection sb_id_lock id_inside has_id id_thread id_inv id_op.
Proof.
  split; unfold id_thread.
  - by intros [].
  - by intros sb [] sb' p'.
  - intros sb [] sb' p'; try done; cbn. destruct (sb_id_lock sb) eqn:Hl; [done|]. by intros [= <- <-].
  - intros b sb [] sb' p' H _ Hp' _ [Hl Hinv]; try done; injection H as <- <-; try done; unfold id_inv.
    + by subst sb.
    + by destruct Hinv as [-> ->].
  - intros b sb [] sb' p' H _ Hp' [Hl Hinv]; try done; injection H as <- <-; try done.
    destruct Hinv as [-> ->]. split; [done|]. split; [done|]. split; [done|].
    destruct b. cbn in *. by subst.
  - intros sb [] Hp Hf Hl; try done; cbn. rewrite Hl. by eexists _, _.
  - intros b sb [] Hp _; try done; by eexists _, _.
Qed.

Definition id_of (p : id_pc) : option Z := match p with id_have n => Some n | _ => None end.

Lemma op_run_ids b ps sb :
  op_run id_op b ps sb → 0 ≤ sb_id b → sb_id b + zlen ps < 2 ^ 64 →
  omap id_of ps = seqZ (sb_id b) (zlen ps) ∧ sb_id sb = sb_id b + zlen ps.
Proof.
  induction 1 as [b|b p sb1 ps sb [-> ->] _ IH]; intros Hb; unfold zlen; cbn [length]; rewrite ?Nat2Z.inj_succ.
  { intros _. split; [done|]. cbn. lia. }
  intros Hlt. cbn [next_id set_id sb_id] in IH. unfold zlen in IH. rewrite u64_small in IH by lia.
  destruct IH as [IH1 IH2]; [lia..|]. rewrite IH2, seqZ_cons by lia. split; [|lia].
  change (omap id_of (id_have (sb_id b) :: ps)) with (sb_id b :: omap id_of ps). rewrite IH1.
  by rewrite Z.pred_succ.
Qed.

(** C24: inode numbers are never given out twice.  Threads that make inodes at the same time
    get, as long as the 64-bit counter does not wrap around, exactly the next numbers,
    each of them once, in whatever order the threads are executed; the counter a thread
    finds when it can take the mutex is behind all of them. *)
Theorem id_threads_distinct sb0 n sb ts :
  sb_id_lock sb0 = false → 0 ≤ sb_id sb0 → sb_id sb0 + Z.of_nat n < 2 ^ 64 →
  rtc (machine_step id_thread) (sb0, replicate n id_lock) (sb, ts) →
  let ids := omap id_of ts in
  ids ≡ₚ seqZ (sb_id sb0) (zlen ids) ∧ NoDup ids ∧
  (sb_id_lock sb = false → sb_id sb = sb_id sb0 + zlen ids).
Proof.
  intros Hlock H0 Hn Hrun ids. assert (length ts = n) as Hlen.
  { remember (sb0, replicate n id_lock) as c eqn:Hc. remember (sb, ts) as c' eqn:Hc'.
    assert (length c'.2 = length c.2) as Hl.
    { clear -Hrun. induction Hrun as [|c c1 c2 [] _ ->]; [done|]. apply length_insert. }
    subst. cbn in Hl. by rewrite length_replicate in Hl. }
  destruct (machine_atomic sb0 _ _ _ Hlock (Forall_replicate _ _ _ (conj eq_refl eq_refl)) Hrun)
    as (b & ps & Hps & Hperm & Hex). cbn [fst snd] in *.
  assert (omap id_of ps ≡ₚ ids) as Hids.
  { unfold ids. rewrite Hperm. clear. unfold finished. induction ts as [|p ts IH]; [done|]. rewrite filter_cons.
    case_decide; destruct p; try done; try exact IH. by constructor. }
  assert (zlen ps ≤ Z.of_nat n) as Hz.
  { unfold zlen. rewrite Hperm, <-Hlen. pose proof (length_filter (λ p, has_id p = true) ts). unfold finished. lia. }
  destruct (op_run_ids _ _ _ Hps H0 ltac:(lia)) as [Hseq Hb].
  assert (zlen ids = zlen ps) as Hzl.
  { unfold zlen. rewrite <-Hids, Hseq, length_seqZ. unfold zlen. lia. }
  rewrite Hzl, <-Hseq. split; [done|]. split; [rewrite <-Hids, Hseq; apply NoDup_seqZ|].
  intros Hl. destruct Hex as [(_ & -> & _)|(Hl' & _)]; congruence.
Qed.

(** ** Concrete schedules *)
(** Threads that ask for 12, 8 and 40 blocks: the second one takes the mutex first, the
    first one is about to write the list, and the third one waits. *)
Definition allocs_half : spfs_free_list * list alloc_pc :=
  (FreeList true 22 [FreeNode 50 2; FreeNode 2 20], [at_take 12 1; at_return 8 52; at_lock 40]).

Lemma allocs_half_run :
  nsteps (machine_step alloc_thread) 11 (example_fl, at_lock <$> [12; 8; 40]) allocs_half.
Proof. apply (schedule_steps alloc_step [1; 1; 1; 1; 1; 1; 1; 0; 0; 0; 0]%nat). by vm_compute. Qed.

Definition allocs_turns_all : list nat := [1; 1; 1; 1; 1; 1; 1; 0; 0; 0; 0; 0; 0; 0; 0; 2; 2; 2]%nat.
Definition allocs_end : spfs_free_list * list alloc_pc :=
  (FreeList false 10 [FreeNode 50 2; FreeNode 2 8], [at_return 12 10; at_return 8 52; at_return 40 0]).

Lemma allocs_end_run :
  nsteps (machine_step alloc_thread) 18 (example_fl, at_lock <$> [12; 8; 40]) allocs_end.
Proof. apply (schedule_steps alloc_step allocs_turns_all). by vm_compute. Qed.

Lemma alloc_threads_refine_witness :
  (∃ rs, alloc_run example_fl rs (allocs_end.1) ∧ rs ≡ₚ [(10, 12); (52, 8); (0, 40)]) ∧
  ∀ b, range_of (10, 12) b → ¬ range_of (52, 8) b.
Proof.
  destruct (alloc_threads_refine example_fl [12; 8; 40] allocs_end.1 allocs_end.2) as ((rs & base & H & Hp & Hb) & Hd).
  - apply example_fl_wf.
  - done.
  - repeat constructor; lia.
  - eapply rtc_nsteps_2, allocs_end_run.
  - split; [|by apply (Hd 0%nat 1%nat)]. exists rs. by rewrite <-(Hb eq_refl).
Defined.

Lemma alloc_threads_end_witness :
  (11 ≤ 27)%nat ∧ ∃ c, machine_step alloc_thread allocs_half c.
Proof.
  destruct (alloc_threads_end example_fl [12; 8; 40] 11 allocs_half.1 allocs_half.2 eq_refl allocs_half_run)
    as (H & [Hc|[_ Hl]]); [by split|by vm_compute in Hl].
Defined.

Definition ids_half : spfs_super_block * list id_pc :=
  (SuperBlock 0 0 0 0 0 8 true 0, [id_unlock 7; id_have 6; id_lock]).

Lemma id_threads_distinct_witness :
  rtc (machine_step id_thread) (SuperBlock 0 0 0 0 0 6 false 0, replicate 3 id_lock) ids_half ∧
  NoDup [6].
Proof.
  assert (rtc (machine_step id_thread) (SuperBlock 0 0 0 0 0 6 false 0, replicate 3 id_lock) ids_half) as Hrun.
  { eapply rtc_nsteps_2, (schedule_steps id_step [1; 1; 1; 1; 0; 0; 0]%nat). by vm_compute. }
  split; [exact Hrun|].
  by destruct (id_threads_distinct (SuperBlock 0 0 0 0 0 6 false 0) 3 ids_half.1 ids_half.2) as (_ & H & _).
Defined.
