(* ===== verification/Module.v ===== *)
(** * sp.c, the module: its slab of inodes, loading and unloading, unmounting

    The slab allocator, RCU and the table of file systems belong to the kernel.  They
    enter as the class [ModuleKernel]; [ModuleKernelLaws] says what each call does to a
    view of the kernel's state: the caches with their constructors, the inodes that are
    allocated, those whose memory has been constructed once, the contents of each, the
    callbacks that wait for a grace period, and whether the file system is registered.
    An inode is identified with its address, which is not 0. *)
From S2P Require Import Prelude Inode Super Vfs.

Record kview := KView {
  kv_caches : gmap Z (spfs_inode → spfs_inode);
  kv_used : gset Z;
  kv_built : gset Z;
  kv_object : Z → spfs_inode;
  kv_pending : list Z;
  kv_registered : bool;
}.

Section views.
Implicit Types v : kview.
Definition set_caches (x : gmap Z (spfs_inode → spfs_inode)) v : kview :=
  KView x (kv_used v) (kv_built v) (kv_object v) (kv_pending v) (kv_registered v).
Definition set_used (x : gset Z) v : kview :=
  KView (kv_caches v) x (kv_built v) (kv_object v) (kv_pending v) (kv_registered v).
Definition set_pending (x : list Z) v : kview :=
  KView (kv_caches v) (kv_used v) (kv_built v) (kv_object v) x (kv_registered v).
Definition set_registered (x : bool) v : kview :=
  KView (kv_caches v) (kv_used v) (kv_built v) (kv_object v) (kv_pending v) x.

Definition set_object (o : Z) (i : spfs_inode) v : kview :=
  KView (kv_caches v) (kv_used v) (kv_built v) (λ x, if bool_decide (x = o) then i else kv_object v x)
    (kv_pending v) (kv_registered v).

(** Memory is constructed when the slab first gets it, not at each allocation. *)
Definition take_object (ctor : spfs_inode → spfs_inode) (o : Z) v : kview :=
  KView (kv_caches v) ({[o]} ∪ kv_used v) ({[o]} ∪ kv_built v)
    (λ x, if bool_decide (x = o ∧ o ∉ kv_built v) then ctor (kv_object v x) else kv_object v x)
    (kv_pending v) (kv_registered v).
End views.

Class ModuleKernel (G : Type) := {
  (** [kmem_cache_create] with its constructor, [kmem_cache_destroy] *)
  g_cache_create : G → (spfs_inode → spfs_inode) → option (Z * G);
  g_cache_destroy : G → Z → G;
  (** [kmem_cache_alloc], [kmem_cache_free] *)
  g_cache_alloc : G → Z → option (Z * G);
  g_cache_free : G → Z → Z → G;
  (** [inode_init_once] *)
  g_inode_init_once : inode → inode;
  (** [call_rcu] on an inode, and the end of a grace period: the callbacks that are due *)
  g_call_rcu : G → Z → G;
  g_rcu_due : G → list Z * G;
  (** [register_filesystem], [unregister_filesystem] *)
  g_register : G → Z * G;
  g_unregister : G → Z * G;
  g_view : G → kview;
}.

Class ModuleKernelLaws (G : Type) {MK : ModuleKernel G} : Prop := {
  g_create_view : ∀ g ctor c g', g_cache_create g ctor = Some (c, g') →
    kv_caches (g_view g) !! c = None ∧
    g_view g' = set_caches (<[c := ctor]> (kv_caches (g_view g))) (g_view g);
  (** A cache can be destroyed when no object of it is in use. *)
  g_destroy_view : ∀ g c, kv_used (g_view g) = ∅ →
    g_view (g_cache_destroy g c) = set_caches (delete c (kv_caches (g_view g))) (g_view g);
  g_alloc_view : ∀ g c ctor o g',
    kv_caches (g_view g) !! c = Some ctor → g_cache_alloc g c = Some (o, g') →
    o ≠ 0 ∧ (o ∉ kv_used (g_view g)) ∧ g_view g' = take_object ctor o (g_view g);
  g_free_view : ∀ g c o,
    g_view (g_cache_free g c o) = set_used (kv_used (g_view g) ∖ {[o]}) (g_view g);
  g_call_rcu_view : ∀ g o,
    g_view (g_call_rcu g o) = set_pending (kv_pending (g_view g) ++ [o]) (g_view g);
  g_rcu_due_view : ∀ g, fst (g_rcu_due g) = kv_pending (g_view g) ∧
    g_view (snd (g_rcu_due g)) = set_pending [] (g_view g);
  (** [-EBUSY] when the name is taken, [-EINVAL] when it is not registered *)
  g_register_view : ∀ g, let r := g_register g in
    (kv_registered (g_view g) = true → r.1 ≠ 0) ∧
    g_view r.2 = set_registered (kv_registered (g_view g) || bool_decide (r.1 = 0)) (g_view g);
  g_unregister_view : ∀ g, let r := g_unregister g in
    (kv_registered (g_view g) = true → r.1 = 0) ∧
    g_view r.2 = set_registered (kv_registered (g_view g) && bool_decide (r.1 ≠ 0)) (g_view g);
}.

(** The module's global variable, and the kernel *)
Record mod_st (G : Type) := ModSt { spfs_inode_SLAB : option Z; m_kernel : G }.
Arguments ModSt {G} _ _.
Arguments spfs_inode_SLAB {G} _.
Arguments m_kernel {G} _.

Section module.
Context {G : Type} {MK : ModuleKernel G}.

Definition m_slab_lens : lens (mod_st G) (option Z) :=
  Lens spfs_inode_SLAB (λ x s, ModSt x (m_kernel s)).
Definition m_kernel_lens : lens (mod_st G) G := Lens m_kernel (λ x s, ModSt (spfs_inode_SLAB s) x).

(** ** The slab of inodes *)
Definition spfs_inode_init_once (closure : spfs_inode) : spfs_inode :=
  let i := SpfsInode (Inode 0 0 0 0 0 0 0 0 0) false 0 0 (zeros SPOOKY_FS_NAME_MAX) in
  let i := set_lock false i in
  let i := set_extent 0 0 i in
  let i := set_name (zeros SPOOKY_FS_NAME_MAX) i in
  set_inode (g_inode_init_once (i_inode i)) i.

Definition spfs_create_inode_SLAB : M G (option Z) := λ g,
  match g_cache_create g spfs_inode_init_once with
  | None => Ok None g
  | Some (c, g) => Ok (Some c) g
  end.

Definition kmem_cache_alloc (c : Z) : M G (option Z) := λ g,
  match g_cache_alloc g c with
  | None => Ok None g
  | Some (o, g) => Ok (Some o) g
  end.

Definition spfs_alloc_inode : M (mod_st G) (option Z) :=
  slab ← gets spfs_inode_SLAB;
  match slab with
  | None => crashes NullDeref
  | Some c => zoom m_kernel_lens (kmem_cache_alloc c)
  end.

Definition spfs_free_inode_cb (inode : Z) : M (mod_st G) unit :=
  BUG_ON (bool_decide (inode = 0));;
  slab ← gets spfs_inode_SLAB;
  match slab with
  | None => crashes BugOn
  | Some c => zoom m_kernel_lens (modify (λ g, g_cache_free g c inode))
  end.

Definition spfs_free_inode (inode : Z) : M (mod_st G) unit :=
  zoom m_kernel_lens (modify (λ g, g_call_rcu g inode)).

(** A grace period ends: the callbacks run, in the order of the calls. *)
Fixpoint rcu_callbacks (inodes : list Z) : M (mod_st G) unit :=
  match inodes with
  | [] => mret tt
  | inode :: inodes => spfs_free_inode_cb inode;; rcu_callbacks inodes
  end.
Definition rcu_barrier : M (mod_st G) unit :=
  inodes ← zoom m_kernel_lens (λ g, Ok (g_rcu_due g).1 (g_rcu_due g).2);
  rcu_callbacks inodes.

Definition spfs_destroy_inode_SLAB (slab : option Z) : M (mod_st G) unit :=
  rcu_barrier;;
  match slab with
  | None => mret tt
  | Some c => zoom m_kernel_lens (modify (λ g, g_cache_destroy g c))
  end.

(** ** Loading and unloading *)
Definition spfs_init : M (mod_st G) unit :=
  slab ← zoom m_kernel_lens spfs_create_inode_SLAB;
  zoom m_slab_lens (put slab);;
  match slab with
  | None => err (-ENOMEM)
  | Some _ =>
      res ← zoom m_kernel_lens (λ g, Ok (g_register g).1 (g_register g).2);
      if bool_decide (res ≠ 0) then
        slab ← gets spfs_inode_SLAB;
        spfs_destroy_inode_SLAB slab;;
        err res
      else mret tt
  end.

Definition spfs_exit : M (mod_st G) unit :=
  _ ← zoom m_kernel_lens (λ g, Ok (g_unregister g).1 (g_unregister g).2);
  slab ← gets spfs_inode_SLAB;
  spfs_destroy_inode_SLAB slab.
End module.

(** ** Unmounting: what [sb->s_fs_info] points to is freed *)
Definition spfs_put_super {F} : M (option F) unit :=
  sbi ← get;
  match sbi with
  | Some _ => put None
  | None => mret tt
  end.

(** ** What the module goes through while it is loaded *)
Section lifetime.
Context {G : Type} {MK : ModuleKernel G} {ML : ModuleKernelLaws G}.
Implicit Types s : mod_st G.

Definition m_view s : kview := g_view (m_kernel s).

Lemma m_view_eq c (g : G) : m_view (ModSt c g) = g_view g.
Proof using. done. Qed.

(** The VFS allocates an inode, writes to one it has, or gives one back, once; a grace
    period ends. *)
Inductive mod_step : relation (mod_st G) :=
| step_alloc s r s' : spfs_alloc_inode s = Ok r s' → mod_step s s'
| step_store s o i g : o ∈ kv_used (m_view s) →
    g_view g = set_object o i (m_view s) → mod_step s (ModSt (spfs_inode_SLAB s) g)
| step_free s o s' : o ∈ kv_used (m_view s) → o ∉ kv_pending (m_view s) →
    spfs_free_inode o s = Ok tt s' → mod_step s s'
| step_grace s s' : rcu_barrier s = Ok tt s' → mod_step s s'.

(** Before the module is loaded *)
Record unloaded s : Prop := {
  ul_pending : kv_pending (m_view s) = [];
  ul_used : kv_used (m_view s) = ∅;
}.

(** While it is loaded: the caches of others are [base]. *)
Record loaded (base : gmap Z (spfs_inode → spfs_inode)) s : Prop := {
  ld_slab : ∃ c, spfs_inode_SLAB s = Some c ∧ base !! c = None ∧
    kv_caches (m_view s) = <[c := spfs_inode_init_once]> base;
  ld_registered : kv_registered (m_view s) = true;
  ld_pending : NoDup (kv_pending (m_view s));
  ld_pending_used : list_to_set (kv_pending (m_view s)) ⊆ kv_used (m_view s);
  ld_used : kv_used (m_view s) ⊆ kv_built (m_view s);
  ld_null : 0 ∉ kv_used (m_view s);
}.

Lemma rcu_callbacks_ok c inodes s :
  spfs_inode_SLAB s = Some c → 0 ∉ inodes →
  ∃ g, rcu_callbacks inodes s = Ok tt (ModSt (Some c) g) ∧
    g_view g = set_used (kv_used (m_view s) ∖ list_to_set inodes) (m_view s).
Proof using ML.
  intros Hc. revert s Hc. induction inodes as [|o inodes IH]; intros s Hc H0.
  - exists (m_kernel s). split; [destruct s; cbn in *; by subst|]. cbn.
    rewrite difference_empty_L. unfold m_view. by destruct (g_view _).
  - apply not_elem_of_cons in H0 as [Ho H0].
    destruct (IH (ModSt (Some c) (g_cache_free (m_kernel s) c o))) as (g & E & Hg); [done..|].
    exists g. split.
    + cbn [rcu_callbacks]. erewrite bind_ok; [exact E|]. unfold spfs_free_inode_cb, BUG_ON.
      decide_if. do 2 erewrite bind_ok by done. destruct s. cbn in Hc. by subst.
    + rewrite Hg. unfold m_view. cbn [m_kernel]. rewrite g_free_view. unfold set_used. cbn. f_equal. set_solver.
Qed.

Lemma rcu_barrier_ok c s :
  spfs_inode_SLAB s = Some c → 0 ∉ kv_pending (m_view s) →
  ∃ g, rcu_barrier s = Ok tt (ModSt (Some c) g) ∧
    g_view g = set_pending [] (set_used (kv_used (m_view s) ∖ list_to_set (kv_pending (m_view s))) (m_view s)).
Proof using ML.
  intros Hc H0. destruct (g_rcu_due_view (m_kernel s)) as [Hdue Hv]. fold (m_view s) in *.
  destruct (rcu_callbacks_ok c (kv_pending (m_view s)) (lset m_kernel_lens (snd (g_rcu_due (m_kernel s))) s))
    as (g & E & Hg); [done..|].
  exists g. split.
  - unfold rcu_barrier. erewrite bind_ok by done. cbn [lget m_kernel_lens]. by rewrite Hdue.
  - rewrite Hg. unfold m_view. cbn [m_kernel lset m_kernel_lens]. by rewrite Hv.
Qed.

Lemma destroy_ok c s :
  spfs_inode_SLAB s = Some c → 0 ∉ kv_pending (m_view s) →
  kv_used (m_view s) ⊆ list_to_set (kv_pending (m_view s)) →
  ∃ g, spfs_destroy_inode_SLAB (Some c) s = Ok tt (ModSt (Some c) g) ∧
    g_view g = set_caches (delete c (kv_caches (m_view s))) (set_pending [] (set_used ∅ (m_view s))).
Proof using ML.
  intros Hc H0 Hused. destruct (rcu_barrier_ok c s Hc H0) as (g & E & Hg).
  replace (kv_used (m_view s) ∖ list_to_set (kv_pending (m_view s))) with (∅ : gset Z) in Hg by set_solver.
  exists (g_cache_destroy g c). split.
  - unfold spfs_destroy_inode_SLAB. by rewrite (bind_ok _ _ _ _ _ E).
  - by rewrite g_destroy_view, Hg by by rewrite Hg.
Qed.

(** Every inode whose callback is due is one the slab has given out. *)
Lemma loaded_pending base s : loaded base s → 0 ∉ kv_pending (m_view s).
Proof using. intros [_ _ _ Hp _ H0] Hin. apply H0, Hp. by apply elem_of_list_to_set. Qed.

Lemma alloc_inode_ok c s o s' :
  spfs_inode_SLAB s = Some c → kv_caches (m_view s) !! c = Some spfs_inode_init_once →
  spfs_alloc_inode s = Ok (Some o) s' →
  o ≠ 0 ∧ (o ∉ kv_used (m_view s)) ∧ spfs_inode_SLAB s' = Some c ∧
  m_view s' = take_object spfs_inode_init_once o (m_view s).
Proof using ML.
  intros Hc Hca E. unfold spfs_alloc_inode in E. erewrite bind_ok in E by done. rewrite Hc in E.
  unfold zoom, kmem_cache_alloc in E. cbn in E. destruct (g_cache_alloc _ _) as [[o' g]|] eqn:Ea; [|done].
  injection E as <- <-. by destruct (g_alloc_view (m_kernel s) c spfs_inode_init_once o' g) as (? & ? & ?).
Qed.

Lemma alloc_inode_none s s' : spfs_alloc_inode s = Ok None s' → s' = s.
Proof using.
  unfold spfs_alloc_inode. erewrite bind_ok by done. destruct s as [[c|] g]; [|done].
  unfold zoom, kmem_cache_alloc. cbn. destruct (g_cache_alloc _ _) as [[o' g']|]; [done|]. by intros [= <-].
Qed.

Lemma loaded_step base s s' : mod_step s s' → loaded base s → loaded base s'.
Proof using ML.
  intros Hs Hld. pose proof (loaded_pending _ _ Hld) as H0. destruct Hs as [s r s' E|s o i g Ho Hg|s o s' Ho Hno E|s s' E];
    destruct Hld as [(c & Hc & Hb & Hca) Hr Hp Hpu Hu Hn].
  - destruct r as [o|].
    + destruct (alloc_inode_ok c s o s') as (Ho & Hou & Hc' & Hv);
        [done|rewrite Hca; apply lookup_insert_eq|done|].
      split; rewrite ?Hv; cbn; [by exists c|done|done|set_solver..].
    + assert (s' = s) as -> by (by eapply alloc_inode_none). split; try done. by exists c.
  - split; unfold m_view; cbn [m_kernel spfs_inode_SLAB]; rewrite ?Hg; try done. by exists c.
  - injection E as <-. assert (m_view (ModSt (spfs_inode_SLAB s) (g_call_rcu (m_kernel s) o)) =
      set_pending (kv_pending (m_view s) ++ [o]) (m_view s)) as Hv by apply g_call_rcu_view.
    split; cbn [lset lget m_kernel_lens]; rewrite ?Hv; cbn; try done; [by exists c| |set_solver].
    apply NoDup_app. split_and!; [done|set_solver|apply NoDup_singleton].
  - destruct (rcu_barrier_ok c s Hc H0) as (g & E' & Hg). rewrite E in E'. injection E' as ->.
    change (g_view g) with (m_view (ModSt (Some c) g)) in Hg.
    split; rewrite ?Hg; cbn; [by exists c|done|constructor|set_solver..].
Qed.

Lemma loaded_steps base s s' : rtc mod_step s s' → loaded base s → loaded base s'.
Proof using ML. induction 1; eauto using loaded_step. Qed.

Lemma spfs_exit_ok base s :
  loaded base s → kv_used (m_view s) ⊆ list_to_set (kv_pending (m_view s)) →
  ∃ s', spfs_exit s = Ok tt s' ∧
    kv_caches (m_view s') = base ∧ kv_registered (m_view s') = false ∧ kv_pending (m_view s') = [] ∧
    kv_used (m_view s') = ∅.
Proof using ML.
  intros Hld Hback. pose proof (loaded_pending _ _ Hld) as H0. destruct Hld as [(c & Hc & Hb & Hca) Hr _ _ _ _].
  destruct s as [sl k]. cbn in Hc. subst sl. rewrite m_view_eq in *.
  destruct (g_unregister_view k) as [Hres Hv].
  destruct (destroy_ok c (ModSt (Some c) (snd (g_unregister k)))) as (g & E & Hg);
    [done|by rewrite m_view_eq, Hv..|]. rewrite !m_view_eq, Hv in Hg.
  exists (ModSt (Some c) g). rewrite m_view_eq, Hg. split_and!; cbn; try done.
  - rewrite Hca. by apply delete_insert_id.
  - rewrite Hres by done. by rewrite andb_false_r.
Qed.

Lemma spfs_init_cases s :
  unloaded s → kv_registered (m_view s) = false →
  (∃ s', spfs_init s = Ok tt s' ∧ loaded (kv_caches (m_view s)) s') ∨
  (∃ e s', spfs_init s = Err e s' ∧ e ≠ 0 ∧ kv_caches (m_view s') = kv_caches (m_view s) ∧
     kv_registered (m_view s') = false ∧ kv_pending (m_view s') = [] ∧ kv_used (m_view s') = ∅).
Proof using ML.
  destruct s as [sl k]. rewrite m_view_eq. intros [Hp Hu] Hr. rewrite m_view_eq in Hp, Hu.
  unfold spfs_init. destruct (g_cache_create k spfs_inode_init_once) as [[c g]|] eqn:E; cycle 1.
  { right. exists (-ENOMEM), (ModSt None k). split; [|by rewrite m_view_eq].
    unfold mbind, M_bind, zoom, spfs_create_inode_SLAB. cbn. by rewrite E. }
  destruct (g_create_view _ _ _ _ E) as [Hc Hv]. destruct (g_register_view g) as [_ Hv2].
  rewrite Hv in Hv2. cbn in Hv2. erewrite bind_ok; cycle 1.
  { unfold zoom, spfs_create_inode_SLAB. cbn [lget m_kernel_lens m_kernel]. by rewrite E. }
  do 2 erewrite bind_ok by done. cbn [lset lget m_kernel_lens m_slab_lens m_kernel spfs_inode_SLAB].
  rewrite Hr in Hv2. cbn [orb] in Hv2. destruct (decide (fst (g_register g) = 0)) as [Hres|Hres]; [left|right].
  2:{ rewrite bool_decide_eq_false_2 in Hv2 by done. rewrite bool_decide_eq_true_2 by done.
    destruct (destroy_ok c (ModSt (Some c) (snd (g_register g)))) as (g' & E' & Hg');
      [done|rewrite m_view_eq, Hv2; cbn; rewrite Hp; set_solver|rewrite m_view_eq, Hv2; cbn; rewrite Hu; set_solver|].
    rewrite !m_view_eq, Hv2 in Hg'. cbn in Hg'.
    exists (fst (g_register g)), (ModSt (Some c) g'). rewrite m_view_eq, Hg'. split.
    + erewrite bind_ok by done. cbn [spfs_inode_SLAB]. by rewrite (bind_ok _ _ _ _ _ E').
    + cbn. split_and!; try done; by apply delete_insert_id. }
  rewrite bool_decide_eq_true_2 in Hv2 by done. rewrite bool_decide_eq_false_2 by lia.
  eexists. split; [reflexivity|].
  split; rewrite ?m_view_eq, ?Hv2; cbn; rewrite ?Hp, ?Hu; [by exists c|done|constructor|set_solver..].
Qed.

(** C36: loading and unloading are balanced.  From the state of a loaded module, whatever
    the VFS has done with inodes since, unloading succeeds once the VFS has given back
    every inode, as it has when nothing is mounted, even if their callbacks are still to
    run: they are returned to the slab first, so that it is empty when it is destroyed, as
    [kmem_cache_destroy] asks for; then the file system is no longer registered, the caches
    are those of before, and no callback is left that would run code of the module.  If
    loading fails, nothing of it stays. *)
Theorem module_lifetime s0 :
  unloaded s0 → kv_registered (m_view s0) = false →
  match spfs_init s0 with
  | Ok _ s1 => ∀ s, rtc mod_step s1 s → kv_used (m_view s) ⊆ list_to_set (kv_pending (m_view s)) →
      ∃ s', spfs_exit s = Ok tt s' ∧
        kv_caches (m_view s') = kv_caches (m_view s0) ∧ kv_registered (m_view s') = false ∧
        kv_pending (m_view s') = [] ∧ kv_used (m_view s') = ∅
  | Err e s1 => e ≠ 0 ∧ kv_caches (m_view s1) = kv_caches (m_view s0) ∧
      kv_registered (m_view s1) = false ∧ kv_pending (m_view s1) = [] ∧ kv_used (m_view s1) = ∅
  | Crash _ => False
  end.
Proof using ML.
  intros Hul Hr. destruct (spfs_init_cases s0 Hul Hr) as [(s1 & E & Hld)|(e & s1 & E & H)]; rewrite E; [|exact H].
  intros s Hs Hback. apply spfs_exit_ok; [|done]. by eapply loaded_steps.
Qed.

(** A grace period keeps the contents of every inode. *)
Lemma rcu_barrier_object base s s' o :
  loaded base s → rcu_barrier s = Ok tt s' →
  loaded base s' ∧ kv_pending (m_view s') = [] ∧ kv_built (m_view s') = kv_built (m_view s) ∧
  kv_used (m_view s') = kv_used (m_view s) ∖ list_to_set (kv_pending (m_view s)) ∧
  kv_object (m_view s') o = kv_object (m_view s) o.
Proof using ML.
  intros Hld E. split; [eapply loaded_step; [by eapply step_grace|done]|].
  pose proof (loaded_pending _ _ Hld) as H0. destruct Hld as [(c & Hc & _) _ _ _ _ _].
  destruct (rcu_barrier_ok c s Hc H0) as (g & E' & Hg). rewrite E in E'. injection E' as ->.
  by rewrite m_view_eq, Hg.
Qed.

(** C37: the slab hands out an inode as it was given back.  An inode the VFS frees is
    returned to the slab when the grace period ends, and not before; if the slab then
    hands it out again, it still has the first block, the capacity, the name and the
    mutex it had, because [spfs_inode_init_once] runs for new memory only. *)
Theorem alloc_inode_recycles base s o s1 s2 :
  loaded base s → o ∈ kv_used (m_view s) → o ∉ kv_pending (m_view s) →
  spfs_free_inode o s = Ok tt s1 → rcu_barrier s1 = Ok tt s2 →
  o ∈ kv_used (m_view s1) ∧ (o ∉ kv_used (m_view s2)) ∧
  ∀ o' s3, spfs_alloc_inode s2 = Ok (Some o') s3 →
    (o' ∉ kv_used (m_view s2)) ∧ kv_object (m_view s3) o = kv_object (m_view s) o ∧
    (o' ∉ kv_built (m_view s2) →
     let i := kv_object (m_view s3) o' in
     si_start i = 0 ∧ si_capacity i = 0 ∧ si_lock i = false ∧ si_name i = zeros SPOOKY_FS_NAME_MAX).
Proof using ML.
  intros Hld Ho Hnp E1 E2. assert (loaded base s1) as Hld1 by (eapply loaded_step; [by eapply step_free|done]).
  assert (m_view s1 = set_pending (kv_pending (m_view s) ++ [o]) (m_view s)) as Hv1.
  { destruct s as [sl k]. injection E1 as <-. apply g_call_rcu_view. }
  destruct (rcu_barrier_object base s1 s2 o Hld1 E2) as (Hld2 & _ & Hb2 & Hu2 & Ho2).
  rewrite Hv1 in Hb2, Hu2, Ho2. cbn in Hb2, Hu2, Ho2.
  split_and!; [by rewrite Hv1|rewrite Hu2; set_solver|]. intros o' s3 E3.
  destruct Hld2 as [(c & Hc & _ & Hca) _ _ _ _ _].
  destruct (alloc_inode_ok c s2 o' s3) as (_ & Hou & _ & Hv3); [done|rewrite Hca; apply lookup_insert_eq|done|].
  assert (o ∈ kv_built (m_view s2)) as Hbo by (rewrite Hb2; by apply Hld).
  rewrite Hv3. cbn. split_and!; [done| |].
  - rewrite bool_decide_eq_false_2 by (by intros [<- ?]). done.
  - intros Hno. by rewrite bool_decide_eq_true_2 by done.
Qed.
End lifetime.

(** ** A kernel that is its view: it reuses memory before it asks for more *)
#[export] Instance kview_kernel : ModuleKernel kview := {
  g_cache_create v ctor :=
    let c := fresh (dom (kv_caches v)) in Some (c, set_caches (<[c := ctor]> (kv_caches v)) v);
  g_cache_destroy v c := if decide (kv_used v = ∅) then set_caches (delete c (kv_caches v)) v else v;
  g_cache_alloc v c :=
    ctor ← kv_caches v !! c;
    let o := default (fresh ({[0]} ∪ kv_used v ∪ kv_built v))
               (head (elements (kv_built v ∖ ({[0]} ∪ kv_used v)))) in
    Some (o, take_object ctor o v);
  g_cache_free v c o := set_used (kv_used v ∖ {[o]}) v;
  g_inode_init_once i := i;
  g_call_rcu v o := set_pending (kv_pending v ++ [o]) v;
  g_rcu_due v := (kv_pending v, set_pending [] v);
  g_register v := if kv_registered v then (-16, v) else (0, set_registered true v);
  g_unregister v := if kv_registered v then (0, set_registered false v) else (-EINVAL, v);
  g_view v := v;
}.

Lemma kview_fresh (v : kview) o :
  o = default (fresh ({[0]} ∪ kv_used v ∪ kv_built v)) (head (elements (kv_built v ∖ ({[0]} ∪ kv_used v)))) →
  o ≠ 0 ∧ (o ∉ kv_used v).
Proof.
  destruct (elements _) as [|x l] eqn:E; cbn; intros ->.
  - pose proof (is_fresh ({[0]} ∪ kv_used v ∪ kv_built v)). set_solver.
  - assert (x ∈ elements (kv_built v ∖ ({[0]} ∪ kv_used v))) as Hx by (rewrite E; by left).
    apply elem_of_elements in Hx. set_solver.
Qed.

#[export] Instance kview_laws : ModuleKernelLaws kview.
Proof.
  split; cbn [g_cache_create g_cache_destroy g_cache_alloc g_cache_free g_call_rcu g_rcu_due
    g_register g_unregister g_view kview_kernel]; try done.
  - intros v ctor c v' [= <- <-]. split; [|done]. apply not_elem_of_dom, is_fresh.
  - intros v c Hu. by rewrite decide_True.
  - intros v c ctor o v' -> Ha. cbn in Ha. injection Ha as <- <-.
    destruct (kview_fresh v _ eq_refl). by split_and!.
  - intros [? ? ? ? ? []]; cbn; by split.
  - intros [? ? ? ? ? []]; cbn; by split.
Qed.

(** ** Concrete inputs *)
Definition no_module : mod_st kview :=
  ModSt None (KView ∅ ∅ ∅ (λ _, spfs_inode_init_once (MK := kview_kernel)
    (SpfsInode (Inode 0 0 0 0 0 0 0 0 0) false 0 0 [])) [] false).
Definition after {S A} (m : M S A) (s : S) : S := match m s with Ok _ s' | Err _ s' => s' | _ => s end.
Definition m_loaded : mod_st kview := after spfs_init no_module.
Definition m_alloc : mod_st kview := after spfs_alloc_inode m_loaded.
Definition m_freed : mod_st kview := after (spfs_free_inode 1) m_alloc.

Lemma m_freed_reached : rtc mod_step m_loaded m_freed.
Proof.
  eapply rtc_l; [eapply (step_alloc _ (Some 1) m_alloc); by vm_compute|].
  eapply rtc_l; [eapply (step_free _ 1 m_freed)|constructor].
  - apply (bool_decide_unpack _). by vm_compute.
  - apply (bool_decide_unpack _). by vm_compute.
  - done.
Qed.

Lemma module_lifetime_witness :
  ∃ s', rtc mod_step m_loaded m_freed ∧ spfs_exit m_freed = Ok tt s' ∧
    kv_registered (m_view s') = false ∧ kv_pending (m_view s') = [].
Proof.
  pose proof (module_lifetime no_module ltac:(by split) eq_refl) as H.
  assert (spfs_init no_module = Ok tt m_loaded) as E by reflexivity. rewrite E in H.
  destruct (H m_freed m_freed_reached) as (s' & E' & _ & Hr & Hp & _);
    [by apply (bool_decide_unpack _); vm_compute|].
  exists s'. split_and!; [exact m_freed_reached|exact E'|exact Hr|exact Hp].
Defined.

(** An inode is freed with its mutex left locked, and it is the one allocated next. *)
Definition m_locked : mod_st kview :=
  ModSt (spfs_inode_SLAB m_alloc)
    (set_object 1 (SpfsInode (Inode 7 0 0 0 0 0 0 0 0) true 3 9 []) (m_view m_alloc)).

Lemma m_locked_loaded : loaded ∅ m_locked.
Proof.
  split; [by exists 0|done|constructor|apply (bool_decide_unpack _); by vm_compute..].
Qed.

Lemma alloc_inode_recycles_witness :
  ∃ s1 s2 s3, spfs_free_inode 1 m_locked = Ok tt s1 ∧ rcu_barrier s1 = Ok tt s2 ∧
    spfs_alloc_inode s2 = Ok (Some 1) s3 ∧
    si_start (kv_object (m_view s3) 1) = 9 ∧ si_lock (kv_object (m_view s3) 1) = true.
Proof.
  pose (s1 := after (spfs_free_inode 1) m_locked). pose (s2 := after rcu_barrier s1).
  pose (s3 := after spfs_alloc_inode s2).
  assert (spfs_free_inode 1 m_locked = Ok tt s1) as E1 by reflexivity.
  assert (rcu_barrier s1 = Ok tt s2) as E2 by (by vm_compute).
  assert (spfs_alloc_inode s2 = Ok (Some 1) s3) as E3 by (by vm_compute).
  destruct (alloc_inode_recycles ∅ m_locked 1 s1 s2 m_locked_loaded) as (_ & _ & H);
    [apply (bool_decide_unpack _); by vm_compute|apply (bool_decide_unpack _); by vm_compute|exact E1|exact E2|].
  destruct (H 1 s3 E3) as (_ & Hobj & _).
  exists s1, s2, s3. rewrite Hobj. split_and!; [exact E1|exact E2|exact E3|by vm_compute|by vm_compute].
Defined.
