(* ===== verification/Dir.v ===== *)
(** * sp.c, directories

    A directory is a chain of blocks: a 12-byte header (magic, next block, number of
    children), then the children's inode numbers.  [spfs_add_child] stores the number of
    child [i] in four bytes at [12 + 8 * i]; [spfs_for_all_children] reads numbers four
    bytes apart and skips those that are 0. *)
From S2P Require Import Prelude Util Buffers FreeList Inode Bnode Btree Super Vfs.

Record spfs_dir_block := DirBlock { db_next : Z; db_children : Z }.

(** The third field's error code is the positive [EINVAL]. *)
Definition spfs_parse_dir_block : M cursor spfs_dir_block :=
  magic ← or_err (-EINVAL) spfs_sb_read_u32;
  next ← or_err (-EINVAL) spfs_sb_read_sector;
  children ← or_err EINVAL spfs_sb_read_u32;
  if bool_decide (magic ≠ SPFS_MAGIC) then err (-EINVAL) else mret (DirBlock next children).

Definition spfs_make_dir_block (block : spfs_dir_block) : M cursor unit :=
  or_fail (-EINVAL) (spfs_sb_write_u32 SPFS_MAGIC);;
  or_fail (-EINVAL) (spfs_sb_write_u32 (db_next block));;
  or_fail EINVAL (spfs_sb_write_u32 (db_children block));;
  mret tt.

Definition spfs_dir_is_full (block : spfs_dir_block) : bool := bool_decide (db_children block = 100).

(** ** C strings in memory of known extent; [None] is a read outside of it *)
Fixpoint strlen (s : list byte) : option Z :=
  match s with
  | [] => None
  | c :: s => if decide (c = x00) then Some 0 else n ← strlen s; Some (n + 1)
  end.

Fixpoint strcmp (s t : list byte) : option Z :=
  match s, t with
  | c :: s, c' :: t =>
      if decide (c = c') then if decide (c = x00) then Some 0 else strcmp s t
      else Some (Z_of_byte c - Z_of_byte c')
  | _, _ => None
  end.

(** [struct dir_context] and the functions that fill it, kernel code *)
Class DirContext (X : Type) := {
  dx_pos : X → Z;
  dx_set_pos : X → Z → X;
  dx_emit : X → list byte → Z → Z → bool * X;
  dx_emit_dots : X → bool * X;
}.

(** [dir_emit] leaves the position to its caller. *)
Class DirContextLaws (X : Type) {XX : DirContext X} : Prop := {
  dx_pos_set : ∀ x pos, dx_pos (dx_set_pos x pos) = pos;
  dx_pos_emit : ∀ x name ino type ok x', dx_emit x name ino type = (ok, x') → dx_pos x' = dx_pos x;
}.

Section dir.
Context {D K : Type} {B : BufferCache D} {KK : Kernel K}.
Abbreviation VM := (M (vfs_st D K)).

(** ** Adding a child *)
Definition spfs_dir_write_child (n start idx child : Z) : M (bufs D) unit :=
  let sz := 8 in
  let offset := u64 (start + u64 (idx * sz)) in
  b ← bh_data n;
  rem ← spfs_sb_remaining b offset;
  if bool_decide (rem < sz) then err (-EIO)
  else on_bh n offset (or_fail (-EIO) (spfs_sb_write_u32 child));; mret tt.

(** The result is the block (0 for none), [*bh_pos] and [*block]. *)
Definition spfs_dir_block_alloc (bh_pos : Z) : M (btree_st D) (Z * Z * spfs_dir_block) :=
  result ← zoom t_free_lens (spfs_free_alloc 1);
  if bool_decide (result = 0) then mret (0, bh_pos, DirBlock 0 0)
  else
    let block := DirBlock 0 0 in
    ok ← zoom t_bufs_lens (sb_bread result);
    if negb ok then mret (0, bh_pos, block)
    else
      res ← catch (zoom t_bufs_lens (on_bh result bh_pos (spfs_make_dir_block block)));
      match res with
      | inl _ => mret (0, bh_pos, block)
      | inr (_, bh_pos) => mret (result, bh_pos, block)
      end.

(** What both branches of [spfs_add_child] do with a block that has room; the result of
    [spfs_dir_write_child] is overwritten by that of [spfs_make_dir_block], and that one
    by 0. *)
Definition dir_append (n bh_pos : Z) (block : spfs_dir_block) (child : Z) : M (bufs D) unit :=
  catch (spfs_dir_write_child n bh_pos (db_children block) child);;
  let block := DirBlock (db_next block) (u32 (db_children block + 1)) in
  catch (on_bh n 0 (spfs_make_dir_block block));;
  mark_buffer_dirty n.

Fixpoint add_child_loop (fuel : nat) (parent child start : Z) : VM Z :=
  match fuel with
  | O => crashes NoFuel
  | S fuel =>
      if bool_decide (start ≠ 0) then
        ok ← zoom v_bufs_lens (sb_bread start);
        if negb ok then mret (-EIO)
        else
          r ← catch (zoom v_bufs_lens (in_bh start 0 spfs_parse_dir_block));
          match r with
          | inl _ => mret (-EINVAL)
          | inr (block, bh_pos) =>
              if negb (spfs_dir_is_full block) then
                zoom v_bufs_lens (dir_append start bh_pos block child);;
                zoom v_bufs_lens (brelse start);;
                mret 0
              else
                zoom v_bufs_lens (brelse start);;
                add_child_loop fuel parent child (db_next block)
          end
      else
        a ← zoom v_fs_lens (spfs_dir_block_alloc 0);
        let '(result, bh_pos, block) := a in
        upd_inode parent (λ i, set_extent result (si_capacity i) i);;
        if bool_decide (result = 0) then mret (-EINVAL)
        else
          zoom v_bufs_lens (dir_append result bh_pos block child);;
          zoom v_bufs_lens (brelse result);;
          mret 0
  end.

Definition spfs_add_child (e : env) (parent child : Z) : VM unit :=
  mutex_lock (v_lock parent);;
  upd_inode parent (λ i, set_extent (si_start i) (u32 (si_capacity i + 1)) i);;
  mark_inode_dirty parent;;
  p ← get_inode parent;
  c ← get_inode child;
  res ← add_child_loop (e_fuel e) parent (i_ino (i_inode c)) (si_start p);
  mutex_unlock (v_lock parent);;
  if bool_decide (res = 0) then mret tt else err res.

(** ** Creating files and directories *)
Definition spfs_create (e : env) (parent : Z) (subject : dentry) (mode : Z) : VM dentry :=
  BUG_ON (negb (S_ISREG mode));;
  subject ← spfs_generic_create e parent subject mode;
  match d_inode subject with
  | None => crashes BugOn
  | Some inode => spfs_add_child e parent inode;; mret subject
  end.

Definition spfs_mkdir (e : env) (parent : Z) (subject : dentry) (mode : Z) : VM dentry :=
  BUG_ON (negb (S_ISDIR mode));;
  subject ← spfs_generic_create e parent subject mode;
  match d_inode subject with
  | None => crashes BugOn
  | Some inode =>
      upd_inode parent (λ i, set_inode (k_inc_nlink (i_inode i)) i);;
      spfs_add_child e parent inode;;
      mret subject
  end.

(** ** Walking the children *)
(** [false] stops the walk; the closure is threaded through. *)
Definition for_all_cb (C : Type) : Type := C → inode_ptr → VM (C * bool).

(** The [while] over one block: [None] at its end, [Some res] for [goto Lunlock] *)
Fixpoint block_children {C} (fuel : nat) (e : env) (f : for_all_cb C) (n bh_pos i children : Z)
    (c : C) : VM (C * option Z) :=
  match fuel with
  | O => crashes NoFuel
  | S fuel =>
      if bool_decide (i < children) then
        r ← zoom v_bufs_lens (in_bh n bh_pos spfs_sb_read_ino);
        let '(cur_ino, bh_pos) := r in
        match cur_ino with
        | None => mret (c, Some (-EINVAL))
        | Some cur_ino =>
            if bool_decide (cur_ino ≠ 0) then
              cur_child ← spfs_inode_by_id e cur_ino;
              match cur_child with
              | PErr _ => block_children fuel e f n bh_pos (i + 1) children c
              | _ =>
                  r ← f c cur_child;
                  let '(c, go) := r in
                  if negb go then
                    zoom v_bufs_lens (brelse n);;
                    mret (c, Some 0)
                  else block_children fuel e f n bh_pos (i + 1) children c
              end
            else block_children fuel e f n bh_pos i children c
        end
      else mret (c, None)
  end.

Fixpoint chain_children {C} (fuel : nat) (e : env) (f : for_all_cb C) (child_list : Z) (c : C) :
    VM (C * Z) :=
  match fuel with
  | O => crashes NoFuel
  | S fuel =>
      if bool_decide (child_list = 0) then mret (c, 0)
      else
        ok ← zoom v_bufs_lens (sb_bread child_list);
        if negb ok then mret (c, -EIO)
        else
          r ← catch (zoom v_bufs_lens (in_bh child_list 0 spfs_parse_dir_block));
          match r with
          | inl res => mret (c, res)
          | inr (block, bh_pos) =>
              r ← block_children (e_fuel e) e f child_list bh_pos 0 (db_children block) c;
              match r with
              | (c, Some res) => mret (c, res)
              | (c, None) =>
                  zoom v_bufs_lens (brelse child_list);;
                  chain_children fuel e f (db_next block) c
              end
          end
  end.

(** The closure's final contents, and the return code *)
Definition spfs_for_all_children {C} (e : env) (parent : Z) (c : C) (f : for_all_cb C) : VM (C * Z) :=
  p ← get_inode parent;
  if negb (S_ISDIR (i_mode (i_inode p))) then mret (c, -EINVAL)
  else
    mutex_lock (v_lock parent);;
    p ← get_inode parent;
    r ← chain_children (e_fuel e) e f (si_start p) c;
    mutex_unlock (v_lock parent);;
    mret r.

(** ** Lookup *)
Record spfs_find_inode_name_data := FindData { fd_name : list byte; fd_result : option Z }.

Definition spfs_inode_by_name_cb : for_all_cb spfs_find_inode_name_data := λ data cur,
  match cur with
  | PInode n =>
      cur ← get_inode n;
      match strcmp (si_name cur) (fd_name data) with
      | None => crashes OutOfBounds
      | Some r =>
          if bool_decide (r = 0) then mret (FindData (fd_name data) (Some n), false)
          else mret (data, true)
      end
  | _ => crashes NullDeref
  end.

(** The kernel terminates [d_name] with a 0 byte. *)
Definition spfs_inode_by_name (e : env) (parent : Z) (child : dentry) : VM (option Z) :=
  r ← spfs_for_all_children e parent (FindData (d_name child ++ [x00]) None) spfs_inode_by_name_cb;
  mret (fd_result r.1).

(** [None] for NULL *)
Definition spfs_lookup (e : env) (parent : Z) (d : dentry) : VM (option dentry) :=
  result ← spfs_inode_by_name e parent d;
  match result with
  | Some n => mret (Some (k_d_add d n))
  | None => mret None
  end.

(** ** Listing *)
Context {X : Type} {XX : DirContext X}.
Record spfs_iterate_ctx := IterateCtx { ic_dir : X; ic_pos : Z }.

Definition spfs_iterate_cb : for_all_cb spfs_iterate_ctx := λ ctx cur,
  match cur with
  | PInode n =>
      cur ← get_inode n;
      let ino := i_ino (i_inode cur) in
      match strlen (si_name cur) with
      | None => crashes OutOfBounds
      | Some nlen =>
          let name := sub 0 nlen (si_name cur) in
          if bool_decide (ic_pos ctx = dx_pos (ic_dir ctx)) then
            let type := Z.land (Z.shiftr (i_mode (i_inode cur)) 12) 15 in
            let '(result, dir) := dx_emit (ic_dir ctx) name ino type in
            let dir := if (result : bool) then dx_set_pos dir (dx_pos dir + 1) else dir in
            mret (IterateCtx dir (ic_pos ctx + 1), result)
          else mret (IterateCtx (ic_dir ctx) (ic_pos ctx + 1), true)
      end
  | _ => crashes NullDeref
  end.

Definition spfs_iterate (e : env) (parent : Z) (dir_ctx : X) : VM X :=
  let '(ok, dir_ctx) := dx_emit_dots dir_ctx in
  if negb ok then err (-EIO)
  else
    p ← get_inode parent;
    if bool_decide (u32 (si_capacity p + 2) ≤ dx_pos dir_ctx) then mret dir_ctx
    else
      r ← spfs_for_all_children e parent (IterateCtx dir_ctx 2) spfs_iterate_cb;
      mret (ic_dir r.1).
End dir.

(** ** Specification: the contents of a directory block *)
Definition dir_entry_bytes (id : Z) : list byte := be_split 4 id ++ zeros 4.
Definition dir_header (next children : Z) : list byte :=
  be_split 4 SPFS_MAGIC ++ be_split 4 next ++ be_split 4 children.
Definition dir_entries (ids : list Z) : list byte := concat (dir_entry_bytes <$> ids).
Definition dir_block (next : Z) (ids : list Z) (size : Z) : list byte :=
  dir_header next (zlen ids) ++ dir_entries ids ++ zeros (size - (12 + 8 * zlen ids)).

(** The inode numbers a directory block can hold *)
Definition dir_id (id : Z) : Prop := 0 < id < 2 ^ 32.

Lemma zlen_dir_header next children : zlen (dir_header next children) = 12.
Proof. unfold dir_header. by zlen_simpl. Qed.
Lemma zlen_dir_entry id : zlen (dir_entry_bytes id) = 8.
Proof. unfold dir_entry_bytes. slen. Qed.
Lemma dir_entries_cons id ids : dir_entries (id :: ids) = dir_entry_bytes id ++ dir_entries ids.
Proof. done. Qed.
Lemma dir_entries_app ids ids' : dir_entries (ids ++ ids') = dir_entries ids ++ dir_entries ids'.
Proof. unfold dir_entries. by rewrite fmap_app, concat_app. Qed.
Lemma zlen_dir_entries ids : zlen (dir_entries ids) = 8 * zlen ids.
Proof.
  induction ids as [|id ids IH]; [done|]. rewrite dir_entries_cons, zlen_app, zlen_dir_entry, IH.
  rewrite zlen_cons. lia.
Qed.
#[export] Hint Rewrite zlen_dir_header zlen_dir_entry zlen_dir_entries : zlen.

Lemma zlen_dir_block next ids size :
  12 + 8 * zlen ids ≤ size → zlen (dir_block next ids size) = size.
Proof. intros. pose proof (zlen_nonneg ids). unfold dir_block. slen. Qed.

Lemma parse_dir_block_eq b :
  12 ≤ zlen b →
  spfs_parse_dir_block (Cursor b 0) =
    if bool_decide (be_combine (sub 0 4 b) ≠ SPFS_MAGIC) then Err (-EINVAL) (Cursor b 12)
    else Ok (DirBlock (be_combine (sub 4 4 b)) (be_combine (sub 8 4 b))) (Cursor b 12).
Proof. intros. unfold spfs_parse_dir_block. do 3 codec_ok. by case_bool_decide. Qed.

Lemma make_dir_block_eq block b :
  12 ≤ zlen b →
  spfs_make_dir_block block (Cursor b 0) =
    Ok tt (Cursor (splice 0 (dir_header (db_next block) (db_children block)) b) 12).
Proof.
  intros. unfold spfs_make_dir_block. do 3 codec_ok. unfold dir_header. by rewrite <-!app_assoc.
Qed.

Lemma parse_dir_block_ok next ids size :
  12 + 8 * zlen ids ≤ size → 0 ≤ next → next < 2 ^ 32 → zlen ids < 2 ^ 32 →
  spfs_parse_dir_block (Cursor (dir_block next ids size) 0) =
    Ok (DirBlock next (zlen ids)) (Cursor (dir_block next ids size) 12).
Proof.
  intros Hs Hn Hn' Hl. pose proof (zlen_nonneg ids).
  rewrite parse_dir_block_eq by (rewrite zlen_dir_block; lia).
  assert (H4 : ∀ v, 0 ≤ v → v < 2 ^ 32 → be_combine (be_split 4 v) = v).
  { intros. rewrite be_combine_split. by apply Z.mod_small. }
  assert (sub 0 4 (dir_block next ids size) = be_split 4 SPFS_MAGIC) as ->
    by (unfold dir_block, dir_header; rewrite <-!app_assoc; sub_field; done).
  assert (sub 4 4 (dir_block next ids size) = be_split 4 next) as ->
    by (unfold dir_block, dir_header; rewrite <-!app_assoc; sub_field; done).
  assert (sub 8 4 (dir_block next ids size) = be_split 4 (zlen ids)) as ->
    by (unfold dir_block, dir_header; rewrite <-!app_assoc; sub_field; done).
  rewrite !H4 by (done || lia). done.
Qed.

(** ** Appending to a block *)
Section dir_facts.
Context {D : Type} {B : BufferCache D} {L : BufferCacheLaws D}.

Lemma dir_header_over next children children' rest :
  splice 0 (dir_header next children') (dir_header next children ++ rest) =
  dir_header next children' ++ rest.
Proof using. rewrite splice_app_l by slen. by rewrite splice_all by slen. Qed.

Lemma dir_block_store next ids child size :
  12 + 8 * zlen (ids ++ [child]) ≤ size →
  splice 0 (dir_header next (zlen ids + 1))
    (splice (12 + 8 * zlen ids) (be_split 4 child) (dir_block next ids size)) =
  dir_block next (ids ++ [child]) size.
Proof using.
  rewrite zlen_app. change (zlen [child]) with 1. intros Hs. pose proof (zlen_nonneg ids).
  unfold dir_block. rewrite (app_assoc _ (dir_entries ids)), splice_app_r by slen.
  rewrite zlen_app, zlen_dir_header, zlen_dir_entries, Z.sub_diag.
  rewrite splice_zeros by slen. rewrite <-app_assoc, dir_header_over.
  rewrite zlen_app. change (zlen [child]) with 1. f_equal.
  rewrite dir_entries_app, <-app_assoc. f_equal.
  unfold dir_entries. cbn [fmap list_fmap concat]. rewrite app_nil_r. unfold dir_entry_bytes.
  rewrite <-app_assoc. f_equal. rewrite zlen_be_split, <-zeros_add by lia. f_equal. lia.
Qed.

Lemma on_bh_bufs {A} n p (m : M cursor A) (d : D) r b a c :
  bc_data d n = Some b → m (Cursor b p) = Ok a c →
  on_bh n p m (Bufs d r) = Ok (a, pos c) (Bufs (bc_store d n (bh c)) r).
Proof using. intros. by apply (on_bh_ok _ _ _ (Bufs d r) b). Qed.

Lemma spfs_dir_write_child_ok (d : D) n start idx child r b :
  bc_data d n = Some b → 0 ≤ start → start < 2 ^ 32 → 0 ≤ idx → idx < 2 ^ 32 →
  let off := start + 8 * idx in
  spfs_dir_write_child n start idx child (Bufs d r) =
    if bool_decide (zlen b < off) then Crash BugOn
    else if bool_decide (zlen b < off + 8) then Err (-EIO) (Bufs d r)
    else Ok tt (Bufs (bc_store d n (splice off (be_split 4 child) b)) r).
Proof using.
  intros Hb Hs Hs' Hi Hi' off. unfold spfs_dir_write_child.
  rewrite (u64_small (idx * 8)), u64_small by lia. replace (start + idx * 8) with off by lia.
  assert (E1 : bh_data n (Bufs d r) = Ok b (Bufs d r)) by (unfold bh_data; cbn; by rewrite Hb).
  exec E1. case_bool_decide.
  { apply bind_crash. by apply sb_remaining_bug. }
  erewrite bind_ok by (apply sb_remaining_ok; unfold b_size; lia). unfold b_size.
  case_bool_decide; case_bool_decide; try lia; [done|].
  erewrite bind_ok; cycle 1.
  { apply (on_bh_bufs _ _ _ _ _ b tt (Cursor (splice off (be_split 4 child) b) (off + 4)));
      [done|]. unfold or_fail. erewrite bind_ok; [|apply (field_write_ok FU32); cbn; lia].
    done. }
  done.
Qed.

(** A block with room: the child is appended. *)
Lemma dir_append_ok (d : D) n next ids child size r :
  bc_data d n = Some (dir_block next ids size) → 12 + 8 * zlen (ids ++ [child]) ≤ size →
  zlen ids < 2 ^ 31 →
  ∃ d', dir_append n 12 (DirBlock next (zlen ids)) child (Bufs d r) = Ok tt (Bufs d' r) ∧
    dev_upd d n (dir_block next (ids ++ [child]) size) d'.
Proof using L.
  intros Hb Hs Hl. pose proof (zlen_nonneg ids). pose proof Hs as Hs'.
  rewrite zlen_app in Hs'. change (zlen [child]) with 1 in Hs'.
  assert (zlen (dir_block next ids size) = size) as Hz by (apply zlen_dir_block; lia).
  unfold dir_append. cbn [db_children db_next]. set (b := dir_block next ids size) in *.
  erewrite bind_ok; cycle 1.
  { apply catch_ok. rewrite (spfs_dir_write_child_ok _ _ _ _ _ _ b) by (done || lia).
    rewrite !bool_decide_eq_false_2 by lia. reflexivity. }
  set (b1 := splice _ _ b) in *. rewrite u32_small by lia.
  assert (zlen b1 = size) as Hz1 
    by (unfold b1; rewrite zlen_splice; rewrite ?zlen_be_split; lia).
  assert (Hb1 : bc_data (bc_store d n b1) n = Some b1) by (eapply bc_data_store; [done|lia]).
  erewrite bind_ok; cycle 1.
  { apply catch_ok, (on_bh_bufs _ _ _ _ _ b1); [done|]. apply make_dir_block_eq. lia. }
  eexists. split; [reflexivity|]. cbn [bh db_next db_children].
  apply dev_upd_dirty. eapply dev_upd_trans; [apply (dev_upd_store d n b b1 Hb); lia|].
  rewrite <-(dir_block_store next ids child size) by done. fold b b1.
  apply (dev_upd_store _ _ b1); [done|]. rewrite zlen_splice; rewrite ?zlen_dir_header; lia.
Qed.

(** A block without room for the entry: the count grows, and nothing else. *)
Lemma dir_append_short (d : D) n next ids child size r :
  bc_data d n = Some (dir_block next ids size) → 12 + 8 * zlen ids ≤ size →
  size < 12 + 8 * (zlen ids + 1) → zlen ids < 2 ^ 31 →
  ∃ d', dir_append n 12 (DirBlock next (zlen ids)) child (Bufs d r) = Ok tt (Bufs d' r) ∧
    dev_upd d n (dir_header next (zlen ids + 1) ++ drop 12 (dir_block next ids size)) d'.
Proof using L.
  intros Hb Hs Hs' Hl. pose proof (zlen_nonneg ids).
  assert (zlen (dir_block next ids size) = size) as Hz by (apply zlen_dir_block; lia).
  unfold dir_append. cbn [db_children db_next]. set (b := dir_block next ids size) in *.
  erewrite bind_ok; cycle 1.
  { apply catch_err. rewrite (spfs_dir_write_child_ok _ _ _ _ _ _ b) by (done || lia).
    rewrite bool_decide_eq_false_2, bool_decide_eq_true_2 by lia. reflexivity. }
  rewrite u32_small by lia. erewrite bind_ok; cycle 1.
  { apply catch_ok, (on_bh_bufs _ _ _ _ _ b); [done|]. apply make_dir_block_eq. lia. }
  eexists. split; [reflexivity|]. cbn [bh db_next db_children].
  assert (splice 0 (dir_header next (zlen ids + 1)) b = dir_header next (zlen ids + 1) ++ drop 12 b) as ->
    by reflexivity.
  apply dev_upd_dirty, (dev_upd_store d n b); [done|].
  rewrite zlen_app, zlen_dir_header. change 12%nat with (Z.to_nat 12). rewrite zlen_drop; lia.
Qed.

(** An entry that would start behind the block: the BUG_ON of [spfs_sb_remaining] *)
Lemma dir_append_bug (d : D) n next children child r b :
  bc_data d n = Some b → 0 ≤ children → children < 2 ^ 32 → zlen b < 12 + 8 * children →
  dir_append n 12 (DirBlock next children) child (Bufs d r) = Crash BugOn.
Proof using.
  intros. unfold dir_append. apply bind_crash. unfold catch. cbn [db_children].
  rewrite (spfs_dir_write_child_ok _ _ _ _ _ _ b) by (done || lia).
  by rewrite bool_decide_eq_true_2 by lia.
Qed.
End dir_facts.

(** ** Specification: the chain of blocks of a directory *)
(** The blocks from [start] on with the numbers in each; a fuel above [k] is enough for
    every loop over them. *)
Inductive dir_chain {D} `{BufferCache D} (d : D) (sz : Z) : Z → list (Z * list Z) → nat → Prop :=
| dir_chain_end : dir_chain d sz 0 [] 0
| dir_chain_block start next ids rest k :
    start ≠ 0 → bc_data d start = Some (dir_block next ids sz) →
    12 + 8 * zlen ids ≤ sz → 0 ≤ next → next < 2 ^ 32 → zlen ids < 2 ^ 31 →
    Forall dir_id ids → dir_chain d sz next rest k →
    dir_chain d sz start ((start, ids) :: rest) (S (2 * length ids + k)).

Definition dir_children (blocks : list (Z * list Z)) : list Z := concat (snd <$> blocks).

(** A fold that the callback can stop: what a walk over the children computes *)
Fixpoint visit {C} (g : C → Z → C * bool) (ids : list Z) (c : C) : C * bool :=
  match ids with
  | [] => (c, true)
  | id :: ids => let r := g c id in if r.2 then visit g ids r.1 else (r.1, false)
  end.

Lemma visit_app {C} (g : C → Z → C * bool) ids ids' c :
  visit g (ids ++ ids') c =
    let r := visit g ids c in if r.2 then visit g ids' r.1 else r.
Proof.
  revert c. induction ids as [|id ids IH]; intros c; [done|]. cbn [app visit].
  destruct (g c id) as [c' [|]]; cbn; [apply IH|done].
Qed.

Section walks.
Context {D K : Type} {B : BufferCache D} {L : BufferCacheLaws D} {KK : Kernel K} {KL : KernelLaws K}.
Implicit Types (s : vfs_st D K).

Definition with_bufs (b : bufs D) s : vfs_st D K := lset v_bufs_lens b s.

(** [f] only computes on the children [ids] of [s], for closures in [P]: it stores
    nothing. *)
Definition only_reads {C} s (P : C → Prop) (f : for_all_cb C) (g : C → Z → C * bool)
    (ids : list Z) : Prop :=
  ∀ b c id, id ∈ ids → P c →
    f c (PInode id) (with_bufs b s) = Ok (g c id) (with_bufs b s) ∧ P (g c id).1.

Lemma only_reads_visit {C} s (P : C → Prop) f g ids c :
  only_reads s P f g ids → P c → P (visit g ids c).1.
Proof using.
  revert c. induction ids as [|id ids IH]; intros c Hf Hc; [done|]. cbn [visit].
  assert (P (g c id).1) by (eapply Hf; [exact (t_bufs (v_fs s))|by left|done]).
  destruct (g c id) as [c' [|]]; [|done]. apply IH; [|done]. intros ????. apply Hf. by right.
Qed.

Lemma read_ino_at (b : list byte) p v :
  0 ≤ p → p + 8 ≤ zlen b → sub p 4 b = be_split 4 v → 0 ≤ v → v < 2 ^ 32 →
  spfs_sb_read_ino (Cursor b p) = Ok (Some v) (Cursor b (p + 4)).
Proof using.
  intros Hp Hb Hs Hv Hv'. etrans; [apply (field_read_ok FIno); cbn; lia|].
  cbn [field_size]. change (Z.of_nat 4) with 4. rewrite Hs, be_combine_split.
  by rewrite Z.mod_small.
Qed.

Lemma in_bh_bufs {A} n p (m : M cursor A) (d : D) r b a c s :
  bc_data d n = Some b → m (Cursor b p) = Ok a c →
  zoom v_bufs_lens (in_bh n p m) (with_bufs (Bufs d r) s) = Ok (a, pos c) (with_bufs (Bufs d r) s).
Proof using.
  intros Hb Hm. erewrite zoom_ok; [reflexivity|]. by apply (in_bh_ok _ _ _ (Bufs d r) b).
Qed.

Lemma block_children_ok {C} e (P : C → Prop) (f : for_all_cb C) g ids (d : D) n b r s :
  bc_data d n = Some b → ∀ fuel p i children c,
  0 ≤ p → p + 8 * zlen ids ≤ zlen b → sub p (8 * zlen ids) b = dir_entries ids →
  Forall dir_id ids → Forall (λ id, k_cached (v_cache s) id = true) ids →
  only_reads s P f g ids → P c → children = i + zlen ids → (2 * length ids < fuel)%nat →
  block_children fuel e f n p i children c (with_bufs (Bufs d r) s) =
    let v := visit g ids c in
    if v.2 then Ok (v.1, None) (with_bufs (Bufs d r) s)
    else Ok (v.1, Some 0) (with_bufs (Bufs d (r - 1)) s).
Proof using KL.
  intros Hb. induction ids as [|id ids IH]; intros fuel p i children c Hp Hpb Hsub Hid Hc Hf HP -> Hfuel;
    (destruct fuel as [|fuel]; [cbn [length] in Hfuel; lia|]); cbn [block_children].
  { change (zlen []) with 0. decide_if. done. }
  rewrite zlen_cons in *. pose proof (zlen_nonneg ids).
  apply Forall_cons in Hid as [[Hid Hid'] Hids]. apply Forall_cons in Hc as [Hc Hcs].
  rewrite dir_entries_cons in Hsub.
  assert (H4 : sub p 8 b = dir_entry_bytes id).
  { transitivity (sub 0 8 (sub p (8 * (1 + zlen ids)) b)); [rewrite sub_sub by lia; f_equal; lia|].
    rewrite Hsub. sub_field. done. }
  assert (Ht : sub (p + 8) (8 * zlen ids) b = dir_entries ids).
  { transitivity (sub 8 (8 * zlen ids) (sub p (8 * (1 + zlen ids)) b)); [by rewrite sub_sub by lia|].
    rewrite Hsub. sub_field. done. }
  assert (H1 : sub p 4 b = be_split 4 id).
  { transitivity (sub 0 4 (sub p 8 b)); [rewrite sub_sub by lia; f_equal; lia|].
    rewrite H4. unfold dir_entry_bytes. sub_field. done. }
  assert (H2 : sub (p + 4) 4 b = be_split 4 0).
  { transitivity (sub 4 4 (sub p 8 b)); [by rewrite sub_sub by lia|].
    rewrite H4. unfold dir_entry_bytes. sub_field. done. }
  decide_if.
  pose proof (in_bh_bufs n p _ d r b _ _ s Hb (read_ino_at b p id Hp ltac:(lia) H1 ltac:(lia) Hid'))
    as E1. exec E1. clear E1. cbn [pos]. decide_if.
  rewrite (bind_ok _ _ _ _ _ (inode_by_id_cached e id (with_bufs (Bufs d r) s) Hc)).
  destruct (Hf (Bufs d r) c id) as [E2 HP']; [by left|done|]. exec E2. cbn [visit].
  destruct (g c id) as [c' go]. destruct go; cbn [negb fst snd]; [|by erewrite bind_ok by done].
  assert (Hf' : only_reads s P f g ids) by (intros ????; apply Hf; by right).
  destruct ids as [|id' ids].
  { change (zlen []) with 0. destruct fuel as [|fuel]; [cbn in Hfuel; lia|].
    cbn [block_children]. by decide_if. }
  rewrite zlen_cons in *. pose proof (zlen_nonneg ids).
  destruct fuel as [|fuel]; [cbn in Hfuel; lia|]. cbn [block_children]. decide_if.
  pose proof (in_bh_bufs n (p + 4) _ d r b _ _ s Hb
                (read_ino_at b (p + 4) 0 ltac:(lia) ltac:(lia) H2 ltac:(lia) ltac:(lia))) as E3.
  exec E3. clear E3. cbn [pos]. rewrite bool_decide_eq_false_2 by (intros Hx; by apply Hx).
  apply IH; try done; try lia; try (f_equal; lia).
  - rewrite <-Ht. f_equal; lia.
  - cbn [length] in *. lia.
Qed.

Lemma dir_entries_at next ids sz :
  12 + 8 * zlen ids ≤ sz → sub 12 (8 * zlen ids) (dir_block next ids sz) = dir_entries ids.
Proof using. intros. pose proof (zlen_nonneg ids). unfold dir_block. sub_field. done. Qed.

Lemma chain_children_ok {C} e (P : C → Prop) (f : for_all_cb C) g (d : D) sz start blocks k :
  dir_chain d sz start blocks k → ∀ fuel r c s,
  Forall (λ id, k_cached (v_cache s) id = true) (dir_children blocks) →
  only_reads s P f g (dir_children blocks) → P c → (k < fuel)%nat → (k < e_fuel e)%nat →
  chain_children fuel e f start c (with_bufs (Bufs d r) s) =
    Ok ((visit g (dir_children blocks) c).1, 0) (with_bufs (Bufs d r) s).
Proof using L KL.
  induction 1 as [|start next ids rest k Hst Hb Hsz Hn Hn' Hl Hids Hchain IH];
    intros fuel r c s Hc Hf HP Hfuel He; (destruct fuel as [|fuel]; [lia|]); cbn [chain_children].
  { by decide_if. }
  unfold dir_children in *. cbn [fmap list_fmap concat snd] in *. fold (dir_children rest) in *.
  apply Forall_app in Hc as [Hc Hcs]. decide_if.
  pose proof (sb_bread_ok start (Bufs d r) _ Hb) as E1. exec E1. cbn [negb b_dev b_refs].
  pose proof (parse_dir_block_ok next ids sz Hsz Hn Hn' ltac:(lia)) as Hp.
  pose proof (in_bh_bufs start 0 _ d (r + 1) _ _ _ s Hb Hp) as E2.
  erewrite bind_ok by (apply catch_ok; exact E2). cbn [pos db_children db_next].
  assert (Hf1 : only_reads s P f g ids) by (intros ????; apply Hf, elem_of_app; by left).
  assert (Hf2 : only_reads s P f g (dir_children rest)) by (intros ????; apply Hf, elem_of_app; by right).
  pose proof (block_children_ok e P f g ids d start _ (r + 1) s Hb (e_fuel e) 12 0 (zlen ids) c) as E3.
  rewrite zlen_dir_block in E3 by done. specialize_lia E3.
  specialize (E3 (dir_entries_at next ids sz Hsz) Hids Hc Hf1 HP ltac:(lia) ltac:(lia)).
  pose proof (only_reads_visit s P f g ids c Hf1 HP) as HP'.
  cbv zeta in E3. rewrite visit_app. cbv zeta. destruct (visit g ids c) as [c' go].
  cbn [fst snd] in *. destruct go; exec E3.
  - erewrite bind_ok by done. replace (r + 1) with (r + 1) by done.
    assert (Hr : lset v_bufs_lens (Bufs d (r + 1 - 1)) (with_bufs (Bufs d (r + 1)) s) =
                 with_bufs (Bufs d r) s) by (unfold with_bufs; cbn; do 3 f_equal; lia).
    cbn [lget v_bufs_lens with_bufs] in *. rewrite <-(IH fuel r c' s Hcs Hf2 HP') by lia. by f_equal.
  - by replace (r + 1 - 1) with r by lia.
Qed.

(** States that differ in nothing the driver can see *)
Definition same_vfs s s' : Prop :=
  v_fs s' = v_fs s ∧ v_sbi s' = v_sbi s ∧ v_fops s' = v_fops s ∧
  ∀ m, k_inode (v_cache s') m = k_inode (v_cache s) m ∧ k_cached (v_cache s') m = k_cached (v_cache s) m.

Definition locked (p : Z) s : vfs_st D K := lset (v_lock p) true s.
Definition unlocked (p : Z) s : vfs_st D K := lset (v_lock p) false s.

(** Taking and releasing the mutex of an inode changes its [si_lock] only. *)
Lemma locked_inode p m s :
  k_inode (v_cache (locked p s)) m =
    if decide (m = p) then set_lock true (k_inode (v_cache s) p) else k_inode (v_cache s) m.
Proof using KL.
  unfold locked. cbn. destruct (decide (m = p)) as [->|]; [apply k_inode_set|by apply k_inode_set_ne].
Qed.

Lemma locked_cached p m s : k_cached (v_cache (locked p s)) m = k_cached (v_cache s) m.
Proof using KL. apply k_cached_set. Qed.

Lemma locked_name p m s : si_name (k_inode (v_cache (locked p s)) m) = si_name (k_inode (v_cache s) m).
Proof using KL. rewrite locked_inode. by destruct (decide (m = p)) as [->|]. Qed.

Lemma unlocked_locked p s :
  si_lock (k_inode (v_cache s) p) = false → same_vfs s (unlocked p (locked p s)).
Proof using KL.
  intros Hl. unfold same_vfs, unlocked, locked. cbn. split_and!; try done.
  intros m. rewrite !k_cached_set, k_inode_set. split; [|done].
  destruct (decide (m = p)) as [->|].
  - rewrite k_inode_set. destruct (k_inode (v_cache s) p). cbn in *. by rewrite Hl.
  - by rewrite !k_inode_set_ne.
Qed.

(** A directory that nobody is working on, with its children *)
Record dir_ready (e : env) (d : D) (sz : Z) (p : Z) (blocks : list (Z * list Z)) s : Prop := {
  dr_isdir : S_ISDIR (i_mode (i_inode (k_inode (v_cache s) p))) = true;
  dr_unlocked : si_lock (k_inode (v_cache s) p) = false;
  dr_bufs : ∃ r, t_bufs (v_fs s) = Bufs d r;
  dr_chain : ∃ k, dir_chain d sz (si_start (k_inode (v_cache s) p)) blocks k ∧ (k < e_fuel e)%nat;
}.

Lemma with_bufs_id s : with_bufs (t_bufs (v_fs s)) s = s.
Proof using. by destruct s as [[]]. Qed.

Lemma for_all_children_ok {C} e (P : C → Prop) (f : for_all_cb C) g d sz p blocks c s :
  dir_ready e d sz p blocks s →
  Forall (λ id, k_cached (v_cache s) id = true) (dir_children blocks) →
  only_reads (locked p s) P f g (dir_children blocks) → P c →
  spfs_for_all_children e p c f s =
    Ok ((visit g (dir_children blocks) c).1, 0) (unlocked p (locked p s)).
Proof using L KL.
  intros [Hd Hl [r Hr] (k & Hk & Hfuel)] Hc Hf HP. unfold spfs_for_all_children.
  erewrite bind_ok by done. rewrite Hd. cbn [negb]. unfold mutex_lock.
  erewrite bind_ok by (cbn [lget v_lock]; by rewrite Hl). fold (locked p s).
  erewrite bind_ok by done. rewrite locked_inode, decide_True by done. cbn [set_lock si_start].
  assert (E : chain_children (e_fuel e) e f (si_start (k_inode (v_cache s) p)) c (locked p s) =
              Ok ((visit g (dir_children blocks) c).1, 0) (locked p s)).
  { rewrite <-(with_bufs_id (locked p s)).
    assert (t_bufs (v_fs (locked p s)) = Bufs d r) as -> by done.
    eapply chain_children_ok; try done.
    eapply Forall_impl; [exact Hc|]. intros m Hm. by rewrite locked_cached. }
  rewrite (bind_ok _ _ _ _ _ E). by erewrite bind_ok by done.
Qed.
End walks.

(** ** Names *)
(** The string that starts at the beginning of [s]; [None] when it has no end in [s] *)
Fixpoint c_string (s : list byte) : option (list byte) :=
  match s with
  | [] => None
  | c :: s => if decide (c = x00) then Some [] else cons c <$> c_string s
  end.

Lemma strlen_c_string s : strlen s = zlen <$> c_string s.
Proof.
  induction s as [|c s IH]; [done|]. cbn. destruct (decide (c = x00)); [done|].
  rewrite IH. destruct (c_string s); [|done]. cbn. by rewrite zlen_cons, Z.add_comm.
Qed.

Lemma c_string_sub s str : c_string s = Some str → sub 0 (zlen str) s = str.
Proof.
  revert str. induction s as [|c s IH]; intros str H; [done|]. cbn in H. destruct (decide (c = x00)).
  - injection H as <-. done.
  - destruct (c_string s) as [str'|] eqn:E; [|done]. injection H as <-. specialize (IH str' eq_refl).
    unfold sub, zlen in *. rewrite Nat2Z.id in *. change (Z.to_nat 0) with 0%nat in *.
    rewrite drop_0 in *. cbn. by rewrite IH.
Qed.

Lemma Z_of_byte_inj c c' : Z_of_byte c = Z_of_byte c' → c = c'.
Proof. intros H. by rewrite <-(byte_of_Z_of_byte c), H, byte_of_Z_of_byte. Qed.

Lemma strcmp_c_string s str name :
  c_string s = Some str → x00 ∉ name →
  ∃ r, strcmp s (name ++ [x00]) = Some r ∧ (r = 0 ↔ str = name).
Proof.
  revert str name. induction s as [|c s IH]; intros str name Hs Hn; [done|]. cbn in *.
  destruct name as [|c' name]; cbn.
  - destruct (decide (c = x00)) as [->|Hc].
    + injection Hs as <-. by exists 0.
    + eexists. split; [done|]. destruct (c_string s); [|done]. injection Hs as <-.
      split; [|done]. intros Hz. destruct Hc. apply Z_of_byte_inj. change (Z_of_byte x00) with 0. lia.
  - apply not_elem_of_cons in Hn as [Hc' Hn].
    destruct (decide (c = x00)) as [->|Hc].
    + injection Hs as <-. rewrite decide_False by congruence. eexists. split; [done|].
      split; [|done]. intros Hz. destruct Hc'. apply Z_of_byte_inj. change (Z_of_byte x00) with 0 in *. lia.
    + destruct (c_string s) as [str'|]; [|done]. injection Hs as <-.
      destruct (decide (c = c')) as [->|Hcc].
      * destruct (IH str' name eq_refl Hn) as (r & -> & Hr). exists r. split; [done|].
        rewrite Hr. split; congruence.
      * eexists. split; [done|]. split; [|congruence]. intros Hz. destruct Hcc. apply Z_of_byte_inj. lia.
Qed.

(** ** Lookup *)
Section lookup.
Context {D K : Type} {B : BufferCache D} {L : BufferCacheLaws D} {KK : Kernel K} {KL : KernelLaws K}.
Implicit Types (s : vfs_st D K).

Definition child_name s (id : Z) : option (list byte) := c_string (si_name (k_inode (v_cache s) id)).

Definition name_step s (data : spfs_find_inode_name_data) (id : Z) : spfs_find_inode_name_data * bool :=
  if decide (child_name s id = Some (removelast (fd_name data)))
  then (FindData (fd_name data) (Some id), false) else (data, true).

Lemma by_name_cb_ok s s1 name id :
  si_name (k_inode (v_cache s1) id) = si_name (k_inode (v_cache s) id) →
  is_Some (child_name s id) → x00 ∉ name → ∀ res,
  spfs_inode_by_name_cb (FindData (name ++ [x00]) res) (PInode id) s1 =
    Ok (name_step s (FindData (name ++ [x00]) res) id) s1.
Proof using.
  intros Hn [str Hstr] H0 res. unfold spfs_inode_by_name_cb. erewrite bind_ok by done.
  rewrite Hn. cbn [fd_name].
  destruct (strcmp_c_string _ str name Hstr H0) as (z & Hz & Hiff). rewrite Hz.
  unfold name_step. cbn [fd_name]. rewrite removelast_last, Hstr.
  case_bool_decide as Hz0.
  - rewrite decide_True by (f_equal; by apply Hiff). done.
  - rewrite decide_False by (intros [= ?]; by apply Hz0, Hiff). done.
Qed.

(** The closure only ever holds the name it was given. *)
Lemma visit_name_step s name ids res :
  fd_result (visit (name_step s) ids (FindData (name ++ [x00]) res)).1 =
    match head (filter (λ id, child_name s id = Some name) ids) with Some id => Some id | None => res end.
Proof using.
  induction ids as [|id ids IH]; [done|]. cbn [visit].
  assert (Hn : name_step s (FindData (name ++ [x00]) res) id =
    if decide (child_name s id = Some name) then (FindData (name ++ [x00]) (Some id), false)
    else (FindData (name ++ [x00]) res, true)).
  { unfold name_step. cbn [fd_name]. by rewrite removelast_last. }
  rewrite Hn. destruct (decide (child_name s id = Some name)); cbn [fst snd].
  - by rewrite filter_cons_True by done.
  - rewrite filter_cons_False by done. exact IH.
Qed.

Lemma spfs_lookup_ok e d sz p blocks dent s :
  dir_ready e d sz p blocks s →
  Forall (λ id, k_cached (v_cache s) id = true) (dir_children blocks) →
  Forall (λ id, is_Some (child_name s id)) (dir_children blocks) → x00 ∉ d_name dent →
  spfs_lookup e p dent s =
    Ok (k_d_add dent <$>
          head (filter (λ id, child_name s id = Some (d_name dent)) (dir_children blocks)))
      (unlocked p (locked p s)).
Proof using L KL.
  intros Hready Hc Hnames H0. unfold spfs_lookup, spfs_inode_by_name.
  erewrite bind_ok; cycle 1.
  { erewrite bind_ok; cycle 1.
    { eapply (for_all_children_ok e (λ c, fd_name c = d_name dent ++ [x00])); [done..| |done].
      intros b [nm res] id Hid Hnm. cbn in Hnm. subst nm. rewrite Forall_forall in Hnames. split.
      - apply (by_name_cb_ok s); [|by apply Hnames|done]. apply (locked_name p id s).
      - unfold name_step. by destruct (decide _). }
    reflexivity. }
  cbn [fst]. rewrite visit_name_step. by destruct (head _).
Qed.

(** C20: looking a name up in a directory whose children are all in the inode cache
    yields a dentry for the first child of that name, in the order of the blocks and
    of the entries in them, and NULL when there is none; every lock and buffer taken
    is given back and nothing else changes. *)
Theorem lookup_finds_first e d sz p blocks dent s :
  dir_ready e d sz p blocks s →
  Forall (λ id, k_cached (v_cache s) id = true) (dir_children blocks) →
  Forall (λ id, is_Some (child_name s id)) (dir_children blocks) → x00 ∉ d_name dent →
  ∃ s', same_vfs s s' ∧
    spfs_lookup e p dent s =
      Ok (k_d_add dent <$>
            head (filter (λ id, child_name s id = Some (d_name dent)) (dir_children blocks))) s'.
Proof using L KL.
  intros Hready Hc Hnames H0. exists (unlocked p (locked p s)).
  split; [apply unlocked_locked, Hready|by eapply spfs_lookup_ok].
Qed.

Lemma for_all_children_uncached {C} fuel frame cur0 (f : for_all_cb C) d sz p start id ids rest c s k1 :
  let e := Env (S (S fuel)) frame cur0 in
  dir_ready e d sz p ((start, id :: ids) :: rest) s → (∀ c s, f c PNull s = Crash NullDeref) →
  k_cached (v_cache s) id = false → k_iget_locked (v_cache (locked p s)) id = Some (true, k1) →
  tree_barren (v_fs s) → bt_lock (t_tree (v_fs s)) = false →
  spfs_for_all_children e p c f s = Crash NullDeref.
Proof using L KL.
  intros e [Hd Hl [r Hr] (k & Hk & Hfuel)] Hf Hc Hi Hbar Htl. unfold spfs_for_all_children.
  erewrite bind_ok by done. rewrite Hd. cbn [negb]. unfold mutex_lock.
  erewrite bind_ok by (cbn [lget v_lock]; by rewrite Hl). fold (locked p s).
  erewrite bind_ok by done. rewrite locked_inode, decide_True by done. cbn [set_lock si_start].
  apply bind_crash. change (e_fuel e) with (S (S fuel)). remember (S fuel) as fuel1 eqn:Hfu.
  inversion Hk as [|? next ? ? k' Hst Hb Hsz Hn Hn' Hlen Hids Hchain]. subst.
  cbn [chain_children]. decide_if.
  assert (E1 : sb_bread (si_start (k_inode (v_cache s) p)) (t_bufs (v_fs (locked p s))) =
               Ok true (Bufs d (r + 1))).
  { change (t_bufs (v_fs (locked p s))) with (t_bufs (v_fs s)). rewrite Hr. by eapply sb_bread_ok. }
  exec E1. cbn [negb]. fold (with_bufs (Bufs d (r + 1)) (locked p s)).
  pose proof (parse_dir_block_ok next (id :: ids) sz Hsz Hn Hn' ltac:(lia)) as Hp.
  pose proof (in_bh_bufs _ 0 _ d (r + 1) _ _ _ (locked p s) Hb Hp) as E2.
  erewrite bind_ok by (apply catch_ok; exact E2). clear E1 E2. cbn [pos db_children db_next].
  apply bind_crash. change (e_fuel e) with (S (S fuel)). remember (S fuel) as fuel1 eqn:Hfu.
  cbn [block_children]. rewrite zlen_cons in *. pose proof (zlen_nonneg ids). decide_if.
  apply Forall_cons in Hids as [[Hid Hid'] _].
  set (b := dir_block next (id :: ids) sz) in *.
  assert (zlen b = sz) as Hbz by (apply zlen_dir_block; rewrite zlen_cons; lia).
  assert (Hs4 : sub 12 4 b = be_split 4 id).
  { unfold b, dir_block. rewrite dir_entries_cons. unfold dir_entry_bytes.
    rewrite <-!app_assoc. sub_field. done. }
  pose proof (in_bh_bufs _ 12 _ d (r + 1) b _ _ (locked p s) Hb
                (read_ino_at b 12 id ltac:(lia) ltac:(lia) Hs4 ltac:(lia) Hid')) as E3.
  exec E3. clear E3. decide_if. subst fuel1.
  erewrite bind_ok; cycle 1.
  { apply (inode_by_id_barren fuel frame cur0 id _ k1); [by rewrite <-(locked_cached p) in Hc|done| |done].
    destruct Hbar as [|(nb & Hnb & Hrest)]; [by left|right]. exists nb. split; [|done].
    rewrite Hr in Hnb. exact Hnb. }
  apply bind_crash, Hf.
Qed.

(** A directory whose first child has left the inode cache cannot be used any more
    while the tree is as the first insertion leaves it: the search for the child ends
    with NULL, which [IS_ERR] does not catch, and both looking a name up and listing
    the directory dereference it. *)
Theorem uncached_child_crashes {X} {XX : DirContext X} fuel frame cur0 d sz p start id ids rest dent s
    k1 (x x' : X) :
  let e := Env (S (S fuel)) frame cur0 in
  dir_ready e d sz p ((start, id :: ids) :: rest) s →
  k_cached (v_cache s) id = false → k_iget_locked (v_cache (locked p s)) id = Some (true, k1) →
  tree_barren (v_fs s) → bt_lock (t_tree (v_fs s)) = false →
  dx_emit_dots x = (true, x') →
  dx_pos x' < u32 (si_capacity (k_inode (v_cache s) p) + 2) →
  spfs_lookup e p dent s = Crash NullDeref ∧ spfs_iterate e p x s = Crash NullDeref.
Proof using L KL.
  intros e Hready Hc Hi Hbar Htl Hdots Hpos. split.
  - unfold spfs_lookup, spfs_inode_by_name. do 2 apply bind_crash.
    by eapply for_all_children_uncached.
  - unfold spfs_iterate. rewrite Hdots. cbn [negb]. erewrite bind_ok by done. decide_if.
    apply bind_crash. by eapply for_all_children_uncached.
Qed.
End lookup.

(** ** Listing *)
Section listing.
Context {D K : Type} {B : BufferCache D} {L : BufferCacheLaws D} {KK : Kernel K} {KL : KernelLaws K}.
Context {X : Type} {XX : DirContext X} {XL : DirContextLaws X}.
Implicit Types (s : vfs_st D K) (x : X).

(** [dir_emit] of the entry of child [id] *)
Definition emit_child s x (id : Z) : bool * X :=
  let i := k_inode (v_cache s) id in
  dx_emit x (default [] (child_name s id)) (i_ino (i_inode i))
    (Z.land (Z.shiftr (i_mode (i_inode i)) 12) 15).

(** The user takes the entries of [ids] in order, until one does not fit. *)
Fixpoint emit_children s x (ids : list Z) : X :=
  match ids with
  | [] => x
  | id :: ids =>
      let '(ok, x') := emit_child s x id in
      if (ok : bool) then emit_children s (dx_set_pos x' (dx_pos x' + 1)) ids else x'
  end.

Definition iterate_step s (ctx : spfs_iterate_ctx (X := X)) (id : Z) : spfs_iterate_ctx * bool :=
  if bool_decide (ic_pos ctx = dx_pos (ic_dir ctx)) then
    let '(result, dir) := emit_child s (ic_dir ctx) id in
    (IterateCtx (if (result : bool) then dx_set_pos dir (dx_pos dir + 1) else dir) (ic_pos ctx + 1), result)
  else (IterateCtx (ic_dir ctx) (ic_pos ctx + 1), true).

Lemma iterate_cb_ok s s1 ctx id :
  (let i := k_inode (v_cache s) id in let i1 := k_inode (v_cache s1) id in
   si_name i1 = si_name i ∧ i_inode i1 = i_inode i) →
  is_Some (child_name s id) →
  spfs_iterate_cb ctx (PInode id) s1 = Ok (iterate_step s ctx id) s1.
Proof using.
  intros [Hn Hi] [str Hs]. unfold spfs_iterate_cb. erewrite bind_ok by done. rewrite Hn, Hi.
  unfold iterate_step, emit_child. rewrite Hs. cbn [default]. unfold child_name in Hs.
  rewrite strlen_c_string, Hs. cbn. rewrite (c_string_sub _ _ Hs).
  case_bool_decide; [|done]. by destruct (dx_emit _ _ _ _).
Qed.

Lemma visit_iterate s ids : ∀ x q, q ≤ dx_pos x →
  ic_dir (visit (iterate_step s) ids (IterateCtx x q)).1 =
    emit_children s x (drop (Z.to_nat (dx_pos x - q)) ids).
Proof using XL.
  induction ids as [|id ids IH]; intros x q Hq; [by rewrite drop_nil|].
  cbn [visit]. destruct (iterate_step s (IterateCtx x q) id) as [ctx go] eqn:E.
  unfold iterate_step in E. cbn [ic_pos ic_dir] in E. cbn [fst snd]. case_bool_decide as Hp.
  - subst q. rewrite Z.sub_diag. change (Z.to_nat 0) with 0%nat. cbn [drop emit_children].
    destruct (emit_child s x id) as [[|] x'] eqn:Ee; injection E as <- <-; [|done].
    apply dx_pos_emit in Ee. rewrite IH by (rewrite dx_pos_set; lia).
    by rewrite dx_pos_set, Ee, Z.sub_diag.
  - injection E as <- <-. rewrite IH by lia.
    by replace (Z.to_nat (dx_pos x - q)) with (S (Z.to_nat (dx_pos x - (q + 1)))) by lia.
Qed.

Lemma spfs_iterate_ok e d sz p blocks s x x' :
  dir_ready e d sz p blocks s →
  Forall (λ id, k_cached (v_cache s) id = true) (dir_children blocks) →
  Forall (λ id, is_Some (child_name s id)) (dir_children blocks) →
  dx_emit_dots x = (true, x') → 2 ≤ dx_pos x' →
  dx_pos x' < u32 (si_capacity (k_inode (v_cache s) p) + 2) →
  spfs_iterate e p x s =
    Ok (emit_children s x' (drop (Z.to_nat (dx_pos x' - 2)) (dir_children blocks)))
      (unlocked p (locked p s)).
Proof using L KL XL.
  intros Hready Hc Hn Hdots Hpos Hpos'. unfold spfs_iterate. rewrite Hdots. cbn [negb].
  erewrite bind_ok by done. decide_if.
  erewrite bind_ok; cycle 1.
  { eapply (for_all_children_ok e (λ _, True) _ (iterate_step s)); [done..| |done].
    intros b ctx id Hid _. rewrite Forall_forall in Hn. split; [|done].
    apply iterate_cb_ok; [|by apply Hn]. cbv zeta.
    change (v_cache (with_bufs b (locked p s))) with (v_cache (locked p s)).
    rewrite locked_inode. by destruct (decide _) as [->|]. }
  cbn [fst]. by rewrite visit_iterate.
Qed.

(** Listing a directory whose children are all in the inode cache hands the user
    the entries of the children in the order of the blocks, from the user's position
    (behind "." and "..") on, until one does not fit; the position moves by the entries
    taken, and every lock and buffer is given back. *)
Theorem iterate_lists_children e d sz p blocks s x x' :
  dir_ready e d sz p blocks s →
  Forall (λ id, k_cached (v_cache s) id = true) (dir_children blocks) →
  Forall (λ id, is_Some (child_name s id)) (dir_children blocks) →
  dx_emit_dots x = (true, x') → 2 ≤ dx_pos x' →
  dx_pos x' < u32 (si_capacity (k_inode (v_cache s) p) + 2) →
  ∃ s', same_vfs s s' ∧
    spfs_iterate e p x s =
      Ok (emit_children s x' (drop (Z.to_nat (dx_pos x' - 2)) (dir_children blocks))) s'.
Proof using L KL XL.
  intros Hready Hc Hn Hdots Hpos Hpos'. exists (unlocked p (locked p s)).
  split; [apply unlocked_locked, Hready|by apply (spfs_iterate_ok e d sz)].
Qed.
End listing.

(** ** Adding children *)
Section adding.
Context {D K : Type} {B : BufferCache D} {L : BufferCacheLaws D} {KK : Kernel K} {KL : KernelLaws K}.
Implicit Types (s : vfs_st D K).

Lemma dir_chain_frame (d d' : D) sz start blocks k :
  (∀ m, m ∈ blocks.*1 → bc_data d' m = bc_data d m) →
  dir_chain d sz start blocks k → dir_chain d' sz start blocks k.
Proof using.
  intros Hf H. induction H as [|start next ids rest k Hst Hb Hsz Hn Hn' Hl Hids Hc IH]; [constructor|].
  econstructor; try done; [rewrite Hf; [done|by left]|]. apply IH. intros m Hm. apply Hf. by right.
Qed.

(** [spfs_add_child] on a block: read it, and append or go on *)
Lemma add_child_step fuel parent child start next ids (d : D) sz r s :
  start ≠ 0 → bc_data d start = Some (dir_block next ids sz) → 12 + 8 * zlen ids ≤ sz →
  0 ≤ next → next < 2 ^ 32 → zlen ids < 2 ^ 31 →
  add_child_loop (S fuel) parent child start (with_bufs (Bufs d r) s) =
    (if bool_decide (zlen ids = 100) then
       zoom v_bufs_lens (brelse start);; add_child_loop fuel parent child next
     else
       zoom v_bufs_lens (dir_append start 12 (DirBlock next (zlen ids)) child);;
       zoom v_bufs_lens (brelse start);;
       mret 0) (with_bufs (Bufs d (r + 1)) s).
Proof using.
  intros Hst Hb Hsz Hn Hn' Hl. cbn [add_child_loop]. decide_if.
  assert (E1 : sb_bread start (t_bufs (v_fs (with_bufs (Bufs d r) s))) = Ok true (Bufs d (r + 1)))
    by (by eapply (sb_bread_ok start (Bufs d r))).
  exec E1. cbn [negb].
  pose proof (parse_dir_block_ok next ids sz Hsz Hn Hn' ltac:(lia)) as Hp.
  pose proof (in_bh_bufs start 0 _ d (r + 1) _ _ _ s Hb Hp) as E2.
  erewrite bind_ok by (apply catch_ok; exact E2). cbn [pos db_children db_next].
  unfold spfs_dir_is_full. cbn [db_children]. by case_bool_decide.
Qed.

Lemma add_child_loop_ok parent child (d : D) sz pre : ∀ start n ids post k fuel r s,
  dir_chain d sz start (pre ++ (n, ids) :: post) k → NoDup (pre ++ (n, ids) :: post).*1 →
  Forall (λ b, zlen b.2 = 100) pre → zlen ids < 100 → 12 + 8 * (zlen ids + 1) ≤ sz →
  dir_id child → (length pre < fuel)%nat →
  ∃ d', add_child_loop fuel parent child start (with_bufs (Bufs d r) s) =
      Ok 0 (with_bufs (Bufs d' r) s) ∧
    dir_chain d' sz start (pre ++ (n, ids ++ [child]) :: post) (S (S k)) ∧
    ∀ m, m ≠ n → bc_data d' m = bc_data d m.
Proof using L.
  induction pre as [|[n0 ids0] pre IH]; intros start n ids post k fuel r s Hk Hnd Hfull Hroom Hsz Hch Hf;
    (destruct fuel as [|fuel]; [cbn in Hf; lia|]); cbn [app] in *;
    inversion Hk as [|? next ? ? k' Hst Hb Hsz' Hn Hn' Hlen Hids Hchain]; subst;
    rewrite (add_child_step _ _ _ _ next _ d sz) by done; cbn [fmap list_fmap fst] in Hnd;
    apply NoDup_cons in Hnd as [Hnin Hnd].
  - decide_if.
    destruct (dir_append_ok d n next ids child sz (r + 1) Hb) as (d' & E & Hupd);
      [rewrite zlen_app; change (zlen [child]) with 1; lia|lia|].
    exec E. erewrite bind_ok by done. exists d'. split_and!.
    + unfold mret, M_ret, with_bufs. cbn. do 4 f_equal. lia.
    + replace (S (S (S (2 * length ids + k')))) with (S (2 * length (ids ++ [child]) + k'))
        by (rewrite length_app; cbn; lia).
      econstructor; try done.
      * by eapply dev_upd_data.
      * rewrite zlen_app. change (zlen [child]) with 1. lia.
      * rewrite zlen_app. change (zlen [child]) with 1. lia.
      * by apply Forall_app; split; [|apply Forall_singleton].
      * eapply dir_chain_frame; [|done]. intros m Hm. destruct Hupd as (_ & _ & Hu). apply Hu.
        by intros ->.
    + apply Hupd.
  - apply Forall_cons in Hfull as [H100 Hfull]. cbn [snd] in H100. decide_if.
    erewrite bind_ok by done.
    edestruct (IH next n ids post k' fuel r s) as (d' & E & Hk' & Hfr); try done; [cbn in Hf; lia|].
    replace (S (S (S (2 * length ids0 + k')))) with (S (2 * length ids0 + S (S k'))) by lia.
    exists d'. split_and!; [|econstructor; try done|done].
    + rewrite <-E. unfold with_bufs. cbn. by replace (r + 1 - 1) with r by lia.
    + rewrite Hfr; [done|]. intros ->. apply Hnin. rewrite fmap_app. apply elem_of_app. right. by left.
Qed.

(** The state in which [spfs_add_child] looks for room *)
Definition entered (p : Z) s : vfs_st D K :=
  let s1 := locked p s in
  let i := k_inode (v_cache s1) p in
  lset v_cache_lens
    (k_mark_inode_dirty
       (k_set_inode (v_cache s1) p (set_extent (si_start i) (u32 (si_capacity i + 1)) i)) p) s1.

Lemma entered_inode p m s :
  k_inode (v_cache (entered p s)) m =
    if decide (m = p)
    then let i := k_inode (v_cache s) p in
         set_lock true (set_extent (si_start i) (u32 (si_capacity i + 1)) i)
    else k_inode (v_cache s) m.
Proof using KL.
  unfold entered. cbn [v_cache lset v_cache_lens]. rewrite k_inode_dirty.
  destruct (decide (m = p)) as [->|].
  - rewrite k_inode_set, locked_inode, decide_True by done. done.
  - rewrite k_inode_set_ne, locked_inode, decide_False by done. done.
Qed.

Lemma entered_cached p m s : k_cached (v_cache (entered p s)) m = k_cached (v_cache s) m.
Proof using KL.
  unfold entered. cbn [v_cache lset v_cache_lens]. by rewrite k_cached_dirty, k_cached_set, locked_cached.
Qed.

Lemma spfs_add_child_enter e p child s :
  si_lock (k_inode (v_cache s) p) = false →
  spfs_add_child e p child s =
    (res ← add_child_loop (e_fuel e) p (i_ino (i_inode (k_inode (v_cache s) child)))
             (si_start (k_inode (v_cache s) p));
     mutex_unlock (v_lock p);;
     if bool_decide (res = 0) then mret tt else err res) (entered p s).
Proof using KL.
  intros Hl. unfold spfs_add_child, mutex_lock. erewrite bind_ok by (cbn [lget v_lock]; by rewrite Hl).
  fold (locked p s). do 2 erewrite bind_ok by done.
  do 2 erewrite bind_ok by done.
  cbn [lset lget v_cache_lens v_cache v_fs v_sbi v_fops]. fold (entered p s).
  assert (Hp : si_start (k_inode (v_cache (entered p s)) p) = si_start (k_inode (v_cache s) p))
    by (rewrite entered_inode, decide_True by done; done).
  assert (Hc : i_ino (i_inode (k_inode (v_cache (entered p s)) child)) =
               i_ino (i_inode (k_inode (v_cache s) child)))
    by (rewrite entered_inode; by destruct (decide _) as [->|]).
  by rewrite <-Hp, <-Hc.
Qed.

(** What [spfs_add_child] does to the in-core inodes: the parent counts one child more,
    and its first block is [start]. *)
Definition child_counted p (start : Z) s s' : Prop :=
  let i := k_inode (v_cache s) p in
  k_inode (v_cache s') p = set_extent start (u32 (si_capacity i + 1)) i ∧
  (∀ m, m ≠ p → k_inode (v_cache s') m = k_inode (v_cache s) m) ∧
  (∀ m, k_cached (v_cache s') m = k_cached (v_cache s) m) ∧
  v_sbi s' = v_sbi s ∧ v_fops s' = v_fops s.

Lemma child_counted_unlock p s b :
  si_lock (k_inode (v_cache s) p) = false →
  child_counted p (si_start (k_inode (v_cache s) p)) s (unlocked p (with_bufs b (entered p s))).
Proof using KL.
  intros Hl. unfold child_counted, unlocked. cbn [lset v_lock v_cache_lens v_cache v_fs v_sbi v_fops].
  change (v_cache (with_bufs b (entered p s))) with (v_cache (entered p s)). split_and!; try done.
  - rewrite k_inode_set, entered_inode, decide_True by done. cbv zeta.
    destruct (k_inode (v_cache s) p). cbn in *. by rewrite Hl.
  - intros m Hm. by rewrite k_inode_set_ne, entered_inode, decide_False by done.
  - intros m. by rewrite k_cached_set, entered_cached.
Qed.

Lemma add_child_ok e (d : D) sz p child pre n ids post k r s :
  let start := si_start (k_inode (v_cache s) p) in
  let id := i_ino (i_inode (k_inode (v_cache s) child)) in
  si_lock (k_inode (v_cache s) p) = false → t_bufs (v_fs s) = Bufs d r →
  dir_chain d sz start (pre ++ (n, ids) :: post) k → NoDup (pre ++ (n, ids) :: post).*1 →
  Forall (λ b, zlen b.2 = 100) pre → zlen ids < 100 → 12 + 8 * (zlen ids + 1) ≤ sz →
  dir_id id → (length pre < e_fuel e)%nat →
  ∃ s' d', spfs_add_child e p child s = Ok tt s' ∧
    child_counted p start s s' ∧ v_fs s' = lset t_bufs_lens (Bufs d' r) (v_fs s) ∧
    dir_chain d' sz start (pre ++ (n, ids ++ [id]) :: post) (S (S k)) ∧
    ∀ m, m ≠ n → bc_data d' m = bc_data d m.
Proof using L KL.
  intros start id Hl Hs Hk Hnd Hfull Hroom Hsz Hid Hfuel.
  edestruct (add_child_loop_ok p id d sz pre start n ids post k (e_fuel e) r (entered p s))
    as (d' & E & Hk' & Hfr); [done..|].
  exists (unlocked p (with_bufs (Bufs d' r) (entered p s))), d'. split_and!; try done.
  - rewrite spfs_add_child_enter by done.
    assert (entered p s = with_bufs (Bufs d r) (entered p s)) as Hb.
    { rewrite <-Hs. symmetry. apply (with_bufs_id (entered p s)). }
    rewrite Hb. fold start id. rewrite (bind_ok _ _ _ _ _ E). by erewrite bind_ok by done.
  - by apply child_counted_unlock.
Qed.

(** Adding a child to a directory that has a block with room appends the child's
    number to the first such block; the other blocks of the directory and all other
    blocks of the device are as before, the parent counts one child more, its mutex is
    free again and no buffer reference is kept.  The numbers a walk visits are the old
    ones with the new one behind those of its block. *)
Theorem add_child_appends e (d : D) sz p child pre n ids post k r s :
  let start := si_start (k_inode (v_cache s) p) in
  let id := i_ino (i_inode (k_inode (v_cache s) child)) in
  si_lock (k_inode (v_cache s) p) = false → t_bufs (v_fs s) = Bufs d r →
  dir_chain d sz start (pre ++ (n, ids) :: post) k → NoDup (pre ++ (n, ids) :: post).*1 →
  Forall (λ b, zlen b.2 = 100) pre → zlen ids < 100 → 12 + 8 * (zlen ids + 1) ≤ sz →
  dir_id id → (length pre < e_fuel e)%nat →
  ∃ s' d', spfs_add_child e p child s = Ok tt s' ∧
    child_counted p start s s' ∧ v_fs s' = lset t_bufs_lens (Bufs d' r) (v_fs s) ∧
    dir_chain d' sz start (pre ++ (n, ids ++ [id]) :: post) (S (S k)) ∧
    dir_children (pre ++ (n, ids ++ [id]) :: post) =
      dir_children pre ++ ids ++ [id] ++ dir_children post ∧
    ∀ m, m ≠ n → bc_data d' m = bc_data d m.
Proof using L KL.
  intros start id Hl Hs Hk Hnd Hfull Hroom Hsz Hid Hfuel.
  edestruct add_child_ok as (s' & d' & E & Hc & Hfs & Hk' & Hfr); [done..|].
  exists s', d'. split_and!; try done.
  unfold dir_children. rewrite fmap_app, concat_app. cbn. by rewrite <-app_assoc.
Qed.

Lemma add_child_loop_full parent child (d : D) sz blocks : ∀ start k fuel r s,
  dir_chain d sz start blocks k → Forall (λ b, zlen b.2 = 100) blocks → (length blocks < fuel)%nat →
  ∃ fuel', add_child_loop fuel parent child start (with_bufs (Bufs d r) s) =
    add_child_loop (S fuel') parent child 0 (with_bufs (Bufs d r) s).
Proof using.
  induction blocks as [|[n ids] blocks IH]; intros start k fuel r s Hk Hfull Hf;
    (destruct fuel as [|fuel]; [cbn in Hf; lia|]); inversion Hk; subst; [by exists fuel|].
  apply Forall_cons in Hfull as [H100 Hfull]. cbn [snd] in H100.
  erewrite add_child_step by done. decide_if. erewrite bind_ok by done.
  edestruct (IH next k0 fuel r s) as [fuel' E]; [done..|cbn in Hf; lia|].
  exists fuel'. rewrite <-E. unfold with_bufs. cbn. by replace (r + 1 - 1) with r by lia.
Qed.

Lemma dir_block_fresh sz : 12 ≤ sz → splice 0 (dir_header 0 0) (zeros sz) = dir_block 0 [] sz.
Proof using. intros. rewrite splice_zeros by slen. by rewrite zlen_dir_header. Qed.

(** The branch of [spfs_add_child] without a block, on a block of zeros *)
Lemma add_child_alloc fuel parent child (d : D) sz r x fl' s :
  spfs_free_alloc 1 (t_free (v_fs s)) = Ok x fl' → x ≠ 0 → bc_data d x = Some (zeros sz) → 20 ≤ sz →
  ∃ d', dev_upd d x (dir_block 0 [child] sz) d' ∧
    add_child_loop (S fuel) parent child 0 (with_bufs (Bufs d r) s) =
      Ok 0 (let s1 := with_bufs (Bufs d' r) (lset v_fs_lens (lset t_free_lens fl' (v_fs s)) s) in
            let i := k_inode (v_cache s) parent in
            lset v_cache_lens (k_set_inode (v_cache s) parent (set_extent x (si_capacity i) i)) s1).
Proof using L.
  intros Ha Hx Hb Hsz. destruct s as [[bufs fl t] sbi cache fops]. cbn [v_fs t_free v_cache] in *.
  assert (Hm : spfs_make_dir_block (DirBlock 0 0) (Cursor (zeros sz) 0) =
               Ok tt (Cursor (dir_block 0 [] sz) 12)).
  { rewrite make_dir_block_eq by slen. cbn [db_next db_children]. by rewrite dir_block_fresh by lia. }
  set (d1 := bc_store d x (dir_block 0 [] sz)).
  assert (Hu1 : dev_upd d x (dir_block 0 [] sz) d1).
  { apply (dev_upd_store d x (zeros sz)); [done|]. rewrite zlen_dir_block by (change (zlen (@nil Z)) with 0; lia). slen. }
  destruct (dir_append_ok d1 x 0 [] child sz (r + 1) (dev_upd_data _ _ _ _ Hu1)) as (d' & E & Hu2);
    [cbn [app]; change (zlen [child]) with 1; lia|done|].
  exists d'. split; [by eapply dev_upd_trans|].
  assert (Halloc : spfs_dir_block_alloc 0 (BtreeSt (Bufs d r) fl t) =
                   Ok (x, 12, DirBlock 0 0) (BtreeSt (Bufs d1 (r + 1)) fl' t)).
  { unfold spfs_dir_block_alloc. erewrite bind_ok by (apply zoom_ok; exact Ha). decide_if.
    pose proof (sb_bread_ok x (Bufs d r) _ Hb) as E1.
    erewrite bind_ok by (apply zoom_ok; exact E1). cbn [negb b_dev b_refs].
    pose proof (on_bh_bufs x 0 _ d (r + 1) _ _ _ Hb Hm) as E2.
    erewrite bind_ok by (apply catch_ok, zoom_ok; exact E2). done. }
  cbn [add_child_loop]. rewrite bool_decide_eq_false_2 by (intros Hn; by apply Hn).
  erewrite bind_ok by (apply zoom_ok; exact Halloc). cbv beta iota. erewrite bind_ok by done.
  decide_if.
  erewrite bind_ok by (apply zoom_ok; exact E). erewrite bind_ok by done.
  unfold mret, M_ret. cbn. do 4 f_equal. f_equal. lia.
Qed.

(** The parent's first block is set to [x] while its mutex is held. *)
Definition counted_at (p x : Z) s : vfs_st D K :=
  let i := k_inode (v_cache s) p in
  lset v_cache_lens (k_set_inode (v_cache s) p (set_extent x (si_capacity i) i)) s.

Lemma child_counted_at p x s b :
  si_lock (k_inode (v_cache s) p) = false →
  child_counted p x s (unlocked p (lset v_fs_lens b (counted_at p x (entered p s)))).
Proof using KL.
  intros Hl. set (s1 := counted_at p x (entered p s)).
  assert (Hs1 : ∀ m, k_inode (v_cache s1) m = if decide (m = p)
    then set_extent x (si_capacity (k_inode (v_cache (entered p s)) p)) (k_inode (v_cache (entered p s)) p)
    else k_inode (v_cache (entered p s)) m).
  { intros m. unfold s1, counted_at. cbn [lset v_cache_lens v_cache].
    destruct (decide (m = p)) as [->|]; [apply k_inode_set|by apply k_inode_set_ne]. }
  unfold child_counted, unlocked. cbn [lset v_lock v_fs_lens v_cache_lens v_cache v_fs v_sbi v_fops].
  split_and!; try done.
  - rewrite k_inode_set, Hs1, decide_True, entered_inode, decide_True by done. cbv zeta.
    destruct (k_inode (v_cache s) p). cbn in *. by rewrite Hl.
  - intros m Hm. by rewrite k_inode_set_ne, Hs1, decide_False, entered_inode, decide_False by done.
  - intros m. rewrite k_cached_set. unfold s1, counted_at. cbn [lset v_cache_lens v_cache].
    by rewrite k_cached_set, entered_cached.
Qed.

(** When no block of the directory has room, [spfs_add_child] allocates one. *)
Lemma spfs_add_child_full e (d : D) sz p child blocks k r s :
  let start := si_start (k_inode (v_cache s) p) in
  si_lock (k_inode (v_cache s) p) = false → t_bufs (v_fs s) = Bufs d r →
  dir_chain d sz start blocks k → Forall (λ b, zlen b.2 = 100) blocks →
  (length blocks < e_fuel e)%nat →
  ∃ fuel, spfs_add_child e p child s =
    (res ← add_child_loop (S fuel) p (i_ino (i_inode (k_inode (v_cache s) child))) 0;
     mutex_unlock (v_lock p);;
     if bool_decide (res = 0) then mret tt else err res) (with_bufs (Bufs d r) (entered p s)).
Proof using KL.
  intros start Hl Hs Hk Hfull Hfuel. rewrite spfs_add_child_enter by done.
  destruct (add_child_loop_full p (i_ino (i_inode (k_inode (v_cache s) child))) d sz blocks start k
    (e_fuel e) r (entered p s) Hk Hfull Hfuel) as [fuel E].
  assert (entered p s = with_bufs (Bufs d r) (entered p s)) as ->.
  { rewrite <-Hs. symmetry. apply (with_bufs_id (entered p s)). }
  exists fuel. unfold mbind, M_bind. fold start. by rewrite E.
Qed.

Lemma add_child_new_block e (d : D) sz p child blocks k x fl' r s :
  let start := si_start (k_inode (v_cache s) p) in
  let id := i_ino (i_inode (k_inode (v_cache s) child)) in
  si_lock (k_inode (v_cache s) p) = false → t_bufs (v_fs s) = Bufs d r →
  dir_chain d sz start blocks k → Forall (λ b, zlen b.2 = 100) blocks →
  (length blocks < e_fuel e)%nat → dir_id id → 20 ≤ sz →
  spfs_free_alloc 1 (t_free (v_fs s)) = Ok x fl' → x ≠ 0 → bc_data d x = Some (zeros sz) →
  ∃ s' d', spfs_add_child e p child s = Ok tt s' ∧ child_counted p x s s' ∧
    v_fs s' = BtreeSt (Bufs d' r) fl' (t_tree (v_fs s)) ∧ dir_chain d' sz x [(x, [id])] 3 ∧
    dev_upd d x (dir_block 0 [id] sz) d'.
Proof using L KL.
  intros start id Hl Hs Hk Hfull Hfuel Hid Hsz Ha Hx Hb.
  destruct (spfs_add_child_full e d sz p child blocks k r s Hl Hs Hk Hfull Hfuel) as [fuel E].
  destruct (add_child_alloc fuel p id d sz r x fl' (entered p s) Ha Hx Hb Hsz) as (d' & Hu & E2).
  cbv zeta in E2. fold id in E. rewrite (bind_ok _ _ _ _ _ E2) in E.
  eexists _, d'. split_and!; [rewrite E; by erewrite bind_ok by done| |done| |done].
  - exact (child_counted_at p x s (BtreeSt (Bufs d' r) fl' (t_tree (v_fs s))) Hl).
  - apply (dir_chain_block _ _ x 0 [id] []); try done; try (change (zlen [id]) with 1; lia).
    + by eapply dev_upd_data.
    + by apply Forall_singleton.
    + constructor.
Qed.

(** Without a block to be had, the directory is left without any. *)
Lemma add_child_no_space e (d : D) sz p child blocks k r s :
  let start := si_start (k_inode (v_cache s) p) in
  si_lock (k_inode (v_cache s) p) = false → t_bufs (v_fs s) = Bufs d r →
  dir_chain d sz start blocks k → Forall (λ b, zlen b.2 = 100) blocks →
  (length blocks < e_fuel e)%nat → spfs_free_alloc 1 (t_free (v_fs s)) = Ok 0 (t_free (v_fs s)) →
  ∃ s', spfs_add_child e p child s = Err (-EINVAL) s' ∧ child_counted p 0 s s' ∧ v_fs s' = v_fs s.
Proof using L KL.
  intros start Hl Hs Hk Hfull Hfuel Ha.
  destruct (spfs_add_child_full e d sz p child blocks k r s Hl Hs Hk Hfull Hfuel) as [fuel E].
  destruct s as [[bufs fl t] sbi cache fops]. cbn [v_fs t_bufs t_free] in *. subst bufs.
  set (s := VfsSt _ _ _ _) in *. set (id := i_ino _) in E.
  assert (Halloc : spfs_dir_block_alloc 0 (v_fs s) = Ok (0, 0, DirBlock 0 0) (v_fs s)).
  { unfold spfs_dir_block_alloc. by erewrite bind_ok by (apply zoom_ok; exact Ha). }
  assert (E2 : add_child_loop (S fuel) p id 0 (with_bufs (Bufs d r) (entered p s)) =
               Ok (-EINVAL) (lset v_fs_lens (v_fs s) (counted_at p 0 (entered p s)))).
  { cbn [add_child_loop]. rewrite bool_decide_eq_false_2 by (intros Hn; by apply Hn).
    erewrite bind_ok by (apply zoom_ok; exact Halloc). cbv beta iota. by erewrite bind_ok by done. }
  rewrite (bind_ok _ _ _ _ _ E2) in E.
  eexists. split_and!; [rewrite E; by erewrite bind_ok by done| |done].
  exact (child_counted_at p 0 s (v_fs s) Hl).
Qed.

(** When every block of a directory is full, adding a child succeeds and loses all
    the others: the new block becomes the directory's first and has no successor, so
    that a walk visits the new child only. *)
Theorem add_child_loses_full e (d : D) sz p child blocks k x fl' r s :
  let start := si_start (k_inode (v_cache s) p) in
  let id := i_ino (i_inode (k_inode (v_cache s) child)) in
  si_lock (k_inode (v_cache s) p) = false → t_bufs (v_fs s) = Bufs d r →
  dir_chain d sz start blocks k → Forall (λ b, zlen b.2 = 100) blocks →
  (length blocks < e_fuel e)%nat → dir_id id → 20 ≤ sz →
  spfs_free_alloc 1 (t_free (v_fs s)) = Ok x fl' → x ≠ 0 → bc_data d x = Some (zeros sz) →
  ∃ s' d' k', spfs_add_child e p child s = Ok tt s' ∧ child_counted p x s s' ∧
    t_bufs (v_fs s') = Bufs d' r ∧ dir_chain d' sz x [(x, [id])] k' ∧
    dir_children [(x, [id])] = [id] ∧ ∀ m, m ≠ x → bc_data d' m = bc_data d m.
Proof using L KL.
  intros start id Hl Hs Hk Hfull Hfuel Hid Hsz Ha Hx Hb.
  edestruct add_child_new_block as (s' & d' & ? & ? & Hfs & ? & (_ & _ & ?)); [done..|].
  exists s', d', 3%nat. by rewrite Hfs.
Qed.

(** In a block of less than 812 bytes the last entry may not fit although the block
    is not full: the child is then counted and its number is not stored, and the
    operation reports success; one more child, and it hits a BUG_ON. *)
Theorem add_child_small_block e (d : D) sz p child n next ids r s :
  let id := i_ino (i_inode (k_inode (v_cache s) child)) in
  si_lock (k_inode (v_cache s) p) = false → t_bufs (v_fs s) = Bufs d r →
  si_start (k_inode (v_cache s) p) = n → n ≠ 0 → 0 ≤ next → next < 2 ^ 32 → zlen ids < 100 →
  (0 < e_fuel e)%nat →
  (bc_data d n = Some (dir_block next ids sz) → 12 + 8 * zlen ids ≤ sz → sz < 12 + 8 * (zlen ids + 1) →
   ∃ s' d', spfs_add_child e p child s = Ok tt s' ∧ child_counted p n s s' ∧
     t_bufs (v_fs s') = Bufs d' r ∧
     dev_upd d n (dir_header next (zlen ids + 1) ++ drop 12 (dir_block next ids sz)) d') ∧
  (∀ b, bc_data d n = Some (dir_header next (zlen ids) ++ b) → 12 + zlen b < 12 + 8 * zlen ids →
   spfs_add_child e p child s = Crash BugOn).
Proof using L KL.
  intros id Hl Hs Hst Hn Hnx Hnx' Hlen Hfuel. destruct e as [fuel frame cur0]. cbn [e_fuel] in *.
  destruct fuel as [|fuel]; [lia|]. pose proof (zlen_nonneg ids).
  assert (entered p s = with_bufs (Bufs d r) (entered p s)) as He.
  { rewrite <-Hs. symmetry. apply (with_bufs_id (entered p s)). }
  split.
  - intros Hb Hsz Hsz'.
    destruct (dir_append_short d n next ids id sz (r + 1) Hb Hsz Hsz') as (d' & E & Hu); [lia|].
    exists (unlocked p (with_bufs (Bufs d' r) (entered p s))), d'.
    split_and!; [|rewrite <-Hst; by apply child_counted_unlock|done..|exact Hu].
    rewrite spfs_add_child_enter, He, Hst by done. fold id. cbn [e_fuel].
    erewrite bind_ok; cycle 1.
    { erewrite add_child_step by (done || lia). decide_if. exec E. erewrite bind_ok by done. reflexivity. }
    erewrite bind_ok by done. unfold unlocked, with_bufs. cbn.
    by replace (r + 1 - 1) with r by lia.
  - intros b Hb Hsz. rewrite spfs_add_child_enter, He, Hst by done. fold id. cbn [e_fuel].
    apply bind_crash. cbn [add_child_loop]. decide_if.
    assert (E1 : sb_bread n (t_bufs (v_fs (with_bufs (Bufs d r) (entered p s)))) = Ok true (Bufs d (r + 1)))
      by (by eapply (sb_bread_ok n (Bufs d r))).
    exec E1. cbn [negb]. set (blk := dir_header next (zlen ids) ++ b) in *.
    pose proof (zlen_nonneg b).
    assert (zlen blk = 12 + zlen b) as Hbl by (unfold blk; slen).
    assert (Hp : spfs_parse_dir_block (Cursor blk 0) = Ok (DirBlock next (zlen ids)) (Cursor blk 12)).
    { rewrite parse_dir_block_eq by lia.
      assert (H4 : ∀ v, 0 ≤ v → v < 2 ^ 32 → be_combine (be_split 4 v) = v).
      { intros. rewrite be_combine_split. by apply Z.mod_small. }
      unfold blk, dir_header. rewrite <-!app_assoc. sub_field. rewrite !H4 by (done || lia). done. }
    pose proof (in_bh_bufs n 0 _ d (r + 1) _ _ _ (entered p s) Hb Hp) as E2.
    erewrite bind_ok by (apply catch_ok; exact E2). cbn [pos db_children db_next].
    unfold spfs_dir_is_full. cbn [db_children]. decide_if. cbn [negb].
    apply bind_crash, zoom_crash. eapply (dir_append_bug d n); [done|lia..].
Qed.
End adding.

(** ** Concrete inputs *)
(** A user buffer that takes every entry *)
Record memdir := MemDir { md_pos : Z; md_entries : list (list byte * Z * Z) }.
#[export] Instance memdir_context : DirContext memdir := {
  dx_pos := md_pos;
  dx_set_pos d pos := MemDir pos (md_entries d);
  dx_emit d name ino type := (true, MemDir (md_pos d) (md_entries d ++ [(name, ino, type)]));
  dx_emit_dots d := (true, if bool_decide (md_pos d < 2) then MemDir 2 (md_entries d) else d);
}.

(** Files 2 ("ab") and 3 ("cd") in the root directory, whose first block is 9 *)
Definition example_named (n : Z) (name : list byte) : spfs_inode :=
  SpfsInode (Inode n 0x81A4 0 0 0 0 0 0 1) false 0 0 (splice 0 name (zeros SPOOKY_FS_NAME_MAX)).
Definition example_dir_kernel (cached : gset Z) : memkernel :=
  MemKernel {[1 := set_extent 9 2 example_root; 2 := example_named 2 [x61; x62];
              3 := example_named 3 [x63; x64]]} cached 0.
Definition example_dir_vfs (sz : Z) (block : list byte) (cached : gset Z) : vfs_st memdev memkernel :=
  VfsSt (BtreeSt (Bufs (MemDev sz {[9 := block; 5 := zeros sz]} ∅) 0) (FreeList false 2 [FreeNode 5 1])
           (Btree false sz 1 0))
    (SuperBlock 1 SPFS_MAGIC sz 0 1 4 false 1) (example_dir_kernel cached) ∅.
Definition two_files : vfs_st memdev memkernel :=
  example_dir_vfs 64 (dir_block 0 [2; 3] 64) {[1; 2; 3]}.

Lemma dir_chain_one (d : memdev) sz n ids :
  n ≠ 0 → bc_data d n = Some (dir_block 0 ids sz) → 12 + 8 * zlen ids ≤ sz → zlen ids < 2 ^ 31 →
  Forall dir_id ids → dir_chain d sz n [(n, ids)] (S (2 * length ids + 0)).
Proof. intros. apply (dir_chain_block _ _ n 0 ids []); try done. constructor. Qed.

Lemma two_files_ready cached :
  dir_ready example_env (b_dev (t_bufs (v_fs two_files))) 64 1 [(9, [2; 3])]
    (example_dir_vfs 64 (dir_block 0 [2; 3] 64) cached).
Proof.
  split; [done|done|by exists 0|]. exists 5%nat. split; [|by vm_compute; lia].
  apply (dir_chain_one _ 64 9 [2; 3]); [done|by vm_compute|eval_side|eval_side|].
  repeat constructor; done.
Qed.

Lemma lookup_finds_first_witness :
  ∃ s', spfs_lookup example_env 1 (Dentry [x63; x64] None) two_files =
    Ok (Some (Dentry [x63; x64] (Some 3))) s'.
Proof.
  destruct (lookup_finds_first example_env (b_dev (t_bufs (v_fs two_files))) 64 1 [(9, [2; 3])]
    (Dentry [x63; x64] None) two_files) as (s' & _ & H).
  - apply two_files_ready.
  - repeat constructor.
  - repeat constructor; vm_compute; eauto.
  - apply (bool_decide_unpack _). by vm_compute.
  - exists s'. exact H.
Defined.

Definition uncached_files : vfs_st memdev memkernel :=
  example_dir_vfs 64 (dir_block 0 [2; 3] 64) {[1]}.

#[export] Instance memdir_laws : DirContextLaws memdir.
Proof. split; [done|]. by intros x name ino type ok x' [= <- <-]. Qed.

Lemma iterate_lists_children_witness :
  ∃ s', spfs_iterate example_env 1 (MemDir 0 []) two_files =
    Ok (MemDir 4 [([x61; x62], 2, 8); ([x63; x64], 3, 8)]) s'.
Proof.
  destruct (iterate_lists_children example_env (b_dev (t_bufs (v_fs two_files))) 64 1 [(9, [2; 3])]
    two_files (MemDir 0 []) (MemDir 2 [])) as (s' & _ & H).
  - apply two_files_ready.
  - repeat constructor.
  - repeat constructor; vm_compute; eauto.
  - done.
  - done.
  - by vm_compute.
  - exists s'. exact H.
Defined.

Lemma uncached_child_crashes_witness :
  spfs_lookup example_env 1 example_dentry uncached_files = Crash NullDeref ∧
  spfs_iterate example_env 1 (MemDir 0 []) uncached_files = Crash NullDeref.
Proof.
  destruct (k_iget_locked (v_cache (locked 1 uncached_files)) 2) as [[new k1]|] eqn:E.
  - assert (new = true) as -> by (vm_compute in E; congruence).
    apply (uncached_child_crashes 7 zeros (blank_inode 0) (b_dev (t_bufs (v_fs two_files))) 64 1 9 2
      [3] [] example_dentry uncached_files k1 (MemDir 0 []) (MemDir 2 []));
      [apply two_files_ready|done|exact E|by left|done|done|eval_side].
  - exfalso. vm_compute in E. discriminate E.
Defined.

Lemma add_child_appends_witness :
  ∃ s' d', spfs_add_child example_env 1 3
      (example_dir_vfs 64 (dir_block 0 [2] 64) {[1; 2; 3]}) = Ok tt s' ∧
    dir_chain d' 64 9 [(9, [2; 3])] 5.
Proof.
  destruct (add_child_appends example_env
    (b_dev (t_bufs (v_fs (example_dir_vfs 64 (dir_block 0 [2] 64) {[1; 2; 3]})))) 64 1 3 [] 9 [2] [] 3 0
    (example_dir_vfs 64 (dir_block 0 [2] 64) {[1; 2; 3]})) as (s' & d' & H1 & _ & _ & H2 & _);
    [done|done| | |constructor|eval_side|eval_side|by split|by vm_compute; lia|].
  - apply (dir_chain_one _ 64 9 [2]); [done|by vm_compute|eval_side|eval_side|by repeat constructor].
  - apply NoDup_singleton.
  - exists s', d'. split; [exact H1|exact H2].
Defined.

Definition hundred : list Z := replicate 100 2.

Lemma add_child_loses_full_witness :
  ∃ s' d' k', spfs_add_child example_env 1 3
      (example_dir_vfs 1024 (dir_block 0 hundred 1024) {[1; 2; 3]}) = Ok tt s' ∧
    dir_chain d' 1024 5 [(5, [3])] k'.
Proof.
  destruct (add_child_loses_full example_env
    (b_dev (t_bufs (v_fs (example_dir_vfs 1024 (dir_block 0 hundred 1024) {[1; 2; 3]})))) 1024 1 3
    [(9, hundred)] 201 5 (FreeList false 1 [FreeNode 5 0]) 0
    (example_dir_vfs 1024 (dir_block 0 hundred 1024) {[1; 2; 3]}))
    as (s' & d' & k' & H1 & _ & _ & H2 & _);
    [done|done| |by repeat constructor|by vm_compute; lia|by split|eval_side|by vm_compute|done|by vm_compute|].
  - apply (dir_chain_one _ 1024 9 hundred); [done|by vm_compute|eval_side|eval_side|].
    by apply Forall_replicate.
  - exists s', d', k'. split; [exact H1|exact H2].
Defined.

Lemma add_child_small_block_witness :
  ∃ s' d', spfs_add_child example_env 1 3
      (example_dir_vfs 32 (dir_block 0 [2; 2] 32) {[1; 2; 3]}) = Ok tt s' ∧
    dev_upd (b_dev (t_bufs (v_fs (example_dir_vfs 32 (dir_block 0 [2; 2] 32) {[1; 2; 3]})))) 9
      (dir_header 0 3 ++ drop 12 (dir_block 0 [2; 2] 32)) d'.
Proof.
  destruct (add_child_small_block example_env
    (b_dev (t_bufs (v_fs (example_dir_vfs 32 (dir_block 0 [2; 2] 32) {[1; 2; 3]})))) 32 1 3 9 0 [2; 2] 0
    (example_dir_vfs 32 (dir_block 0 [2; 2] 32) {[1; 2; 3]})) as [H _];
    [done|done|done|done|done|done|eval_side|by vm_compute; lia|].
  destruct H as (s' & d' & H1 & _ & _ & H2); [by vm_compute|eval_side|eval_side|].
  exists s', d'. split; [exact H1|exact H2].
Defined.
