(* ===== verification/DirSpec.v ===== *)
(** * A directory as a list of names

    The specification of a directory: the list of its children, to which children are
    added at the end, and in which a name is found at its first occurrence.  Any sequence
    of additions and lookups on a directory of one block, as long as the block has room,
    yields the results of the specification and ends in a state that represents its
    list. *)
From S2P Require Import Prelude Buffers FreeList Inode Bnode Btree Super Vfs Dir.

(** The operations, with the child's in-core inode, or the dentry to be filled in *)
Inductive dir_op := OpAdd (child : Z) | OpFind (d : dentry).

Section spec.
Context {K : Type} {KK : Kernel K}.

(** The specification: the children, and what an operation answers *)
Definition spec_op (name : Z → option (list byte)) (ids : list Z) (op : dir_op) :
    list Z * option dentry :=
  match op with
  | OpAdd child => (ids ++ [child], None)
  | OpFind d => (ids, k_d_add d <$> head (filter (λ id, name id = Some (d_name d)) ids))
  end.

Fixpoint spec_ops (name : Z → option (list byte)) (ids : list Z) (ops : list dir_op) :
    list Z * list (option dentry) :=
  match ops with
  | [] => (ids, [])
  | op :: ops =>
      let '(ids1, r) := spec_op name ids op in
      let '(ids2, rs) := spec_ops name ids1 ops in
      (ids2, r :: rs)
  end.

Lemma spec_op_ext name name' ids op : (∀ id, name id = name' id) → spec_op name ids op = spec_op name' ids op.
Proof using.
  intros H. destruct op; [done|]. cbn. do 3 f_equal. apply list_filter_iff. intros id. by rewrite H.
Qed.

Lemma spec_ops_ext name name' ids ops : (∀ id, name id = name' id) → spec_ops name ids ops = spec_ops name' ids ops.
Proof using.
  intros H. revert ids. induction ops as [|op ops IH]; intros ids; [done|]. cbn.
  rewrite (spec_op_ext name name') by done. destruct (spec_op name' ids op) as [ids1 r]. by rewrite IH.
Qed.
End spec.

Section refinement.
Context {D K : Type} {B : BufferCache D} {L : BufferCacheLaws D} {KK : Kernel K} {KL : KernelLaws K}.
Implicit Types (s : vfs_st D K).

(** The implementation of an operation, and of a sequence of them *)
Definition dir_op_run (e : env) (p : Z) (op : dir_op) : M (vfs_st D K) (option dentry) :=
  match op with
  | OpAdd child => spfs_add_child e p child;; mret None
  | OpFind d => spfs_lookup e p d
  end.

Fixpoint dir_ops_run (e : env) (p : Z) (ops : list dir_op) : M (vfs_st D K) (list (option dentry)) :=
  match ops with
  | [] => mret []
  | op :: ops => r ← dir_op_run e p op; rs ← dir_ops_run e p ops; mret (r :: rs)
  end.

(** A child in the inode cache, with a number the directory format has room for, and a
    name that is a string *)
Definition child_ready s (id : Z) : Prop :=
  dir_id id ∧ k_cached (v_cache s) id = true ∧ i_ino (i_inode (k_inode (v_cache s) id)) = id ∧
  is_Some (child_name s id).

(** Directory [p] of state [s] holds the list [ids], in block [x]. *)
Record dir_holds (p x sz : Z) (ids : list Z) s : Prop := {
  dh_isdir : S_ISDIR (i_mode (i_inode (k_inode (v_cache s) p))) = true;
  dh_unlocked : si_lock (k_inode (v_cache s) p) = false;
  dh_start : si_start (k_inode (v_cache s) p) = x;
  dh_chain : ∃ d r, t_bufs (v_fs s) = Bufs d r ∧ dir_chain d sz x [(x, ids)] (S (2 * length ids));
  dh_ids : Forall (child_ready s) ids;
}.

(** What an operation is asked to do makes sense. *)
Definition op_ready s (op : dir_op) : Prop :=
  match op with OpAdd child => child_ready s child | OpFind d => x00 ∉ d_name d end.

(** The operations leave the names and numbers of all inodes alone. *)
Definition same_names s s' : Prop := ∀ m,
  si_name (k_inode (v_cache s') m) = si_name (k_inode (v_cache s) m) ∧
  i_ino (i_inode (k_inode (v_cache s') m)) = i_ino (i_inode (k_inode (v_cache s) m)) ∧
  k_cached (v_cache s') m = k_cached (v_cache s) m.

Lemma same_names_child s s' id : same_names s s' → child_name s' id = child_name s id.
Proof using. intros H. unfold child_name. by destruct (H id) as [-> _]. Qed.

Lemma same_names_ready s s' id : same_names s s' → child_ready s id → child_ready s' id.
Proof using.
  intros H (H1 & H2 & H3 & H4). unfold child_ready. rewrite (same_names_child s s') by done.
  by destruct (H id) as (_ & -> & ->).
Qed.

Lemma same_names_op s s' op : same_names s s' → op_ready s op → op_ready s' op.
Proof using. intros H. destruct op; [by eapply same_names_ready|done]. Qed.

Lemma same_vfs_names s s' : same_vfs s s' → same_names s s'.
Proof using. intros (_ & _ & _ & H) m. by destruct (H m) as [-> ->]. Qed.

Lemma child_counted_names p start s s' : child_counted p start s s' → same_names s s'.
Proof using.
  intros (Hp & Hoth & Hc & _) m. rewrite Hc. destruct (decide (m = p)) as [->|Hm].
  - by rewrite Hp.
  - by rewrite Hoth.
Qed.

(** The diagram for one operation *)
Lemma add_simulates e p x sz ids child s :
  dir_holds p x sz ids s → child_ready s child → zlen ids < 100 → 12 + 8 * (zlen ids + 1) ≤ sz →
  (0 < e_fuel e)%nat →
  ∃ s', dir_op_run e p (OpAdd child) s = Ok None s' ∧ dir_holds p x sz (ids ++ [child]) s' ∧ same_names s s'.
Proof using L KL.
  intros [Hdir Hl <- (d & r & Hb & Hch) Hids] Hchild Hroom Hsz Hf.
  pose proof Hchild as (Hid & _ & Hino & _).
  destruct (add_child_ok e d sz p child [] (si_start (k_inode (v_cache s) p)) ids [] _ r s Hl Hb Hch)
    as (s' & d' & E & Hcc & Hfs & Hch' & _);
    rewrite ?Hino; try done; [apply NoDup_singleton|].
  pose proof (child_counted_names _ _ _ _ Hcc) as Hn. pose proof Hcc as (Hp & _).
  exists s'. split_and!; [|split; rewrite ?Hp|done]; try done.
  - unfold dir_op_run. by rewrite (bind_ok _ _ _ _ _ E).
  - exists d', r. rewrite Hfs. split; [done|]. rewrite Hino in Hch'. rewrite length_app. cbn [length app] in *.
    by replace (S (2 * (length ids + 1))) with (S (S (S (2 * length ids)))) by lia.
  - apply Forall_app. split; [|apply Forall_singleton; by eapply (same_names_ready s)].
    eapply Forall_impl; [exact Hids|]. intros id. by eapply same_names_ready.
Qed.

Lemma find_simulates e p x sz ids dent s :
  dir_holds p x sz ids s → x00 ∉ d_name dent → (S (2 * length ids) < e_fuel e)%nat →
  ∃ s', dir_op_run e p (OpFind dent) s = Ok (spec_op (child_name s) ids (OpFind dent)).2 s' ∧
    dir_holds p x sz ids s' ∧ same_names s s'.
Proof using L KL.
  intros [Hdir Hl <- (d & r & Hb & Hch) Hids] H0 Hf. set (x := si_start (k_inode (v_cache s) p)) in *.
  assert (dir_ready e d sz p [(x, ids)] s) as Hready by (split; [done..|by exists r|by eexists]).
  assert (dir_children [(x, ids)] = ids) as Hcs by apply app_nil_r.
  pose proof (unlocked_locked p s Hl) as Hsame. pose proof (same_vfs_names _ _ Hsame) as Hn.
  exists (unlocked p (locked p s)). split_and!; [| |done].
  - unfold dir_op_run. rewrite (spfs_lookup_ok e d sz p [(x, ids)]); rewrite ?Hcs; try done.
    + eapply Forall_impl; [exact Hids|]. by intros id (_ & ? & _).
    + eapply Forall_impl; [exact Hids|]. by intros id (_ & _ & _ & ?).
  - destruct Hsame as (Hfs & _ & _ & Hi). destruct (Hi p) as [Hp _].
    split; rewrite ?Hp, ?Hfs; try done; [by exists d, r|].
    eapply Forall_impl; [exact Hids|]. intros id. by eapply same_names_ready.
Qed.

(** How many children a sequence adds *)
Fixpoint adds (ops : list dir_op) : Z :=
  match ops with
  | [] => 0
  | OpAdd _ :: ops => 1 + adds ops
  | OpFind _ :: ops => adds ops
  end.

Lemma adds_nonneg ops : 0 ≤ adds ops.
Proof using. induction ops as [|[] ops IH]; cbn; lia. Qed.

(** The diagram for one operation, with the specification's answer *)
Lemma op_simulates e p x sz ids op s :
  dir_holds p x sz ids s → op_ready s op → zlen ids + adds [op] ≤ 100 →
  12 + 8 * (zlen ids + adds [op]) ≤ sz → (S (2 * length ids) < e_fuel e)%nat →
  let r := spec_op (child_name s) ids op in
  ∃ s', dir_op_run e p op s = Ok r.2 s' ∧ dir_holds p x sz r.1 s' ∧ same_names s s'.
Proof using L KL.
  intros Hd Hop Hroom Hsz Hf. destruct op as [child|dent]; cbn [adds spec_op fst snd] in *.
  - apply add_simulates; [done..|lia|lia|lia].
  - by apply find_simulates.
Qed.

Lemma spec_op_length name ids op : zlen (spec_op (K := K) name ids op).1 = zlen ids + adds [op].
Proof using. destruct op; cbn [spec_op fst adds]; rewrite ?zlen_app; unfold zlen; cbn [length]; lia. Qed.

(** A directory of one block refines the list of its children: every sequence of
    additions and lookups that the block has room for runs without an error, answers
    each operation as the list does, and ends in a directory that holds the list the
    sequence builds.  The answers depend on the names the children had at the start. *)
Theorem dir_refines e p x sz ops ids s :
  dir_holds p x sz ids s → Forall (op_ready s) ops → zlen ids + adds ops ≤ 100 →
  12 + 8 * (zlen ids + adds ops) ≤ sz → 2 * (zlen ids + adds ops) + 1 < Z.of_nat (e_fuel e) →
  let r := spec_ops (child_name s) ids ops in
  ∃ s', dir_ops_run e p ops s = Ok r.2 s' ∧ dir_holds p x sz r.1 s'.
Proof using L KL.
  cbv zeta. revert ids s. induction ops as [|op ops IH]; intros ids s Hd Hops Hroom Hsz Hf; [by exists s|].
  apply Forall_cons in Hops as [Hop Hops]. pose proof (adds_nonneg ops). pose proof (adds_nonneg [op]).
  assert (adds (op :: ops) = adds [op] + adds ops) as Ha by (destruct op; cbn [adds]; lia).
  destruct (op_simulates e p x sz ids op s) as (s1 & E & Hd1 & Hn); [done|done|unfold zlen in *; lia..|].
  pose proof (spec_op_length (child_name s) ids op) as Hlen.
  destruct (IH (spec_op (child_name s) ids op).1 s1) as (s2 & E2 & Hd2); [done| |lia..|].
  { eapply Forall_impl; [exact Hops|]. intros o. by eapply same_names_op. }
  exists s2. cbn [dir_ops_run spec_ops]. rewrite (bind_ok _ _ _ _ _ E), (bind_ok _ _ _ _ _ E2).
  destruct (spec_op (child_name s) ids op) as [ids1 r1]. cbn [fst snd] in *.
  rewrite <-(spec_ops_ext _ _ ids1 ops (λ id, same_names_child s s1 id Hn)).
  by destruct (spec_ops (child_name s1) ids1 ops).
Qed.
End refinement.

(** ** Concrete inputs *)
(** A directory with the file "ab", to which "cd" is added; both are then looked up, and
    a name that nobody has. *)
Definition one_file : vfs_st memdev memkernel :=
  example_dir_vfs 64 (dir_block 0 [2] 64) {[1; 2; 3]}.
Definition one_file_ops : list dir_op :=
  [OpFind (Dentry [x63; x64] None); OpAdd 3; OpFind (Dentry [x63; x64] None);
   OpFind (Dentry [x61; x62] None); OpFind (Dentry [x65] None)].

Lemma one_file_holds : dir_holds 1 9 64 [2] one_file.
Proof.
  split; [done..| |].
  - exists (b_dev (t_bufs (v_fs one_file))), 0. split; [done|].
    apply (dir_chain_one _ 64 9 [2]); [done|by vm_compute|eval_side|eval_side|]. repeat constructor; done.
  - repeat constructor; done.
Qed.

Lemma dir_refines_witness :
  ∃ s', dir_ops_run example_env 1 one_file_ops one_file =
      Ok [None; None; Some (Dentry [x63; x64] (Some 3)); Some (Dentry [x61; x62] (Some 2)); None] s' ∧
    dir_holds 1 9 64 [2; 3] s'.
Proof.
  destruct (dir_refines example_env 1 9 64 one_file_ops [2] one_file) as (s' & H1 & H2);
    [apply one_file_holds| |by vm_compute..|].
  - repeat constructor; try (apply (bool_decide_unpack _); by vm_compute); try done.
  - exists s'. split; [exact H1|exact H2].
Defined.
