(* ===== verification/DirStore.v ===== *)
(** * All directories of a mounted file system

    The specification of the directory operations: for each directory the list of its
    children and the number of children it counts, and the number of free blocks.  It
    says what the code does also where that is not what one would want: the 101st child
    of a directory, and every child that is added when no block can be had, costs the
    directory all the others.

    Any sequence of additions, lookups and listings, on any of the directories, yields
    the answers of the specification, errors included, and ends in a state that
    represents what the specification ends in.  No two directories ever share a block,
    and no block of a directory is free. *)
From S2P Require Import Prelude Buffers FreeList AllocSpec Inode Bnode Btree Super Vfs Dir DirSpec.

(** ** Specification *)
(** The children a block has room for, see [spfs_dir_is_full] *)
Definition DIR_MAX : Z := 100.

Record dir_state := DirState { ds_children : list Z; ds_count : Z }.
Record store_state := StoreState { ss_free : Z; ss_dirs : gmap Z dir_state }.

(** What the operations see of a child *)
Record child_view := ChildView { cv_name : option (list byte); cv_inode : inode }.

Inductive store_op (X : Type) :=
| StAdd (p child : Z)
| StFind (p : Z) (d : dentry)
| StList (p : Z) (x : X).
Arguments StAdd {X} p child.
Arguments StFind {X} p d.
Arguments StList {X} p x.

Inductive store_answer (X : Type) :=
| Added
| Found (d : option dentry)
| Listed (x : X)
| Failed (e : Z).
Arguments Added {X}.
Arguments Found {X} d.
Arguments Listed {X} x.
Arguments Failed {X} e.

Section spec.
Context {K X : Type} {KK : Kernel K} {XX : DirContext X}.
Implicit Types (view : Z → child_view) (st : store_state) (dir : dir_state).

Definition spec_add st (p child : Z) dir : store_state * store_answer X :=
  let upd free ids :=
    StoreState free (<[p := DirState ids (u32 (ds_count dir + 1))]> (ss_dirs st)) in
  let ids := ds_children dir in
  if decide (ids ≠ [] ∧ zlen ids < DIR_MAX) then (upd (ss_free st) (ids ++ [child]), Added)
  else if decide (1 < ss_free st) then (upd (ss_free st - 1) [child], Added)
  else (upd (ss_free st) [], Failed (-EINVAL)).

Definition spec_find view (d : dentry) dir : store_answer X :=
  Found (k_d_add d <$> head (filter (λ id, cv_name (view id) = Some (d_name d)) (ds_children dir))).

Fixpoint spec_emit view (x : X) (ids : list Z) : X :=
  match ids with
  | [] => x
  | id :: ids =>
      let i := cv_inode (view id) in
      let '(ok, x') :=
        dx_emit x (default [] (cv_name (view id))) (i_ino i) (Z.land (Z.shiftr (i_mode i) 12) 15) in
      if (ok : bool) then spec_emit view (dx_set_pos x' (dx_pos x' + 1)) ids else x'
  end.

Definition spec_list view (x : X) dir : store_answer X :=
  let '(ok, x') := dx_emit_dots x in
  if negb ok then Failed (-EIO)
  else if decide (dx_pos x' < u32 (ds_count dir + 2))
  then Listed (spec_emit view x' (drop (Z.to_nat (dx_pos x' - 2)) (ds_children dir)))
  else Listed x'.

(** An operation on what is not a directory of the store is not specified. *)
Definition store_spec view st (op : store_op X) : option (store_state * store_answer X) :=
  match op with
  | StAdd p child => spec_add st p child <$> ss_dirs st !! p
  | StFind p d => (λ dir, (st, spec_find view d dir)) <$> ss_dirs st !! p
  | StList p x => (λ dir, (st, spec_list view x dir)) <$> ss_dirs st !! p
  end.

Fixpoint store_specs view st (ops : list (store_op X)) : option (store_state * list (store_answer X)) :=
  match ops with
  | [] => Some (st, [])
  | op :: ops =>
      r ← store_spec view st op;
      rs ← store_specs view r.1 ops;
      Some (rs.1, r.2 :: rs.2)
  end.

(** Views that agree give the same answers. *)
Lemma spec_emit_ext view view' : (∀ id, view id = view' id) → ∀ ids x, spec_emit view x ids = spec_emit view' x ids.
Proof using.
  intros H. induction ids as [|id ids IH]; intros x; [done|]. cbn [spec_emit]. rewrite H.
  destruct (dx_emit _ _ _ _) as [[|] x']; [apply IH|done].
Qed.

Lemma store_spec_ext view view' st op : (∀ id, view id = view' id) → store_spec view st op = store_spec view' st op.
Proof using.
  intros H. destruct op as [p child|p d|p x]; cbn; [done| |]; destruct (ss_dirs st !! p) as [dir|]; cbn; try done.
  - unfold spec_find. do 5 f_equal. apply list_filter_iff. intros id. by rewrite H.
  - unfold spec_list. destruct (dx_emit_dots x) as [ok x']. by rewrite (spec_emit_ext view view' H).
Qed.

Lemma store_specs_ext view view' ops :
  (∀ id, view id = view' id) → ∀ st, store_specs view st ops = store_specs view' st ops.
Proof using.
  intros H. induction ops as [|o ops IH]; intros st; [done|]. cbn [store_specs].
  rewrite (store_spec_ext view view') by done.
  destruct (store_spec view' st o) as [[st' a]|]; [|done]. cbn [mbind option_bind fst snd]. by rewrite IH.
Qed.

(** No operation makes or removes a directory. *)
Lemma store_spec_dom view st op st' a :
  store_spec view st op = Some (st', a) → dom (ss_dirs st') = dom (ss_dirs st).
Proof using.
  destruct op as [p child|p d|p x]; cbn; destruct (ss_dirs st !! p) as [dir|] eqn:E; cbn; try done;
    try (by intros [= <- <-]).
  unfold spec_add. intros H. injection H as H.
  repeat case_decide; injection H as <- <-; by apply dom_insert_lookup_L.
Qed.
End spec.

(** ** The refinement *)
Section refinement.
Context {D K X : Type} {B : BufferCache D} {L : BufferCacheLaws D} {KK : Kernel K} {KL : KernelLaws K}
  {XX : DirContext X} {XL : DirContextLaws X}.
Implicit Types (s : vfs_st D K) (st : store_state) (dir : dir_state).

(** The implementation of an operation: an error is an answer. *)
Definition answer {S A} (f : A → store_answer X) (m : M S A) : M S (store_answer X) :=
  r ← catch m;
  mret (match r with inl e => Failed e | inr a => f a end).

Definition store_run (e : env) (op : store_op X) : M (vfs_st D K) (store_answer X) :=
  match op with
  | StAdd p child => answer (λ _, Added) (spfs_add_child e p child)
  | StFind p d => answer Found (spfs_lookup e p d)
  | StList p x => answer Listed (spfs_iterate e p x)
  end.

Fixpoint store_runs (e : env) (ops : list (store_op X)) : M (vfs_st D K) (list (store_answer X)) :=
  match ops with
  | [] => mret []
  | op :: ops => a ← store_run e op; rs ← store_runs e ops; mret (a :: rs)
  end.

(** What the operations see of the inodes of a state *)
Definition view_of s (id : Z) : child_view :=
  ChildView (child_name s id) (i_inode (k_inode (v_cache s) id)).

Lemma emit_children_view s ids : ∀ x, emit_children s x ids = spec_emit (view_of s) x ids.
Proof using.
  induction ids as [|id ids IH]; intros x; [done|]. cbn [emit_children spec_emit]. unfold emit_child.
  cbn [view_of cv_name cv_inode]. destruct (dx_emit _ _ _ _) as [[|] x']; [apply IH|done].
Qed.

(** The one block of a directory, or none *)
Definition dir_blocks sz (d : D) fl (x : Z) (ids : list Z) : Prop :=
  (x = 0 ∧ ids = []) ∨
  (x ≠ 0 ∧ ids ≠ [] ∧ bc_data d x = Some (dir_block 0 ids sz) ∧ ¬ free_in x fl).

Record dir_rep sz s (p : Z) dir : Prop := {
  dr_dir : S_ISDIR (i_mode (i_inode (k_inode (v_cache s) p))) = true;
  dr_lock : si_lock (k_inode (v_cache s) p) = false;
  dr_count : si_capacity (k_inode (v_cache s) p) = ds_count dir;
  dr_children : Forall (child_ready s) (ds_children dir);
  dr_room : zlen (ds_children dir) ≤ DIR_MAX;
  dr_blocks : dir_blocks sz (b_dev (t_bufs (v_fs s))) (t_free (v_fs s))
                (si_start (k_inode (v_cache s) p)) (ds_children dir);
}.

(** A state that represents [st]: the block size leaves room for 100 children, the free
    blocks hold zeros, and directories share no block. *)
Record store_rep sz st s : Prop := {
  sr_size : 12 + 8 * DIR_MAX ≤ sz;
  sr_free : fl_wf (t_free (v_fs s));
  sr_unlocked : fl_lock (t_free (v_fs s)) = false;
  sr_count : fl_blocks (t_free (v_fs s)) = ss_free st;
  sr_blank : ∀ x, free_in x (t_free (v_fs s)) → bc_data (b_dev (t_bufs (v_fs s))) x = Some (zeros sz);
  sr_dirs : map_Forall (dir_rep sz s) (ss_dirs st);
  sr_disjoint : ∀ p q, p ∈ dom (ss_dirs st) → q ∈ dom (ss_dirs st) → p ≠ q →
    si_start (k_inode (v_cache s) p) ≠ 0 →
    si_start (k_inode (v_cache s) p) ≠ si_start (k_inode (v_cache s) q);
}.

(** What an operation is asked to do makes sense. *)
Definition store_ready st s (op : store_op X) : Prop :=
  match op with
  | StAdd p child => p ∈ dom (ss_dirs st) ∧ child_ready s child
  | StFind p d => p ∈ dom (ss_dirs st) ∧ x00 ∉ d_name d
  | StList p x => p ∈ dom (ss_dirs st) ∧ ((dx_emit_dots x).1 = true → 2 ≤ dx_pos (dx_emit_dots x).2)
  end.

(** The operations leave of the inodes what they see of them. *)
Definition same_children s s' : Prop := ∀ m,
  si_name (k_inode (v_cache s') m) = si_name (k_inode (v_cache s) m) ∧
  i_inode (k_inode (v_cache s') m) = i_inode (k_inode (v_cache s) m) ∧
  k_cached (v_cache s') m = k_cached (v_cache s) m.

#[export] Instance same_children_preorder : PreOrder same_children.
Proof using.
  split; [by intros s m|]. intros s1 s2 s3 H12 H23 m.
  destruct (H12 m) as (<- & <- & <-), (H23 m) as (<- & <- & <-). done.
Qed.

Lemma same_children_view s s' id : same_children s s' → view_of s' id = view_of s id.
Proof using. intros H. unfold view_of, child_name. by destruct (H id) as (-> & -> & _). Qed.

Lemma same_children_ready s s' id : same_children s s' → child_ready s id → child_ready s' id.
Proof using.
  intros H. unfold child_ready, child_name. by destruct (H id) as (-> & -> & ->).
Qed.

Lemma same_children_op st st' s s' op :
  same_children s s' → dom (ss_dirs st') = dom (ss_dirs st) → store_ready st s op → store_ready st' s' op.
Proof using.
  intros H Hd. destruct op as [p child|p d|p x]; unfold store_ready; rewrite Hd; try done.
  intros [? ?]. split; [done|by eapply same_children_ready].
Qed.

Lemma same_vfs_children s s' : same_vfs s s' → same_children s s'.
Proof using. intros (_ & _ & _ & H) m. by destruct (H m) as [-> ->]. Qed.

Lemma child_counted_children p start s s' : child_counted p start s s' → same_children s s'.
Proof using.
  intros (Hp & Hoth & Hc & _) m. rewrite Hc. destruct (decide (m = p)) as [->|Hm]; [by rewrite Hp|].
  by rewrite Hoth.
Qed.

(** ** Preservation *)
Lemma dir_rep_same sz s s' p dir :
  same_vfs s s' → dir_rep sz s p dir → dir_rep sz s' p dir.
Proof using.
  intros Hs [H1 H2 H3 H4 H5 H6]. pose proof (same_vfs_children s s' Hs) as Hc.
  destruct Hs as (Hfs & _ & _ & Hi). destruct (Hi p) as [Hp _]. split; rewrite ?Hp, ?Hfs; try done.
  eapply Forall_impl; [exact H4|]. intros id. by eapply same_children_ready.
Qed.

Lemma store_rep_same sz st s s' : same_vfs s s' → store_rep sz st s → store_rep sz st s'.
Proof using.
  intros Hs [H1 H2 H3 H4 H5 H6 H7]. pose proof Hs as (Hfs & _ & _ & Hi). split; rewrite ?Hfs; try done.
  - intros p dir Hp. apply (dir_rep_same sz s s'); [done|by apply H6].
  - intros p q. destruct (Hi p) as [-> _], (Hi q) as [-> _]. apply H7.
Qed.

(** Directory [p] now has the children [ids], in block [x]; of the device only block [y]
    has changed, which is not free and of no other directory. *)
Lemma store_rep_update sz st s s' p dir x ids y d' r fl' free' :
  store_rep sz st s → ss_dirs st !! p = Some dir →
  child_counted p x s s' → v_fs s' = BtreeSt (Bufs d' r) fl' (t_tree (v_fs s)) →
  fl_wf fl' → fl_lock fl' = false → fl_blocks fl' = free' →
  (∀ b, free_in b fl' → free_in b (t_free (v_fs s)) ∧ b ≠ y) →
  (∀ b, b ≠ y → bc_data d' b = bc_data (b_dev (t_bufs (v_fs s))) b) →
  (∀ q, q ∈ dom (ss_dirs st) → q ≠ p → si_start (k_inode (v_cache s) q) ≠ 0 →
     si_start (k_inode (v_cache s) q) ≠ y ∧ si_start (k_inode (v_cache s) q) ≠ x) →
  Forall (child_ready s) ids → zlen ids ≤ DIR_MAX → dir_blocks sz d' fl' x ids →
  store_rep sz (StoreState free' (<[p := DirState ids (u32 (ds_count dir + 1))]> (ss_dirs st))) s'.
Proof using.
  intros [H1 H2 H3 H4 H5 H6 H7] Hp Hcc Hfs Hwf Hlk Hfb Hsub Hdata Hoth Hids Hlen Hblk.
  pose proof (child_counted_children _ _ _ _ Hcc) as Hsame. destruct Hcc as (Hip & Hio & _).
  assert (Hmono : ∀ l, Forall (child_ready s) l → Forall (child_ready s') l).
  { intros l Hl. eapply Forall_impl; [exact Hl|]. intros id. by eapply same_children_ready. }
  assert (Hdom : dom (<[p := DirState ids (u32 (ds_count dir + 1))]> (ss_dirs st)) = dom (ss_dirs st)).
  { by apply dom_insert_lookup_L. }
  split; rewrite ?Hfs; cbn [t_free t_bufs b_dev ss_free ss_dirs]; try done.
  - intros b Hb. destruct (Hsub b Hb) as [Hb' Hby]. rewrite Hdata by done. by apply H5.
  - intros q dir'. rewrite lookup_insert_Some. intros [[Hqp Hd]|[Hqp Hq]].
    + rewrite <-Hqp, <-Hd. destruct (H6 p dir Hp) as [G1 G2 G3 G4 G5 G6].
      split; rewrite ?Hip, ?Hfs; cbn [t_free t_bufs b_dev ds_children ds_count]; try done; [|by apply Hmono].
      cbn [set_extent si_capacity]. by rewrite G3.
    + destruct (H6 q dir' Hq) as [G1 G2 G3 G4 G5 G6]. apply elem_of_dom_2 in Hq.
      split; rewrite ?Hio, ?Hfs by done; cbn [t_free t_bufs b_dev]; try done; [by apply Hmono|].
      destruct G6 as [G6|(G6 & ? & ? & Hnf)]; [by left|right]. destruct (Hoth q) as [Hy _]; [done..|].
      rewrite Hdata by done. split_and!; try done. intros [? _]%Hsub. done.
  - rewrite Hdom. intros q1 q2 Hq1 Hq2 Hne.
    destruct (decide (q1 = p)) as [Hn1|Hn1]; [|destruct (decide (q2 = p)) as [Hn2|Hn2]].
    + rewrite Hn1, Hip, Hio by congruence. cbn [set_extent si_start]. intros Hx Heq.
      destruct (Hoth q2) as [_ Hneq]; [done|congruence..].
    + rewrite Hn2, Hip, Hio by done. cbn [set_extent si_start]. intros Hx.
      destruct (Hoth q1) as [_ Hneq]; done.
    + rewrite !Hio by done. by apply H7.
Qed.

(** ** The operations *)
(** Rounds that are enough for every loop over a directory *)
Definition DIR_FUEL : nat := 202.

Definition block_list (x : Z) (ids : list Z) : list (Z * list Z) :=
  match ids with [] => [] | _ => [(x, ids)] end.

Lemma bufs_eta s : t_bufs (v_fs s) = Bufs (b_dev (t_bufs (v_fs s))) (b_refs (t_bufs (v_fs s))).
Proof using. by destruct (t_bufs (v_fs s)). Qed.

Lemma block_list_children x ids : dir_children (block_list x ids) = ids.
Proof using. destruct ids; [done|]. apply app_nil_r. Qed.

Lemma dir_blocks_chain sz (d : D) fl x ids :
  dir_blocks sz d fl x ids → Forall dir_id ids → zlen ids ≤ DIR_MAX → 12 + 8 * DIR_MAX ≤ sz →
  ∃ k, dir_chain d sz x (block_list x ids) k ∧ (k < DIR_FUEL)%nat.
Proof using.
  unfold DIR_MAX, DIR_FUEL, zlen. intros [[-> ->]|(Hx & Hne & Hb & _)] Hids Hlen Hsz.
  - exists 0%nat. split; [constructor|lia].
  - exists (S (2 * length ids + 0)). split; [|lia]. destruct ids as [|id ids]; [done|].
    apply (dir_chain_block _ _ _ 0); unfold zlen; try done; [lia..|constructor].
Qed.

Lemma dir_rep_ids sz s p dir : dir_rep sz s p dir → Forall dir_id (ds_children dir).
Proof using. intros H. eapply Forall_impl; [apply H|]. by intros id (? & _). Qed.

Lemma dir_rep_ready e sz st s p dir :
  store_rep sz st s → ss_dirs st !! p = Some dir → (DIR_FUEL ≤ e_fuel e)%nat →
  let blocks := block_list (si_start (k_inode (v_cache s) p)) (ds_children dir) in
  dir_ready e (b_dev (t_bufs (v_fs s))) sz p blocks s ∧
  Forall (λ id, k_cached (v_cache s) id = true) (dir_children blocks) ∧
  Forall (λ id, is_Some (child_name s id)) (dir_children blocks).
Proof using.
  intros Hrep Hp Hf blocks. pose proof (sr_dirs _ _ _ Hrep p dir Hp) as Hdir. unfold blocks.
  rewrite block_list_children. split_and!.
  - split; [apply Hdir|apply Hdir|exists (b_refs (t_bufs (v_fs s))); apply bufs_eta|].
    destruct (dir_blocks_chain _ _ _ _ _ (dr_blocks _ _ _ _ Hdir)) as (k & Hk & Hlt);
      [by eapply dir_rep_ids|apply Hdir|apply Hrep|]. exists k. split; [exact Hk|lia].
  - eapply Forall_impl; [apply Hdir|]. by intros id (_ & ? & _).
  - eapply Forall_impl; [apply Hdir|]. by intros id (_ & _ & _ & ?).
Qed.

Lemma find_refines e sz st s p dent dir :
  store_rep sz st s → ss_dirs st !! p = Some dir → x00 ∉ d_name dent → (DIR_FUEL ≤ e_fuel e)%nat →
  ∃ s', store_run e (StFind p dent) s = Ok (spec_find (view_of s) dent dir) s' ∧ same_vfs s s'.
Proof using L KL.
  intros Hrep Hp H0 Hf. destruct (dir_rep_ready e sz st s p dir Hrep Hp Hf) as (Hready & Hc & Hn).
  exists (unlocked p (locked p s)). split; [|by apply unlocked_locked, Hready].
  cbn [store_run]. unfold answer.
  erewrite bind_ok by (apply catch_ok; eapply spfs_lookup_ok; done). by rewrite block_list_children.
Qed.

Lemma list_refines e sz st s p x dir :
  store_rep sz st s → ss_dirs st !! p = Some dir →
  ((dx_emit_dots x).1 = true → 2 ≤ dx_pos (dx_emit_dots x).2) → (DIR_FUEL ≤ e_fuel e)%nat →
  ∃ s', store_run e (StList p x) s = Ok (spec_list (view_of s) x dir) s' ∧ same_vfs s s'.
Proof using L KL XL.
  intros Hrep Hp Hpos Hf. destruct (dir_rep_ready e sz st s p dir Hrep Hp Hf) as (Hready & Hc & Hn).
  pose proof (dr_count _ _ _ _ (sr_dirs _ _ _ Hrep p dir Hp)) as Hcount.
  cbn [store_run]. unfold answer, spec_list. destruct (dx_emit_dots x) as [ok x'] eqn:Hd.
  cbn [fst snd] in Hpos. destruct ok; cbn [negb]; cycle 1.
  { exists s. split; [|by split_and!]. assert (E : spfs_iterate e p x s = Err (-EIO) s) by (unfold spfs_iterate; by rewrite Hd).
    by erewrite bind_ok by (apply catch_err; exact E). }
  rewrite <-Hcount. case_decide as Hlt.
  - exists (unlocked p (locked p s)). split; [|by apply unlocked_locked, Hready].
    erewrite bind_ok by (apply catch_ok; eapply spfs_iterate_ok; try done; by apply Hpos).
    by rewrite block_list_children, emit_children_view.
  - exists s. split; [|by split_and!].
    assert (E : spfs_iterate e p x s = Ok x' s).
    { unfold spfs_iterate. rewrite Hd. cbn [negb]. erewrite bind_ok by done. by decide_if by lia. }
    by erewrite bind_ok by (apply catch_ok; exact E).
Qed.

(** Adding a child, in the three cases of the specification *)
Lemma add_room e sz st s p child dir :
  store_rep sz st s → ss_dirs st !! p = Some dir → child_ready s child → (DIR_FUEL ≤ e_fuel e)%nat →
  ds_children dir ≠ [] → zlen (ds_children dir) < DIR_MAX →
  ∃ s', spfs_add_child e p child s = Ok tt s' ∧ same_children s s' ∧
    store_rep sz (StoreState (ss_free st)
      (<[p := DirState (ds_children dir ++ [child]) (u32 (ds_count dir + 1))]> (ss_dirs st))) s'.
Proof using L KL.
  unfold DIR_FUEL, DIR_MAX. intros Hrep Hp Hchild Hf Hne Hlen.
  pose proof (sr_dirs _ _ _ Hrep p dir Hp) as Hdir.
  pose proof Hchild as (Hid & _ & Hino & _). pose proof (sr_size _ _ _ Hrep) as Hsz. unfold DIR_MAX in Hsz.
  destruct (dr_blocks _ _ _ _ Hdir) as [[_ ?]|(Hx & _ & Hb & Hnf)]; [done|].
  set (x := si_start (k_inode (v_cache s) p)) in *. set (ids := ds_children dir) in *.
  assert (Hch : dir_chain (b_dev (t_bufs (v_fs s))) sz x ([] ++ (x, ids) :: []) (S (2 * length ids + 0))).
  { apply (dir_chain_block _ _ _ 0); try done; [lia..|by eapply dir_rep_ids|constructor]. }
  destruct (add_child_ok e _ sz p child [] x ids [] _ (b_refs (t_bufs (v_fs s))) s (dr_lock _ _ _ _ Hdir)
    (bufs_eta s) Hch) as (s' & d' & E & Hcc & Hfs & Hch' & Hfr);
    [apply NoDup_singleton|done|lia|lia|by rewrite Hino|cbn; lia|].
  rewrite Hino in Hch'. exists s'. split_and!; [done|by eapply child_counted_children|].
  eapply (store_rep_update sz st s s' p dir x _ x d' _ (t_free (v_fs s))); try done; try apply Hrep.
  - exact Hfs.
  - intros b Hb'. split; [done|]. by intros ->.
  - intros q Hq Hqp Hq0. assert (si_start (k_inode (v_cache s) q) ≠ x); [|done].
    apply (sr_disjoint _ _ _ Hrep); try done. by eapply elem_of_dom_2.
  - apply Forall_app. split; [apply Hdir|by apply Forall_singleton].
  - rewrite zlen_app. unfold DIR_MAX. change (zlen [child]) with 1. lia.
  - right. split_and!; [done|by destruct ids| |done]. cbn [app] in Hch'.
    inversion Hch' as [|? next ? ? ? _ Hb' _ _ _ _ _ Hend]; subst. by inversion Hend; subst.
Qed.

(** Without room in the block, or without a block, a new one is needed. *)
Lemma full_blocks x dir :
  ¬ (ds_children dir ≠ [] ∧ zlen (ds_children dir) < DIR_MAX) → zlen (ds_children dir) ≤ DIR_MAX →
  Forall (λ b, zlen b.2 = 100) (block_list x (ds_children dir)).
Proof using.
  unfold DIR_MAX. intros Hfull Hlen. destruct (ds_children dir) as [|id ids] eqn:E; [constructor|].
  apply Forall_singleton. cbn [snd]. destruct (decide (zlen (id :: ids) < 100)); [|lia].
  destruct Hfull. by split.
Qed.

Lemma start_not_free sz st s q b :
  store_rep sz st s → q ∈ dom (ss_dirs st) → si_start (k_inode (v_cache s) q) ≠ 0 →
  free_in b (t_free (v_fs s)) → si_start (k_inode (v_cache s) q) ≠ b.
Proof using.
  intros Hrep [dir Hq]%elem_of_dom H0 Hb Heq.
  destruct (dr_blocks _ _ _ _ (sr_dirs _ _ _ Hrep q dir Hq)) as [[? _]|(_ & _ & _ & Hnf)]; congruence.
Qed.

Lemma free_not_0 fl : fl_wf fl → ¬ free_in 0 fl.
Proof using.
  intros Hwf (m & Hm & Hin)%Exists_exists. pose proof (flw_nodes _ Hwf) as Hok.
  rewrite Forall_forall in Hok. destruct (Hok m Hm) as (? & _). unfold in_node in Hin. lia.
Qed.

Lemma add_fresh e sz st s p child dir :
  store_rep sz st s → ss_dirs st !! p = Some dir → child_ready s child → (DIR_FUEL ≤ e_fuel e)%nat →
  ¬ (ds_children dir ≠ [] ∧ zlen (ds_children dir) < DIR_MAX) → 1 < ss_free st →
  ∃ s', spfs_add_child e p child s = Ok tt s' ∧ same_children s s' ∧
    store_rep sz (StoreState (ss_free st - 1)
      (<[p := DirState [child] (u32 (ds_count dir + 1))]> (ss_dirs st))) s'.
Proof using L KL.
  intros Hrep Hp Hchild Hf Hfull Hfree. pose proof (sr_dirs _ _ _ Hrep p dir Hp) as Hdir.
  pose proof Hchild as (Hid & _ & Hino & _). pose proof (sr_size _ _ _ Hrep) as Hsz. unfold DIR_MAX in Hsz.
  destruct (dir_blocks_chain _ _ _ _ _ (dr_blocks _ _ _ _ Hdir)) as (k & Hk & _);
    [by eapply dir_rep_ids|apply Hdir|done|].
  destruct (alloc_one (t_free (v_fs s))) as (x & fl' & Ea & Hwf' & Hlk' & Hcnt & Hx & Hin & Hsub);
    [apply Hrep|apply Hrep|by rewrite (sr_count _ _ _ Hrep)|].
  apply elem_of_free_blocks in Hin. rewrite (sr_count _ _ _ Hrep) in Hcnt.
  destruct (add_child_new_block e _ sz p child _ k x fl' (b_refs (t_bufs (v_fs s))) s (dr_lock _ _ _ _ Hdir)
    (bufs_eta s) Hk) as (s' & d' & E & Hcc & Hfs & _ & Hupd); try done.
  { apply full_blocks; [done|apply Hdir]. }
  { unfold DIR_FUEL in Hf. destruct (ds_children dir); cbn; lia. }
  { by rewrite Hino. }
  { lia. }
  { by apply (sr_blank _ _ _ Hrep). }
  rewrite Hino in Hupd. exists s'. split_and!; [done|by eapply child_counted_children|].
  assert (Hnew : ∀ b, free_in b fl' → free_in b (t_free (v_fs s)) ∧ b ≠ x).
  { intros b. rewrite <-!elem_of_free_blocks. apply Hsub. }
  eapply (store_rep_update sz st s s' p dir x _ x d' _ fl'); try done.
  - apply Hupd.
  - intros q Hq _ Hq0. assert (si_start (k_inode (v_cache s) q) ≠ x); [|done]. by eapply start_not_free.
  - by apply Forall_singleton.
  - right. split_and!; [done|done|by eapply dev_upd_data|]. by intros [_ ?]%Hnew.
Qed.

Lemma add_no_block e sz st s p child dir :
  store_rep sz st s → ss_dirs st !! p = Some dir → (DIR_FUEL ≤ e_fuel e)%nat →
  ¬ (ds_children dir ≠ [] ∧ zlen (ds_children dir) < DIR_MAX) → ss_free st ≤ 1 →
  ∃ s', spfs_add_child e p child s = Err (-EINVAL) s' ∧ same_children s s' ∧
    store_rep sz (StoreState (ss_free st)
      (<[p := DirState [] (u32 (ds_count dir + 1))]> (ss_dirs st))) s'.
Proof using L KL.
  intros Hrep Hp Hf Hfull Hfree. pose proof (sr_dirs _ _ _ Hrep p dir Hp) as Hdir.
  pose proof (sr_free _ _ _ Hrep) as Hwf.
  destruct (dir_blocks_chain _ _ _ _ _ (dr_blocks _ _ _ _ Hdir)) as (k & Hk & _);
    [by eapply dir_rep_ids|apply Hdir|apply Hrep|].
  destruct (add_child_no_space e _ sz p child _ k (b_refs (t_bufs (v_fs s))) s (dr_lock _ _ _ _ Hdir)
    (bufs_eta s) Hk) as (s' & E & Hcc & Hfs).
  { apply full_blocks; [done|apply Hdir]. }
  { unfold DIR_FUEL in Hf. destruct (ds_children dir); cbn; lia. }
  { rewrite spfs_free_alloc_eq by apply Hrep. rewrite (sr_count _ _ _ Hrep). by decide_if. }
  exists s'. split_and!; [done|by eapply child_counted_children|].
  assert (v_fs s' = BtreeSt (Bufs (b_dev (t_bufs (v_fs s))) (b_refs (t_bufs (v_fs s)))) (t_free (v_fs s))
            (t_tree (v_fs s))) as Hfs' by (rewrite Hfs; by destruct (v_fs s) as [[]]).
  eapply (store_rep_update sz st s s' p dir 0 _ 0 _ _ (t_free (v_fs s))); try done; try apply Hrep.
  - intros b Hb. split; [done|]. intros ->. by apply (free_not_0 _ Hwf).
  - by left.
Qed.

(** The diagram for one operation *)
Lemma store_simulates e sz st s op :
  store_rep sz st s → store_ready st s op → (DIR_FUEL ≤ e_fuel e)%nat →
  ∃ st' a s', store_spec (view_of s) st op = Some (st', a) ∧ store_run e op s = Ok a s' ∧
    store_rep sz st' s' ∧ same_children s s'.
Proof using L KL XL.
  intros Hrep Hop Hf. destruct op as [p child|p d|p x]; cbn [store_spec]; destruct Hop as [[dir Hp]%elem_of_dom Hop];
    rewrite Hp; cbn [fmap option_fmap option_map]; [|eexists _, _..].
  - unfold spec_add, store_run, answer. case_decide as Hroom; [|case_decide as Hfree].
    + destruct (add_room e sz st s p child dir) as (s' & E & Hc & Hr); [done..|apply Hroom|apply Hroom|].
      eexists _, _, s'. split_and!; [done| |done..]. by rewrite (bind_ok _ _ _ _ _ (catch_ok _ _ _ _ E)).
    + destruct (add_fresh e sz st s p child dir) as (s' & E & Hc & Hr); [done..|].
      eexists _, _, s'. split_and!; [done| |done..]. by rewrite (bind_ok _ _ _ _ _ (catch_ok _ _ _ _ E)).
    + destruct (add_no_block e sz st s p child dir) as (s' & E & Hc & Hr); [done..|lia|].
      eexists _, _, s'. split_and!; [done| |done..]. by rewrite (bind_ok _ _ _ _ _ (catch_err _ _ _ _ E)).
  - destruct (find_refines e sz st s p d dir) as (s' & E & Hs); [done..|]. exists s'.
    split_and!; [done|exact E|by eapply store_rep_same|by apply same_vfs_children].
  - destruct (list_refines e sz st s p x dir) as (s' & E & Hs); [done..|]. exists s'.
    split_and!; [done|exact E|by eapply store_rep_same|by apply same_vfs_children].
Qed.

Lemma store_runs_ok e sz ops : ∀ st s,
  store_rep sz st s → Forall (store_ready st s) ops → (DIR_FUEL ≤ e_fuel e)%nat →
  ∃ st' answers s', store_specs (view_of s) st ops = Some (st', answers) ∧
    store_runs e ops s = Ok answers s' ∧ store_rep sz st' s' ∧ same_children s s'.
Proof using L KL XL.
  induction ops as [|op ops IH]; intros st s Hrep Hops Hf; [by exists st, [], s|].
  apply Forall_cons in Hops as [Hop Hops].
  destruct (store_simulates e sz st s op Hrep Hop Hf) as (st1 & a & s1 & Hspec & E & Hrep1 & Hc).
  pose proof (store_spec_dom _ _ _ _ _ Hspec) as Hdom.
  destruct (IH st1 s1 Hrep1) as (st2 & rs & s2 & Hspec2 & E2 & Hrep2 & Hc2); [|done|].
  { eapply Forall_impl; [exact Hops|]. intros o. by apply same_children_op. }
  exists st2, (a :: rs), s2. split_and!; [| |done|by etrans].
  - cbn [store_specs]. rewrite Hspec. cbn [mbind option_bind fst snd].
    rewrite (store_specs_ext (view_of s) (view_of s1)) by (intros id; symmetry; by apply same_children_view).
    by rewrite Hspec2.
  - cbn [store_runs]. by rewrite (bind_ok _ _ _ _ _ E), (bind_ok _ _ _ _ _ E2).
Qed.

(** C6: the directories of a file system refine the specification.  Whatever children are
    added to whichever directories, looked up and listed, in any order and however many
    they are, each operation gives the specification's answer, an error included, and the
    file system ends in a state that represents the specification's: the directories
    have the children the specification says, no two of them share a block and none uses
    a free one, and no mutex is left locked.  The children are in the inode cache. *)
Theorem dir_store_refines e sz ops st s :
  store_rep sz st s → Forall (store_ready st s) ops → (DIR_FUEL ≤ e_fuel e)%nat →
  ∃ st' answers s', store_specs (view_of s) st ops = Some (st', answers) ∧
    store_runs e ops s = Ok answers s' ∧ store_rep sz st' s'.
Proof using L KL XL.
  intros Hrep Hops Hf. destruct (store_runs_ok e sz ops st s Hrep Hops Hf) as (st' & rs & s' & ? & ? & ? & _).
  by exists st', rs, s'.
Qed.
End refinement.

(** ** Concrete inputs *)
(** Three directories without children, 1, 4 and 5, files 2 ("ab") and 3 ("cd"), and three
    free blocks *)
Definition store_dir (n : Z) : spfs_inode :=
  SpfsInode (Inode n 0x41ED 0 0 0 0 0 0 2) false 0 0 (zeros SPOOKY_FS_NAME_MAX).
Definition example_store : vfs_st memdev memkernel :=
  VfsSt (BtreeSt (Bufs (MemDev 1024 {[6 := zeros 1024; 7 := zeros 1024; 8 := zeros 1024]} ∅) 0)
           (FreeList false 3 [FreeNode 6 3]) (Btree false 1024 1 0))
    (SuperBlock 1 SPFS_MAGIC 1024 0 1 6 false 1)
    (MemKernel {[1 := store_dir 1; 4 := store_dir 4; 5 := store_dir 5;
                 2 := example_named 2 [x61; x62]; 3 := example_named 3 [x63; x64]]} {[1; 2; 3; 4; 5]} 0) ∅.
Definition example_store_state : store_state :=
  StoreState 3 {[1 := DirState [] 0; 4 := DirState [] 0; 5 := DirState [] 0]}.
Definition example_store_ops : list (store_op memdir) :=
  [StAdd 1 2; StAdd 4 3; StAdd 1 3; StAdd 5 2; StFind 1 (Dentry [x63; x64] None);
   StFind 4 (Dentry [x61; x62] None); StList 1 (MemDir 0 [])].
Definition store_env : env := Env 300 zeros (blank_inode 0).

Lemma example_store_rep : store_rep 1024 example_store_state example_store.
Proof.
  assert (∀ p, p ∈ [1; 4; 5] → dir_rep 1024 example_store p (DirState [] 0)) as Hd.
  { intros p Hp. repeat (apply elem_of_cons in Hp as [->|Hp]); try (by apply not_elem_of_nil in Hp);
      (split; [done..|constructor|done|by left]). }
  split; try done.
  - split; cbn; [repeat constructor; cbn; lia|repeat constructor|done|lia].
  - intros x [Hx|[]%Exists_nil]%Exists_cons. unfold in_node in Hx. cbn in Hx. assert (x = 6 ∨ x = 7 ∨ x = 8) as [->|[->| ->]] by lia; by vm_compute.
  - intros p dir Hp. unfold example_store_state in Hp. cbn [ss_dirs] in Hp.
    repeat (apply lookup_insert_Some in Hp as [[<- <-]|[_ Hp]]; [apply Hd; set_solver|]).
    apply lookup_singleton_Some in Hp as [<- <-]. apply Hd. set_solver.
  - intros p q Hp Hq _ Hne. exfalso. apply Hne.
    unfold example_store_state in Hp. cbn [ss_dirs] in Hp. rewrite !dom_insert_L, dom_singleton_L in Hp.
    assert (p = 1 ∨ p = 4 ∨ p = 5) as [->|[->| ->]] by set_solver; by vm_compute.
Qed.

Lemma dir_store_refines_witness :
  ∃ s', store_runs store_env example_store_ops example_store =
      Ok [Added; Added; Added; Failed (-22); Found (Some (Dentry [x63; x64] (Some 3))); Found None;
          Listed (MemDir 4 [([x61; x62], 2, 8); ([x63; x64], 3, 8)])] s' ∧
    store_rep 1024 (StoreState 1 {[1 := DirState [2; 3] 2; 4 := DirState [3] 1; 5 := DirState [] 1]}) s'.
Proof.
  destruct (dir_store_refines store_env 1024 example_store_ops example_store_state example_store)
    as (st' & rs & s' & Hspec & E & Hrep); [apply example_store_rep| |by vm_compute; lia|].
  - repeat constructor; try (apply (bool_decide_unpack _); by vm_compute); try done.
  - vm_compute in Hspec. injection Hspec as <- <-. exists s'. split; [exact E|exact Hrep].
Defined.
