(* ===== verification/Frame.v ===== *)
(** * What reading does not change

    Looking a name up, listing a directory and reading a file store nothing on the device
    and take nothing from the free list, on any device, in any state, and on every error
    path.  The rules of [Spec] follow the code down to the buffer cache; the callbacks of
    the tree and of the directory walk are premises, discharged for each caller. *)
From S2P Require Import Prelude Spec Util Buffers FreeList Inode Bnode Btree Extent File Super Vfs Dir.

(** ** Buffers and nodes *)
Section nodes.
Context {D : Type} {B : BufferCache D}.
Abbreviation reads m := (steps (same (b_dev (D := D))) true m).

Lemma sb_bread_reads n : reads (sb_bread n).
Proof. intros s. unfold sb_bread. by destruct (bc_data (b_dev s) n). Qed.
Lemma brelse_reads n : reads (brelse n).
Proof. by intros s. Qed.
Lemma bh_data_reads n : reads (bh_data n).
Proof. intros s. unfold bh_data. by destruct (bc_data (b_dev s) n). Qed.
Lemma in_bh_reads {A} n p (m : M cursor A) : reads (in_bh n p m).
Proof. intros s. unfold in_bh. destruct (bc_data (b_dev s) n); [|done]. by destruct (m _). Qed.
Lemma mload_steps {S} (R : relation S) `{!PreOrder R} b l off n : steps R b (mload l off n).
Proof. unfold mload. steps_tac. Qed.
Lemma sb_remaining_steps {S} (R : relation S) `{!PreOrder R} b l p : steps R b (spfs_sb_remaining l p).
Proof. unfold spfs_sb_remaining. steps_tac. Qed.
End nodes.

#[export] Hint Resolve sb_bread_reads brelse_reads bh_data_reads in_bh_reads : steps.
#[export] Hint Extern 2 (steps _ _ (mload _ _ _)) => apply mload_steps; typeclasses eauto : steps.
#[export] Hint Extern 2 (steps _ _ (spfs_sb_remaining _ _)) =>
  apply sb_remaining_steps; typeclasses eauto : steps.

Section tree.
Context {D : Type} {B : BufferCache D}.
Abbreviation reads m := (steps (same (b_dev (D := D))) true m).

Lemma node_load_reads n off len : reads (node_load n off len).
Proof. unfold node_load. steps_tac. Qed.
#[local] Hint Resolve node_load_reads : steps.

Lemma bnode_length_reads n : reads (bnode_length n).
Proof. unfold bnode_length. steps_tac. Qed.
Lemma entry_load_reads n off : reads (entry_load n off).
Proof. unfold entry_load. steps_tac. Qed.
Lemma entry_load_id_reads n off : reads (entry_load_id n off).
Proof. unfold entry_load_id. steps_tac. Qed.
#[local] Hint Resolve bnode_length_reads entry_load_reads entry_load_id_reads : steps.

Lemma bnode_get_child_reads n i : reads (bnode_get_child n i).
Proof. unfold bnode_get_child. steps_tac. Qed.
Lemma bin_find_gte_loop_reads fuel n : ∀ it last end_ needle,
  reads (bin_find_gte_loop fuel n it last end_ needle).
Proof. induction fuel; intros; cbn [bin_find_gte_loop]; steps_tac. Qed.
#[local] Hint Resolve bnode_get_child_reads bin_find_gte_loop_reads : steps.
Lemma find_gte_reads n needle : reads (find_gte n needle).
Proof. unfold find_gte, bnode_bin_find_gte. steps_tac. Qed.
#[local] Hint Resolve find_gte_reads : steps.

(** A callback that stores nothing, and never reports a change *)
Definition cb_reads {C} (cb : btree_modify_cb (D := D) C) : Prop := ∀ c i s,
  match cb c i s with
  | Ok (dirty, _, _) s' => dirty = false ∧ b_dev s' = b_dev s
  | Err _ s' => b_dev s' = b_dev s
  | Crash _ => True
  end.

Lemma btree_visit_entry_reads {C} frame cur0 offset (c : C) cb :
  cb_reads cb → reads (btree_visit_entry frame cur0 offset c cb).
Proof.
  intros Hcb. unfold btree_visit_entry. case_bool_decide; [steps_tac|].
  apply steps_bind; [typeclasses eauto|steps_tac|]. intros [|]; cbn [negb]; [|steps_tac].
  apply steps_bind; [typeclasses eauto|steps_tac|]. intros [res|[cur p]]; [steps_tac|].
  intros s. unfold mbind at 1, M_bind at 1. specialize (Hcb c cur s).
  destruct (cb c cur s) as [[[dirty c'] cur'] s1|e s1|k]; [|by split|done].
  destruct Hcb as [-> Hs]. exact Hs.
Qed.

Lemma btree_modify_loop_reads {C} fuel frame cur0 ino (c : C) cb :
  cb_reads cb → ∀ offset, reads (btree_modify_loop fuel frame cur0 offset ino c cb).
Proof.
  intros Hcb. pose proof (λ offset, btree_visit_entry_reads frame cur0 offset c cb Hcb).
  induction fuel; intros; cbn [btree_modify_loop]; steps_tac.
Qed.

(** The lookup changes neither the device, nor the free list, nor the tree. *)
Definition tree_view (t : btree_st D) : D * spfs_free_list * spfs_btree :=
  (b_dev (t_bufs t), t_free t, t_tree t).

Lemma spfs_btree_lookup_reads fuel frame cur0 ino result :
  steps (same tree_view) true (spfs_btree_lookup fuel frame cur0 ino result).
Proof.
  unfold spfs_btree_lookup, spfs_btree_modify. steps_tac.
  apply (steps_zoom_in tree_view (b_dev (D := D))).
  - intros s t Ht. unfold tree_view. cbn in *. by rewrite Ht.
  - apply btree_modify_loop_reads. by intros c i s.
Qed.
End tree.

(** ** Directories *)
Section dirs.
Context {D K : Type} {B : BufferCache D} {KK : Kernel K}.
Implicit Types (s : vfs_st D K).

(** The device, the free list, the tree but for its mutex, and the super block *)
Definition vfs_view s : D * spfs_free_list * spfs_btree * spfs_super_block :=
  (b_dev (t_bufs (v_fs s)), t_free (v_fs s), set_tree_lock false (t_tree (v_fs s)), v_sbi s).
Abbreviation reads m := (steps (same vfs_view) true m).

Lemma zoom_bufs_reads {A} (m : M (bufs D) A) :
  steps (same (b_dev (D := D))) true m → reads (zoom v_bufs_lens m).
Proof. apply steps_zoom_in. intros s t Ht. unfold vfs_view. cbn in *. by rewrite Ht. Qed.

Lemma get_inode_reads n : reads (get_inode n).
Proof. unfold get_inode. steps_tac. Qed.
Lemma iget_locked_reads n : reads (iget_locked n).
Proof. intros s. unfold iget_locked. by destruct (k_iget_locked (v_cache s) n) as [[]|]. Qed.
Lemma spfs_setup_inode_fp_reads n : reads (spfs_setup_inode_fp n).
Proof. unfold spfs_setup_inode_fp, get_inode, upd_inode. steps_tac. Qed.

#[local] Hint Resolve zoom_bufs_reads get_inode_reads iget_locked_reads spfs_setup_inode_fp_reads : steps.

Lemma lookup_by_id_reads fuel frame cur0 ino result :
  reads (zoom v_fs_lens (spfs_btree_lookup fuel frame cur0 ino result)).
Proof.
  eapply steps_zoom_in; [|apply spfs_btree_lookup_reads].
  intros s t Ht. unfold vfs_view. unfold tree_view in Ht. cbn in *. by injection Ht as -> -> ->.
Qed.
#[local] Hint Resolve lookup_by_id_reads : steps.

Lemma spfs_inode_by_id_reads e n : reads (spfs_inode_by_id e n).
Proof.
  unfold spfs_inode_by_id, iget_failed, upd_inode, unlock_new_inode. steps_tac.
Qed.
#[local] Hint Resolve spfs_inode_by_id_reads : steps.

Section walk.
Context {C : Type} (f : for_all_cb C) (Hf : ∀ c cur, reads (f c cur)).

Lemma block_children_reads fuel e n : ∀ bh_pos i children c,
  reads (block_children fuel e f n bh_pos i children c).
Proof using Hf. induction fuel; intros; cbn [block_children]; steps_tac. Qed.
#[local] Hint Resolve block_children_reads : steps.

Lemma chain_children_reads fuel e : ∀ child_list c, reads (chain_children fuel e f child_list c).
Proof using Hf. induction fuel; intros; cbn [chain_children]; steps_tac. Qed.
#[local] Hint Resolve chain_children_reads : steps.

Lemma spfs_for_all_children_reads e p c : reads (spfs_for_all_children e p c f).
Proof using Hf. unfold spfs_for_all_children. steps_tac. Qed.
End walk.

Lemma spfs_lookup_reads e p dent : reads (spfs_lookup e p dent).
Proof.
  unfold spfs_lookup, spfs_inode_by_name. steps_tac. apply spfs_for_all_children_reads.
  intros c cur. unfold spfs_inode_by_name_cb. steps_tac.
Qed.

Lemma spfs_iterate_reads {X} {XX : DirContext X} e p (x : X) : reads (spfs_iterate e p x).
Proof.
  unfold spfs_iterate. steps_tac. apply spfs_for_all_children_reads.
  intros c cur. unfold spfs_iterate_cb. steps_tac.
Qed.
End dirs.

(** ** Files *)
Section files.
Context {D : Type} {B : BufferCache D}.

(** Reading an extent: the device stays, the user's buffer does not. *)
Abbreviation reads_io m := (steps (same (λ s : bufs D * list byte, b_dev s.1)) true m).

Lemma zoom_fst_reads {A} (m : M (bufs D) A) :
  steps (same (b_dev (D := D))) true m → reads_io (zoom fst_lens m).
Proof. by apply steps_zoom_in. Qed.
#[local] Hint Resolve zoom_fst_reads : steps.

Lemma read_extent_round_reads start bh_pos length in_len pos read :
  reads_io (read_extent_round start bh_pos length in_len pos read).
Proof. unfold read_extent_round. steps_tac. Qed.
#[local] Hint Resolve read_extent_round_reads : steps.

Lemma read_extent_loop_reads fuel : ∀ start bh_pos length in_len pos read,
  reads_io (read_extent_loop fuel start bh_pos length in_len pos read).
Proof. induction fuel; intros; cbn [read_extent_loop]; steps_tac. Qed.
#[local] Hint Resolve read_extent_loop_reads : steps.

Lemma spfs_read_file_extent_reads fuel start in_len pos :
  reads_io (spfs_read_file_extent fuel start in_len pos).
Proof. unfold spfs_read_file_extent. steps_tac. Qed.

(** The device, the free list, the tree, and the inode but for its mutex *)
Definition file_view (s : file_st D) : D * spfs_free_list * spfs_btree * spfs_inode :=
  (tree_view (f_tree s), set_lock false (f_inode s)).
Abbreviation reads m := (steps (same file_view) true m).

Lemma zoom_io_reads {A} (m : M (bufs D * list byte) A) : reads_io m → reads (zoom f_io_lens m).
Proof.
  apply steps_zoom_in. intros s t Ht. unfold file_view, tree_view. cbn in *. by rewrite Ht.
Qed.
#[local] Hint Resolve zoom_io_reads spfs_read_file_extent_reads : steps.

Lemma read_chain_reads fuel : ∀ start in_len pos read, reads (read_chain fuel start in_len pos read).
Proof. induction fuel; intros; cbn [read_chain]; steps_tac. Qed.
#[local] Hint Resolve read_chain_reads : steps.

Lemma spfs_read_reads fuel in_len : reads (spfs_read fuel in_len).
Proof. unfold spfs_read. steps_tac. Qed.
End files.

(** ** The property *)
Section frame.
Context {D K X : Type} {B : BufferCache D} {KK : Kernel K} {XX : DirContext X}.

(** C22: looking a name up, listing a directory and reading a file never write: in every
    state, on every device, and whether they succeed or return an error half-way,
    the device, the free list, the tree and the super block, and for a read the inode's
    fields, are what they were, but for the mutexes of the tree and of the inode (a read
    that fails in an extent returns with the inode's mutex taken). *)
Theorem reads_never_write (s : vfs_st D K) (s' : file_st D) e p dent (x : X) fuel in_len :
  leaves (λ s1, vfs_view s1 = vfs_view s) (spfs_lookup e p dent s) ∧
  leaves (λ s1, vfs_view s1 = vfs_view s) (spfs_iterate e p x s) ∧
  leaves (λ s1, file_view s1 = file_view s') (spfs_read fuel in_len s').
Proof.
  split_and!.
  - pose proof (spfs_lookup_reads e p dent s) as H. destruct (spfs_lookup e p dent s); [exact H|apply H|done].
  - pose proof (spfs_iterate_reads e p x s) as H. destruct (spfs_iterate e p x s); [exact H|apply H|done].
  - pose proof (spfs_read_reads fuel in_len s') as H.
    destruct (spfs_read fuel in_len s'); [exact H|apply H|done].
Qed.
End frame.
