(* ===== verification/Space.v ===== *)
(** * Free space

    All blocks the driver puts to use come out of the free list: the blocks of inode
    records and tree nodes, of directories and of files.  On every path of every
    operation, the list stays well formed and no block becomes free, so that what is in
    use is never handed out again.  (What is allocated on a path that then fails is lost:
    see [File].) *)
From S2P Require Import Prelude Spec Util Buffers FreeList AllocSpec Inode Bnode Btree Extent File Super Vfs Dir Frame.

(** The free list, and the number of blocks a node of the tree is allocated *)
Definition space {D} (t : btree_st D) : spfs_free_list * Z := (t_free t, bt_blocks (t_tree t)).

Definition space_le (n : Z) : relation (spfs_free_list * Z) := λ x y,
  x.2 = n → y.2 = n ∧ (fl_wf x.1 → fl_wf y.1 ∧ ∀ b, free_in b y.1 → free_in b x.1).

#[export] Instance space_le_preorder n : PreOrder (space_le n).
Proof.
  unfold space_le. split; [by intros x|]. intros x y z Hxy Hyz Hx.
  destruct (Hxy Hx) as [Hy Hxy']. destruct (Hyz Hy) as [Hz Hyz']. naive_solver.
Qed.

Lemma spfs_free_alloc_returns n fl e fl' : spfs_free_alloc n fl ≠ Err e fl'.
Proof.
  unfold spfs_free_alloc, mutex_lock, mbind, M_bind. cbn. destruct (fl_lock fl); [done|]. cbn.
  destruct (bool_decide _); [|done]. by destruct (free_alloc_walk _ _) as [[]|].
Qed.

Section space.
Context {D : Type} {B : BufferCache D} (n : Z).
Abbreviation spares m := (steps (on (space (D := D)) (space_le n)) true m).

Lemma free_alloc_spares k : 0 ≤ k → spares (zoom t_free_lens (spfs_free_alloc k)).
Proof using.
  intros Hk [bufs fl t]. unfold zoom. cbn [lget lset t_free_lens t_free].
  destruct (spfs_free_alloc k fl) as [r fl'|e fl'|c] eqn:E; [|by apply spfs_free_alloc_returns in E|done].
  intros Hx. split; [done|]. cbn. intros Hwf. destruct (fl_lock fl) eqn:Hl.
  { unfold spfs_free_alloc, mutex_lock, mbind, M_bind in E. cbn in E. by rewrite Hl in E. }
  destruct (alloc_cases k fl Hwf Hl Hk) as (r' & fl1 & E' & Hwf' & _ & Hcase).
  rewrite E in E'. injection E' as <- <-. split; [done|]. unfold alloc_takes in Hcase. naive_solver.
Qed.

Lemma gets_tree_spares {A} (k : spfs_btree → M (btree_st D) A) :
  (∀ t, bt_blocks t = n → spares (k t)) → spares (t ← gets t_tree; k t).
Proof using.
  intros Hk s. change ((t ← gets t_tree; k t) s) with (k (t_tree s) s).
  destruct (decide (bt_blocks (t_tree s) = n)) as [Ht|Ht]; [by apply Hk|].
  destruct (k (t_tree s) s); [by intros ?%Ht|split; [done|by intros ?%Ht]|done].
Qed.

Lemma set_start_spares root : spares (zoom t_tree_lens (modify (set_start root))).
Proof using. intros s. by apply space_le_preorder. Qed.

Hypothesis Hn : 0 ≤ n.
#[local] Hint Extern 1 (steps _ _ (zoom t_free_lens (spfs_free_alloc _))) =>
  apply free_alloc_spares; lia : steps.
#[local] Hint Resolve set_start_spares : steps.
Ltac spares_tac := 
  repeat first [apply gets_tree_spares; intros ? ? | solve [auto with steps nocore] | progress steps_step].

Lemma spfs_btree_modify_spares {C} fuel frame cur0 ino (c : C) cb :
  spares (spfs_btree_modify fuel frame cur0 ino c cb).
Proof using. unfold spfs_btree_modify. steps_tac. Qed.

Lemma btree_fixup_spares tree bubble : spares (btree_fixup tree bubble).
Proof using Hn. unfold btree_fixup. spares_tac. Qed.
#[local] Hint Resolve btree_fixup_spares : steps.

Lemma btree_insert_spares fuel frame inp out : ∀ tree, spares (btree_insert fuel frame tree inp out).
Proof using Hn. induction fuel; intros; cbn [btree_insert]; spares_tac. Qed.

Lemma bnode_alloc_root_spares bubble : spares (bnode_alloc_root bubble).
Proof using Hn. unfold bnode_alloc_root. spares_tac. Qed.
#[local] Hint Resolve btree_insert_spares bnode_alloc_root_spares : steps.

Lemma spfs_btree_insert_spares fuel frame inp : spares (spfs_btree_insert fuel frame inp).
Proof using Hn. unfold spfs_btree_insert. spares_tac. Qed.

Lemma spfs_dir_block_alloc_spares bh_pos : spares (spfs_dir_block_alloc bh_pos).
Proof using. unfold spfs_dir_block_alloc. steps_tac. Qed.

Lemma spfs_file_extent_alloc_spares blocks : 0 ≤ blocks → spares (spfs_file_extent_alloc blocks).
Proof using. intros. unfold spfs_file_extent_alloc. steps_tac. Qed.
End space.
#[export] Hint Extern 1 (steps _ _ (spfs_btree_insert _ _ _)) => apply spfs_btree_insert_spares; lia : steps.
#[export] Hint Resolve spfs_btree_modify_spares spfs_dir_block_alloc_spares : steps.

(** ** The operations on directories *)
Section dirs.
Context {D K : Type} {B : BufferCache D} {KK : Kernel K} (n : Z).
Hypothesis Hn : 0 ≤ n.
Implicit Types s : vfs_st D K.

Definition vspace s : spfs_free_list * Z := space (v_fs s).
Abbreviation spares m := (steps (on vspace (space_le n)) true m).

Lemma zoom_fs_spares {A} (m : M (btree_st D) A) :
  steps (on space (space_le n)) true m → spares (zoom v_fs_lens m).
Proof using. by apply steps_zoom. Qed.
Lemma get_inode_spares id : spares (get_inode id).
Proof using. unfold get_inode. steps_tac. Qed.
Lemma iget_locked_spares id : spares (iget_locked id).
Proof using.
  intros s. unfold iget_locked. destruct (k_iget_locked (v_cache s) id) as [[]|]; unfold on; reflexivity.
Qed.
Lemma spfs_setup_inode_fp_spares id : spares (spfs_setup_inode_fp id).
Proof using. unfold spfs_setup_inode_fp, get_inode, upd_inode. steps_tac. Qed.
#[local] Hint Resolve zoom_fs_spares get_inode_spares iget_locked_spares spfs_setup_inode_fp_spares : steps.

Lemma spfs_new_inode_spares parent mode : spares (spfs_new_inode parent mode).
Proof using. unfold spfs_new_inode, iget_failed, upd_inode, unlock_new_inode. steps_tac. Qed.
#[local] Hint Resolve spfs_new_inode_spares : steps.

Lemma spfs_generic_create_spares e p subject mode : spares (spfs_generic_create e p subject mode).
Proof using Hn. unfold spfs_generic_create, upd_inode. steps_tac. Qed.

Lemma add_child_loop_spares fuel parent child : ∀ start, spares (add_child_loop fuel parent child start).
Proof using. induction fuel; intros; cbn [add_child_loop]; unfold upd_inode; steps_tac. Qed.
#[local] Hint Resolve spfs_generic_create_spares add_child_loop_spares : steps.

Lemma spfs_add_child_spares e p child : spares (spfs_add_child e p child).
Proof using. unfold spfs_add_child, upd_inode, mark_inode_dirty. steps_tac. Qed.
#[local] Hint Resolve spfs_add_child_spares : steps.

Lemma spfs_create_spares e p subject mode : spares (spfs_create e p subject mode).
Proof using Hn. unfold spfs_create. steps_tac. Qed.
Lemma spfs_mkdir_spares e p subject mode : spares (spfs_mkdir e p subject mode).
Proof using Hn. unfold spfs_mkdir, upd_inode. steps_tac. Qed.
Lemma spfs_write_inode_spares e id : spares (spfs_write_inode e id).
Proof using. unfold spfs_write_inode. steps_tac. Qed.
End dirs.

(** ** Writing to files *)
Section files.
Context {D : Type} {B : BufferCache D} (n : Z).
Implicit Types s : file_st D.

Definition fspace s : spfs_free_list * Z := space (f_tree s).
Abbreviation spares m := (steps (on fspace (space_le n)) true m).

Lemma blocks_for_loop_nonneg {S} fuel bs : ∀ bytes r (s : S) x (s' : S),
  0 ≤ r → blocks_for_loop fuel bs bytes r s = Ok x s' → 0 ≤ x.
Proof using.
  induction fuel as [|fuel IH]; intros bytes r s x s' Hr E; [done|]. cbn [blocks_for_loop] in E.
  case_bool_decide; [eapply IH; [|exact E]; lia|]. by injection E as <- <-.
Qed.
Lemma calc_extra_nonneg {S} fuel bs capacity pos len (s : S) x (s' : S) :
  spfs_calc_extra_blocks fuel bs capacity pos len s = Ok x s' → 0 ≤ x.
Proof using.
  unfold spfs_calc_extra_blocks. case_bool_decide; [by intros [= <- <-]|].
  unfold spfs_blocks_for. by apply blocks_for_loop_nonneg.
Qed.
Lemma blocks_for_loop_steps {S} (R : relation S) `{!PreOrder R} fuel bs : ∀ bytes r,
  steps R true (blocks_for_loop fuel bs bytes r).
Proof using. induction fuel; intros; cbn [blocks_for_loop]; steps_tac. Qed.
Lemma calc_extra_steps {S} (R : relation S) `{!PreOrder R} fuel bs capacity pos len :
  steps R true (spfs_calc_extra_blocks fuel bs capacity pos len).
Proof using. unfold spfs_calc_extra_blocks. steps_tac. by apply blocks_for_loop_steps. Qed.

Lemma spfs_ensure_capacity_spares fuel frame cur0 bs pos len :
  spares (spfs_ensure_capacity fuel frame cur0 bs pos len).
Proof using.
  unfold spfs_ensure_capacity. steps_step; [steps_tac|]. apply (steps_bind_post _ (λ x, 0 ≤ x)).
  - apply calc_extra_steps. apply _.
  - intros s x s1. apply calc_extra_nonneg.
  - intros extra Hx. case_bool_decide; [steps_tac|]. steps_step.
    { by apply (steps_zoom _ (on space (space_le n))), spfs_file_extent_alloc_spares. }
    unfold spfs_file_extent_data_bytes. steps_tac.
    by apply (steps_zoom _ (on space (space_le n))), spfs_btree_modify_spares.
Qed.
#[local] Hint Resolve spfs_ensure_capacity_spares : steps.

Lemma write_chain_spares bs fuel : ∀ start in_buf len pos extra written,
  spares (write_chain fuel bs start in_buf len pos extra written).
Proof using. induction fuel; intros; cbn [write_chain]; steps_tac. Qed.
#[local] Hint Resolve write_chain_spares : steps.

Lemma lock_interruptible_spares b : spares (mutex_lock_interruptible b).
Proof using.
  intros s. unfold mutex_lock_interruptible. destruct (si_lock _), b; try done; unfold on; reflexivity.
Qed.
#[local] Hint Resolve lock_interruptible_spares : steps.

Lemma spfs_write_spares fuel frame cur0 i bs in_buf : spares (spfs_write fuel frame cur0 i bs in_buf).
Proof using. unfold spfs_write. steps_tac. Qed.
End files.

(** ** A mounted file system, over any sequence of operations *)
Section run.
Context {D K X : Type} {B : BufferCache D} {KK : Kernel K} {XX : DirContext X}.
Implicit Types (s : vfs_st D K) (t : btree_st D).

Definition ends_in {S A} (o : out S A) (s : S) : Prop :=
  match o with Ok _ s' | Err _ s' => s' = s | Crash _ => False end.

(** The state of an open file is that of the file system and of the file's inode. *)
Definition file_of s (id : Z) (user : list byte) (ppos : Z) : file_st D :=
  FileSt (v_fs s) (k_inode (v_cache s) id) user ppos.
Definition file_put s (id : Z) (f : file_st D) : vfs_st D K :=
  VfsSt (f_tree f) (v_sbi s) (k_set_inode (v_cache s) id (f_inode f)) (v_fops s).

(** An operation on the file system, whether it succeeds or fails *)
Inductive vfs_step (e : env) : relation (vfs_st D K) :=
| vfs_create s p subject mode s' : ends_in (spfs_create e p subject mode s) s' → vfs_step e s s'
| vfs_mkdir s p subject mode s' : ends_in (spfs_mkdir e p subject mode s) s' → vfs_step e s s'
| vfs_lookup s p dent s' : ends_in (spfs_lookup e p dent s) s' → vfs_step e s s'
| vfs_iterate s p (x : X) s' : ends_in (spfs_iterate e p x s) s' → vfs_step e s s'
| vfs_write_inode s id s' : ends_in (spfs_write_inode e id s) s' → vfs_step e s s'
| vfs_read s id user ppos len f' :
    ends_in (spfs_read (e_fuel e) len (file_of s id user ppos)) f' → vfs_step e s (file_put s id f')
| vfs_write s id user ppos i bs in_buf f' :
    ends_in (spfs_write (e_fuel e) (e_frame e) (e_cur0 e) i bs in_buf (file_of s id user ppos)) f' →
    vfs_step e s (file_put s id f').

Definition fs_wf t : Prop := fl_wf (t_free t) ∧ 0 ≤ bt_blocks (t_tree t).
Definition nothing_freed t t' : Prop := fs_wf t' ∧ free_blocks (t_free t') ⊆ free_blocks (t_free t).

Lemma space_le_freed t t' :
  fs_wf t → (∀ n, 0 ≤ n → space_le n (space t) (space t')) → nothing_freed t t'.
Proof using.
  intros [Hwf Hn] H. destruct (H (bt_blocks (t_tree t)) Hn eq_refl) as [Ht Hfl]. cbn in Ht.
  destruct (Hfl Hwf) as [Hwf' Hsub]. split; [split; [done|lia]|].
  intros b. rewrite !elem_of_free_blocks. apply Hsub.
Qed.

Lemma steps_ends {S A} (R : relation S) (m : M S A) (s s' : S) : steps R true m → ends_in (m s) s' → R s s'.
Proof using. intros H. specialize (H s). unfold ends_in. destruct (m s); [by intros ->|intros ->; apply H|done]. Qed.

Lemma view_space n s s' : same vfs_view s s' → space_le n (vspace s) (vspace s').
Proof using.
  unfold same, vfs_view, vspace, space. intros H. injection H as _ -> _ -> _ _. reflexivity.
Qed.
Lemma view_fspace n (f f' : file_st D) : same file_view f f' → space_le n (fspace f) (fspace f').
Proof using.
  unfold same, file_view, tree_view, fspace, space. intros H. injection H as _ -> -> _. reflexivity.
Qed.

Lemma vfs_step_spares e s s' : vfs_step e s s' → ∀ n, 0 ≤ n → space_le n (vspace s) (vspace s').
Proof using.
  intros Hs n Hn. destruct Hs as [s p d mode s' E|s p d mode s' E|s p d s' E|s p x s' E|s id s' E
    |s id user ppos len f' E|s id user ppos i bs in_buf f' E].
  - apply (steps_ends (on vspace (space_le n))) in E; [exact E|by apply spfs_create_spares].
  - apply (steps_ends (on vspace (space_le n))) in E; [exact E|by apply spfs_mkdir_spares].
  - apply (steps_ends (same vfs_view)) in E; [by apply view_space|apply spfs_lookup_reads].
  - apply (steps_ends (same vfs_view)) in E; [by apply view_space|apply spfs_iterate_reads].
  - apply (steps_ends (on vspace (space_le n))) in E; [exact E|apply spfs_write_inode_spares].
  - apply (steps_ends (same file_view)) in E; [|apply spfs_read_reads].
    exact (view_fspace n _ _ E).
  - apply (steps_ends (on fspace (space_le n))) in E; [exact E|apply spfs_write_spares].
Qed.

(** C2: on a mounted file system no block is ever given back by mistake.  Whatever
    operations run, in any order and whether they succeed or fail half-way, the free
    list stays well formed and every block that is free at the end was free at the
    start: a block that has been put to use is never handed out a second time. *)
Theorem free_space_shrinks e s s' :
  rtc (vfs_step e) s s' → fs_wf (v_fs s) → nothing_freed (v_fs s) (v_fs s').
Proof using.
  intros Hs Hwf. apply space_le_freed; [done|]. intros n Hn.
  induction Hs as [|s s1 s' H1 Hs IH]; [reflexivity|].
  etrans; [by apply (vfs_step_spares e)|]. apply IH.
  by destruct (space_le_freed (v_fs s) (v_fs s1) Hwf (vfs_step_spares e _ _ H1)).
Qed.
End run.

(** ** Concrete inputs *)
(** Two operations on a new file system: the root directory is listed, and a file made. *)
Definition listed : vfs_st memdev memkernel :=
  match spfs_iterate example_env 1 (MemDir 0 []) (example_vfs 0) with
  | Ok _ s => s | Err _ s => s | Crash _ => example_vfs 0 end.
Definition one_created : vfs_st memdev memkernel :=
  match spfs_create example_env 1 example_dentry 0x81A4 listed with
  | Ok _ s => s | Err _ s => s | Crash _ => listed end.

Lemma free_space_shrinks_witness :
  rtc (vfs_step (X := memdir) example_env) (example_vfs 0) one_created ∧
  nothing_freed (v_fs (example_vfs 0)) (v_fs one_created) ∧ fl_blocks (t_free (v_fs one_created)) = 7.
Proof.
  assert (rtc (vfs_step (X := memdir) example_env) (example_vfs 0) one_created) as Hrun.
  { eapply rtc_l; [apply (vfs_iterate _ _ 1 (MemDir 0 []) listed); by vm_compute|].
    eapply rtc_l; [apply (vfs_create _ _ 1 example_dentry 0x81A4 one_created); by vm_compute|constructor]. }
  split; [exact Hrun|]. split; [|by vm_compute].
  apply (free_space_shrinks example_env (example_vfs 0) one_created Hrun).
  split; [|by vm_compute]. split; cbn; [repeat constructor; cbn; lia|repeat constructor|done|lia].
Defined.
