(* ===== verification/Locks.v ===== *)
(** * Every lock is given back

    The functions on directories take the directory's mutex and the tree's mutex around
    code that can fail in many places.  Whatever happens in between, an operation that
    returns leaves both free, so that no later operation waits for ever.  (Reading and
    writing files do not have this property: see [File].) *)
From S2P Require Import Prelude Spec Util Buffers FreeList Inode Bnode Btree Super Vfs Dir.

(** ** Code that reports failures by its result only *)
Abbreviation no_err m := (steps any false m).

Section no_err.
Context {D K : Type} {B : BufferCache D} {KK : Kernel K}.

Lemma sb_bread_no_err n : no_err (sb_bread (D := D) n).
Proof. intros s. unfold sb_bread. by destruct (bc_data (b_dev s) n). Qed.
Lemma brelse_no_err n : no_err (brelse (D := D) n).
Proof. by intros s. Qed.
Lemma mark_buffer_dirty_no_err n : no_err (mark_buffer_dirty (D := D) n).
Proof. by intros s. Qed.
Lemma in_bh_no_err {A} n p (m : M cursor A) : no_err m → no_err (in_bh (D := D) n p m).
Proof.
  intros Hm s. unfold in_bh. destruct (bc_data (b_dev s) n) as [b|]; [|done]. specialize (Hm (Cursor b p)).
  destruct (m (Cursor b p)); [done| |done]. by destruct Hm.
Qed.
Lemma sb_load_no_err need size : no_err (sb_load need size).
Proof. unfold sb_load, spfs_sb_remaining, mload. steps_tac. Qed.
Lemma spfs_sb_read_ino_no_err : no_err spfs_sb_read_ino.
Proof. unfold spfs_sb_read_ino. steps_tac. apply sb_load_no_err. Qed.
Lemma spfs_free_alloc_no_err n : no_err (spfs_free_alloc n).
Proof. unfold spfs_free_alloc. steps_tac. Qed.
#[local] Hint Resolve sb_bread_no_err brelse_no_err mark_buffer_dirty_no_err in_bh_no_err
  spfs_sb_read_ino_no_err spfs_free_alloc_no_err : steps.

Lemma spfs_dir_block_alloc_no_err bh_pos : no_err (spfs_dir_block_alloc (D := D) bh_pos).
Proof. unfold spfs_dir_block_alloc. steps_tac. Qed.
Lemma dir_append_no_err n bh_pos block child : no_err (dir_append (D := D) n bh_pos block child).
Proof. unfold dir_append. steps_tac. Qed.
#[local] Hint Resolve spfs_dir_block_alloc_no_err dir_append_no_err : steps.

Abbreviation vno_err m := (steps (S := vfs_st D K) any false m).

Lemma add_child_loop_no_err fuel parent child : ∀ start, vno_err (add_child_loop fuel parent child start).
Proof. induction fuel; intros; cbn [add_child_loop]; unfold upd_inode; steps_tac. Qed.

Lemma iget_locked_no_err n : vno_err (iget_locked n).
Proof. intros s. unfold iget_locked. by destruct (k_iget_locked (v_cache s) n) as [[]|]. Qed.
Lemma spfs_setup_inode_fp_no_err n : vno_err (spfs_setup_inode_fp n).
Proof. unfold spfs_setup_inode_fp, get_inode, upd_inode. steps_tac. Qed.
#[local] Hint Resolve iget_locked_no_err spfs_setup_inode_fp_no_err : steps.

Lemma spfs_new_inode_no_err parent mode : vno_err (spfs_new_inode parent mode).
Proof.
  unfold spfs_new_inode, iget_failed, upd_inode, unlock_new_inode, get_inode. steps_tac.
Qed.
Lemma spfs_inode_by_id_no_err e n : vno_err (spfs_inode_by_id e n).
Proof.
  unfold spfs_inode_by_id, iget_failed, upd_inode, unlock_new_inode, get_inode. steps_tac.
Qed.
#[local] Hint Resolve spfs_inode_by_id_no_err : steps.

Section walk.
Context {C : Type} (f : for_all_cb C) (Hf : ∀ c cur, vno_err (f c cur)).

Lemma block_children_no_err fuel e n : ∀ bh_pos i children c,
  vno_err (block_children fuel e f n bh_pos i children c).
Proof using Hf. induction fuel; intros; cbn [block_children]; steps_tac. Qed.
#[local] Hint Resolve block_children_no_err : steps.

Lemma chain_children_no_err fuel e : ∀ child_list c, vno_err (chain_children fuel e f child_list c).
Proof using Hf. induction fuel; intros; cbn [chain_children]; steps_tac. Qed.
End walk.

Lemma by_name_cb_no_err data cur : vno_err (spfs_inode_by_name_cb data cur).
Proof. unfold spfs_inode_by_name_cb, get_inode. steps_tac. Qed.
Lemma iterate_cb_no_err {X} {XX : DirContext X} (ctx : spfs_iterate_ctx (X := X)) cur :
  vno_err (spfs_iterate_cb ctx cur).
Proof. unfold spfs_iterate_cb, get_inode. steps_tac. Qed.
End no_err.
#[export] Hint Resolve add_child_loop_no_err iget_locked_no_err spfs_setup_inode_fp_no_err
  spfs_new_inode_no_err spfs_inode_by_id_no_err chain_children_no_err by_name_cb_no_err
  iterate_cb_no_err : steps.

(** ** The two mutexes *)
Section locks.
Context {D K : Type} {B : BufferCache D} {KK : Kernel K} {KL : KernelLaws K}.
Implicit Types (s : vfs_st D K).

Definition tree_free s : Prop := bt_lock (t_tree (v_fs s)) = false.
Definition dir_free (p : Z) s : Prop := si_lock (k_inode (v_cache s) p) = false.

Abbreviation keeps_tree m := (steps (keeping tree_free) true m).
Abbreviation keeps_dir p m := (steps (keeping (dir_free p)) true m).

(** Code that does not reach the tree *)
Lemma off_tree {A} (m : M (vfs_st D K) A) :
  steps (same (λ s, bt_lock (t_tree (v_fs s)))) true m → keeps_tree m.
Proof using. apply (same_keeping _ (λ b, b = false)). Qed.

Lemma zoom_bufs_tree {A} (m : M (bufs D) A) : keeps_tree (zoom v_bufs_lens m).
Proof using. apply off_tree. steps_tac. Qed.
Lemma get_inode_tree n : keeps_tree (get_inode n).
Proof using. apply off_tree. unfold get_inode. steps_tac. Qed.
Lemma iget_locked_tree n : keeps_tree (iget_locked n).
Proof using.
  apply off_tree. intros s. unfold iget_locked. by destruct (k_iget_locked (v_cache s) n) as [[]|].
Qed.
Lemma upd_inode_tree n f : keeps_tree (upd_inode n f).
Proof using. apply off_tree. unfold upd_inode. steps_tac. Qed.
Lemma spfs_new_inode_tree parent mode : keeps_tree (spfs_new_inode parent mode).
Proof using.
  apply off_tree. unfold spfs_new_inode, spfs_setup_inode_fp, iget_failed, upd_inode, unlock_new_inode, get_inode.
  steps_tac. intros s. unfold iget_locked. by destruct (k_iget_locked (v_cache s) _) as [[]|].
Qed.
#[local] Hint Resolve zoom_bufs_tree get_inode_tree iget_locked_tree upd_inode_tree spfs_new_inode_tree : steps.

(** The critical section around a function of the tree whose error code is looked at *)
Lemma tree_section_ends {A C} (m : M (vfs_st D K) A) (k : A → M (vfs_st D K) C) :
  no_err m → (∀ a, steps (same (λ s, bt_lock (t_tree (v_fs s)))) true (k a)) →
  ends tree_free (a ← m; mutex_unlock v_tree_lock;; k a).
Proof using.
  intros Hm Hk. apply ends_after; [done|]. intros a. apply ends_then; [by intros s|].
  intros _. by apply off_tree.
Qed.

Lemma spfs_inode_by_id_tree e n : keeps_tree (spfs_inode_by_id e n).
Proof using.
  unfold spfs_inode_by_id. apply steps_bind; [typeclasses eauto|auto with steps|].
  intros [[|]|]; [|steps_tac..]. apply ends_keeping.
  apply ends_after; [steps_tac|]. intros _. apply ends_after; [unfold get_inode; steps_tac|]. intros dest.
  apply tree_section_ends; [steps_tac|].
  intros [res|i]; unfold spfs_setup_inode_fp, iget_failed, upd_inode, unlock_new_inode, get_inode; steps_tac.
Qed.
#[local] Hint Resolve spfs_inode_by_id_tree : steps.

Lemma spfs_generic_create_tree e p subject mode : keeps_tree (spfs_generic_create e p subject mode).
Proof using.
  unfold spfs_generic_create. case_bool_decide; [steps_tac|].
  apply steps_bind; [typeclasses eauto|auto with steps|]. intros [err| |n]; [steps_tac..|].
  apply ends_keeping. apply ends_after; [unfold upd_inode; steps_tac|]. intros _.
  apply ends_after; [steps_tac|]. intros _. apply ends_after; [unfold get_inode; steps_tac|]. intros i.
  apply tree_section_ends; [steps_tac|]. intros [res|[]]; steps_tac.
Qed.
#[local] Hint Resolve spfs_generic_create_tree : steps.

Section walk.
Context {C : Type} (f : for_all_cb C) (Hf : ∀ c cur, keeps_tree (f c cur)).

Lemma block_children_tree fuel e n : ∀ bh_pos i children c,
  keeps_tree (block_children fuel e f n bh_pos i children c).
Proof using Hf. induction fuel; intros; cbn [block_children]; steps_tac. Qed.
#[local] Hint Resolve block_children_tree : steps.

Lemma chain_children_tree fuel e : ∀ child_list c, keeps_tree (chain_children fuel e f child_list c).
Proof using Hf. induction fuel; intros; cbn [chain_children]; steps_tac. Qed.
#[local] Hint Resolve chain_children_tree : steps.

Lemma spfs_for_all_children_tree e p c : keeps_tree (spfs_for_all_children e p c f).
Proof using Hf.
  unfold spfs_for_all_children. steps_tac; apply off_tree; steps_tac.
Qed.

(** The walk takes the directory's mutex and gives it back. *)
Lemma spfs_for_all_children_dir e p c :
  (∀ c cur, no_err (f c cur)) → keeps_dir p (spfs_for_all_children e p c f).
Proof using KL.
  intros Hne. unfold spfs_for_all_children, get_inode. steps_step; [steps_tac|]. destruct (negb _); [steps_tac|].
  apply ends_keeping. apply ends_after; [steps_tac|]. intros _. apply ends_after; [steps_tac|]. intros i.
  apply ends_after; [by apply chain_children_no_err|]. intros r. apply ends_then; [|steps_tac].
  intros s. cbn. unfold dir_free. cbn. by rewrite k_inode_set.
Qed.
End walk.

Lemma spfs_lookup_tree e p dent : keeps_tree (spfs_lookup e p dent).
Proof using.
  unfold spfs_lookup, spfs_inode_by_name. steps_tac. apply spfs_for_all_children_tree.
  intros c cur. unfold spfs_inode_by_name_cb. steps_tac.
Qed.
Lemma spfs_lookup_dir e p dent : keeps_dir p (spfs_lookup e p dent).
Proof using KL.
  unfold spfs_lookup, spfs_inode_by_name. steps_tac. apply spfs_for_all_children_dir, by_name_cb_no_err.
Qed.

Lemma spfs_iterate_tree {X} {XX : DirContext X} e p (x : X) : keeps_tree (spfs_iterate e p x).
Proof using.
  unfold spfs_iterate. steps_tac. apply spfs_for_all_children_tree.
  intros c cur. unfold spfs_iterate_cb. steps_tac.
Qed.
Lemma spfs_iterate_dir {X} {XX : DirContext X} e p (x : X) : keeps_dir p (spfs_iterate e p x).
Proof using KL.
  unfold spfs_iterate, get_inode. steps_tac. apply spfs_for_all_children_dir, iterate_cb_no_err.
Qed.

(** Adding a child gives the directory's mutex back even when it was not free before. *)
Lemma spfs_add_child_ends e p child : ends (dir_free p) (spfs_add_child e p child).
Proof using KL.
  unfold spfs_add_child, get_inode, mark_inode_dirty, upd_inode.
  do 6 (apply ends_after; [steps_tac|intros ?]). apply ends_then; [|steps_tac].
  intros s. cbn. unfold dir_free. cbn. by rewrite k_inode_set.
Qed.

Lemma spfs_dir_block_alloc_tree bh_pos : steps (same t_tree) true (spfs_dir_block_alloc (D := D) bh_pos).
Proof using. unfold spfs_dir_block_alloc. steps_tac. Qed.

Lemma add_child_loop_tree fuel parent child : ∀ start, keeps_tree (add_child_loop fuel parent child start).
Proof using.
  assert (Ha : keeps_tree (zoom v_fs_lens (spfs_dir_block_alloc 0))).
  { apply off_tree. apply (steps_zoom_in _ t_tree); [|apply spfs_dir_block_alloc_tree].
    intros s t Ht. cbn in *. by rewrite Ht. }
  induction fuel; intros; cbn [add_child_loop]; steps_tac.
Qed.
#[local] Hint Resolve add_child_loop_tree : steps.

Lemma spfs_add_child_tree e p child : keeps_tree (spfs_add_child e p child).
Proof using.
  unfold spfs_add_child. steps_tac; apply off_tree; unfold mark_inode_dirty; steps_tac.
Qed.
#[local] Hint Resolve spfs_add_child_tree : steps.

Lemma spfs_create_tree e p subject mode : keeps_tree (spfs_create e p subject mode).
Proof using. unfold spfs_create. steps_tac. Qed.
Lemma spfs_mkdir_tree e p subject mode : keeps_tree (spfs_mkdir e p subject mode).
Proof using. unfold spfs_mkdir. steps_tac. Qed.

(** A directory that is in the cache is not the inode a creation makes: the creation
    leaves its mutex alone. *)
Definition dir_used (p : Z) s : Prop := dir_free p s ∧ k_cached (v_cache s) p = true.

Lemma generic_create_dir e p subject mode s :
  dir_used p s → tree_free s → S_ISREG mode || S_ISDIR mode = true →
  leaves (dir_free p) (spfs_generic_create e p subject mode s).
Proof using KL.
  intros [Hf Hc] Ht Hm. destruct (decide (SPOOKY_FS_NAME_MAX < zlen (d_name subject))) as [Hn|Hn].
  { unfold spfs_generic_create. by decide_if. }
  set (id := sb_id (v_sbi s)).
  destruct (sb_id_lock (v_sbi s)) eqn:Hlock.
  { unfold spfs_generic_create. decide_if. by rewrite (bind_crash _ _ _ Deadlock)
      by (apply bind_crash; unfold mutex_lock; cbn; by rewrite Hlock). }
  destruct (k_iget_locked (v_cache s) id) as [[new k1]|] eqn:Hk; cycle 1.
  { unfold spfs_generic_create. decide_if. unfold spfs_new_inode, mutex_lock, iget_locked.
    mrun. cbn. rewrite Hlock. cbn. fold id. by rewrite Hk. }
  destruct (k_cached (v_cache s) id) eqn:Hcid.
  { rewrite k_iget_hit in Hk by done. injection Hk as <- <-. unfold spfs_generic_create. decide_if.
    unfold spfs_new_inode, mutex_lock, iget_locked. mrun. cbn. rewrite Hlock. cbn. fold id.
    by rewrite k_iget_hit. }
  assert (p ≠ id) as Hp by congruence. destruct (k_iget_miss _ _ _ _ Hcid Hk) as [-> _].
  destruct (spfs_generic_create_start e p subject mode s k1) as (k' & now & (_ & _ & Hoth) & ->);
    [lia|done..|]. set (s1 := VfsSt _ _ _ _).
  assert (dir_free p s1) as Hs1 by (unfold dir_free; cbn; by destruct (Hoth p Hp) as [-> _]).
  eapply steps_leaves; [|exact Hs1].
  apply (same_keeping v_cache (λ k, si_lock (k_inode k p) = false)). steps_tac.
Qed.

(** After a creation that fails, the directory is as before; after one that succeeds, the
    child is added, which gives the mutex back. *)
Lemma create_dir {A} p (m : M (vfs_st D K) dentry) (k : dentry → M (vfs_st D K) A) s :
  leaves (dir_free p) (m s) → (∀ d, ends (dir_free p) (k d)) → leaves (dir_free p) ((m ≫= k) s).
Proof using. intros Hm Hk. unfold mbind, M_bind. destruct (m s); [apply Hk|done..]. Qed.

Lemma spfs_create_dir e p subject mode s :
  dir_used p s → tree_free s → leaves (dir_free p) (spfs_create e p subject mode s).
Proof using KL.
  intros Hu Ht. unfold spfs_create. destruct (S_ISREG mode) eqn:Hm; [|done]. cbn [negb].
  erewrite bind_ok by done. apply create_dir; [apply generic_create_dir; by rewrite ?Hm|].
  intros d. destruct (d_inode d); [|by intros ?]. apply ends_then; [apply spfs_add_child_ends|steps_tac].
Qed.

Lemma spfs_mkdir_dir e p subject mode s :
  dir_used p s → tree_free s → leaves (dir_free p) (spfs_mkdir e p subject mode s).
Proof using KL.
  intros Hu Ht. unfold spfs_mkdir. destruct (S_ISDIR mode) eqn:Hm; [|done]. cbn [negb].
  erewrite bind_ok by done.
  apply create_dir; [apply generic_create_dir; rewrite ?Hm, ?orb_true_r; done|].
  intros d. destruct (d_inode d); [|by intros ?]. apply ends_after; [unfold upd_inode; steps_tac|].
  intros _. apply ends_then; [apply spfs_add_child_ends|steps_tac].
Qed.

(** C23: no operation on a directory leaves a lock taken.  Starting with the directory's
    and the tree's mutex free, creating a file or a directory, adding a child, looking a
    name up and listing end, if they return at all, with both free again, on every error
    path, so that no later operation on them waits for ever. *)
Theorem dir_ops_unlock {X} {XX : DirContext X} e p child subject mode dent (x : X) s :
  let idle s := dir_free p s ∧ tree_free s in
  idle s → k_cached (v_cache s) p = true →
  leaves idle (spfs_create e p subject mode s) ∧ leaves idle (spfs_mkdir e p subject mode s) ∧
  leaves idle (spfs_add_child e p child s) ∧ leaves idle (spfs_lookup e p dent s) ∧
  leaves idle (spfs_iterate e p x s).
Proof using KL.
  intros idle [Hd Ht] Hc. assert (dir_used p s) as Hu by done.
  assert (Hand : ∀ A (o : out (vfs_st D K) A),
    leaves (dir_free p) o → leaves tree_free o → leaves idle o) by (intros A []; by cbn).
  split_and!; apply Hand.
  - by apply spfs_create_dir.
  - eapply steps_leaves; [apply spfs_create_tree|done].
  - by apply spfs_mkdir_dir.
  - eapply steps_leaves; [apply spfs_mkdir_tree|done].
  - apply spfs_add_child_ends.
  - eapply steps_leaves; [apply spfs_add_child_tree|done].
  - eapply steps_leaves; [apply spfs_lookup_dir|done].
  - eapply steps_leaves; [apply spfs_lookup_tree|done].
  - eapply steps_leaves; [apply spfs_iterate_dir|done].
  - eapply steps_leaves; [apply spfs_iterate_tree|done].
Qed.
End locks.

(** ** Concrete inputs *)
(** Looking up "cd" in a directory of two files finds it and leaves both mutexes free. *)
Lemma dir_ops_unlock_witness :
  ∃ r s', spfs_lookup example_env 1 (Dentry [x63; x64] None) two_files = Ok (Some r) s' ∧
    dir_free 1 s' ∧ tree_free s'.
Proof.
  destruct (dir_ops_unlock example_env 1 2 (Dentry [x65] None) 0x81A4 (Dentry [x63; x64] None)
    (MemDir 0 []) two_files) as (_ & _ & _ & H & _); [by split|done|].
  assert (∃ r s', spfs_lookup example_env 1 (Dentry [x63; x64] None) two_files = Ok (Some r) s')
    as (r & s' & E) by (vm_compute; eauto).
  rewrite E in H. exists r, s'. split; [exact E|exact H].
Defined.
