(* ===== verification/DirThreads.v ===== *)
(** * Threads that add children to one directory

    [spfs_add_child] statement by statement, as steps of threads that share a mounted file
    system.  A program counter has the child of its thread and the local variables of the
    function; each statement is the code [Dir] composes the function of.  Whatever the
    interleaving, the directory ends with the children of all threads that have returned,
    as if they had been added one after the other ([DirStore]).

    [spfs_dir_block_alloc] is one step: the blocks come from [spfs_free_alloc], whose own
    statements are those of [Concurrent]. *)
From S2P Require Import Prelude Spec Buffers FreeList Inode Bnode Btree Super Vfs Dir DirSpec DirStore Locks Threads.

(** ** The statements *)
Inductive add_pc :=
| add_lock (child : Z)              (* [mutex_lock(&parent->lock)] *)
| add_count (child : Z)             (* [parent->capacity++] *)
| add_dirty (child : Z)             (* [mark_inode_dirty(&parent->i_inode)] *)
| add_start (child : Z)             (* [start = parent->start] *)
| add_test (child ino start : Z)    (* [Lit: if (start)] *)
| add_read (child ino start : Z)    (* [bh = sb_bread(sb, start)], [if (!bh)] *)
| add_parse (child ino start : Z)   (* [res = spfs_parse_dir_block(...)], [if (res)] *)
| add_full (child ino start bh_pos : Z) (block : spfs_dir_block)
                                    (* [if (!spfs_dir_is_full(sb, &block))] *)
| add_put (child ino start bh_pos : Z) (block : spfs_dir_block)
                                    (* [res = spfs_dir_write_child(..., block.children++, ...)] *)
| add_head (child start : Z) (block : spfs_dir_block)
                                    (* [res = spfs_make_dir_block(bh, &bh_pos, &block)] *)
| add_mark (child start : Z)        (* [mark_buffer_dirty(bh)], [done = true] *)
| add_brelse (child start : Z)      (* [brelse(bh)], when [done] *)
| add_next (child ino start : Z) (block : spfs_dir_block)
                                    (* [brelse(bh)], when not, [start = block.next], [goto Lit] *)
| add_alloc (child ino : Z)         (* [spfs_dir_block_alloc(sb, &bh_pos, &bh, &block)] *)
| add_set (child ino result bh_pos : Z) (block : spfs_dir_block)
                                    (* [parent->start = ...], [if (!parent->start)] *)
| add_unlock (child res : Z)        (* [Lunlock: mutex_unlock(&parent->lock)] *)
| add_return (child res : Z)        (* [return res] *)
| add_dead (child : Z).             (* the statement crashed *)

Definition add_inside (pc : add_pc) : bool :=
  match pc with add_lock _ | add_return _ _ => false | _ => true end.
Definition add_returned (pc : add_pc) : bool := match pc with add_return _ _ => true | _ => false end.

Definition child_of (pc : add_pc) : Z :=
  match pc with
  | add_lock c | add_count c | add_dirty c | add_start c | add_test c _ _ | add_read c _ _
  | add_parse c _ _ | add_full c _ _ _ _ | add_put c _ _ _ _ | add_head c _ _ | add_mark c _
  | add_brelse c _ | add_next c _ _ _ | add_alloc c _ | add_set c _ _ _ _ | add_unlock c _
  | add_return c _ | add_dead c => c
  end.

Section steps.
Context {D K : Type} {B : BufferCache D} {KK : Kernel K}.
Context (e : env) (p : Z).
Implicit Types (s : vfs_st D K).
Abbreviation VM := (M (vfs_st D K)).

(** One statement: what it does, and which one is next *)
Definition add_stmt (pc : add_pc) : VM add_pc :=
  match pc with
  | add_lock c => mutex_lock (v_lock p);; mret (add_count c)
  | add_count c =>
      upd_inode p (λ i, set_extent (si_start i) (u32 (si_capacity i + 1)) i);; mret (add_dirty c)
  | add_dirty c => mark_inode_dirty p;; mret (add_start c)
  | add_start c =>
      d ← get_inode p;
      i ← get_inode c;
      mret (add_test c (i_ino (i_inode i)) (si_start d))
  | add_test c ino start =>
      mret (if bool_decide (start ≠ 0) then add_read c ino start else add_alloc c ino)
  | add_read c ino start =>
      ok ← zoom v_bufs_lens (sb_bread start);
      mret (if negb ok then add_unlock c (-EIO) else add_parse c ino start)
  | add_parse c ino start =>
      r ← catch (zoom v_bufs_lens (in_bh start 0 spfs_parse_dir_block));
      mret (match r with
            | inl _ => add_unlock c (-EINVAL)
            | inr (block, bh_pos) => add_full c ino start bh_pos block
            end)
  | add_full c ino start bh_pos block =>
      mret (if negb (spfs_dir_is_full block) then add_put c ino start bh_pos block
            else add_next c ino start block)
  | add_put c ino start bh_pos block =>
      zoom v_bufs_lens (catch (spfs_dir_write_child start bh_pos (db_children block) ino));;
      mret (add_head c start (DirBlock (db_next block) (u32 (db_children block + 1))))
  | add_head c start block =>
      zoom v_bufs_lens (catch (on_bh start 0 (spfs_make_dir_block block)));; mret (add_mark c start)
  | add_mark c start => zoom v_bufs_lens (mark_buffer_dirty start);; mret (add_brelse c start)
  | add_brelse c start => zoom v_bufs_lens (brelse start);; mret (add_unlock c 0)
  | add_next c ino start block =>
      zoom v_bufs_lens (brelse start);; mret (add_test c ino (db_next block))
  | add_alloc c ino =>
      a ← zoom v_fs_lens (spfs_dir_block_alloc 0);
      let '(result, bh_pos, block) := a in
      mret (add_set c ino result bh_pos block)
  | add_set c ino result bh_pos block =>
      upd_inode p (λ i, set_extent result (si_capacity i) i);;
      mret (if bool_decide (result = 0) then add_unlock c (-EINVAL)
            else add_put c ino result bh_pos block)
  | add_unlock c res => mutex_unlock (v_lock p);; mret (add_return c res)
  | add_return _ _ | add_dead _ => crashes NoFuel
  end.

(** The next step of a thread: a taken mutex makes it wait, and a crash is its end, with the
    mutex held; [None] when it waits or has returned *)
Definition add_step s (pc : add_pc) : option (vfs_st D K * add_pc) :=
  match pc with
  | add_return _ _ => None
  | add_lock _ =>
      match add_stmt pc s with Ok pc' s' => Some (s', pc') | _ => None end
  | _ =>
      Some (match add_stmt pc s with Ok pc' s' => (s', pc') | _ => (s, add_dead (child_of pc)) end)
  end.

Definition add_thread s (pc : add_pc) s' (pc' : add_pc) : Prop := add_step s pc = Some (s', pc').
Definition dir_locked s : bool := si_lock (k_inode (v_cache s) p).

(** ** What a thread has still to do *)
Definition finish (m : VM Z) : VM Z := res ← m; mutex_unlock (v_lock p);; mret res.

Definition rest_brelse (start : Z) : VM Z := zoom v_bufs_lens (brelse start);; mret 0.
Definition rest_mark (start : Z) : VM Z := zoom v_bufs_lens (mark_buffer_dirty start);; rest_brelse start.
Definition rest_head (start : Z) (block : spfs_dir_block) : VM Z :=
  zoom v_bufs_lens (catch (on_bh start 0 (spfs_make_dir_block block)));; rest_mark start.
Definition rest_put (ino start bh_pos : Z) (block : spfs_dir_block) : VM Z :=
  zoom v_bufs_lens (catch (spfs_dir_write_child start bh_pos (db_children block) ino));;
  rest_head start (DirBlock (db_next block) (u32 (db_children block + 1))).
Definition rest_next (fuel : nat) (ino start : Z) (block : spfs_dir_block) : VM Z :=
  zoom v_bufs_lens (brelse start);; add_child_loop fuel p ino (db_next block).
Definition rest_full (fuel : nat) (ino start bh_pos : Z) (block : spfs_dir_block) : VM Z :=
  if negb (spfs_dir_is_full block) then rest_put ino start bh_pos block
  else rest_next fuel ino start block.
Definition rest_parse (fuel : nat) (ino start : Z) : VM Z :=
  r ← catch (zoom v_bufs_lens (in_bh start 0 spfs_parse_dir_block));
  match r with
  | inl _ => mret (-EINVAL)
  | inr (block, bh_pos) => rest_full fuel ino start bh_pos block
  end.
Definition rest_read (fuel : nat) (ino start : Z) : VM Z :=
  ok ← zoom v_bufs_lens (sb_bread start);
  if negb ok then mret (-EIO) else rest_parse fuel ino start.
Definition rest_set (ino result bh_pos : Z) (block : spfs_dir_block) : VM Z :=
  upd_inode p (λ i, set_extent result (si_capacity i) i);;
  if bool_decide (result = 0) then mret (-EINVAL) else rest_put ino result bh_pos block.
Definition rest_alloc (ino : Z) : VM Z :=
  a ← zoom v_fs_lens (spfs_dir_block_alloc 0);
  let '(result, bh_pos, block) := a in rest_set ino result bh_pos block.
Definition rest_start (c : Z) : VM Z :=
  d ← get_inode p;
  i ← get_inode c;
  add_child_loop (e_fuel e) p (i_ino (i_inode i)) (si_start d).
Definition rest_dirty (c : Z) : VM Z := mark_inode_dirty p;; rest_start c.
Definition rest_count (c : Z) : VM Z :=
  upd_inode p (λ i, set_extent (si_start i) (u32 (si_capacity i + 1)) i);; rest_dirty c.

(** [spfs_add_child] from a statement on; [fuel] is for the loop. *)
Definition add_rest (fuel : nat) (pc : add_pc) : VM Z :=
  match pc with
  | add_lock c => mutex_lock (v_lock p);; finish (rest_count c)
  | add_count c => finish (rest_count c)
  | add_dirty c => finish (rest_dirty c)
  | add_start c => finish (rest_start c)
  | add_test c ino start => finish (add_child_loop fuel p ino start)
  | add_read c ino start => finish (rest_read fuel ino start)
  | add_parse c ino start => finish (rest_parse fuel ino start)
  | add_full c ino start bh_pos block => finish (rest_full fuel ino start bh_pos block)
  | add_put c ino start bh_pos block => finish (rest_put ino start bh_pos block)
  | add_head c start block => finish (rest_head start block)
  | add_mark c start => finish (rest_mark start)
  | add_brelse c start => finish (rest_brelse start)
  | add_next c ino start block => finish (rest_next fuel ino start block)
  | add_alloc c ino => finish (rest_alloc ino)
  | add_set c ino result bh_pos block => finish (rest_set ino result bh_pos block)
  | add_unlock c res => finish (mret res)
  | add_return c res => mret res
  | add_dead _ => crashes NoFuel
  end.

(** [spfs_add_child] with its error code as a value *)
Definition add_child_res (c : Z) : VM Z :=
  r ← catch (spfs_add_child e p c);
  mret (match r with inl res => res | inr _ => 0 end).

(** What is left to do when the mutex was taken in the state [b] *)
Definition add_inv (b : vfs_st D K) s (pc : add_pc) : Prop :=
  dir_locked b = false ∧
  ∀ r s1, add_child_res (child_of pc) b = Ok r s1 → ∃ fuel, add_rest fuel pc s = Ok r s1.
Definition add_op (b : vfs_st D K) (pc : add_pc) s : Prop :=
  ∃ c res, pc = add_return c res ∧ ∀ r s1, add_child_res c b = Ok r s1 → res = r ∧ s = s1.

(** ** The statements make up the function *)
Lemma zoom_bufs_bind {A C Z} (m : M (bufs D) A) (k : A → M (bufs D) C) (k' : C → VM Z) s :
  (zoom v_bufs_lens (m ≫= k) ≫= k') s = (zoom v_bufs_lens m ≫= λ a, zoom v_bufs_lens (k a) ≫= k') s.
Proof using.
  unfold mbind, M_bind, zoom. destruct (m (lget v_bufs_lens s)) as [a t|e' t|c]; [|done..].
  destruct s as [[] ? ? ?]. cbn. by destruct (k a t).
Qed.

Lemma append_rest n bh_pos block ino s :
  (zoom v_bufs_lens (dir_append n bh_pos block ino);; zoom v_bufs_lens (brelse n);; mret 0) s =
  rest_put ino n bh_pos block s.
Proof using.
  unfold dir_append. rewrite zoom_bufs_bind. apply bind_ext. intros _ s1.
  rewrite zoom_bufs_bind. by apply bind_ext.
Qed.

Lemma loop_rest fuel ino start s :
  add_child_loop (S fuel) p ino start s =
  (if bool_decide (start ≠ 0) then rest_read fuel ino start else rest_alloc ino) s.
Proof using.
  cbn [add_child_loop]. case_bool_decide.
  - apply bind_ext. intros ok s1. destruct (negb ok); [done|]. apply bind_ext. intros [err|[block bh_pos]] s2; [done|].
    unfold rest_full. destruct (negb _); [apply append_rest|done].
  - apply bind_ext. intros [[result bh_pos] block] s1. apply bind_ext. intros _ s2.
    case_bool_decide; [done|apply append_rest].
Qed.

Lemma finish_eq (m m' : VM Z) s : m s = m' s → finish m s = finish m' s.
Proof using. intros H. unfold finish, mbind, M_bind. by rewrite H. Qed.

(** One statement [m], behind which the next one goes on with the rest *)
Lemma stmt_seq {A} (m : VM A) (next : A → add_pc) (k : A → VM Z) fuel s r s1 :
  (∀ a s, finish (k a) s = add_rest fuel (next a) s) → finish (m ≫= k) s = Ok r s1 →
  ∃ pc' s' fuel', (m ≫= λ a, mret (next a)) s = Ok pc' s' ∧ add_rest fuel' pc' s' = Ok r s1.
Proof using.
  intros Hk H. unfold finish in H. rewrite bind_bind in H. apply bind_inv in H as (a & s' & E & H).
  exists (next a), s', fuel. split; [by rewrite (bind_ok _ _ _ _ _ E)|]. by rewrite <-Hk.
Qed.

Lemma stmt_rest fuel pc s r s1 :
  add_inside pc = true → add_rest fuel pc s = Ok r s1 →
  ∃ pc' s' fuel', add_stmt pc s = Ok pc' s' ∧ add_rest fuel' pc' s' = Ok r s1.
Proof using.
  destruct pc; intros Hin H; try done; cbn [add_rest add_stmt] in *.
  - by eapply (stmt_seq _ (λ _, add_dirty child) _ fuel).
  - by eapply (stmt_seq _ (λ _, add_start child) _ fuel).
  - eexists _, _, (e_fuel e). split; [reflexivity|]. exact H.
  - destruct fuel as [|fuel]; [done|]. eexists _, _, fuel. split; [reflexivity|].
    rewrite <-H. rewrite (finish_eq _ _ _ (loop_rest fuel ino start s)). by case_bool_decide.
  - eapply (stmt_seq _ (λ ok : bool, if negb ok then _ else _) _ fuel); [|exact H]. by intros [].
  - eapply (stmt_seq _ (λ r, match r with inl _ => _ | inr (block, bh_pos) => _ end) _ fuel); [|exact H].
    by intros [|[]].
  - eexists _, _, fuel. split; [reflexivity|]. revert H. unfold rest_full. by destruct (negb _).
  - by eapply (stmt_seq _ (λ _, add_head child start _) _ fuel).
  - by eapply (stmt_seq _ (λ _, add_mark child start) _ fuel).
  - by eapply (stmt_seq _ (λ _, add_brelse child start) _ fuel).
  - by eapply (stmt_seq _ (λ _, add_unlock child 0) _ fuel).
  - by eapply (stmt_seq _ (λ _, add_test child ino (db_next block)) _ fuel).
  - unfold finish, rest_alloc in H. rewrite bind_bind in H. apply bind_inv in H as ([[x bh_pos] block] & s' & E & H).
    exists (add_set child ino x bh_pos block), s', fuel. split; [by rewrite (bind_ok _ _ _ _ _ E)|exact H].
  - eapply (stmt_seq _ (λ _, if bool_decide _ then _ else _) _ fuel); [|exact H].
    intros [] s'. by case_bool_decide.
  - eexists _, _, fuel. split; [reflexivity|exact H].
Qed.

Lemma add_child_rest c s : add_child_res c s = add_rest 0 (add_lock c) s.
Proof using.
  unfold add_child_res, spfs_add_child. cbn [add_rest].
  unfold finish, rest_count, rest_dirty, rest_start, catch, mutex_lock, mutex_unlock.
  unfold mbind, M_bind. destruct (lget (v_lock p) s); [done|].
  destruct (upd_inode p _ _) as [[] s1|e1 s1|c1] eqn:E1; [|done..].
  destruct (mark_inode_dirty p s1) as [[] s2|e2 s2|c2] eqn:E2; [|done..]. cbn [get_inode gets].
  pose proof (add_child_loop_no_err (e_fuel e) p (i_ino (i_inode (k_inode (v_cache s2) c)))
    (si_start (k_inode (v_cache s2) p)) s2) as Hn.
  destruct (add_child_loop _ _ _ _ s2) as [res s3|e3 s3|c3]; [|by destruct Hn|done].
  case_bool_decide as Hr; [by rewrite Hr|done].
Qed.

Context {KL : KernelLaws K}.

Lemma upd_keeps_lock f : (∀ i, si_lock (f i) = si_lock i) → steps (same dir_locked) true (upd_inode p f).
Proof using KL.
  intros Hf s. unfold upd_inode, zoom, modify, same, dir_locked. cbn. by rewrite k_inode_set, Hf.
Qed.
Lemma dirty_keeps_lock : steps (same dir_locked) true (mark_inode_dirty p).
Proof using KL.
  intros s. unfold mark_inode_dirty, zoom, modify, same, dir_locked. cbn. by rewrite k_inode_dirty.
Qed.
#[local] Hint Resolve dirty_keeps_lock : steps.
#[local] Hint Extern 1 (steps _ _ (upd_inode _ _)) => apply upd_keeps_lock; reflexivity : steps.

Lemma stmt_keeps_lock pc :
  add_inside pc = true → (∀ c res, pc ≠ add_unlock c res) → steps (same dir_locked) true (add_stmt pc).
Proof using KL.
  intros Hin Hu. destruct pc; try done; cbn [add_stmt]; unfold get_inode; steps_tac. by destruct (Hu child res).
Qed.

(** A thread that is inside makes a step to the statement that follows, or dies. *)
Lemma add_step_inv s pc s' pc' :
  add_inside pc = true → add_thread s pc s' pc' →
  add_stmt pc s = Ok pc' s' ∨
  (pc' = add_dead (child_of pc) ∧ s' = s ∧ ∀ pc'' s'', add_stmt pc s ≠ Ok pc'' s'').
Proof using.
  intros Hin H. assert (add_step s pc =
    Some (match add_stmt pc s with Ok pc' s' => (s', pc') | _ => (s, add_dead (child_of pc)) end)) as Hs
    by by destruct pc.
  unfold add_thread in H. rewrite Hs in H. destruct (add_stmt pc s); injection H as <- <-; [by left|by right..].
Qed.

Lemma stmt_child pc s pc' s' : add_stmt pc s = Ok pc' s' → child_of pc' = child_of pc.
Proof using.
  intros H. destruct pc; cbn [add_stmt] in H; try done; repeat (apply bind_inv in H as (? & ? & _ & H));
    repeat case_match; injection H as <- _; repeat case_match; reflexivity.
Qed.

Lemma stmt_inside pc s pc' s' :
  add_stmt pc s = Ok pc' s' → add_inside pc = true →
  add_inside pc' = true ∧ (∀ c res, pc ≠ add_unlock c res) ∨
  ∃ c res, pc = add_unlock c res ∧ pc' = add_return c res ∧ s' = lset (v_lock p) false s.
Proof using.
  intros H Hin. destruct pc; cbn [add_stmt] in H; try done;
    try (left; split; [|done]; repeat (apply bind_inv in H as (? & ? & _ & H));
         repeat case_match; injection H as <- _; repeat case_match; reflexivity).
  right. injection H as <- <-. eauto.
Qed.

#[export] Instance add_section :
  CriticalSection dir_locked add_inside add_returned add_thread add_inv add_op.
Proof using KL.
  split.
  - by intros [].
  - by intros s [] s' pc'.
  - intros s pc s' pc' H Hin. destruct pc; try done. unfold add_thread, add_step in H. cbn [add_stmt] in H.
    unfold mbind, M_bind, mutex_lock in H. destruct (lget (v_lock p) s) eqn:Hl; [done|].
    injection H as <- <-. split; [done|]. split; [done|]. split; [|split; [done|]].
    + unfold dir_locked. cbn. by rewrite k_inode_set.
    + cbn [child_of]. intros r s1 Hr. rewrite add_child_rest in Hr. cbn [add_rest] in Hr. exists 0%nat.
      revert Hr. unfold mbind at 1, M_bind at 1, mutex_lock. by rewrite Hl.
  - intros b s pc s' pc' H Hin Hin' Hl [Hb Hrest].
    destruct (add_step_inv _ _ _ _ Hin H) as [E|(-> & -> & Hno)].
    + destruct (stmt_inside _ _ _ _ E Hin) as [[_ Hu]|(c & res & _ & -> & _)]; [|done].
      pose proof (stmt_keeps_lock pc Hin Hu s) as Hk. rewrite E in Hk. unfold same in Hk. split; [congruence|].
      split; [done|]. rewrite (stmt_child _ _ _ _ E). intros r s1 [fuel Hr]%Hrest.
      destruct (stmt_rest fuel pc s r s1 Hin Hr) as (pc'' & s'' & fuel' & E' & Hr'). rewrite E in E'.
      injection E' as <- <-. by exists fuel'.
    + split; [done|]. split; [done|]. cbn [child_of]. intros r s1 [fuel Hr]%Hrest.
      destruct (stmt_rest fuel pc s r s1 Hin Hr) as (pc'' & s'' & fuel' & E' & _). by destruct (Hno pc'' s'').
  - intros b s pc s' pc' H Hin Hin' [Hb Hrest].
    destruct (add_step_inv _ _ _ _ Hin H) as [E|(-> & -> & Hno)]; [|done].
    destruct (stmt_inside _ _ _ _ E Hin) as [[? _]|(c & res & -> & -> & ->)]; [congruence|].
    split_and!; [|done|].
    + unfold dir_locked. cbn. by rewrite k_inode_set.
    + exists c, res. split; [done|]. intros r s1 [fuel Hr]%Hrest. by injection Hr as <- <-.
  - intros s pc Hin Hf Hl. destruct pc; try done. unfold add_thread, add_step. cbn [add_stmt].
    unfold mbind, M_bind, mutex_lock. unfold dir_locked in Hl. cbn [lget v_lock]. rewrite Hl. cbn. eauto.
  - intros b s pc Hin _. unfold add_thread, add_step. destruct pc; try done; destruct (add_stmt _ s); eauto.
Qed.
End steps.

(** ** All threads together *)
Section adding.
Context {D K X : Type} {B : BufferCache D} {L : BufferCacheLaws D} {KK : Kernel K} {KL : KernelLaws K}
  {XX : DirContext X} {XL : DirContextLaws X}.
Implicit Types (s : vfs_st D K).

(** What a thread that has returned got, as an operation of the store and its answer *)
Definition code_answer (res : Z) : store_answer X := if decide (res = 0) then Added else Failed res.
Definition add_result (pc : add_pc) : option (Z * Z) :=
  match pc with add_return c res => Some (c, res) | _ => None end.

(** One addition refines the specification. *)
Lemma add_child_spec e sz st s p c :
  store_rep sz st s → p ∈ dom (ss_dirs st) → child_ready s c → (DIR_FUEL ≤ e_fuel e)%nat →
  ∃ st' res s', store_spec (view_of s) st (StAdd p c) = Some (st', code_answer res) ∧
    add_child_res e p c s = Ok res s' ∧ store_rep sz st' s' ∧ same_children s s'.
Proof using L KL XL.
  intros Hrep Hp Hc Hf.
  destruct (store_simulates (X := X) e sz st s (StAdd p c)) as (st' & a & s' & Hspec & Hrun & Hrep' & Hsame);
    [done|by split|done|].
  assert (a = Added ∨ a = Failed (-EINVAL)) as Ha.
  { cbn in Hspec. destruct (ss_dirs st !! p) as [dir|]; [|done]. cbn in Hspec. unfold spec_add in Hspec.
    repeat case_decide; injection Hspec as _ <-; auto. }
  unfold store_run, answer, add_child_res, catch, mbind, M_bind in *. cbn in Hrun.
  destruct (spfs_add_child e p c s) as [[] s1|e1 s1|c1]; [| |done]; injection Hrun as <- <-.
  - by exists st', 0, s1.
  - destruct Ha as [|[= ->]]; [done|]. by exists st', (-EINVAL), s1.
Qed.

Lemma add_ops_spec e sz p b pcs s :
  op_run (add_op e p) b pcs s → ∀ st, store_rep sz st b → p ∈ dom (ss_dirs st) →
  Forall (λ pc, child_ready b (child_of pc)) pcs → (DIR_FUEL ≤ e_fuel e)%nat →
  ∃ st', let rs := omap add_result pcs in
    store_specs (X := X) (view_of b) st (StAdd p <$> rs.*1) = Some (st', code_answer <$> rs.*2) ∧
    store_rep sz st' s ∧ same_children b s ∧ dom (ss_dirs st') = dom (ss_dirs st).
Proof using L KL XL.
  induction 1 as [b|b pc s1 pcs s (c & res & -> & Hop) _ IH]; intros st Hrep Hp Hcs Hf.
  { exists st. by split_and!. }
  apply Forall_cons in Hcs as [Hc Hcs].
  destruct (add_child_spec e sz st b p c) as (st1 & res' & s1' & Hspec & E & Hrep1 & Hsame); [done..|].
  destruct (Hop _ _ E) as [-> ->]. pose proof (store_spec_dom _ _ _ _ _ Hspec) as Hdom.
  destruct (IH st1 Hrep1) as (st2 & Hspecs & Hrep2 & Hsame2 & Hdom2); [by rewrite Hdom| |done|].
  { eapply Forall_impl; [exact Hcs|]. intros pc. by apply same_children_ready. }
  exists st2. split_and!; [|done|by etrans|congruence].
  cbn [omap list_omap add_result fmap list_fmap fst snd store_specs]. rewrite Hspec.
  cbn [mbind option_bind fst snd].
  rewrite (store_specs_ext (view_of b) (view_of s1')) by (intros id; symmetry; by apply same_children_view).
  by rewrite Hspecs.
Qed.

(** Additions to a directory with room for all of them *)
Lemma specs_room view p cs : ∀ st dir st' rs,
  ss_dirs st !! p = Some dir → ds_children dir ≠ [] → zlen (ds_children dir) + zlen cs ≤ DIR_MAX →
  store_specs (X := X) view st (StAdd p <$> cs) = Some (st', rs) →
  Forall (λ a, a = Added) rs ∧ ∃ count, ss_dirs st' !! p = Some (DirState (ds_children dir ++ cs) count).
Proof using.
  induction cs as [|c cs IH]; intros st dir st' rs Hp Hne Hlen H.
  { injection H as <- <-. split; [constructor|]. exists (ds_count dir). rewrite app_nil_r. by destruct dir. }
  assert (zlen (c :: cs) = 1 + zlen cs) as Hz by (unfold zlen; cbn [length]; lia).
  pose proof (zlen_nonneg cs). cbn [fmap list_fmap store_specs store_spec] in H. rewrite Hp in H.
  cbn [fmap option_fmap option_map mbind option_bind] in H. unfold spec_add in H.
  rewrite decide_True in H by (split; [done|lia]). cbn [fst snd] in H.
  destruct (store_specs _ _ _) as [[st2 rs2]|] eqn:E; [|done]. injection H as <- <-.
  set (dir1 := DirState (ds_children dir ++ [c]) (u32 (ds_count dir + 1))) in E.
  assert (ds_children dir1 ≠ []) as Hne1 by (cbn; by destruct (ds_children dir)).
  assert (zlen (ds_children dir1) + zlen cs ≤ DIR_MAX) as Hlen1.
  { cbn [dir1 ds_children]. rewrite zlen_app. change (zlen [c]) with 1. lia. }
  destruct (IH _ dir1 _ _ (lookup_insert_eq _ _ _) Hne1 Hlen1 E) as (Hall & count & Hd).
  split; [by constructor|]. exists count. rewrite Hd. cbn [dir1 ds_children]. by rewrite <-app_assoc.
Qed.

Lemma length_results pcs : (length (omap add_result pcs) ≤ length pcs)%nat.
Proof using. induction pcs as [|pc pcs IH]; [done|]. cbn. destruct (add_result pc); cbn in *; lia. Qed.

Lemma results_finished pcs : omap add_result (finished add_returned pcs) = omap add_result pcs.
Proof using.
  unfold finished. induction pcs as [|pc pcs IH]; [done|]. rewrite filter_cons.
  case_decide as Hp; destruct pc; try done; try exact IH. exact (f_equal (cons _) IH).
Qed.
Lemma add_step_child p s pc s' pc' : add_thread p s pc s' pc' → child_of pc' = child_of pc.
Proof using.
  intros H. destruct (add_inside pc) eqn:Hin.
  - destruct (add_step_inv p _ _ _ _ Hin H) as [E|(-> & _)]; [by eapply stmt_child|done].
  - unfold add_thread, add_step in H. destruct pc; try done.
    destruct (add_stmt p _ s) as [pc'' s''| |] eqn:E; [|done..]. injection H as <- <-.
    by eapply (stmt_child p) in E.
Qed.

Lemma add_threads_ok e p children s0 s ts :
  dir_locked p s0 = false → rtc (machine_step (add_thread p)) (s0, add_lock <$> children) (s, ts) →
  machine_ok (locked := dir_locked p) (inside := add_inside) (final := add_returned)
    (inv := add_inv e p) (op := add_op e p) s0 (s, ts) ∧ child_of <$> ts = children.
Proof using KL.
  intros Hl Hrun. split.
  - apply (machine_atomic (CS := add_section e p) _ (add_lock <$> children)); [done| |done]. apply Forall_fmap, Forall_forall. by intros c _.
  - pose proof (machine_kept child_of _ _ (add_step_child p) Hrun) as Hk. cbn [snd] in Hk.
    rewrite Hk, <-list_fmap_compose. apply list_fmap_id.
Qed.

(** C9: threads that add children to one directory at the same time do not disturb each
    other.  In whatever order the statements of their calls of [spfs_add_child] are
    executed, the calls that have returned got the specification's answers for the
    same additions one after the other in some order; when the directory's mutex is free
    the file system represents what the specification then has, so that in a directory
    with room for all every child whose thread has returned is there, once, behind the
    old ones; no statement crashes, and as long as a thread has not returned, one can make
    a step. *)
Theorem add_child_threads sz st s0 p children s ts dir :
  store_rep sz st s0 → ss_dirs st !! p = Some dir → Forall (child_ready s0) children →
  rtc (machine_step (add_thread p)) (s0, add_lock <$> children) (s, ts) →
  (∃ rs st', rs ≡ₚ omap add_result ts ∧
     store_specs (X := X) (view_of s0) st (StAdd p <$> rs.*1) = Some (st', code_answer <$> rs.*2) ∧
     (dir_locked p s = false → store_rep sz st' s) ∧
     (ds_children dir ≠ [] → zlen (ds_children dir) + zlen children ≤ DIR_MAX →
        Forall (λ r, r.2 = 0) rs ∧
        ∃ count, ss_dirs st' !! p = Some (DirState (ds_children dir ++ rs.*1) count))) ∧
  (∀ c, add_dead c ∉ ts) ∧
  (Forall (λ pc, add_returned pc = true) ts ∨ ∃ c, machine_step (add_thread p) (s, ts) c).
Proof using L KL XL.
  intros Hrep Hdir Hcs Hrun. pose proof (sr_dirs _ _ _ Hrep p dir Hdir) as Hd.
  set (e := Env DIR_FUEL zeros (k_inode (v_cache s0) p)).
  destruct (add_threads_ok e p children s0 s ts (dr_lock _ _ _ _ Hd) Hrun) as [Hok Hkept].
  assert (∀ pc, pc ∈ ts → child_ready s0 (child_of pc)) as Hready.
  { intros pc Hpc. rewrite Forall_forall in Hcs. apply Hcs. rewrite <-Hkept. by apply list_elem_of_fmap_2. }
  pose proof (machine_progress (CS := add_section e p) _ _ _ Hok) as Hprog. destruct Hok as (b & ps & Hps & Hperm & Hex).
  cbn [fst snd] in *.
  destruct (add_ops_spec e sz p s0 ps b Hps st Hrep) as (st' & Hspec & Hrep' & Hsame & Hdom);
    [by eapply elem_of_dom_2| |done|].
  { rewrite Hperm. apply Forall_forall. intros pc [_ Hpc]%list_elem_of_filter. by apply Hready. }
  split; [|split; [|done]].
  - exists (omap add_result ps), st'. split; [by rewrite Hperm, results_finished|]. split; [done|]. split.
    { intros Hl. destruct Hex as [(_ & -> & _)|(Hl' & _)]; [done|]. unfold dir_locked in *. congruence. }
    intros Hne Hlen. assert (zlen (ds_children dir) + zlen (omap add_result ps).*1 ≤ DIR_MAX) as Hlen'.
    { assert (length (omap add_result ps) ≤ length ts)%nat as Hle.
      { rewrite Hperm, results_finished. apply length_results. }
      rewrite <-Hkept in Hlen. unfold zlen in *. rewrite !length_fmap in *. lia. }
    destruct (specs_room _ _ _ _ _ _ _ Hdir Hne Hlen' Hspec) as [Hall Hst'].
    split; [|done]. rewrite !Forall_fmap in Hall. eapply Forall_impl; [exact Hall|]. intros [c res].
    cbn. unfold code_answer. by case_decide.
  - intros c [t Ht]%list_elem_of_lookup. destruct Hex as [(_ & _ & Hall)|(_ & t1 & pc & Ht1 & _ & [_ Hinv] & Hoth)].
    { by apply (Forall_lookup_1 _ _ _ _ Hall) in Ht. }
    destruct (decide (t = t1)) as [->|Hne]; [|by apply (Hoth _ _ Ht) in Hne].
    rewrite Ht in Ht1. injection Ht1 as <-.
    destruct (add_child_spec e sz st' b p c) as (st2 & res & s2 & _ & E & _); [done|..|done|].
    + rewrite Hdom. by eapply elem_of_dom_2.
    + eapply same_children_ready; [done|]. apply (Hready (add_dead c)). by eapply list_elem_of_lookup_2.
    + by destruct (Hinv _ _ E) as [fuel ?].
Qed.
End adding.

(** ** A concrete schedule *)
(** Two threads add files 2 and 3 to directory 1: the second one takes the mutex first and
    makes the directory's first block, and the first one finds that block. *)
Definition add_turns : list nat := replicate 12 1%nat ++ replicate 13 0%nat.
Definition add_threads : vfs_st memdev memkernel * list add_pc := (example_store, add_lock <$> [2; 3]).

Lemma add_turns_run : ∃ s,
  rtc (machine_step (add_thread 1)) add_threads (s, [add_return 2 0; add_return 3 0]) ∧ dir_locked 1 s = false.
Proof.
  assert (match schedule (add_step 1) add_turns add_threads with
          | Some (s, [add_return 2 0; add_return 3 0]) => negb (dir_locked 1 s)
          | _ => false
          end = true) as H by by vm_compute.
  destruct (schedule (add_step 1) add_turns add_threads) as [[s ts]|] eqn:E; [|done].
  apply schedule_steps, rtc_nsteps_2 in E. exists s. repeat case_match; try done.
  split; [exact E|]. by apply negb_true_iff.
Qed.

Lemma add_child_threads_witness :
  ∃ s rs st', rtc (machine_step (add_thread 1)) add_threads (s, [add_return 2 0; add_return 3 0]) ∧
    rs ≡ₚ [(2, 0); (3, 0)] ∧ store_rep 1024 st' s.
Proof.
  destruct add_turns_run as (s & Hrun & Hl).
  destruct (add_child_threads (X := memdir) 1024 example_store_state example_store 1 [2; 3] s
    [add_return 2 0; add_return 3 0] (DirState [] 0)) as ((rs & st' & Hrs & _ & Hrep & _) & _).
  - apply example_store_rep.
  - by vm_compute.
  - repeat constructor; try (apply (bool_decide_unpack _); by vm_compute); done.
  - exact Hrun.
  - exists s, rs, st'. split; [exact Hrun|]. split; [exact Hrs|]. by apply Hrep.
Defined.
