(* ===== verification/Mkfs.v ===== *)
(** * mkfs.spfs.c

    A user-space program: it works on an open file through [fstat], [lseek] and
    [write].  [ufile] is that file with its descriptor (contents, offset, [st_blksize],
    and the size at which the device is full) and what the program has printed: a string
    for each call of [printf].  The functions return the C result; the program's exit
    status is the result of [mkfs_main].  Messages on the standard error are left out. *)
From stdpp Require Import strings pretty.
From S2P Require Import Prelude.
#[local] Open Scope Z_scope.

Record ufile := UFile {
  u_data : list byte;
  u_pos : Z;
  u_blksize : Z;
  u_limit : Z;
  u_out : list string;
}.

Definition set_data (data : list byte) (pos : Z) (f : ufile) : ufile :=
  UFile data pos (u_blksize f) (u_limit f) (u_out f).
Definition say (ls : list string) (f : ufile) : ufile :=
  UFile (u_data f) (u_pos f) (u_blksize f) (u_limit f) (u_out f ++ ls).

(** [write(2)]: what fits is stored, -1 when nothing does; a gap reads as zeros. *)
Definition fd_write (buf : list byte) : M ufile Z := λ f,
  let n := Z.min (zlen buf) (u_limit f - u_pos f) in
  if bool_decide (n < 0 ∨ n = 0 ∧ buf ≠ []) then Ok (-1) f
  else
    let data := u_data f ++ zeros (u_pos f + n - zlen (u_data f)) in
    Ok n (set_data (splice (u_pos f) (sub 0 n buf) data) (u_pos f + n) f).

(** [read(2)]: up to the end of the file *)
Definition fd_read (n : Z) : M ufile (list byte) := λ f,
  let r := Z.max 0 (Z.min n (zlen (u_data f) - u_pos f)) in
  Ok (sub (u_pos f) r (u_data f)) (set_data (u_data f) (u_pos f + r) f).

(** [lseek(2)] *)
Definition fd_lseek_set (off : Z) : M ufile Z := λ f,
  if bool_decide (off < 0) then Ok (-1) f else Ok off (set_data (u_data f) off f).
Definition fd_lseek_cur : M ufile Z := gets u_pos.

(** [printf(3)]: the conversions [%u] and [%zu], and [%X] *)
Definition printf (s : string) : M ufile unit := modify (say [s]).
Definition dec (n : Z) : string := pretty (Z.to_N n).
Definition hex_digit (n : Z) : Ascii.ascii :=
  Ascii.ascii_of_nat (Z.to_nat (if bool_decide (n < 10) then 48 + n else 55 + n)).
Fixpoint hex_loop (fuel : nat) (n : Z) (acc : string) : string :=
  let acc := String (hex_digit (n mod 16)) acc in
  match fuel with
  | O => acc
  | S fuel => if bool_decide (n < 16) then acc else hex_loop fuel (n / 16) acc
  end.
Definition hex (n : Z) : string := hex_loop 7 n EmptyString.
Definition newline : string := String (Ascii.ascii_of_nat 10) EmptyString.
Definition tab : string := String (Ascii.ascii_of_nat 9) EmptyString.

(** ** mkfs.spfs.h *)
Record spfs_super_block_wire := SuperWire {
  w_magic : Z;
  w_version : Z;
  w_block_size : Z;
  w_dummy : Z;
  w_id : Z;
  w_root_id : Z;
  w_btree_offset : Z;
  w_free_list_offset : Z;
  w_blocks : Z;
}.

(** [struct spfs_free_list] and [struct spfs_free_entry] of mkfs.spfs.h *)
Record free_list_wire := FreeListWire { flw_magic : Z; flw_entries : Z; flw_next : Z }.
Record spfs_free_entry := FreeEntry { fent_start : Z; fent_blocks : Z }.

Definition SPFS_ROOT_INODE_NO : Z := 1.

Definition set_geometry (block_size blocks : Z) (s : spfs_super_block_wire) : spfs_super_block_wire :=
  SuperWire (w_magic s) (w_version s) block_size (w_dummy s) (w_id s) (w_root_id s)
    (w_btree_offset s) (w_free_list_offset s) blocks.

(** ** Geometry *)
Definition mkfs_bytes_of (blksize blocks : Z) : Z := u64 (blksize * blocks).

Definition sizes_line (hdd_block_size block_size : Z) : string :=
  "hdd block size[" +:+ dec hdd_block_size +:+ "], fs block size[" +:+ dec block_size +:+ "]" +:+ newline.
Definition header_line (start length : Z) : string :=
  "header[" +:+ dec start +:+ "], data[" +:+ dec length +:+ "]" +:+ newline.
Definition blocks_line (blocks : Z) : string := "data blocks[" +:+ dec blocks +:+ "]" +:+ newline.

(** The result and [*super] *)
Definition mkfs_block_size (super : spfs_super_block_wire) : M ufile (Z * spfs_super_block_wire) :=
  let header_blocks := 2 in
  f ← get;
  let st_blksize := u_blksize f in
  let st_size := zlen (u_data f) in
  let block_size := u32 st_blksize in
  let start := mkfs_bytes_of st_blksize header_blocks in
  if bool_decide (st_size < 0) then mret (1, set_geometry block_size (w_blocks super) super)
  else if bool_decide (st_size < start) then mret (1, set_geometry block_size (w_blocks super) super)
  else
    let length := u64 (st_size - start) in
    if bool_decide (block_size = 0) then crashes OutOfBounds
    else
      let blocks := length / block_size in
      let super := set_geometry block_size blocks super in
      printf (sizes_line st_blksize block_size);;
      printf (header_line start length);;
      printf (blocks_line blocks);;
      if bool_decide (blocks = 0) then mret (1, super) else mret (0, super).

(** ** Output *)
(** [write] of one zero byte at a time *)
Fixpoint zero_fill_loop (n : nat) : M ufile Z :=
  match n with
  | O => mret 0
  | S n =>
      ret ← fd_write [x00];
      if bool_decide (ret ≠ 1) then mret ret else zero_fill_loop n
  end.
Definition zero_line (bytes : Z) : string := "super block zero[" +:+ dec bytes +:+ "]" +:+ newline.
Definition zero_fill (bytes : Z) : M ufile Z :=
  printf (zero_line bytes);;
  zero_fill_loop (Z.to_nat bytes).

(** [buffer] and [*pos]; [htonl] on a little-endian processor *)
Definition mkfs_write_u32 (buffer : list byte) (pos value : Z) : M ufile (list byte * Z) :=
  buffer ← mstore buffer pos (le_split 4 (bswap 4 (u32 value)));
  mret (buffer, pos + 4).

Definition super_block (stack : list byte) (super : spfs_super_block_wire) : M ufile Z :=
  '(buffer, pos) ← mkfs_write_u32 stack 0 (w_magic super);
  '(buffer, pos) ← mkfs_write_u32 buffer pos (w_version super);
  '(buffer, pos) ← mkfs_write_u32 buffer pos (w_block_size super);
  '(buffer, pos) ← mkfs_write_u32 buffer pos (w_id super);
  '(buffer, pos) ← mkfs_write_u32 buffer pos (w_root_id super);
  '(buffer, pos) ← mkfs_write_u32 buffer pos (w_btree_offset super);
  '(buffer, pos) ← mkfs_write_u32 buffer pos (w_free_list_offset super);
  ret ← fd_write (sub 0 pos buffer);
  if bool_decide (ret ≠ pos) then mret ret
  else zero_fill (u64 (w_block_size super - pos)).

Definition mkfs_write_free_list_header (buffer : list byte) (pos : Z) (header : free_list_wire) :
    M ufile (list byte * Z) :=
  '(buffer, pos) ← mkfs_write_u32 buffer pos (flw_magic header);
  '(buffer, pos) ← mkfs_write_u32 buffer pos (flw_entries header);
  mkfs_write_u32 buffer pos (flw_next header).

Definition mkfs_write_free_entry (buffer : list byte) (pos : Z) (entry : spfs_free_entry) :
    M ufile (list byte * Z) :=
  '(buffer, pos) ← mkfs_write_u32 buffer pos (fent_start entry);
  mkfs_write_u32 buffer pos (fent_blocks entry).

(** [.blocks = super->blocks] goes from [size_t] to [uint32_t]. *)
Definition free_list (super : spfs_super_block_wire) : M ufile Z :=
  let header := FreeListWire SPFS_MAGIC 1 0 in
  let entry := FreeEntry 2 (u32 (w_blocks super)) in
  '(buffer, b_pos) ← mkfs_write_free_list_header (zeros 1024) 0 header;
  '(buffer, b_pos) ← mkfs_write_free_entry buffer b_pos entry;
  cur ← fd_lseek_cur;
  if bool_decide (cur = -1) then mret 1
  else if bool_decide (cur ≠ w_block_size super) then mret 1
  else
    wres ← fd_write (sub 0 b_pos buffer);
    if bool_decide (wres ≠ b_pos) then mret 1 else mret 0.

(** [main] on an open device; the result is the exit status. *)
Definition mkfs_main (stack : list byte) : M ufile Z :=
  let super := SuperWire SPFS_MAGIC 1 0 0 SPFS_ROOT_INODE_NO SPFS_ROOT_INODE_NO 0 1 0 in
  '(ret, super) ← mkfs_block_size super;
  if bool_decide (ret ≠ 0) then mret 1
  else
    ret ← super_block stack super;
    if bool_decide (ret ≠ 0) then mret 1
    else
      ret ← free_list super;
      if bool_decide (ret ≠ 0) then mret 1 else mret 0.

(** ** Specification: the first two blocks of a new file system *)
Definition mkfs_super_bytes (block_size : Z) : list byte :=
  be_split 4 SPFS_MAGIC ++ be_split 4 1 ++ be_split 4 block_size ++ be_split 4 SPFS_ROOT_INODE_NO ++
  be_split 4 SPFS_ROOT_INODE_NO ++ be_split 4 0 ++ be_split 4 1.
Definition mkfs_free_bytes (blocks : Z) : list byte :=
  be_split 4 SPFS_MAGIC ++ be_split 4 1 ++ be_split 4 0 ++ be_split 4 2 ++ be_split 4 blocks.
Definition mkfs_bytes (block_size blocks : Z) : list byte :=
  mkfs_super_bytes block_size ++ zeros (block_size - 28) ++ mkfs_free_bytes blocks.

Lemma zlen_mkfs_super_bytes z : zlen (mkfs_super_bytes z) = 28.
Proof. unfold mkfs_super_bytes. by zlen_simpl. Qed.
Lemma zlen_mkfs_free_bytes z : zlen (mkfs_free_bytes z) = 20.
Proof. unfold mkfs_free_bytes. by zlen_simpl. Qed.
#[export] Hint Rewrite zlen_mkfs_super_bytes zlen_mkfs_free_bytes : zlen.

Lemma be_split_u32 v : be_split 4 (u32 v) = be_split 4 v.
Proof. unfold be_split, u32. change (2 ^ 32) with (256 ^ Z.of_nat 4). by rewrite le_split_mod. Qed.

(** What is printed for a device of [size] bytes *)
Definition mkfs_output (block_size blocks size : Z) : list string :=
  [sizes_line block_size block_size; header_line (2 * block_size) (size - 2 * block_size);
   blocks_line blocks; zero_line (block_size - 28)].

Lemma say_say ls ls' f : say ls' (say ls f) = say (ls ++ ls') f.
Proof. unfold say. cbn. by rewrite app_assoc. Qed.

(** ** Writing inside of the file *)
Lemma fd_write_in buf f :
  0 ≤ u_pos f → u_pos f + zlen buf ≤ zlen (u_data f) → zlen (u_data f) ≤ u_limit f →
  fd_write buf f =
    Ok (zlen buf) (set_data (splice (u_pos f) buf (u_data f)) (u_pos f + zlen buf) f).
Proof.
  intros Hp Hl Hlim. pose proof (zlen_nonneg buf). unfold fd_write.
  assert (Z.min (zlen buf) (u_limit f - u_pos f) = zlen buf) as -> by lia.
  rewrite bool_decide_eq_false_2; cycle 1.
  { intros [|[Hz Hn]]; [lia|]. apply Hn. apply length_zero_iff_nil. unfold zlen in Hz. lia. }
  rewrite sub_all. unfold zeros.
  replace (Z.to_nat (u_pos f + zlen buf - zlen (u_data f))) with 0%nat by lia.
  by rewrite app_nil_r.
Qed.

Lemma zero_fill_loop_ok n f :
  0 ≤ u_pos f → u_pos f + Z.of_nat n ≤ zlen (u_data f) → zlen (u_data f) ≤ u_limit f →
  zero_fill_loop n f =
    Ok 0 (set_data (splice (u_pos f) (zeros (Z.of_nat n)) (u_data f)) (u_pos f + Z.of_nat n) f).
Proof.
  revert f. induction n as [|n IH]; intros f Hp Hl Hlim; cbn [zero_fill_loop].
  - change (zeros (Z.of_nat 0)) with (@nil byte). rewrite splice_nil, Z.add_0_r. by destruct f.
  - erewrite bind_ok by (apply fd_write_in; [done|change (zlen [x00]) with 1; lia|done]).
    change (zlen [x00]) with 1. decide_if. unfold set_data at 1.
    rewrite IH; cbn [set_data u_data u_pos u_limit u_blksize]; rewrite ?zlen_splice;
      change (zlen [x00]) with 1; try lia.
    f_equal. unfold set_data. cbn [u_blksize u_limit]. f_equal; [|lia].
    rewrite splice_adjacent by (rewrite ?zlen_zeros; change (zlen [x00]) with 1; lia).
    f_equal. change [x00] with (zeros 1). rewrite <-zeros_add by lia. f_equal. lia.
Qed.

Lemma mkfs_write_u32_ok buffer pos value f :
  0 ≤ pos → pos + 4 ≤ zlen buffer →
  mkfs_write_u32 buffer pos value f = Ok (splice pos (be_split 4 value) buffer, pos + 4) f.
Proof.
  intros. unfold mkfs_write_u32. rewrite le_split_bswap, be_split_u32.
  unfold mstore. rewrite zlen_be_split. by decide_if.
Qed.

(** A field of a buffer that starts with the fields written so far *)
Ltac wire_field := erewrite bind_ok by (apply mkfs_write_u32_ok; slen); cbv beta iota.

Lemma super_block_ok stack super f :
  zlen stack = 1024 → 28 ≤ w_block_size super → w_block_size super < 2 ^ 32 →
  0 ≤ u_pos f → u_pos f + w_block_size super ≤ zlen (u_data f) → zlen (u_data f) ≤ u_limit f →
  w_magic super = SPFS_MAGIC → w_version super = 1 → w_id super = SPFS_ROOT_INODE_NO →
  w_root_id super = SPFS_ROOT_INODE_NO → w_btree_offset super = 0 → w_free_list_offset super = 1 →
  let bs := w_block_size super in
  super_block stack super f =
    Ok 0 (set_data (splice (u_pos f) (mkfs_super_bytes bs ++ zeros (bs - 28)) (u_data f))
            (u_pos f + bs) (say [zero_line (bs - 28)] f)).
Proof.
  intros Hst Hbs Hbs' Hp Hl Hlim E1 E2 E3 E4 E5 E6 bs. unfold super_block.
  rewrite E1, E2, E3, E4, E5, E6. fold bs. do 7 wire_field. cbn [Z.add Pos.add].
  splice_merge. fold (mkfs_super_bytes bs).
  rewrite sub_splice_eq by slen.
  erewrite bind_ok by (apply fd_write_in; slen). rewrite zlen_mkfs_super_bytes. decide_if.
  unfold zero_fill. rewrite u64_small by lia. erewrite bind_ok by done.
  rewrite zero_fill_loop_ok; unfold set_data, say; cbn [u_data u_pos u_limit u_blksize];
    rewrite ?zlen_splice; rewrite ?zlen_mkfs_super_bytes; try lia.
  rewrite !Z2Nat.id by lia. do 2 f_equal; [|lia].
  rewrite splice_adjacent by slen. done.
Qed.

Lemma free_list_ok super f :
  u_pos f = w_block_size super → 0 ≤ u_pos f → u_pos f + 20 ≤ zlen (u_data f) →
  zlen (u_data f) ≤ u_limit f →
  free_list super f =
    Ok 0 (set_data (splice (u_pos f) (mkfs_free_bytes (w_blocks super)) (u_data f)) (u_pos f + 20) f).
Proof.
  intros Hp Hp0 Hl Hlim. unfold free_list. set (blocks := w_blocks super).
  assert (zlen (zeros 1024) = 1024) as Hz by (by rewrite zlen_zeros).
  set (buf := zeros 1024) in *. clearbody buf.
  erewrite bind_ok; cycle 1.
  { unfold mkfs_write_free_list_header. do 2 wire_field. apply mkfs_write_u32_ok; slen. }
  cbv beta iota. erewrite bind_ok; cycle 1.
  { unfold mkfs_write_free_entry. wire_field. apply mkfs_write_u32_ok; slen. }
  cbv beta iota. cbn [flw_magic flw_entries flw_next fent_start fent_blocks].
  rewrite be_split_u32. splice_merge. fold (mkfs_free_bytes blocks).
  erewrite bind_ok by done. rewrite (bool_decide_eq_false_2 (u_pos f = -1)) by lia.
  rewrite bool_decide_eq_false_2 by (intros Hn; by apply Hn). rewrite sub_splice_eq by slen.
  erewrite bind_ok by (apply fd_write_in; slen). rewrite zlen_mkfs_free_bytes. by decide_if.
Qed.

Lemma mkfs_block_size_ok super f :
  0 < u_blksize f → u_blksize f < 2 ^ 32 → 3 * u_blksize f ≤ zlen (u_data f) → zlen (u_data f) < 2 ^ 63 →
  let bs := u_blksize f in
  let blocks := (zlen (u_data f) - 2 * bs) / bs in
  mkfs_block_size super f =
    Ok (0, set_geometry bs blocks super)
       (say [sizes_line bs bs; header_line (2 * bs) (zlen (u_data f) - 2 * bs); blocks_line blocks] f) ∧
  0 < blocks ∧ (2 + blocks) * bs ≤ zlen (u_data f) ∧ zlen (u_data f) < (3 + blocks) * bs.
Proof.
  intros Hbs Hbs' Hsz Hsz' bs blocks.
  pose proof (Z.div_mod (zlen (u_data f) - 2 * bs) bs ltac:(lia)) as Hd. fold blocks in Hd.
  pose proof (Z.mod_pos_bound (zlen (u_data f) - 2 * bs) bs ltac:(lia)).
  assert (0 < blocks) by nia. split; [|nia].
  unfold mkfs_block_size, mkfs_bytes_of. erewrite bind_ok by done. fold bs.
  rewrite (u32_small bs) by lia. rewrite !(u64_small (bs * 2)) by lia.
  pose proof (zlen_nonneg (u_data f)).
  rewrite !bool_decide_eq_false_2 by lia. rewrite u64_small by lia.
  replace (bs * 2) with (2 * bs) by lia. fold blocks. do 3 erewrite bind_ok by done.
  rewrite !say_say. by rewrite bool_decide_eq_false_2 by lia.
Qed.

Lemma mkfs_main_ok stack f :
  zlen stack = 1024 → u_pos f = 0 → 28 ≤ u_blksize f → u_blksize f < 2 ^ 32 →
  3 * u_blksize f ≤ zlen (u_data f) → zlen (u_data f) ≤ u_limit f → zlen (u_data f) < 2 ^ 63 →
  ∃ blocks,
    mkfs_main stack f =
      Ok 0 (set_data (splice 0 (mkfs_bytes (u_blksize f) blocks) (u_data f)) (u_blksize f + 20)
              (say (mkfs_output (u_blksize f) blocks (zlen (u_data f))) f)) ∧
    0 < blocks ∧ (2 + blocks) * u_blksize f ≤ zlen (u_data f) ∧
    zlen (u_data f) < (3 + blocks) * u_blksize f.
Proof.
  intros Hst Hpos Hbs Hbs' Hsz Hlim Hsz'. set (bs := u_blksize f) in *.
  set (super0 := SuperWire SPFS_MAGIC 1 0 0 SPFS_ROOT_INODE_NO SPFS_ROOT_INODE_NO 0 1 0).
  destruct (mkfs_block_size_ok super0 f ltac:(lia) Hbs' Hsz Hsz') as (E1 & Hblocks).
  fold bs in E1, Hblocks. set (blocks := (zlen (u_data f) - 2 * bs) / bs) in *.
  exists blocks. split; [|done]. unfold mkfs_main. fold super0. exec E1. cbv beta iota.
  rewrite bool_decide_eq_false_2 by (intros Hn; by apply Hn).
  set (super := set_geometry bs blocks super0).
  match type of E1 with _ = Ok _ ?g => set (f1 := g) in * end.
  assert (u_pos f1 = 0 ∧ u_data f1 = u_data f ∧ u_limit f1 = u_limit f) as (Hp1 & Hd1 & Hl1) by done.
  pose proof (super_block_ok stack super f1 Hst Hbs Hbs' ltac:(lia)) as E2.
  change (w_block_size super) with bs in E2. rewrite Hp1, Hd1, Hl1 in E2. specialize_lia E2.
  specialize (E2 eq_refl eq_refl eq_refl eq_refl eq_refl eq_refl). cbv zeta in E2. exec E2.
  rewrite bool_decide_eq_false_2 by (intros Hn; by apply Hn).
  set (sb := mkfs_super_bytes bs ++ zeros (bs - 28)) in *.
  assert (zlen sb = bs) as Hsb by (unfold sb; slen).
  erewrite bind_ok; cycle 1.
  { apply free_list_ok; unfold set_data, say; cbn [u_data u_pos u_limit];
      rewrite ?zlen_splice, ?Hl1; change (w_block_size super) with bs; lia. }
  rewrite bool_decide_eq_false_2 by (intros Hn; by apply Hn).
  unfold mret, M_ret, set_data, f1, say. cbn [u_data u_pos u_limit u_blksize u_out].
  change (w_blocks super) with blocks.
  rewrite splice_adjacent by (rewrite ?zlen_mkfs_free_bytes; lia).
  unfold mkfs_bytes, sb. by rewrite <-!app_assoc, Z.add_0_l.
Qed.

(** On a device of at least three blocks mkfs succeeds and writes exactly the super
    block, zeros up to the end of its block, and one free-list block with one entry;
    the number of data blocks is the largest that fits behind the two header blocks.  It
    prints these sizes and the number of zeros. *)
Theorem mkfs_layout stack f :
  zlen stack = 1024 → u_pos f = 0 → 28 ≤ u_blksize f → u_blksize f < 2 ^ 32 →
  3 * u_blksize f ≤ zlen (u_data f) → zlen (u_data f) ≤ u_limit f → zlen (u_data f) < 2 ^ 63 →
  ∃ blocks,
    mkfs_main stack f =
      Ok 0 (set_data (splice 0 (mkfs_bytes (u_blksize f) blocks) (u_data f)) (u_blksize f + 20)
              (say (mkfs_output (u_blksize f) blocks (zlen (u_data f))) f)) ∧
    0 < blocks ∧ (2 + blocks) * u_blksize f ≤ zlen (u_data f) ∧
    zlen (u_data f) < (3 + blocks) * u_blksize f.
Proof. apply mkfs_main_ok. Qed.

(** ** Reading back what mkfs wrote *)
Definition mkfs_image (block_size blocks : Z) (data : list byte) : list byte :=
  splice 0 (mkfs_bytes block_size blocks) data.

Lemma zlen_mkfs_bytes bs blocks : 28 ≤ bs → zlen (mkfs_bytes bs blocks) = bs + 20.
Proof. intros. unfold mkfs_bytes. slen. Qed.

Lemma mkfs_super_fields bs blocks data :
  28 ≤ bs → bs + 20 ≤ zlen data →
  let d := mkfs_image bs blocks data in
  zlen d = zlen data ∧
  sub 0 4 d = be_split 4 SPFS_MAGIC ∧ sub 4 4 d = be_split 4 1 ∧ sub 8 4 d = be_split 4 bs ∧
  sub 12 4 d = be_split 4 1 ∧ sub 16 4 d = be_split 4 1 ∧ sub 20 4 d = be_split 4 0 ∧
  sub 24 4 d = be_split 4 1.
Proof.
  intros Hbs Hl d. unfold d, mkfs_image. pose proof (zlen_mkfs_bytes bs blocks Hbs) as Hz.
  split; [by rewrite zlen_splice by lia|]. rewrite !sub_splice_in by lia.
  unfold mkfs_bytes, mkfs_super_bytes. rewrite <-!app_assoc.
  split_and!; by sub_field.
Qed.

Lemma mkfs_free_fields bs blocks data :
  28 ≤ bs → bs + 20 ≤ zlen data →
  let d := mkfs_image bs blocks data in
  sub bs 4 d = be_split 4 SPFS_MAGIC ∧ sub (bs + 4) 4 d = be_split 4 1 ∧
  sub (bs + 8) 4 d = be_split 4 0 ∧ sub (bs + 12) 4 d = be_split 4 2 ∧
  sub (bs + 16) 4 d = be_split 4 blocks.
Proof.
  intros Hbs Hl d. pose proof (zlen_mkfs_bytes bs blocks Hbs) as Hz.
  assert (Hs : ∀ o, 0 ≤ o → o + 4 ≤ 20 → sub (bs + o) 4 d = sub o 4 (mkfs_free_bytes blocks)).
  { intros o ??. unfold d, mkfs_image. rewrite sub_splice_in by lia. unfold mkfs_bytes.
    rewrite app_assoc, sub_app_r by slen. f_equal. slen. }
  pose proof (Hs 0) as H0. rewrite Z.add_0_r in H0. rewrite H0, !Hs by lia.
  unfold mkfs_free_bytes. split_and!; by sub_field.
Qed.

(** The number of blocks of the free-list entry is cut to 32 bits: a device of 2^32
    or more data blocks gets an entry that covers fewer blocks than it has, and mkfs
    reports success. *)
Theorem free_list_truncates super f :
  u_pos f = w_block_size super → 0 ≤ u_pos f → u_pos f + 20 ≤ zlen (u_data f) →
  zlen (u_data f) ≤ u_limit f → 2 ^ 32 ≤ w_blocks super →
  ∃ f', free_list super f = Ok 0 f' ∧
    be_combine (sub (u_pos f + 16) 4 (u_data f')) = w_blocks super mod 2 ^ 32 ∧
    be_combine (sub (u_pos f + 16) 4 (u_data f')) < w_blocks super.
Proof.
  intros Hp Hp0 Hl Hlim Hb. eexists. split; [by apply free_list_ok|].
  cbn [set_data u_data].
  assert (be_combine (sub (u_pos f + 16) 4
    (splice (u_pos f) (mkfs_free_bytes (w_blocks super)) (u_data f))) = w_blocks super mod 2 ^ 32) as ->.
  { rewrite sub_splice_in by slen. replace (u_pos f + 16 - u_pos f) with 16 by lia.
    unfold mkfs_free_bytes. sub_field. rewrite be_combine_split. done. }
  split; [done|]. pose proof (Z.mod_pos_bound (w_blocks super) (2 ^ 32)). lia.
Qed.

(** ** Concrete inputs *)
Definition example_image : ufile := UFile (zeros 2100) 0 512 4096 [].

Lemma mkfs_layout_witness :
  ∃ blocks, mkfs_main (zeros 1024) example_image =
    Ok 0 (set_data (splice 0 (mkfs_bytes 512 blocks) (zeros 2100)) 532
            (say (mkfs_output 512 blocks 2100) example_image)).
Proof.
  destruct (mkfs_layout (zeros 1024) example_image) as (blocks & H & _); [done|eval_side..|].
  exists blocks. exact H.
Defined.

Lemma free_list_truncates_witness :
  ∃ f', free_list (SuperWire SPFS_MAGIC 1 512 0 1 1 0 1 (2 ^ 32 + 5)) (UFile (zeros 1024) 512 512 1024 [])
    = Ok 0 f' ∧ be_combine (sub 528 4 (u_data f')) = 5.
Proof.
  destruct (free_list_truncates (SuperWire SPFS_MAGIC 1 512 0 1 1 0 1 (2 ^ 32 + 5))
    (UFile (zeros 1024) 512 512 1024 [])) as (f' & H1 & H2 & _); [done|eval_side..|].
  exists f'. split; [exact H1|exact H2].
Defined.
