(* ===== verification/Fsck.v ===== *)
(** * fsck.spfs.c

    Reads the super block and the chain of free-list blocks, prints them and reports
    whether it could; the exit status of the program is the result of [fsck_main], what it
    prints is [u_out].  Messages on the standard error are left out. *)
From stdpp Require Import strings.
From S2P Require Import Prelude Spec Mkfs.
#[local] Open Scope Z_scope.

(** The result and [*data]; [ntohl] on a little-endian processor *)
Definition fsck_read_u32 (data : Z) : M ufile (Z * Z) :=
  let len := 4 in
  buf ← fd_read len;
  let res := zlen buf in
  let data := bswap 4 (le_combine (splice 0 buf (le_split 4 data))) in
  mret (len - res, data).

(** A field that must be there: [if (fsck_read_u32(...)) return 1;] *)
Definition read_field (data : Z) : M ufile (option Z) :=
  '(res, data) ← fsck_read_u32 data;
  mret (if bool_decide (res ≠ 0) then None else Some data).

(** The line [print_super] prints *)
Definition super_line (super : spfs_super_block_wire) : string :=
  "super:[magic:" +:+ hex (w_magic super) +:+ ",version:" +:+ dec (w_version super) +:+
  ",block_size:" +:+ dec (w_block_size super) +:+ ",id:" +:+ dec (w_id super) +:+
  ",root_id:" +:+ dec (w_root_id super) +:+ ",btree_of:" +:+ dec (w_btree_offset super) +:+
  ",free_of:" +:+ dec (w_free_list_offset super) +:+ "]" +:+ newline.
Definition print_super (super : spfs_super_block_wire) : M ufile unit := printf (super_line super).

(** The result is [*super], [None] when a read failed. *)
Definition read_super_block (super : spfs_super_block_wire) : M ufile (option spfs_super_block_wire) :=
  off ← fd_lseek_set 0;
  if bool_decide (off < 0) then mret None
  else
    magic ← read_field (w_magic super);
    match magic with None => mret None | Some magic =>
    version ← read_field (w_version super);
    match version with None => mret None | Some version =>
    block_size ← read_field (w_block_size super);
    match block_size with None => mret None | Some block_size =>
    id ← read_field (w_id super);
    match id with None => mret None | Some id =>
    root_id ← read_field (w_root_id super);
    match root_id with None => mret None | Some root_id =>
    btree_offset ← read_field (w_btree_offset super);
    match btree_offset with None => mret None | Some btree_offset =>
    free_list_offset ← read_field (w_free_list_offset super);
    match free_list_offset with None => mret None | Some free_list_offset =>
    let super := SuperWire magic version block_size (w_dummy super) id root_id btree_offset
                   free_list_offset (w_blocks super) in
    print_super super;;
    mret (Some super)
    end end end end end end end.

Definition fsck_super_block (super : spfs_super_block_wire) : Z :=
  if bool_decide (w_magic super ≠ SPFS_MAGIC) then 1
  else if bool_decide (w_block_size super < 512) then 1
  else if bool_decide (w_block_size super mod 512 ≠ 0) then 1
  else 0.

Definition read_free_list_header : M ufile (option free_list_wire) :=
  magic ← read_field 0;
  match magic with None => mret None | Some magic =>
  entries ← read_field 0;
  match entries with None => mret None | Some entries =>
  next ← read_field 0;
  match next with None => mret None | Some next =>
  mret (Some (FreeListWire magic entries next))
  end end end.

Definition read_free_entry : M ufile (option spfs_free_entry) :=
  start ← read_field 0;
  match start with None => mret None | Some start =>
  blocks ← read_field 0;
  match blocks with None => mret None | Some blocks =>
  mret (Some (FreeEntry start blocks))
  end end.

Definition free_header_line (header : free_list_wire) : string :=
  "free_list:[magic:" +:+ hex (flw_magic header) +:+ ",entries:" +:+ dec (flw_entries header) +:+
  ",next:" +:+ dec (flw_next header) +:+ "]" +:+ newline.
Definition print_free_header (header : free_list_wire) : M ufile unit := printf (free_header_line header).

Definition free_entry_line (entry : spfs_free_entry) : string :=
  tab +:+ "- [start:" +:+ dec (fent_start entry) +:+ ",blocks:" +:+ dec (fent_blocks entry) +:+ "]" +:+ newline.
Definition print_free_entry (entry : spfs_free_entry) : M ufile unit := printf (free_entry_line entry).

Fixpoint fsck_entries (n : nat) : M ufile Z :=
  match n with
  | O => mret 0
  | S n =>
      entry ← read_free_entry;
      match entry with
      | None => mret 1
      | Some entry => print_free_entry entry;; fsck_entries n
      end
  end.

(** The [do ... while (free_list)]: the byte position is computed in 32 bits. *)
Fixpoint fsck_free_list_loop (fuel : nat) (super : spfs_super_block_wire) (free_list : Z) :
    M ufile Z :=
  match fuel with
  | O => crashes NoFuel
  | S fuel =>
      let pos := u32 (free_list * w_block_size super) in
      off ← fd_lseek_set pos;
      if bool_decide (off < 0) then mret 1
      else
        header ← read_free_list_header;
        match header with
        | None => mret 1
        | Some header =>
            if bool_decide (flw_magic header ≠ SPFS_MAGIC) then mret 1
            else
              print_free_header header;;
              res ← fsck_entries (Z.to_nat (flw_entries header));
              if bool_decide (res ≠ 0) then mret 1
              else if bool_decide (flw_next header ≠ 0)
              then fsck_free_list_loop fuel super (flw_next header)
              else mret 0
        end
  end.

Definition fsck_free_list (fuel : nat) (super : spfs_super_block_wire) : M ufile Z :=
  fsck_free_list_loop fuel super (w_free_list_offset super).

(** [main] on an open device; [super0] is the uninitialised stack variable. *)
Definition fsck_main (fuel : nat) (super0 : spfs_super_block_wire) : M ufile Z :=
  super ← read_super_block super0;
  match super with
  | None => mret 1
  | Some super =>
      if bool_decide (fsck_super_block super ≠ 0) then mret 1
      else
        res ← fsck_free_list fuel super;
        if bool_decide (res ≠ 0) then mret 1 else mret 0
  end.

(** ** What fsck does not do *)
(** No function of the program writes, or reports a failure other than by its result. *)
Abbreviation reads m := (steps (same u_data) false m).

Lemma fd_read_reads n : reads (fd_read n).
Proof. by intros f. Qed.
Lemma fd_lseek_reads off : reads (fd_lseek_set off).
Proof. intros f. unfold fd_lseek_set. by case_bool_decide. Qed.
Lemma printf_reads l : reads (printf l).
Proof. by intros f. Qed.
Lemma print_super_reads super : reads (print_super super).
Proof. apply printf_reads. Qed.
Lemma print_header_reads header : reads (print_free_header header).
Proof. apply printf_reads. Qed.
Lemma print_entry_reads entry : reads (print_free_entry entry).
Proof. apply printf_reads. Qed.
#[export] Hint Resolve fd_read_reads fd_lseek_reads print_super_reads print_header_reads print_entry_reads : steps.

Lemma read_field_reads data : reads (read_field data).
Proof. unfold read_field, fsck_read_u32. steps_tac. Qed.
#[export] Hint Resolve read_field_reads : steps.

Lemma read_free_entry_reads : reads read_free_entry.
Proof. unfold read_free_entry. steps_tac. Qed.
Lemma read_free_list_header_reads : reads read_free_list_header.
Proof. unfold read_free_list_header. steps_tac. Qed.
Lemma read_super_block_reads super : reads (read_super_block super).
Proof. unfold read_super_block. steps_tac. Qed.
#[export] Hint Resolve read_free_entry_reads read_free_list_header_reads read_super_block_reads : steps.

Lemma fsck_entries_reads n : reads (fsck_entries n).
Proof. induction n; cbn [fsck_entries]; steps_tac. Qed.
#[export] Hint Resolve fsck_entries_reads : steps.

Lemma fsck_free_list_reads fuel super : ∀ fl, reads (fsck_free_list_loop fuel super fl).
Proof. induction fuel; intros fl; cbn [fsck_free_list_loop]; steps_tac. Qed.
#[export] Hint Resolve fsck_free_list_reads : steps.

Lemma fsck_main_reads fuel super0 : reads (fsck_main fuel super0).
Proof. unfold fsck_main, fsck_free_list. steps_tac. Qed.

(** ** Reading fields *)
Lemma read_field_ok data f :
  0 ≤ u_pos f → u_pos f + 4 ≤ zlen (u_data f) →
  read_field data f =
    Ok (Some (be_combine (sub (u_pos f) 4 (u_data f)))) (set_data (u_data f) (u_pos f + 4) f).
Proof.
  intros Hp Hl. unfold read_field, fsck_read_u32, fd_read.
  assert (Z.max 0 (Z.min 4 (zlen (u_data f) - u_pos f)) = 4) as H4 by lia.
  erewrite bind_ok; [|erewrite bind_ok by reflexivity; reflexivity]. rewrite H4.
  cbv beta iota. rewrite zlen_sub by lia. cbn [Z.sub]. rewrite splice_all by (rewrite zlen_sub; [done|lia..]).
  rewrite bswap_combine; [done|]. apply Nat2Z.inj. apply zlen_sub; lia.
Qed.

(** The fields at the current offset *)
Ltac read_fields :=
  repeat (erewrite bind_ok by (apply read_field_ok; unfold set_data; cbn [u_data u_pos]; lia);
          cbv beta iota; cbn [set_data u_data u_pos]).

(** The super block at the start of [d], without the fields that are not read *)
Definition wire_super (dummy blocks : Z) (d : list byte) : spfs_super_block_wire :=
  SuperWire (be_combine (sub 0 4 d)) (be_combine (sub 4 4 d)) (be_combine (sub 8 4 d)) dummy
    (be_combine (sub 12 4 d)) (be_combine (sub 16 4 d)) (be_combine (sub 20 4 d))
    (be_combine (sub 24 4 d)) blocks.

Lemma read_super_block_ok super f :
  28 ≤ zlen (u_data f) →
  let d := u_data f in
  read_super_block super f =
    Ok (Some (wire_super (w_dummy super) (w_blocks super) d))
       (set_data d 28 (say [super_line (wire_super (w_dummy super) (w_blocks super) d)] f)).
Proof.
  intros Hl d. unfold read_super_block. erewrite bind_ok by done. decide_if. read_fields.
  unfold print_super. by erewrite bind_ok by done.
Qed.

Lemma read_header_ok f :
  0 ≤ u_pos f → u_pos f + 12 ≤ zlen (u_data f) →
  read_free_list_header f =
    Ok (Some (FreeListWire (be_combine (sub (u_pos f) 4 (u_data f)))
                (be_combine (sub (u_pos f + 4) 4 (u_data f)))
                (be_combine (sub (u_pos f + 8) 4 (u_data f)))))
       (set_data (u_data f) (u_pos f + 12) f).
Proof.
  intros. unfold read_free_list_header. read_fields. unfold mret, M_ret, set_data.
  cbn [u_blksize u_limit u_out]. by rewrite <-!Z.add_assoc.
Qed.

(** The entry of a free-list block at a position, and the lines of [n] entries *)
Definition entry_in (d : list byte) (pos : Z) : spfs_free_entry :=
  FreeEntry (be_combine (sub pos 4 d)) (be_combine (sub (pos + 4) 4 d)).
Definition entry_lines (d : list byte) (pos : Z) (n : nat) : list string :=
  (λ i : nat, free_entry_line (entry_in d (pos + 8 * Z.of_nat i))) <$> seq 0 n.

Lemma entry_lines_S d pos n :
  entry_lines d pos (S n) = free_entry_line (entry_in d pos) :: entry_lines d (pos + 8) n.
Proof.
  unfold entry_lines. cbn [seq fmap list_fmap]. rewrite Z.mul_0_r, Z.add_0_r. f_equal.
  rewrite <-seq_shift, <-list_fmap_compose. apply list_fmap_ext. intros i x _. cbn.
  do 2 f_equal. lia.
Qed.

Lemma fsck_entries_ok n f :
  0 ≤ u_pos f → u_pos f + 8 * Z.of_nat n ≤ zlen (u_data f) →
  fsck_entries n f =
    Ok 0 (set_data (u_data f) (u_pos f + 8 * Z.of_nat n) (say (entry_lines (u_data f) (u_pos f) n) f)).
Proof.
  revert f. induction n as [|n IH]; intros f Hp Hl; cbn [fsck_entries].
  - rewrite Z.mul_0_r, Z.add_0_r. unfold entry_lines, say, set_data. cbn. rewrite app_nil_r. by destruct f.
  - erewrite bind_ok; cycle 1.
    { unfold read_free_entry. read_fields. reflexivity. }
    unfold print_free_entry. erewrite bind_ok by done.
    rewrite IH; unfold set_data, say; cbn [u_data u_pos]; [|lia..].
    cbn [u_blksize u_limit u_out]. rewrite entry_lines_S, <-app_assoc, <-!Z.add_assoc. do 2 f_equal. lia.
Qed.

(** ** The whole check *)
Lemma be32_value v : 0 ≤ v → v < 2 ^ 32 → be_combine (be_split 4 v) = v.
Proof. intros. rewrite be_combine_split. by apply Z.mod_small. Qed.

(** What is printed of the free-list block at a position *)
Definition block_lines (d : list byte) (pos : Z) : list string :=
  let entries := be_combine (sub (pos + 4) 4 d) in
  free_header_line (FreeListWire (be_combine (sub pos 4 d)) entries (be_combine (sub (pos + 8) 4 d))) ::
  entry_lines d (pos + 12) (Z.to_nat entries).

(** One round of the loop, on a header that can be read *)
Lemma fsck_round fuel super fl f :
  let pos := u32 (fl * w_block_size super) in
  let d := u_data f in
  let entries := be_combine (sub (pos + 4) 4 d) in
  let next := be_combine (sub (pos + 8) 4 d) in
  be_combine (sub pos 4 d) = SPFS_MAGIC → pos + 12 + 8 * entries ≤ zlen d →
  fsck_free_list_loop (S fuel) super fl f =
    (if bool_decide (next ≠ 0) then fsck_free_list_loop fuel super next else mret 0)
      (set_data d (pos + 12 + 8 * entries) (say (block_lines d pos) f)).
Proof.
  intros pos d entries next Hm Hl. pose proof (u32_range (fl * w_block_size super)) as Hp. fold pos in Hp.
  pose proof (be_combine_range (sub (pos + 4) 4 d)) as [He _]. fold entries in He.
  cbn [fsck_free_list_loop]. fold pos.
  assert (E1 : fd_lseek_set pos f = Ok pos (set_data d pos f)) by (unfold fd_lseek_set; by decide_if).
  exec E1. decide_if.
  pose proof (read_header_ok (set_data d pos f) ltac:(cbn; lia) ltac:(cbn [set_data u_data u_pos]; lia))
    as E2. cbn [set_data u_data u_pos] in E2. exec E2. cbn [flw_magic flw_entries flw_next].
  fold entries next. unfold block_lines. rewrite Hm. rewrite bool_decide_eq_false_2 by (intros Hn; by apply Hn).
  fold entries next. unfold print_free_header. erewrite bind_ok by done.
  erewrite bind_ok; cycle 1.
  { apply fsck_entries_ok; cbn [set_data say u_data u_pos]; rewrite ?Z2Nat.id by lia; lia. }
  rewrite bool_decide_eq_false_2 by (intros Hn; by apply Hn).
  unfold set_data, say. cbn [u_data u_pos u_blksize u_limit u_out]. rewrite <-app_assoc, Z2Nat.id by lia.
  by case_bool_decide.
Qed.

Lemma mkfs_block_lines bs blocks data :
  28 ≤ bs → bs + 20 ≤ zlen data →
  block_lines (mkfs_image bs blocks data) bs =
    [free_header_line (FreeListWire SPFS_MAGIC 1 0); free_entry_line (FreeEntry 2 (u32 blocks))].
Proof.
  intros Hbs Hl. destruct (mkfs_free_fields bs blocks data Hbs Hl) as (G0 & G1 & G2 & G3 & G4).
  unfold block_lines. rewrite G0, G1, G2, !be32_value by done. f_equal.
  change (Z.to_nat 1) with 1%nat. rewrite entry_lines_S. unfold entry_in.
  rewrite <-Z.add_assoc, G3. change (12 + 4) with 16. rewrite G4. by rewrite be32_value, be_combine_split by done.
Qed.

(** C21: fsck accepts every file system mkfs makes on blocks that are multiples of 512
    bytes, leaves it as it is, and prints the super block and a free list of one block with
    one entry: the blocks behind the first two, as many as the device has, cut to 32 bits. *)
Theorem mkfs_then_fsck stack f f' fuel super0 g :
  zlen stack = 1024 → u_pos f = 0 → 512 ≤ u_blksize f → u_blksize f < 2 ^ 32 →
  u_blksize f mod 512 = 0 → 3 * u_blksize f ≤ zlen (u_data f) → zlen (u_data f) ≤ u_limit f →
  zlen (u_data f) < 2 ^ 63 →
  mkfs_main stack f = Ok 0 f' → u_data g = u_data f' →
  ∃ g' blocks, fsck_main (S fuel) super0 g = Ok 0 g' ∧ u_data g' = u_data f' ∧
    (2 + blocks) * u_blksize f ≤ zlen (u_data f) < (3 + blocks) * u_blksize f ∧
    u_out g' = u_out g ++
      [super_line (SuperWire SPFS_MAGIC 1 (u_blksize f) (w_dummy super0) 1 1 0 1 (w_blocks super0));
       free_header_line (FreeListWire SPFS_MAGIC 1 0); free_entry_line (FreeEntry 2 (u32 blocks))].
Proof.
  intros Hst Hpos Hbs Hbs' Hmod Hsz Hlim Hsz' E Hg.
  destruct (mkfs_main_ok stack f Hst Hpos ltac:(lia) Hbs' Hsz Hlim Hsz') as (blocks & E' & Hb0 & Hblocks).
  rewrite E in E'. injection E' as ->. cbn [set_data u_data] in *. clear E.
  set (bs := u_blksize f) in *. fold (mkfs_image bs blocks (u_data f)) in *.
  destruct (mkfs_super_fields bs blocks (u_data f)) as (Hz & F0 & F1 & F2 & F3 & F4 & F5 & F6); [lia..|].
  destruct (mkfs_free_fields bs blocks (u_data f)) as (G0 & G1 & G2 & _); [lia..|].
  pose proof (mkfs_block_lines bs blocks (u_data f) ltac:(lia) ltac:(lia)) as Hlines.
  set (d := mkfs_image bs blocks (u_data f)) in *.
  unfold fsck_main. erewrite bind_ok by (apply read_super_block_ok; rewrite Hg; lia).
  rewrite Hg. unfold wire_super. rewrite F0, F1, F2, F3, F4, F5, F6.
  rewrite !be32_value by (done || lia). set (super := SuperWire _ _ _ _ _ _ _ _ _).
  assert (fsck_super_block super = 0) as ->.
  { unfold fsck_super_block. cbn [w_magic w_block_size super].
    rewrite bool_decide_eq_false_2 by (intros Hn; by apply Hn).
    rewrite bool_decide_eq_false_2 by lia. by rewrite Hmod. }
  rewrite bool_decide_eq_false_2 by (intros Hn; by apply Hn).
  unfold fsck_free_list. cbn [w_free_list_offset super].
  set (g1 := set_data d 28 _).
  pose proof (fsck_round fuel super 1 g1) as E1. cbv zeta in E1. change (u_data g1) with d in E1.
  change (w_block_size super) with bs in E1. rewrite Z.mul_1_l, (u32_small bs) in E1 by lia.
  rewrite G0, G1, G2, !be32_value in E1 by (done || lia).
  specialize (E1 eq_refl ltac:(lia)). rewrite bool_decide_eq_false_2 in E1 by (intros Hn; by apply Hn).
  erewrite bind_ok by (exact E1). eexists _, blocks. split; [reflexivity|]. split_and!; [done|lia..|].
  cbn [set_data say u_out g1]. rewrite <-app_assoc, Hlines. done.
Qed.

(** Fsck does not end on a free-list block that names itself as the next one: no
    number of rounds is enough.  The position of a block is computed in 32 bits, so
    that a block far enough away is looked for near the start of the device. *)
Theorem fsck_diverges fuel super fl f :
  let pos := u32 (fl * w_block_size super) in
  let d := u_data f in
  fl ≠ 0 → be_combine (sub pos 4 d) = SPFS_MAGIC → be_combine (sub (pos + 8) 4 d) = fl →
  pos + 12 + 8 * be_combine (sub (pos + 4) 4 d) ≤ zlen d →
  fsck_free_list_loop fuel super fl f = Crash NoFuel.
Proof.
  intros pos d Hfl Hm Hnext Hl. revert f d Hm Hnext Hl.
  induction fuel as [|fuel IH]; intros f d Hm Hnext Hl; [done|].
  rewrite fsck_round by done. fold pos d. rewrite Hnext. rewrite bool_decide_eq_true_2 by done.
  by apply IH.
Qed.

(** Fsck never changes the device, whatever is on it and however it ends: it only
    ever reads, and reports every failure by its exit status. *)
Theorem fsck_read_only fuel super0 f :
  match fsck_main fuel super0 f with
  | Ok _ f' => u_data f' = u_data f
  | Err _ _ => False
  | Crash _ => True
  end.
Proof.
  pose proof (fsck_main_reads fuel super0 f) as H. destruct (fsck_main fuel super0 f); [done| |done].
  by destruct H.
Qed.

(** ** Concrete inputs *)
Definition example_super : spfs_super_block_wire := SuperWire 0 0 0 0 0 0 0 0 0.

Lemma mkfs_then_fsck_witness :
  ∃ f' g', mkfs_main (zeros 1024) example_image = Ok 0 f' ∧
    fsck_main 1 example_super (set_data (u_data f') 0 f') = Ok 0 g'.
Proof.
  destruct (mkfs_main_ok (zeros 1024) example_image) as (blocks & E & _); [done|eval_side..|].
  set (f' := set_data _ _ _) in E.
  destruct (mkfs_then_fsck (zeros 1024) example_image f' 0 example_super (set_data (u_data f') 0 f'))
    as (g' & n & H & _); [done|eval_side..|exact E|done|].
  exists f', g'. split; [exact E|exact H].
Defined.

(** Block 2^23 of 512 bytes is looked for at the start of the device. *)
Definition cyclic_file : ufile :=
  UFile (be_split 4 SPFS_MAGIC ++ be_split 4 0 ++ be_split 4 (2 ^ 23) ++ zeros 500) 0 512 512 [].

Lemma fsck_diverges_witness :
  fsck_free_list_loop 1000 (SuperWire SPFS_MAGIC 1 512 0 1 1 0 (2 ^ 23) 0) (2 ^ 23) cyclic_file =
    Crash NoFuel.
Proof. apply fsck_diverges; eval_side. Defined.
