(* ===== verification/Mount.v ===== *)
(** * sp.c, mounting: [spfs_set_blocksize] and [spfs_fill_super_block]

    Setting the block size of a device is kernel code: it enters as the class
    [BlockDevice], which also names the bytes behind the buffer cache. *)
From S2P Require Import Prelude Util Buffers FreeList Inode Bnode Btree Super Vfs Mkfs.

Class BlockDevice (D : Type) {B : BufferCache D} := {
  bd_bytes : D → list byte;
  (** [sb_set_blocksize]: [None] when it returns 0 *)
  bd_set_blocksize : D → Z → option D;
}.

Class BlockDeviceLaws (D : Type) {B : BufferCache D} {BD : BlockDevice D} : Prop := {
  bd_data : ∀ d n, 0 ≤ n → 0 < bc_bsize d → (n + 1) * bc_bsize d ≤ zlen (bd_bytes d) →
    bc_data d n = Some (sub (n * bc_bsize d) (bc_bsize d) (bd_bytes d));
  bd_set_bytes : ∀ d sz d', bd_set_blocksize d sz = Some d' → bd_bytes d' = bd_bytes d;
  bd_set_bsize : ∀ d sz d', bd_set_blocksize d sz = Some d' → bc_bsize d' = sz;
}.

Section mount.
Context {D K : Type} {B : BufferCache D} {BD : BlockDevice D} {KK : Kernel K}.
Abbreviation VM := (M (vfs_st D K)).

Definition v_free_lens : lens (vfs_st D K) (bufs D * spfs_free_list) :=
  Lens (λ s, (t_bufs (v_fs s), t_free (v_fs s)))
       (λ p s, lset v_fs_lens (BtreeSt p.1 p.2 (t_tree (v_fs s))) s).

Definition spfs_set_blocksize (is_bdev : bool) (block_size : Z) : M (bufs D) unit :=
  if is_bdev then
    s ← get;
    match bd_set_blocksize (b_dev s) block_size with
    | None => err (-EINVAL)
    | Some d => put (Bufs d (b_refs s))
    end
  else mret tt.

(** What the calling process and [kzalloc] are like *)
Record mount_env := MountEnv {
  me_env : env;
  me_bdev : bool;
  me_sbi_mem : bool;
  me_node_mem : nat → bool;
  me_fsuid : Z;
  me_fsgid : Z;
}.

Definition set_root_id (n : Z) (s : spfs_super_block) : spfs_super_block :=
  SuperBlock (sb_version s) (sb_magic s) (sb_block_size s) (sb_btree_offset s)
    (sb_free_list_offset s) (sb_id s) (sb_id_lock s) n.

(** [spfs_fill_super_block] from [root = spfs_inode_by_id(...)] on; the result is
    [sb->s_root], the root inode's number. *)
Definition mount_root (e : mount_env) (root_id : Z) : VM Z :=
  root ← spfs_inode_by_id (me_env e) root_id;
  n ← (match root with
       | PErr res => err res
       | PInode n => mret n
       | PNull =>
           let mode := 0x4000 + 0x1FF in
           root ← spfs_new_inode None mode;
           match root with
           | PErr res => err res
           | PNull => crashes NullDeref
           | PInode n =>
               i ← get_inode n;
               zoom v_sbi_lens (modify (set_root_id (i_ino (i_inode i))));;
               mret n
           end
       end);
  upd_inode n (λ i, set_inode (set_owner (me_fsuid e) (me_fsgid e) (i_inode i)) i);;
  mret n.

Definition spfs_fill_super_block (e : mount_env) : VM Z :=
  let super_start := 0 in
  if negb (me_sbi_mem e) then err (-ENOMEM)
  else
    zoom v_sbi_lens (put (SuperBlock 0 0 0 0 0 0 false 0));;
    zoom v_bufs_lens (spfs_set_blocksize (me_bdev e) SPOOKY_FS_INITIAL_BLOCK_SIZE);;
    super ← zoom v_bufs_lens (spfs_super_block_init super_start);
    zoom v_sbi_lens (put super);;
    zoom v_bufs_lens (spfs_set_blocksize (me_bdev e) (sb_block_size super));;
    zoom v_fs_lens (zoom t_tree_lens
      (put (spfs_btree_init (sb_block_size super) (sb_btree_offset super))));;
    zoom v_free_lens (spfs_free_init (me_node_mem e) (e_fuel (me_env e)) (sb_free_list_offset super));;
    mount_root e (sb_root_id super).

(** [mount_bdev] finds the device and runs its last argument on a new super block. *)
Definition spfs_mount {S} (mount_bdev : VM Z → S) (e : mount_env) : S :=
  mount_bdev (spfs_fill_super_block e).
End mount.

(** ** Mounting what mkfs made *)
Section fresh.
Context {D K : Type} {B : BufferCache D} {BD : BlockDevice D} {BDL : BlockDeviceLaws D}
  {KK : Kernel K} {KL : KernelLaws K}.
Implicit Types (s : vfs_st D K).

(** The super block mkfs writes, as the driver reads it *)
Definition new_super (bs : Z) : spfs_super_block := SuperBlock 1 SPFS_MAGIC bs 0 1 1 false 1.

Lemma be32_of_field v : 0 ≤ v → v < 2 ^ 32 → be_combine (be_split 4 v) = v.
Proof using. intros. rewrite be_combine_split. by apply Z.mod_small. Qed.

Lemma super_of_image bs blocks data n :
  28 ≤ bs → bs < 2 ^ 32 → bs + 20 ≤ zlen data → 28 ≤ n → n ≤ zlen data →
  super_of_block (sub 0 n (mkfs_image bs blocks data)) = new_super bs.
Proof using.
  intros Hbs Hbs' Hl Hn Hn'.
  destruct (mkfs_super_fields bs blocks data Hbs Hl) as (Hz & F0 & F1 & F2 & F3 & F4 & F5 & F6).
  unfold super_of_block. rewrite !sub_sub by lia. rewrite !Z.add_0_l, F0, F1, F2, F3, F4, F5, F6.
  rewrite !be32_of_field by (done || lia). done.
Qed.

Lemma free_list_of_image bs blocks data :
  28 ≤ bs → 0 ≤ blocks → blocks < 2 ^ 32 → 2 * bs ≤ zlen data →
  fl_block (sub bs bs (mkfs_image bs blocks data)) [FreeNode 2 blocks] 0.
Proof using.
  intros Hbs Hb Hb' Hl.
  destruct (mkfs_super_fields bs blocks data Hbs ltac:(lia)) as (Hz & _).
  destruct (mkfs_free_fields bs blocks data Hbs ltac:(lia)) as (G0 & G1 & G2 & G3 & G4).
  set (d := mkfs_image bs blocks data) in *. unfold fl_block, entry_at.
  rewrite !zlen_sub by lia. rewrite !sub_sub by lia. rewrite Z.add_0_r, G0, G1, G2.
  change (zlen [FreeNode 2 blocks]) with 1. split_and!; try (by apply be32_of_field); try lia.
  intros [|i] m Hi; [|done]. injection Hi as <-. cbn [fn_start fn_blocks].
  rewrite !sub_sub by lia. change (12 + 8 * Z.of_nat 0) with 12.
  rewrite G3. replace (bs + (12 + 4)) with (bs + 16) by lia. rewrite G4.
  by rewrite !be32_of_field by (done || lia).
Qed.

Lemma zoom_bufs_ok {A} (m : M (bufs D) A) s a b :
  m (t_bufs (v_fs s)) = Ok a b → zoom v_bufs_lens m s = Ok a (lset v_bufs_lens b s).
Proof using. intros H. by apply zoom_ok. Qed.

Lemma set_blocksize_err sz (d : D) r :
  bd_set_blocksize d sz = None → spfs_set_blocksize true sz (Bufs d r) = Err (-EINVAL) (Bufs d r).
Proof using. intros H. unfold spfs_set_blocksize. erewrite bind_ok by done. cbn [b_dev]. by rewrite H. Qed.

Lemma set_blocksize_ok sz (d d' : D) r :
  bd_set_blocksize d sz = Some d' → spfs_set_blocksize true sz (Bufs d r) = Ok tt (Bufs d' r).
Proof using. intros H. unfold spfs_set_blocksize. erewrite bind_ok by done. cbn. by rewrite H. Qed.

(** The root directory a mount makes: the blank inode of [k2] as a directory with number 1
    that belongs to the user *)
Definition root_inode (e : mount_env) (k2 : K) (i : spfs_inode) : Prop :=
  i_ino (i_inode i) = 1 ∧ i_uid (i_inode i) = me_fsuid e ∧ i_gid (i_inode i) = me_fsgid e ∧
  S_ISDIR (i_mode (i_inode i)) = true ∧
  si_lock i = si_lock (k_inode k2 1) ∧ si_start i = si_start (k_inode k2 1).

(** The root directory of a file system whose tree is empty: a new inode *)
Lemma mount_root_new e bufs fl bs cache fops k1 k2 fuel frame cur0 :
  me_env e = Env (S (S fuel)) frame cur0 →
  k_cached cache 1 = false → k_iget_locked cache 1 = Some (true, k1) →
  k_iget_locked (k_iget_failed k1 1) 1 = Some (true, k2) →
  ∃ k' i, mount_root e 1 (VfsSt (BtreeSt bufs fl (Btree false bs 1 0)) (new_super bs) cache fops) =
      Ok 1 (VfsSt (BtreeSt bufs fl (Btree false bs 1 0)) (set_id 2 (new_super bs)) k'
              (<[1 := spfs_dir_ops]> fops)) ∧
    cache_upd cache 1 i k' ∧ root_inode e k2 i.
Proof using KL.
  intros He Hc Hk1 Hk2. set (t := Btree false bs 1 0).
  set (s := VfsSt _ _ _ _). unfold mount_root. rewrite He.
  erewrite bind_ok by (eapply (inode_by_id_barren fuel frame cur0 1 s k1); [done|done|by left|done]).
  set (s1 := lset v_cache_lens _ s). cbv beta iota.
  assert (Hc1 : k_cached (v_cache s1) 1 = false) by apply k_cached_failed.
  destruct (cache_upd_miss _ _ _ _ Hc1 Hk2) as (_ & _ & Hino).
  destruct (spfs_new_inode_ok None (0x4000 + 0x1FF) s1 1 k2) as (k' & now & E & Hupd); [done..|].
  erewrite bind_ok; cycle 1.
  { exec E. erewrite bind_ok by done. erewrite bind_ok by done. reflexivity. }
  cbn [lset lget v_sbi_lens v_fs v_sbi v_cache v_fops].
  rewrite (proj1 Hupd), fresh_inode_ino, Hino.
  erewrite bind_ok by done. cbn [lset lget v_cache_lens v_fs v_sbi v_cache v_fops].
  apply (cache_upd_set _ _ _ _ (λ i, set_inode (set_owner (me_fsuid e) (me_fsgid e) (i_inode i)) i)) in Hupd.
  eexists _, _. split; [reflexivity|]. split.
  - destruct Hupd as (Hi & Hci & Hoth). split_and!; [exact Hi|exact Hci|].
    intros m Hm. destruct (Hoth m Hm) as [-> ->]. cbn [v_cache lset v_cache_lens s1 s].
    destruct (k_inode_failed_ne k1 1 m (not_eq_sym Hm)) as [-> ->].
    destruct (k_iget_miss _ _ _ _ Hc Hk1) as (_ & _ & _ & Ho). by apply Ho.
  - unfold root_inode. cbn [set_inode i_inode set_owner i_ino i_uid i_gid i_mode si_lock si_start].
    cbn [fmap option_fmap option_map].
    destruct (fresh_inode_rest k2 now None (0x4000 + 0x1FF) (k_inode k2 1)) as (-> & -> & -> & _).
    by rewrite fresh_inode_ino.
Qed.

(** ** Why a mount is refused, and the error code for it *)
Inductive mount_refusal (e : mount_env) (d0 : D) : Z → Prop :=
| refuse_memory : me_sbi_mem e = false → mount_refusal e d0 (-ENOMEM)
| refuse_initial_size :
    me_sbi_mem e = true → bd_set_blocksize d0 SPOOKY_FS_INITIAL_BLOCK_SIZE = None →
    mount_refusal e d0 (-EINVAL)
| refuse_unreadable d1 :
    me_sbi_mem e = true → bd_set_blocksize d0 SPOOKY_FS_INITIAL_BLOCK_SIZE = Some d1 →
    bc_data d1 0 = None → mount_refusal e d0 (-EIO)
| refuse_super d1 b :
    me_sbi_mem e = true → bd_set_blocksize d0 SPOOKY_FS_INITIAL_BLOCK_SIZE = Some d1 →
    bc_data d1 0 = Some b → 32 ≤ zlen b →
    be_combine (sub 0 4 b) ≠ SPFS_MAGIC ∨ be_combine (sub 8 4 b) < SPOOKY_FS_INITIAL_BLOCK_SIZE →
    mount_refusal e d0 (-EINVAL)
| refuse_size d1 b :
    me_sbi_mem e = true → bd_set_blocksize d0 SPOOKY_FS_INITIAL_BLOCK_SIZE = Some d1 →
    bc_data d1 0 = Some b → 32 ≤ zlen b → good_super b →
    bd_set_blocksize d1 (be_combine (sub 8 4 b)) = None → mount_refusal e d0 (-EINVAL)
| refuse_free_list d1 b d2 :
    (0 < e_fuel (me_env e))%nat → me_sbi_mem e = true → bd_set_blocksize d0 SPOOKY_FS_INITIAL_BLOCK_SIZE = Some d1 →
    bc_data d1 0 = Some b → 32 ≤ zlen b → good_super b →
    bd_set_blocksize d1 (be_combine (sub 8 4 b)) = Some d2 →
    be_combine (sub 24 4 b) ≠ 0 → bc_data d2 (be_combine (sub 24 4 b)) = None →
    mount_refusal e d0 1.

(** A mount that was refused has left no trace but in what is freed with it. *)
Definition mount_untouched s s' : Prop :=
  b_refs (t_bufs (v_fs s')) = b_refs (t_bufs (v_fs s)) ∧
  bd_bytes (b_dev (t_bufs (v_fs s'))) = bd_bytes (b_dev (t_bufs (v_fs s))) ∧
  v_cache s' = v_cache s ∧ v_fops s' = v_fops s.

(** The mount up to the block size the super block asks for *)
Definition mount_rest (e : mount_env) (super : spfs_super_block) : M (vfs_st D K) Z :=
  zoom v_sbi_lens (put super);;
  zoom v_bufs_lens (spfs_set_blocksize (me_bdev e) (sb_block_size super));;
  zoom v_fs_lens (zoom t_tree_lens
    (put (spfs_btree_init (sb_block_size super) (sb_btree_offset super))));;
  zoom v_free_lens (spfs_free_init (me_node_mem e) (e_fuel (me_env e)) (sb_free_list_offset super));;
  mount_root e (sb_root_id super).

Lemma fill_super_start e (d0 d1 : D) r s :
  me_sbi_mem e = true → me_bdev e = true → t_bufs (v_fs s) = Bufs d0 r →
  bd_set_blocksize d0 SPOOKY_FS_INITIAL_BLOCK_SIZE = Some d1 →
  spfs_fill_super_block e s =
    (super ← zoom v_bufs_lens (spfs_super_block_init 0); mount_rest e super)
      (lset v_bufs_lens (Bufs d1 r) (lset v_sbi_lens (SuperBlock 0 0 0 0 0 0 false 0) s)).
Proof using.
  intros Hm Hbd Hs Hd1. destruct s as [[bufs fl t] sbi cache fops]. cbn [v_fs t_bufs] in *. subst bufs.
  unfold spfs_fill_super_block, mount_rest. rewrite Hm, Hbd. cbn [negb]. erewrite bind_ok by done.
  by erewrite bind_ok by (apply zoom_bufs_ok, set_blocksize_ok; exact Hd1).
Qed.

Lemma super_init_ok b (d1 : D) r s :
  bc_data d1 0 = Some b → 32 ≤ zlen b → t_bufs (v_fs s) = Bufs d1 r → good_super b →
  zoom v_bufs_lens (spfs_super_block_init 0) s = Ok (super_of_block b) s.
Proof using.
  intros Hb Hl Hs Hg. destruct s as [[bufs fl t] sbi cache fops]. cbn [v_fs t_bufs] in *. subst bufs.
  rewrite (zoom_bufs_ok _ _ (super_of_block b) (Bufs d1 r)); [reflexivity|]. cbn [v_fs t_bufs].
  by rewrite (spfs_super_block_init_eq 0 (Bufs d1 r) b Hb Hl), bool_decide_eq_true_2 by done.
Qed.

Lemma mount_refusal_runs e (d0 : D) r res s :
  me_bdev e = true → t_bufs (v_fs s) = Bufs d0 r → mount_refusal e d0 res →
  ∃ s', spfs_fill_super_block e s = Err res s' ∧ mount_untouched s s'.
Proof using BDL.
  intros Hbd Hs Href. unfold mount_untouched. rewrite Hs. cbn [b_refs b_dev].
  destruct Href as [Hm|Hm Hd1|d1 Hm Hd1 Hb|d1 b Hm Hd1 Hb Hl Hbad|d1 b Hm Hd1 Hb Hl Hg Hd2
    |d1 b d2 Hfuel Hm Hd1 Hb Hl Hg Hd2 Hh Hf];
    try (pose proof (bd_set_bytes _ _ _ Hd1) as Hy1);
    try rewrite (fill_super_start e d0 d1 r s Hm Hbd Hs Hd1); try set (s1 := lset v_bufs_lens _ _).
  - eexists. unfold spfs_fill_super_block. rewrite Hm. split; [reflexivity|]. by rewrite Hs.
  - destruct s as [[bufs fl t] sbi cache fops]. cbn [v_fs t_bufs] in *. subst bufs.
    unfold spfs_fill_super_block. rewrite Hm, Hbd. cbn [negb]. erewrite bind_ok by done.
    eexists. split; [apply bind_err, (zoom_err _ _ _ _ (Bufs d0 r))|by split_and!].
    by apply set_blocksize_err.
  - eexists. split; [apply bind_err, (zoom_err _ _ _ _ (Bufs d1 r))|by split_and!].
    unfold spfs_super_block_init. by erewrite bind_ok by (by apply sb_bread_null).
  - eexists. split; [apply bind_err, (zoom_err _ _ _ _ (Bufs d1 r))|by split_and!].
    change (lget v_bufs_lens s1) with (Bufs d1 r). rewrite (spfs_super_block_init_eq 0 (Bufs d1 r) b Hb Hl), bool_decide_eq_false_2; [done|].
    intros [Hmagic Hsize]. destruct Hbad as [?|Hbad]; [done|]. unfold super_of_block in Hsize.
    cbn [sb_block_size] in Hsize. lia.
  - rewrite (bind_ok _ _ _ _ _ (super_init_ok b d1 r s1 Hb Hl eq_refl Hg)). unfold mount_rest.
    erewrite bind_ok by done.
    eexists. split; [apply bind_err, (zoom_err _ _ _ _ (Bufs d1 r))|by split_and!].
    rewrite Hbd. by apply set_blocksize_err.
  - rewrite (bind_ok _ _ _ _ _ (super_init_ok b d1 r s1 Hb Hl eq_refl Hg)). unfold mount_rest.
    pose proof (bd_set_bytes _ _ _ Hd2) as Hy2. erewrite bind_ok by done.
    erewrite bind_ok by (apply zoom_bufs_ok; rewrite Hbd; apply set_blocksize_ok; exact Hd2).
    destruct (e_fuel (me_env e)) as [|fuel]; [lia|]. erewrite bind_ok by done.
    eexists. split; [apply bind_err, (zoom_err _ _ _ _ (Bufs d2 r, FreeList false 0 []))
                    |split_and!; cbn; try done; by rewrite Hy2, Hy1].
    unfold spfs_free_init. erewrite bind_ok by done. cbn [free_init_chain].
    rewrite bool_decide_eq_false_2 by exact Hh.
    by erewrite bind_ok by (apply zoom_ok, sb_bread_null; exact Hf).
Qed.

(** The state a mount of a new file system with [blocks] data blocks ends in *)
Definition mounted (d : D) (r bs blocks : Z) (k : K) s : vfs_st D K :=
  VfsSt (BtreeSt (Bufs d r) (FreeList false blocks [FreeNode 2 blocks]) (Btree false bs 1 0))
    (set_id 2 (new_super bs)) k (<[1 := spfs_dir_ops]> (v_fops s)).

(** A device with the bytes mkfs leaves, which takes the block sizes of the mount *)
Record new_device (bs blocks : Z) (data : list byte) (d0 d1 d2 : D) : Prop := {
  nd_bs : 512 ≤ bs;
  nd_bs_max : bs < 2 ^ 32;
  nd_blocks : 0 < blocks;
  nd_blocks_max : 2 + blocks < 2 ^ 32;
  nd_fits : (2 + blocks) * bs ≤ zlen data;
  nd_bytes : bd_bytes d0 = mkfs_image bs blocks data;
  nd_set_512 : bd_set_blocksize d0 512 = Some d1;
  nd_set_bs : bd_set_blocksize d1 bs = Some d2;
}.

(** The blocks of such a device, with either block size *)
Lemma new_device_data bs blocks data d0 d1 d2 :
  new_device bs blocks data d0 d1 d2 →
  bc_data d1 0 = Some (sub 0 512 (mkfs_image bs blocks data)) ∧
  bc_bsize d2 = bs ∧
  ∀ m, 0 ≤ m → m < 2 + blocks → bc_data d2 m = Some (sub (m * bs) bs (mkfs_image bs blocks data)).
Proof using BDL.
  intros [Hbs Hbs' Hb Hb' Hfit Hbytes Hd1 Hd2].
  destruct (mkfs_super_fields bs blocks data) as (Hz & _); [lia|nia|].
  pose proof (bd_set_bytes _ _ _ Hd1) as Hy1. pose proof (bd_set_bytes _ _ _ Hd2) as Hy2.
  pose proof (bd_set_bsize _ _ _ Hd1) as Hz1. pose proof (bd_set_bsize _ _ _ Hd2) as Hz2.
  rewrite Hbytes in Hy1. rewrite Hy1 in Hy2. split_and!; [|done|].
  - rewrite bd_data; rewrite ?Hz1, ?Hy1; [done|lia|lia|]. rewrite Hz. nia.
  - intros m Hm Hm'. rewrite bd_data; rewrite ?Hz2, ?Hy2; [done|lia|lia|]. rewrite Hz. nia.
Qed.

Lemma mount_new_device bs blocks data (d0 d1 d2 : D) r k1 k2 fuel frame cur0 node_mem fsuid fsgid s :
  let e := MountEnv (Env (S (S fuel)) frame cur0) true true node_mem fsuid fsgid in
  new_device bs blocks data d0 d1 d2 → t_bufs (v_fs s) = Bufs d0 r →
  (∀ i, node_mem i = true) →
  k_cached (v_cache s) 1 = false → k_iget_locked (v_cache s) 1 = Some (true, k1) →
  k_iget_locked (k_iget_failed k1 1) 1 = Some (true, k2) →
  ∃ k' i, spfs_fill_super_block e s = Ok 1 (mounted d2 r bs blocks k' s) ∧
    cache_upd (v_cache s) 1 i k' ∧ root_inode e k2 i.
Proof using BDL KL.
  intros e Hnd Hs Hmem Hc Hk1 Hk2.
  destruct (new_device_data _ _ _ _ _ _ Hnd) as (Hb0 & _ & Hdata).
  destruct Hnd as [Hbs Hbs' Hb Hb' Hfit _ Hd1 Hd2].
  destruct (mkfs_super_fields bs blocks data) as (Hz & _); [lia|nia|].
  set (img := mkfs_image bs blocks data) in *.
  rewrite (fill_super_start e d0 d1 r s eq_refl eq_refl Hs Hd1).
  assert (super_of_block (sub 0 512 img) = new_super bs) as Hsup by (apply super_of_image; nia).
  erewrite bind_ok; cycle 1.
  { apply (super_init_ok (sub 0 512 img) d1 r); [done|rewrite zlen_sub; nia|done|].
    unfold good_super. rewrite Hsup. unfold SPOOKY_FS_INITIAL_BLOCK_SIZE. by split. }
  rewrite Hsup. unfold mount_rest. destruct s as [[bufs fl t] sbi cache fops].
  cbn [me_bdev e v_fs t_bufs v_cache v_fops] in *. subst bufs.
  erewrite bind_ok by done. cbn [new_super sb_block_size sb_btree_offset sb_free_list_offset sb_root_id].
  fold (new_super bs).
  erewrite bind_ok by (apply zoom_bufs_ok, set_blocksize_ok; exact Hd2). erewrite bind_ok by done.
  cbn [lset lget v_bufs_lens v_sbi_lens v_fs_lens t_bufs_lens t_tree_lens v_fs v_sbi v_cache v_fops
       t_bufs t_free t_tree].
  assert (Hchain : fl_chain d2 1 ([FreeNode 2 blocks] ++ []) 1).
  { econstructor; [done|apply Hdata; lia| |constructor].
    rewrite Z.mul_1_l. apply free_list_of_image; nia. }
  erewrite bind_ok; cycle 1.
  { apply zoom_ok. cbn [lget v_free_lens v_fs t_bufs t_free].
    apply (spfs_free_init_ok node_mem Hmem 1 _ 1 _ (Bufs d2 r) fl Hchain). cbn. lia. }
  cbn [app sum_blocks fn_blocks]. rewrite Z.add_0_r, u32_small by lia.
  change (reverse [FreeNode 2 blocks]) with [FreeNode 2 blocks].
  cbn [lset v_free_lens v_fs_lens v_fs v_sbi v_cache v_fops fst snd t_tree]. by eapply mount_root_new.
Qed.

Lemma new_free_list_wf blocks :
  0 < blocks → 2 + blocks < 2 ^ 32 → fl_wf (FreeList false blocks [FreeNode 2 blocks]).
Proof using.
  intros. split; cbn [fl_root fl_blocks sum_blocks fn_blocks]; try lia.
  - apply Forall_singleton. unfold node_ok. cbn. lia.
  - repeat constructor.
Qed.

Lemma new_free_in blocks x :
  free_in x (FreeList false blocks [FreeNode 2 blocks]) ↔ 2 ≤ x ∧ x < 2 + blocks.
Proof using. unfold free_in. cbn [fl_root]. rewrite Exists_cons, Exists_nil. unfold in_node. cbn. tauto. Qed.

(** C4: a device that mkfs has formatted (with blocks of at least 512 bytes, fewer than
    2^32 of them) can be mounted: the free list has one node that covers exactly the
    data blocks, each of which the device has; the tree is empty; and the root directory
    is a new inode with the number mkfs reserved, which belongs to the mounting user. *)
Theorem mkfs_then_mount stack f f' fuel frame cur0 node_mem fsuid fsgid (d0 d1 d2 : D) r k1 k2 s :
  zlen stack = 1024 → u_pos f = 0 → 512 ≤ u_blksize f → u_blksize f < 2 ^ 32 →
  3 * u_blksize f ≤ zlen (u_data f) → zlen (u_data f) ≤ u_limit f →
  zlen (u_data f) < 2 ^ 32 * u_blksize f → zlen (u_data f) < 2 ^ 63 →
  mkfs_main stack f = Ok 0 f' →
  t_bufs (v_fs s) = Bufs d0 r → bd_bytes d0 = u_data f' →
  bd_set_blocksize d0 512 = Some d1 → bd_set_blocksize d1 (u_blksize f) = Some d2 →
  (∀ i, node_mem i = true) →
  k_cached (v_cache s) 1 = false → k_iget_locked (v_cache s) 1 = Some (true, k1) →
  k_iget_locked (k_iget_failed k1 1) 1 = Some (true, k2) →
  ∃ s' blocks i,
    spfs_fill_super_block
      (MountEnv (Env (S (S fuel)) frame cur0) true true node_mem fsuid fsgid) s = Ok 1 s' ∧
    v_fs s' = BtreeSt (Bufs d2 r) (FreeList false blocks [FreeNode 2 blocks])
                (Btree false (u_blksize f) 1 0) ∧
    fl_wf (t_free (v_fs s')) ∧ 0 < blocks ∧ zlen (u_data f) < (3 + blocks) * u_blksize f ∧
    (∀ x, free_in x (t_free (v_fs s')) → is_Some (bc_data d2 x)) ∧
    sb_id (v_sbi s') = 2 ∧ sb_root_id (v_sbi s') = 1 ∧ v_fops s' = <[1 := spfs_dir_ops]> (v_fops s) ∧
    k_inode (v_cache s') 1 = i ∧ i_ino (i_inode i) = 1 ∧
    i_uid (i_inode i) = fsuid ∧ i_gid (i_inode i) = fsgid.
Proof using BDL KL.
  intros Hst Hpos Hbs Hbs' Hsz Hlim Hmax Hsz' Emk Hs Hbytes Hd1 Hd2 Hmem Hc Hk1 Hk2.
  destruct (mkfs_main_ok stack f Hst Hpos ltac:(lia) Hbs' Hsz Hlim Hsz') as (blocks & E & Hb & Hfit & Hmost).
  rewrite Emk in E. injection E as ->. cbn [set_data u_data] in *.
  assert (new_device (u_blksize f) blocks (u_data f) d0 d1 d2) as Hnd by (split; done || nia).
  destruct (new_device_data _ _ _ _ _ _ Hnd) as (_ & _ & Hdata).
  destruct (mount_new_device _ _ _ d0 d1 d2 r k1 k2 fuel frame cur0 node_mem fsuid fsgid s Hnd)
    as (k' & i & E & (Hi & _) & Hino & Hu & Hg & _); [done..|].
  eexists _, blocks, i. split; [exact E|]. split; [done|].
  split; [apply new_free_list_wf; [done|by apply Hnd]|]. split_and!; try done.
  intros x Hx%new_free_in. rewrite Hdata by lia. eauto.
Qed.

(** C35: a mount that cannot go on says why: -ENOMEM without memory for the super block,
    -EINVAL when the device does not take a block size, or block 0 has a wrong magic
    number or a block size under 512, -EIO when block 0 cannot be read, and 1 when the
    first block of the free list cannot.  Each time all buffers are given back, and
    the device, the in-core inodes and their operations are as before. *)
Theorem mount_refused e (d0 : D) r res s :
  me_bdev e = true → t_bufs (v_fs s) = Bufs d0 r → mount_refusal e d0 res →
  ∃ s', spfs_fill_super_block e s = Err res s' ∧ mount_untouched s s'.
Proof using BDL. apply mount_refusal_runs. Qed.
End fresh.

(** ** A concrete block device: its bytes, and a cache that is always in step *)
Record bytedev := ByteDev { by_bytes : list byte; by_bsize : Z }.

Definition by_in (d : bytedev) (n : Z) : Prop :=
  0 ≤ n ∧ 0 < by_bsize d ∧ (n + 1) * by_bsize d ≤ zlen (by_bytes d).
#[export] Instance by_in_dec d n : Decision (by_in d n).
Proof. unfold by_in. apply _. Defined.

#[export] Instance bytedev_cache : BufferCache bytedev := {
  bc_data d n :=
    if decide (by_in d n) then Some (sub (n * by_bsize d) (by_bsize d) (by_bytes d)) else None;
  bc_store d n b :=
    if decide (by_in d n ∧ zlen b = by_bsize d)
    then ByteDev (splice (n * by_bsize d) b (by_bytes d)) (by_bsize d) else d;
  bc_dirty d n := d;
  bc_bsize d := by_bsize d;
}.

#[export] Instance bytedev_device : BlockDevice bytedev := {
  bd_bytes := by_bytes;
  bd_set_blocksize d sz := if decide (512 ≤ sz) then Some (ByteDev (by_bytes d) sz) else None;
}.

#[export] Instance bytedev_device_laws : BlockDeviceLaws bytedev.
Proof.
  split; cbn.
  - intros d n ???. by rewrite decide_True by (by unfold by_in).
  - intros d sz d'. destruct (decide (512 ≤ sz)); [|done]. by intros [= <-].
  - intros d sz d'. destruct (decide (512 ≤ sz)); [|done]. by intros [= <-].
Qed.

#[export] Instance bytedev_laws : BufferCacheLaws bytedev.
Proof.
  split; cbn; try done.
  - intros d n b. destruct (decide (by_in d n)) as [(?&?&?)|]; [|done]. intros [= <-].
    rewrite zlen_sub; [done|nia..].
  - intros d n b b'. destruct (decide (by_in d n)) as [Hin|]; [|done]. intros [= <-] Hl.
    pose proof Hin as (?&?&?). rewrite zlen_sub in Hl by nia.
    destruct (decide (by_in d n ∧ zlen b' = by_bsize d)) as [_|Hn]; [|by destruct Hn].
    assert (zlen (splice (n * by_bsize d) b' (by_bytes d)) = zlen (by_bytes d)) as Hz
      by (apply zlen_splice; nia).
    rewrite decide_True by (unfold by_in; cbn; by rewrite Hz). cbn.
    f_equal. apply sub_splice_eq; nia.
  - intros d n m b' Hne. destruct (decide (by_in d n ∧ zlen b' = by_bsize d)) as [[(?&?&?) Hl]|]; [|done].
    cbn. assert (zlen (splice (n * by_bsize d) b' (by_bytes d)) = zlen (by_bytes d)) as Hz
      by (apply zlen_splice; nia).
    destruct (decide (by_in (ByteDev _ _) m)) as [Hin|Hin]; unfold by_in in Hin; cbn in Hin; rewrite Hz in Hin.
    + rewrite decide_True by done. f_equal. destruct (decide (m < n)).
      * apply sub_splice_before; nia.
      * apply sub_splice_after; nia.
    + by rewrite decide_False by done.
  - intros d n b'. by destruct (decide _).
Qed.

(** ** Concrete inputs *)
Definition unmounted (bytes : list byte) : vfs_st bytedev memkernel :=
  VfsSt (BtreeSt (Bufs (ByteDev bytes 1024) 0) (FreeList false 0 []) (Btree false 0 0 0))
    (SuperBlock 0 0 0 0 0 0 false 0) (MemKernel ∅ ∅ 0) ∅.

Lemma mkfs_then_mount_witness :
  ∃ f' s', mkfs_main (zeros 1024) example_image = Ok 0 f' ∧
    spfs_fill_super_block
      (MountEnv (Env 2 zeros (blank_inode 0)) true true (λ _, true) 1000 1000) (unmounted (u_data f'))
      = Ok 1 s' ∧ sb_id (v_sbi s') = 2.
Proof.
  destruct (mkfs_main_ok (zeros 1024) example_image) as (blocks & E & _); [done|eval_side..|].
  set (f' := set_data _ _ _) in E.
  destruct (mkfs_then_mount (zeros 1024) example_image f' 0 zeros (blank_inode 0) (λ _, true) 1000 1000
    (ByteDev (u_data f') 1024) (ByteDev (u_data f') 512) (ByteDev (u_data f') 512) 0
    (MemKernel {[1 := blank_inode 1]} {[1]} 0) (MemKernel {[1 := blank_inode 1]} {[1]} 0)
    (unmounted (u_data f'))) as (s' & b' & i & H & _ & _ & _ & _ & _ & Hid & _);
    [done|eval_side|eval_side|eval_side|eval_side|eval_side|eval_side|eval_side|exact E|done|done
    |done|done|done|done|by vm_compute|by vm_compute|].
  exists f', s'. split; [exact E|]. split; [exact H|exact Hid].
Defined.

(** A device of zeros has no super block. *)
Lemma mount_refused_witness :
  ∃ s', spfs_fill_super_block
      (MountEnv (Env 2 zeros (blank_inode 0)) true true (λ _, true) 1000 1000) (unmounted (zeros 2048))
      = Err (-EINVAL) s' ∧ b_refs (t_bufs (v_fs s')) = 0.
Proof.
  destruct (mount_refused (MountEnv (Env 2 zeros (blank_inode 0)) true true (λ _, true) 1000 1000)
    (ByteDev (zeros 2048) 1024) 0 (-EINVAL) (unmounted (zeros 2048))) as (s' & H & Hr & _);
    [done|done| |exists s'; split; [exact H|exact Hr]].
  apply (refuse_super _ _ (ByteDev (zeros 2048) 512) (zeros 512)); [done|done|by vm_compute|by vm_compute|].
  left. by vm_compute.
Defined.
