(* ===== verification/Refs.v ===== *)
(** * Buffers taken and given back

    [sb_bread] takes a reference to a buffer and [brelse] gives it back.  Here the
    references are counted along every path of the driver: no operation ever gives back
    more than it took, and one that succeeds has given back all it took.  What a failing
    operation keeps is lost: nothing else gives it back.

    [takes r d m Q E] follows the code with a counter: [m], run when the count [r] of
    the state is [d] over where it was, returns a result [a] and a count [d'] with
    [Q a d'], or an error [e] with [E e d'].  For code that takes and gives back nothing, or
    all of it on every path, [steps (same r)] says the same. *)
From S2P Require Import Prelude Spec Util Buffers FreeList Inode Bnode Btree Extent File Super Vfs Dir Mount Frame Space.

Definition takes {S A} (r : S → Z) (d : Z) (m : M S A) (Q : A → Z → Prop) (E : Z → Z → Prop) : Prop := ∀ s,
  match m s with
  | Ok a s' => Q a (d + (r s' - r s))
  | Err e s' => E e (d + (r s' - r s))
  | Crash _ => True
  end.

(** ** Rules *)
Section rules.
Context {S : Type} (r : S → Z).

Lemma takes_ret {A} d (a : A) Q E : Q a d → takes r d (mret a) Q E.
Proof. intros H s. cbn. by rewrite Z.sub_diag, Z.add_0_r. Qed.
Lemma takes_err {A} d e (Q : A → Z → Prop) (E : Z → Z → Prop) : E e d → takes r d (err e) Q E.
Proof. intros H s. cbn. by rewrite Z.sub_diag, Z.add_0_r. Qed.
Lemma takes_crash {A} d c (Q : A → Z → Prop) E : takes r d (crashes c) Q E.
Proof. by intros s. Qed.

Lemma takes_weaken {A} d (m : M S A) (Q Q' : A → Z → Prop) (E E' : Z → Z → Prop) :
  takes r d m Q E → (∀ a d, Q a d → Q' a d) → (∀ e d, E e d → E' e d) → takes r d m Q' E'.
Proof. intros Hm HQ HE s. specialize (Hm s). destruct (m s); auto. Qed.

Lemma takes_bind {A C} d (m : M S A) (k : A → M S C) Q1 E1 Q (E : Z → Z → Prop) :
  takes r d m Q1 E1 → (∀ e d, E1 e d → E e d) → (∀ a d, Q1 a d → takes r d (k a) Q E) →
  takes r d (m ≫= k) Q E.
Proof.
  intros Hm HE Hk s. unfold mbind, M_bind. specialize (Hm s). destruct (m s) as [a s1|e s1|c]; [|by apply HE|done].
  specialize (Hk a _ Hm s1). destruct (k a s1) as [a2 s2|e s2|c]; [| |done].
  all: by replace (d + (r s1 - r s) + (r s2 - r s1)) with (d + (r s2 - r s)) in Hk by lia.
Qed.

Lemma takes_catch {A} d (m : M S A) (Q : Z + A → Z → Prop) E :
  takes r d m (λ a, Q (inr a)) (λ e, Q (inl e)) → takes r d (catch m) Q E.
Proof. intros Hm s. unfold catch. specialize (Hm s). destruct (m s); done. Qed.

(** Code that leaves the count alone *)
Lemma takes_keeps {A} d b (m : M S A) (Q : A → Z → Prop) (E : Z → Z → Prop) :
  steps (same r) b m → (∀ a, Q a d) → (b = true → ∀ e, E e d) → takes r d m Q E.
Proof.
  intros Hm HQ HE s. specialize (Hm s). unfold same in Hm. destruct (m s) as [a s'|e s'|]; [| |done].
  - by rewrite Hm, Z.sub_diag, Z.add_0_r.
  - destruct Hm as [-> ->]. rewrite Z.sub_diag, Z.add_0_r. by apply HE.
Qed.

Lemma keeps_takes {A} (m : M S A) :
  takes r 0 m (λ _ d, d = 0) (λ _ d, d = 0) → steps (same r) true m.
Proof. intros Hm s. specialize (Hm s). unfold same. destruct (m s); [lia|split; [done|lia]|done]. Qed.

Lemma takes_bind_keeps {A C} d b (m : M S A) (k : A → M S C) (Q : C → Z → Prop) (E : Z → Z → Prop) :
  steps (same r) b m → (b = true → ∀ e, E e d) → (∀ a, takes r d (k a) Q E) → takes r d (m ≫= k) Q E.
Proof.
  intros Hm HE Hk. apply (takes_bind d m k (λ _ d', d' = d) E); [|done|by intros a ? ->].
  by eapply takes_keeps.
Qed.
End rules.

Lemma takes_BUG_ON {S C} (r : S → Z) d b (k : unit → M S C) Q E :
  (b = false → takes r d (k tt) Q E) → takes r d (BUG_ON b ≫= k) Q E.
Proof. intros Hk. destruct b; [by intros s|]. by apply Hk. Qed.

(** The error codes of the codecs are not 0. *)
Definition codec_errs {A} (m : M cursor A) : Prop := takes (λ _, 0) 0 m (λ _ d, d = 0) (λ e _, e ≠ 0).

Lemma or_fail_errs (m : M cursor bool) e : steps any false m → e ≠ 0 → codec_errs (or_fail e m).
Proof.
  intros Hm He s. unfold or_fail, mbind, M_bind. specialize (Hm s).
  destruct (m s) as [[] s'|? ?|]; cbn; [lia|done| |done]. by destruct Hm.
Qed.
Lemma or_err_errs {A} (m : M cursor (option A)) e : steps any false m → e ≠ 0 → codec_errs (or_err e m).
Proof.
  intros Hm He s. unfold or_err, mbind, M_bind. specialize (Hm s).
  destruct (m s) as [[] s'|? ?|]; cbn; [lia|done| |done]. by destruct Hm.
Qed.
Lemma sb_store_any need raw : steps any false (sb_store need raw).
Proof. unfold sb_store, mstore. steps_tac. Qed.
Lemma sb_load_any {A} need size (f : option (list byte) → A) : steps any false (raw ← sb_load need size; mret (f raw)).
Proof. unfold sb_load. steps_tac. Qed.

Lemma inode_make_errs frame inp : codec_errs (spfs_inode_make frame inp).
Proof.
  unfold spfs_inode_make.
  do 11 (eapply takes_bind; [apply or_fail_errs; [apply sb_store_any|done]|done|intros ? ? ->]). by apply takes_ret.
Qed.
Lemma parse_dir_block_errs : codec_errs spfs_parse_dir_block.
Proof.
  unfold spfs_parse_dir_block.
  do 3 (eapply takes_bind; [apply or_err_errs; [apply sb_load_any|done]|done|intros ? ? ->]).
  case_bool_decide; [by apply takes_err|by apply takes_ret].
Qed.

(** A part of the state that has all its buffers *)
Definition through {S T} (r : S → Z) (r' : T → Z) (l : lens S T) : Prop :=
  ∀ s t, r (lset l t s) = r s + (r' t - r' (lget l s)).

Lemma takes_zoom {S T A} (r : S → Z) (r' : T → Z) d (l : lens S T) (m : M T A) Q E :
  through r r' l → takes r' d m Q E → takes r d (zoom l m) Q E.
Proof.
  intros Hl Hm s. unfold zoom. specialize (Hm (lget l s)). pose proof (Hl s) as Hs.
  destruct (m (lget l s)) as [a t|e t|]; [| |done]; rewrite Hs;
    by replace (d + (r s + (r' t - r' (lget l s)) - r s)) with (d + (r' t - r' (lget l s))) by lia.
Qed.

Lemma keeps_zoom {S T A} (r : S → Z) (r' : T → Z) b (l : lens S T) (m : M T A) :
  through r r' l → steps (same r') b m → steps (same r) b (zoom l m).
Proof. intros Hl. apply steps_zoom_in. intros s t Ht. rewrite Hl, Ht. lia. Qed.

(** The count, in the states of the driver's components *)
Definition t_refs {D} (t : btree_st D) : Z := b_refs (t_bufs t).
Definition io_refs {D X} (s : bufs D * X) : Z := b_refs s.1.
Definition f_refs {D} (s : file_st D) : Z := t_refs (f_tree s).
Definition v_refs {D K} (s : vfs_st D K) : Z := t_refs (v_fs s).
Ltac through_side := intros ? ?; unfold v_refs, f_refs, io_refs, t_refs; cbn; lia.

(** ** Taking and giving back *)
Section buffers.
Context {D S : Type} {B : BufferCache D} (r : S → Z).

Lemma takes_bread {C} d n (k : bool → M (bufs D) C) (Q : C → Z → Prop) E :
  takes b_refs (d + 1) (k true) Q E → takes b_refs d (k false) Q E → takes b_refs d (sb_bread n ≫= k) Q E.
Proof.
  intros Ht Hf. apply (takes_bind _ d (sb_bread n) k (λ ok d', d' = if ok then d + 1 else d) (λ _ _, False)); [|done|].
  - intros s. unfold sb_bread. destruct (bc_data (b_dev s) n); cbn; lia.
  - by intros [] ? ->.
Qed.
Lemma takes_brelse {C} d n (k : unit → M (bufs D) C) (Q : C → Z → Prop) E :
  takes b_refs (d - 1) (k tt) Q E → takes b_refs d (brelse n ≫= k) Q E.
Proof.
  intros Hk. apply (takes_bind _ d (brelse n) k (λ _ d', d' = d - 1) (λ _ _, False)); [|done|by intros [] ? ->].
  intros s. cbn. lia.
Qed.

Lemma takes_bread_in {C} d n (l : lens S (bufs D)) (k : bool → M S C) (Q : C → Z → Prop) E :
  through r b_refs l → takes r (d + 1) (k true) Q E → takes r d (k false) Q E →
  takes r d (zoom l (sb_bread n) ≫= k) Q E.
Proof.
  intros Hl Ht Hf.
  apply (takes_bind _ d (zoom l (sb_bread n)) k (λ ok d', d' = if ok then d + 1 else d) (λ _ _, False)); [|done|].
  - apply (takes_zoom r b_refs); [done|]. intros s. unfold sb_bread. destruct (bc_data (b_dev s) n); cbn; lia.
  - by intros [] ? ->.
Qed.
Lemma takes_brelse_in {C} d n (l : lens S (bufs D)) (k : unit → M S C) (Q : C → Z → Prop) E :
  through r b_refs l → takes r (d - 1) (k tt) Q E → takes r d (zoom l (brelse n) ≫= k) Q E.
Proof.
  intros Hl Hk. apply (takes_bind _ d (zoom l (brelse n)) k (λ _ d', d' = d - 1) (λ _ _, False)); [|done|by intros [] ? ->].
  apply (takes_zoom r b_refs); [done|]. intros s. cbn. lia.
Qed.

Lemma takes_brelse_last d n (Q : unit → Z → Prop) E : Q tt (d - 1) → takes b_refs d (brelse (D := D) n) Q E.
Proof. intros HQ s. cbn. by replace (d + (b_refs s - 1 - b_refs s)) with (d - 1) by lia. Qed.
Lemma takes_brelse_last_in d n (l : lens S (bufs D)) (Q : unit → Z → Prop) E :
  through r b_refs l → Q tt (d - 1) → takes r d (zoom l (brelse n)) Q E.
Proof. intros Hl HQ. apply (takes_zoom r b_refs); [done|]. by apply takes_brelse_last. Qed.

(** The buffers' contents are another matter. *)
Abbreviation keeps b m := (steps (same (b_refs (D := D))) b m).
Lemma bh_data_keeps b n : keeps b (bh_data n).
Proof. intros s. unfold bh_data. by destruct (bc_data (b_dev s) n). Qed.
Lemma bh_set_data_keeps b n l : keeps b (bh_set_data n l).
Proof. by intros s. Qed.
Lemma mark_dirty_keeps b n : keeps b (mark_buffer_dirty n).
Proof. by intros s. Qed.
Lemma in_bh_keeps {A} n p (m : M cursor A) : keeps true (in_bh n p m).
Proof. intros s. unfold in_bh. destruct (bc_data (b_dev s) n); [|done]. by destruct (m _). Qed.
Lemma on_bh_keeps {A} n p (m : M cursor A) : keeps true (on_bh n p m).
Proof. intros s. unfold on_bh. destruct (bc_data (b_dev s) n); [|done]. by destruct (m _). Qed.
Lemma mstore_steps {T} (R : relation T) `{!PreOrder R} b l off d : steps R b (mstore l off d).
Proof. unfold mstore. steps_tac. Qed.
End buffers.
#[export] Hint Resolve bh_data_keeps bh_set_data_keeps mark_dirty_keeps in_bh_keeps on_bh_keeps : steps.
#[export] Hint Extern 2 (steps _ _ (mstore _ _ _)) => apply mstore_steps; typeclasses eauto : steps.

(** ** Nodes *)
Section nodes.
Context {D : Type} {B : BufferCache D}.
Abbreviation keeps m := (steps (same (b_refs (D := D))) false m).

Lemma node_load_keeps n off len : keeps (node_load n off len).
Proof. unfold node_load. steps_tac. Qed.
Lemma node_store_keeps n off raw : keeps (node_store n off raw).
Proof. unfold node_store. steps_tac. Qed.
#[local] Hint Resolve node_load_keeps node_store_keeps : steps.
Lemma bnode_make_keeps n : keeps (bnode_make n).
Proof. unfold bnode_make. steps_tac. Qed.
Lemma bnode_length_keeps n : keeps (bnode_length n).
Proof. unfold bnode_length. steps_tac. Qed.
Lemma bnode_set_length_keeps n l : keeps (bnode_set_length n l).
Proof. unfold bnode_set_length. steps_tac. Qed.
#[local] Hint Resolve bnode_make_keeps bnode_length_keeps bnode_set_length_keeps : steps.
Lemma bnode_child_length_keeps n : keeps (bnode_child_length n).
Proof. unfold bnode_child_length. steps_tac. Qed.
Lemma bnode_set_child_keeps n i c : keeps (bnode_set_child n i c).
Proof. unfold bnode_set_child. steps_tac. Qed.
Lemma bnode_set_entry_keeps n i e : keeps (bnode_set_entry n i e).
Proof. unfold bnode_set_entry. steps_tac. Qed.
Lemma bnode_get_child_keeps n i : keeps (bnode_get_child n i).
Proof. unfold bnode_get_child. steps_tac. Qed.
Lemma entry_load_keeps n off : keeps (entry_load n off).
Proof. unfold entry_load. steps_tac. Qed.
Lemma entry_load_id_keeps n off : keeps (entry_load_id n off).
Proof. unfold entry_load_id. steps_tac. Qed.
#[local] Hint Resolve bnode_child_length_keeps bnode_set_child_keeps bnode_set_entry_keeps
  bnode_get_child_keeps entry_load_keeps entry_load_id_keeps : steps.
Lemma bin_find_gte_loop_keeps fuel n : ∀ it last end_ needle, keeps (bin_find_gte_loop fuel n it last end_ needle).
Proof. induction fuel; intros; cbn [bin_find_gte_loop]; steps_tac. Qed.
#[local] Hint Resolve bin_find_gte_loop_keeps : steps.
Lemma bin_find_gte_keeps fuel n needle : keeps (bnode_bin_find_gte fuel n needle).
Proof. unfold bnode_bin_find_gte. steps_tac. Qed.
Lemma bnode_is_full_keeps n : keeps (bnode_is_full n).
Proof. unfold bnode_is_full. steps_tac. Qed.
Lemma bnode_is_empty_keeps n : keeps (bnode_is_empty n).
Proof. unfold bnode_is_empty. steps_tac. Qed.
#[local] Hint Resolve bin_find_gte_keeps bnode_is_full_keeps bnode_is_empty_keeps : steps.
Lemma find_gte_keeps n needle : keeps (find_gte n needle).
Proof. unfold find_gte. steps_tac. Qed.
Lemma bnode_bin_insert_keeps fuel n e gt : keeps (bnode_bin_insert fuel n e gt).
Proof. unfold bnode_bin_insert. steps_tac. Qed.
#[local] Hint Resolve find_gte_keeps bnode_bin_insert_keeps : steps.
Lemma bin_insert_b_keeps fuel n b : keeps (bnode_bin_insert_b fuel n b).
Proof. unfold bnode_bin_insert_b. steps_tac. Qed.
Lemma child_add_back_keeps n c : keeps (bnode_child_add_back n c).
Proof. unfold bnode_child_add_back. steps_tac. Qed.
Lemma bnode_median_keeps n e : keeps (bnode_median n e).
Proof. unfold bnode_median. steps_tac. Qed.
Lemma partition_from_keeps fuel from to : ∀ i drop, keeps (partition_from fuel from to i drop).
Proof. induction fuel; intros; cbn [partition_from]; steps_tac. Qed.
Lemma partition_above_keeps fuel from to p : ∀ i drop move, keeps (partition_above fuel from to p i drop move).
Proof. induction fuel; intros; cbn [partition_above]; steps_tac. Qed.
Lemma entry_deref_keeps b p : keeps (entry_deref b p).
Proof. unfold entry_deref. steps_tac. Qed.
#[local] Hint Resolve bin_insert_b_keeps child_add_back_keeps bnode_median_keeps partition_from_keeps
  partition_above_keeps entry_deref_keeps : steps.
Lemma bnode_partition_keeps from b p to : keeps (bnode_partition from b p to).
Proof. unfold bnode_partition. steps_tac. Qed.
Lemma bnode_extract_keeps tree needle dest right : keeps (bnode_extract tree needle dest right).
Proof. unfold bnode_extract. steps_tac. Qed.
End nodes.
#[export] Hint Resolve bnode_make_keeps bnode_length_keeps bnode_child_length_keeps bnode_set_child_keeps
  bnode_get_child_keeps entry_load_keeps entry_load_id_keeps find_gte_keeps bnode_is_full_keeps
  bin_insert_b_keeps child_add_back_keeps bnode_median_keeps entry_deref_keeps bnode_partition_keeps
  bnode_extract_keeps : steps.

(** ** Automation

    [refs_tac] follows the code: calls that keep the count by [steps_tac], taking and
    giving back by their rules, and calls with a rule of their own by the [refs] hints. *)
Create HintDb refs discriminated.

Ltac refs_side := intros; subst; cbn [fst snd] in *;
  first [done | lia | congruence | (intuition (congruence || lia)) ].

Ltac refs_bind :=
  first
    [ eapply takes_bind; [solve [auto with refs nocore]|solve [refs_side]|cbv beta; intros ? ? ?]
    | apply (takes_bind_keeps _ _ false); [solve [steps_tac]|done|intros ?]
    | apply (takes_bind_keeps _ _ true); [solve [steps_tac]|solve [refs_side]|intros ?] ].

Ltac refs_tail :=
  first
    [ apply (takes_keeps _ _ false); [solve [steps_tac]|solve [refs_side]|done]
    | apply (takes_keeps _ _ true); [solve [steps_tac]|solve [refs_side]..]
    | eapply takes_weaken; [solve [auto with refs nocore]|solve [refs_side]..] ].

Ltac refs_step :=
  lazymatch goal with
  | |- ∀ _, takes _ _ _ _ _ => intros ?
  | |- takes _ _ (mret _) _ _ => apply takes_ret
  | |- takes _ _ (err _) _ _ => apply takes_err
  | |- takes _ _ (crashes _) _ _ => apply takes_crash
  | |- takes _ _ (mbind _ (sb_bread _)) _ _ => apply takes_bread; cbn [negb]
  | |- takes _ _ (mbind _ (brelse _)) _ _ => apply takes_brelse
  | |- takes _ _ (mbind _ (zoom _ (sb_bread _))) _ _ => apply takes_bread_in; [through_side|cbn [negb]..]
  | |- takes _ _ (mbind _ (zoom _ (brelse _))) _ _ => apply takes_brelse_in; [through_side|]
  | |- takes _ _ (mbind _ (BUG_ON _)) _ _ =>
      let H := fresh in apply takes_BUG_ON; intros H; try discriminate H
  | |- takes _ _ (brelse _) _ _ => apply takes_brelse_last
  | |- takes _ _ (zoom _ (brelse _)) _ _ => apply takes_brelse_last_in; [through_side|]
  | |- takes _ _ (mbind _ _) _ _ => refs_bind
  | |- takes _ _ (if bool_decide ?P then _ else _) _ _ => destruct (bool_decide_reflect P)
  | |- takes _ _ (if negb ?b then _ else _) _ _ => destruct b; cbn [negb]
  | |- takes _ _ (if ?b then _ else _) _ _ => destruct b
  | |- takes _ _ (match ?x with _ => _ end) _ _ => destruct x
  | |- takes _ _ (let _ := _ in _) _ _ => cbv zeta
  | |- takes _ _ _ _ _ => refs_tail
  end.
Ltac refs_tac := repeat first [ solve [auto with refs nocore] | progress refs_step ]; try solve [refs_side].

(** An operation whose error the caller looks at *)
Lemma takes_caught {S A} (r : S → Z) d (m : M S A) :
  takes r d m (λ _ d', d' = d) (λ _ d', d ≤ d') →
  takes r d (catch m) (λ c d', d ≤ d' ∧ match c with inr _ => d' = d | inl _ => True end) (λ _ _, False).
Proof. intros Hm. apply takes_catch. eapply takes_weaken; [exact Hm|..]; cbv beta; intros; split; done || lia. Qed.
#[export] Hint Resolve takes_caught : refs.

(** ** The tree *)
Section tree.
Context {D : Type} {B : BufferCache D}.

Lemma zoom_tbufs_keeps {A} b (m : M (bufs D) A) :
  steps (same b_refs) b m → steps (same t_refs) b (zoom t_bufs_lens m).
Proof. apply keeps_zoom. through_side. Qed.
#[local] Hint Resolve zoom_tbufs_keeps : steps.

Lemma zoom_fst_keeps {A X} b (m : M (bufs D) A) :
  steps (same b_refs) b m → steps (same (io_refs (X := X))) b (zoom fst_lens m).
Proof. apply keeps_zoom. through_side. Qed.

(** Code that gives back all it took on every path *)
Abbreviation keeps m := (steps (same b_refs) true m).
Abbreviation keeps_t m := (steps (same t_refs) true m).

(** A callback that gives back what it took, and does not fail *)
Definition cb_keeps {C} (cb : btree_modify_cb (D := D) C) : Prop := ∀ c i, steps (same b_refs) false (cb c i).

Lemma btree_visit_entry_keeps {C} frame cur0 offset (c : C) cb :
  cb_keeps cb → keeps (btree_visit_entry frame cur0 offset c cb).
Proof. intros Hcb. apply keeps_takes. unfold btree_visit_entry. pose proof (Hcb c). refs_tac. Qed.

Lemma btree_modify_loop_keeps {C} fuel frame cur0 ino (c : C) cb :
  cb_keeps cb → ∀ offset, keeps (btree_modify_loop fuel frame cur0 offset ino c cb).
Proof.
  intros Hcb. pose proof (λ offset, btree_visit_entry_keeps frame cur0 offset c cb Hcb).
  induction fuel as [|fuel IH]; intros offset; apply keeps_takes; cbn [btree_modify_loop]; refs_tac.
Qed.

Lemma spfs_btree_modify_keeps {C} fuel frame cur0 ino (c : C) cb :
  cb_keeps cb → keeps_t (spfs_btree_modify fuel frame cur0 ino c cb).
Proof.
  intros Hcb. pose proof (btree_modify_loop_keeps fuel frame cur0 ino c cb Hcb).
  unfold spfs_btree_modify. steps_tac.
Qed.
Lemma spfs_btree_lookup_keeps fuel frame cur0 ino result : keeps_t (spfs_btree_lookup fuel frame cur0 ino result).
Proof. apply spfs_btree_modify_keeps. by intros c i s. Qed.

Lemma btree_fixup_keeps tree bubble : keeps_t (btree_fixup tree bubble).
Proof.
  apply keeps_takes. unfold btree_fixup. refs_tac.
  apply (takes_bind _ _ _ _ (λ _ d, d = 0) (λ _ _, False)); [|done|intros ? ? ->; refs_tac].
  apply (takes_zoom _ b_refs); [through_side|]. refs_tac.
Qed.
#[local] Hint Resolve btree_fixup_keeps : steps.

Lemma write_record_takes d page frame inp :
  takes t_refs d (catch (zoom t_bufs_lens (on_bh page 0 (spfs_inode_make frame inp))))
    (λ r d', d' = d ∧ match r with inl e => e ≠ 0 | inr _ => True end) (λ _ _, False).
Proof.
  apply takes_catch, (takes_zoom _ b_refs); [through_side|]. intros s. unfold on_bh.
  destruct (bc_data (b_dev s) page) as [b|]; [|done]. pose proof (inode_make_errs frame inp (Cursor b 0)) as H.
  destruct (spfs_inode_make frame inp _); cbn in *; split_and?; done || lia.
Qed.

(** What an insertion keeps: nothing if it succeeds, or if a split goes on in the parent *)
Definition insert_keeps (d : Z) (r : Z * btree_bubble * Z) (d' : Z) : Prop :=
  d ≤ d' ∧ (r.1.1 = 0 ∨ bubble_is_active r.1.2 = true → d' = d).

#[local] Hint Resolve write_record_takes : refs.

Lemma btree_insert_takes fuel frame inp out : ∀ d tree,
  takes t_refs d (btree_insert fuel frame tree inp out) (insert_keeps d) (λ _ d', d ≤ d').
Proof.
  induction fuel as [|fuel IH]; intros d tree; cbn [btree_insert]; [by apply takes_crash|].
  unfold insert_keeps in *. destruct tree as [tree|].
  - refs_bind.
    apply (takes_bind _ _ _ _ (λ r d', match r with
      | inl r => insert_keeps d r d' | inr r => insert_keeps d r d' end) (λ _ d', d ≤ d')); unfold insert_keeps; [|done|].
    + refs_tac.
    + intros [r|[[res bubble] o]] d' [Hle Heq]; [by apply takes_ret|]. cbn [fst snd] in Heq.
      destruct (bubble_is_active bubble) eqn:Hb.
      * rewrite Heq by tauto. refs_tac.
      * apply takes_ret. cbn [fst snd]. rewrite Hb. tauto.
  - refs_tac; cbn [fst snd] in *; (split; [lia|]); intros [?|Ht]; [lia|done].
Qed.

Lemma set_tree_keeps b f : steps (same t_refs) b (zoom (t_tree_lens (D := D)) (modify f)).
Proof. by intros s. Qed.
Lemma zoom_tree_keeps {A} (m : M spfs_btree A) : steps (same t_refs) true (zoom (t_tree_lens (D := D)) m).
Proof. by apply steps_zoom_off. Qed.
#[local] Hint Resolve set_tree_keeps zoom_tree_keeps : steps.

Lemma bnode_alloc_root_takes d bubble : takes t_refs d (bnode_alloc_root bubble) (λ _ d', d' = d) (λ _ d', d' = d).
Proof.
  unfold bnode_alloc_root. refs_tac.
  eapply (takes_bind _ _ (zoom t_bufs_lens _) _ (λ _ d', d' = d) (λ _ _, False)); [|done|intros ? ? ->; refs_tac].
  apply (takes_zoom _ b_refs); [through_side|]. refs_tac.
Qed.
#[local] Hint Resolve bnode_alloc_root_takes : refs.

Lemma spfs_btree_insert_takes fuel frame inp d :
  takes t_refs d (spfs_btree_insert fuel frame inp) (λ _ d', d' = d) (λ _ d', d ≤ d').
Proof.
  unfold spfs_btree_insert. refs_bind.
  apply (takes_bind _ _ _ _ (λ tree d', d' = match tree with Some _ => d + 1 | None => d end) (λ _ d', d' = d)); [refs_tac|refs_side|].
  intros tree d' ->. eapply takes_bind; [apply btree_insert_takes|intros; cbv beta in *; destruct tree; lia|].
  intros [[res bubble] o] d1 [Hle Heq]. cbn [fst snd] in Heq.
  apply (takes_bind _ _ _ _ (λ _ d2, d ≤ d2 ∧ (res = 0 ∨ bubble_is_active bubble = true → d2 = d)) (λ _ _, False)); [|done|].
  - destruct tree; refs_tac.
  - intros [] d2 [Hle2 Heq2]. destruct (bubble_is_active bubble) eqn:Hb.
    + rewrite Heq2 by tauto. eapply (takes_bind _ _ _ _ (λ _ d', d' = d) (λ _ d', d' = d)); [refs_tac|refs_side|].
      intros [] ? ->. refs_tac.
    + refs_bind. case_bool_decide; [apply takes_ret; tauto|by apply takes_err].
Qed.

Lemma spfs_dir_block_alloc_takes bh_pos d :
  takes t_refs d (spfs_dir_block_alloc bh_pos)
    (λ r d', d ≤ d' ∧ (r.1.1 ≠ 0 → d' = d + 1)) (λ _ d', d ≤ d').
Proof.
  unfold spfs_dir_block_alloc. refs_tac.
Qed.

Lemma spfs_file_extent_alloc_takes blocks d :
  takes t_refs d (spfs_file_extent_alloc blocks) (λ r d', d ≤ d' ∧ (r ≠ 0 → d' = d)) (λ _ d', d ≤ d').
Proof.
  unfold spfs_file_extent_alloc. refs_tac.
Qed.
End tree.
#[export] Hint Resolve zoom_tbufs_keeps zoom_tree_keeps spfs_btree_lookup_keeps : steps.
#[export] Hint Resolve spfs_btree_insert_takes spfs_dir_block_alloc_takes spfs_file_extent_alloc_takes : refs.

#[export] Hint Resolve zoom_fst_keeps : steps.

(** ** Directories *)
Section dirs.
Context {D K : Type} {B : BufferCache D} {KK : Kernel K}.
Abbreviation refs := (v_refs (D := D) (K := K)).
Abbreviation keeps m := (steps (same refs) true m).

Lemma zoom_vbufs_keeps {A} b (m : M (bufs D) A) :
  steps (same b_refs) b m → steps (same refs) b (zoom v_bufs_lens m).
Proof. apply keeps_zoom. through_side. Qed.
Lemma zoom_fs_keeps {A} b (m : M (btree_st D) A) :
  steps (same t_refs) b m → steps (same refs) b (zoom v_fs_lens m).
Proof. apply keeps_zoom. through_side. Qed.
Lemma zoom_fs_takes {A} d (m : M (btree_st D) A) Q E : takes t_refs d m Q E → takes refs d (zoom v_fs_lens m) Q E.
Proof. apply takes_zoom. through_side. Qed.
Lemma cache_keeps b f : steps (same refs) b (zoom v_cache_lens (modify f)).
Proof. by intros s. Qed.
Lemma get_inode_keeps b n : steps (same refs) b (get_inode n).
Proof. unfold get_inode. steps_tac. Qed.
Lemma upd_inode_keeps b n f : steps (same refs) b (upd_inode n f).
Proof. apply cache_keeps. Qed.
Lemma mark_inode_keeps b n : steps (same refs) b (mark_inode_dirty n).
Proof. apply cache_keeps. Qed.
Lemma iget_locked_keeps b n : steps (same refs) b (iget_locked n).
Proof. intros s. unfold iget_locked. by destruct (k_iget_locked (v_cache s) n) as [[]|]. Qed.
Lemma setup_inode_fp_keeps n : keeps (spfs_setup_inode_fp n).
Proof. unfold spfs_setup_inode_fp, get_inode, upd_inode. steps_tac. Qed.
#[local] Hint Resolve zoom_vbufs_keeps zoom_fs_keeps cache_keeps get_inode_keeps upd_inode_keeps mark_inode_keeps
  iget_locked_keeps setup_inode_fp_keeps : steps.
#[local] Hint Resolve zoom_fs_takes : refs.

Lemma spfs_inode_by_id_keeps e n : keeps (spfs_inode_by_id e n).
Proof. unfold spfs_inode_by_id, iget_failed, unlock_new_inode. steps_tac. Qed.
Lemma spfs_new_inode_keeps parent mode : keeps (spfs_new_inode parent mode).
Proof. unfold spfs_new_inode, iget_failed, unlock_new_inode. steps_tac. Qed.
#[local] Hint Resolve spfs_inode_by_id_keeps spfs_new_inode_keeps : steps.

Lemma spfs_write_inode_keeps e n : keeps (spfs_write_inode e n).
Proof.
  assert (∀ frame cur0 ino, steps (same t_refs) true
    (spfs_btree_modify (e_fuel e) frame cur0 ino n (spfs_mod_inode_cb (D := D)))) as H.
  { intros. apply spfs_btree_modify_keeps. by intros c i s. }
  unfold spfs_write_inode. steps_tac.
Qed.

Lemma spfs_generic_create_takes e p subject mode d :
  takes refs d (spfs_generic_create e p subject mode) (λ _ d', d' = d) (λ _ d', d ≤ d').
Proof.
  unfold spfs_generic_create. refs_tac.
Qed.
#[local] Hint Resolve spfs_generic_create_takes : refs.

(** ** Adding a child *)
Lemma dir_append_keeps b n bh_pos block child : steps (same (b_refs (D := D))) b (dir_append n bh_pos block child).
Proof. unfold dir_append, spfs_dir_write_child, or_fail. steps_tac. Qed.
#[local] Hint Resolve dir_append_keeps : steps.

Lemma add_child_loop_takes fuel parent child : ∀ d start,
  takes refs d (add_child_loop fuel parent child start) (λ res d', d ≤ d' ∧ (res = 0 → d' = d)) (λ _ d', d ≤ d').
Proof.
  induction fuel as [|fuel IH]; intros d start; cbn [add_child_loop]; refs_tac.
Qed.
#[local] Hint Resolve add_child_loop_takes : refs.

Lemma spfs_add_child_takes e p child d : takes refs d (spfs_add_child e p child) (λ _ d', d' = d) (λ _ d', d ≤ d').
Proof. unfold spfs_add_child. refs_tac. Qed.
#[local] Hint Resolve spfs_add_child_takes : refs.
Lemma spfs_create_takes e p subject mode d :
  takes refs d (spfs_create e p subject mode) (λ _ d', d' = d) (λ _ d', d ≤ d').
Proof. unfold spfs_create. refs_tac. Qed.
Lemma spfs_mkdir_takes e p subject mode d :
  takes refs d (spfs_mkdir e p subject mode) (λ _ d', d' = d) (λ _ d', d ≤ d').
Proof. unfold spfs_mkdir. refs_tac. Qed.

(** ** Walking a directory *)
(** [P] holds of the closure as long as the callback goes on. *)
Section walk.
Context {C : Type} (f : for_all_cb (D := D) (K := K) C) (P : C → Prop).
Hypothesis Hf : ∀ d c cur, P c →
  takes refs d (f c cur) (λ r d', d' = d ∧ (r.2 = true → P r.1)) (λ _ d', d' = d).

Lemma block_children_takes fuel e n : ∀ d bh_pos i children c, P c →
  takes refs d (block_children fuel e f n bh_pos i children c)
    (λ r d', match r.2 with
             | Some res => res = 0 ∧ d' = d - 1 ∨ res < 0 ∧ d' = d ∧ P r.1
             | None => d' = d ∧ P r.1
             end) (λ _ d', d' = d).
Proof using Hf.
  induction fuel as [|fuel IH]; intros d bh_pos i children c Hc; cbn [block_children]; refs_tac.
  all: match goal with H : _ = _ ∧ (_ → P _) |- _ => destruct H as [-> HP] end; cbn [fst snd] in HP; auto.
Qed.

Lemma parse_block_takes n d :
  takes refs d (catch (zoom v_bufs_lens (in_bh n 0 spfs_parse_dir_block)))
    (λ r d', d' = d ∧ match r with inl e => e ≠ 0 | inr _ => True end) (λ _ _, False).
Proof using.
  apply takes_catch, (takes_zoom _ b_refs); [through_side|]. intros s. unfold in_bh.
  destruct (bc_data (b_dev s) n) as [b|]; [|done]. pose proof (parse_dir_block_errs (Cursor b 0)) as H.
  destruct (spfs_parse_dir_block _); cbn in *; split_and?; done || lia.
Qed.
#[local] Hint Resolve parse_block_takes : refs.

Lemma chain_children_takes fuel e : ∀ d child_list c, P c →
  takes refs d (chain_children fuel e f child_list c)
    (λ r d', d ≤ d' ≤ d + 1 ∧ (r.2 = 0 → d' = d) ∧ (P r.1 ∨ d' = d)) (λ _ d', d ≤ d').
Proof using Hf.
  induction fuel as [|fuel IH]; intros d child_list c Hc; cbn [chain_children]; refs_tac.
  destruct H as [-> _].
  eapply takes_bind; [by apply block_children_takes|refs_side|]. intros [c' [res|]] d' Hb; cbn [fst snd] in Hb.
  - apply takes_ret. cbn [fst snd]. destruct Hb as [[-> ->]|(Hres & -> & HP)]; (split; [lia|]; split; [lia|]); [right; lia|by left].
  - destruct Hb as [-> HP]. apply takes_brelse_in; [through_side|]. replace (d + 1 - 1) with d by lia. by apply IH.
Qed.

Lemma for_all_children_takes e p c d : P c →
  takes refs d (spfs_for_all_children e p c f)
    (λ r d', d ≤ d' ≤ d + 1 ∧ (r.2 = 0 → d' = d) ∧ (P r.1 ∨ d' = d)) (λ _ d', d ≤ d').
Proof using Hf.
  intros Hc. pose proof (chain_children_takes (e_fuel e) e). unfold spfs_for_all_children. refs_tac.
Qed.
End walk.

(** Only a search that fails can keep a buffer. *)
Lemma spfs_lookup_takes e p dent d :
  takes refs d (spfs_lookup e p dent) (λ r d', d ≤ d' ≤ d + 1 ∧ (is_Some r → d' = d)) (λ _ d', d ≤ d').
Proof.
  unfold spfs_lookup, spfs_inode_by_name.
  apply (takes_bind _ _ _ _ (λ r d', d ≤ d' ≤ d + 1 ∧ (is_Some r → d' = d)) (λ _ d', d ≤ d')); [|done|].
  - eapply takes_bind; [apply (for_all_children_takes _ (λ c, fd_result c = None)); [|done]|done|].
    + intros d' c cur Hc. unfold spfs_inode_by_name_cb. refs_tac.
    + intros [c res] d' (Hd & _ & HP). apply takes_ret. cbn [fst] in *. split; [lia|]. intros [n Hn].
      destruct HP; [congruence|lia].
  - intros [n|] d' [Hd Heq]; apply takes_ret; (split; [lia|]); [intros _; by apply Heq|by intros []].
Qed.

Lemma spfs_iterate_takes {X} {XX : DirContext X} e p (x : X) d :
  takes refs d (spfs_iterate e p x) (λ _ d', d ≤ d' ≤ d + 1) (λ _ d', d ≤ d').
Proof.
  unfold spfs_iterate. refs_tac.
  eapply takes_bind; [apply (for_all_children_takes _ (λ _, True)); [|done]|done|].
  - intros d' c cur _. unfold spfs_iterate_cb. refs_tac.
  - intros r d' (Hd & _). by apply takes_ret.
Qed.
End dirs.
#[export] Hint Resolve zoom_vbufs_keeps zoom_fs_keeps get_inode_keeps upd_inode_keeps
  spfs_inode_by_id_keeps spfs_new_inode_keeps : steps.

(** ** Mounting *)
Section mount.
Context {D K : Type} {B : BufferCache D} {BD : BlockDevice D} {KK : Kernel K}.
Abbreviation refs := (v_refs (D := D) (K := K)).

Lemma super_block_init_keeps n : steps (same (b_refs (D := D))) true (spfs_super_block_init n).
Proof. apply keeps_takes. unfold spfs_super_block_init. refs_tac. Qed.
Lemma set_blocksize_keeps bdev n : steps (same (b_refs (D := D))) true (spfs_set_blocksize bdev n).
Proof.
  intros s. unfold spfs_set_blocksize. destruct bdev; [|done].
  erewrite bind_ok by done. by destruct (bd_set_blocksize (b_dev s) n).
Qed.

Lemma free_init_entries_keeps mem n head : ∀ bh_pos,
  steps (same (io_refs (D := D))) true (free_init_entries mem n head bh_pos).
Proof. induction n; intros; cbn [free_init_entries]; steps_tac. Qed.

Lemma free_init_chain_takes mem fuel : ∀ d head,
  takes (io_refs (D := D)) d (free_init_chain mem fuel head) (λ _ d', d' = d) (λ _ d', d ≤ d').
Proof.
  pose proof (free_init_entries_keeps mem).
  induction fuel as [|fuel IH]; intros d head; cbn [free_init_chain]; refs_tac.
Qed.

Lemma mount_root_keeps e root : steps (same refs) true (mount_root e root).
Proof. unfold mount_root. steps_tac. Qed.

Lemma spfs_fill_super_block_takes e d :
  takes refs d (spfs_fill_super_block e) (λ _ d', d' = d) (λ _ d', d ≤ d').
Proof.
  pose proof super_block_init_keeps. pose proof set_blocksize_keeps. pose proof mount_root_keeps.
  unfold spfs_fill_super_block, spfs_free_init. refs_tac.
  apply (takes_bind _ _ _ _ (λ _ d', d' = d) (λ _ d', d ≤ d')); [|done|intros ? ? ->; refs_tac].
  apply (takes_zoom _ io_refs); [through_side|]. pose proof free_init_chain_takes. refs_tac.
Qed.
End mount.

(** ** Files *)
Section files.
Context {D : Type} {B : BufferCache D}.

Lemma read_extent_round_keeps start bh_pos length in_len pos read :
  steps (same (io_refs (D := D))) true (read_extent_round start bh_pos length in_len pos read).
Proof. unfold read_extent_round. steps_tac. Qed.

(** The loop is entered with the first block's buffer. *)
Lemma read_extent_loop_takes fuel : ∀ d start bh_pos length in_len pos read,
  takes (io_refs (D := D)) d (read_extent_loop fuel start bh_pos length in_len pos read)
    (λ _ d', d' = d - 1) (λ _ d', d - 1 ≤ d').
Proof.
  pose proof read_extent_round_keeps.
  induction fuel as [|fuel IH]; intros; cbn [read_extent_loop]; refs_tac.
Qed.
#[local] Hint Resolve read_extent_loop_takes : refs.

Lemma zoom_io_takes {A} d (m : M (bufs D * list byte) A) Q E :
  takes io_refs d m Q E → takes f_refs d (zoom f_io_lens m) Q E.
Proof. apply takes_zoom. through_side. Qed.
Lemma zoom_fbufs_takes {A} d (m : M (bufs D) A) Q E :
  takes b_refs d m Q E → takes f_refs d (zoom f_bufs_lens m) Q E.
Proof. apply takes_zoom. through_side. Qed.
#[local] Hint Resolve zoom_io_takes zoom_fbufs_takes : refs.

Lemma read_file_extent_takes fuel start in_len pos d :
  takes (io_refs (D := D)) d (spfs_read_file_extent fuel start in_len pos) (λ _ d', d' = d) (λ _ d', d ≤ d').
Proof. unfold spfs_read_file_extent. refs_tac. Qed.
#[local] Hint Resolve read_file_extent_takes : refs.

Lemma read_chain_takes fuel : ∀ start in_len pos read d,
  takes (f_refs (D := D)) d (read_chain fuel start in_len pos read) (λ _ d', d' = d) (λ _ d', d ≤ d').
Proof. induction fuel as [|fuel IH]; intros; cbn [read_chain]; refs_tac. Qed.
#[local] Hint Resolve read_chain_takes : refs.
Lemma spfs_read_takes fuel in_len d :
  takes (f_refs (D := D)) d (spfs_read fuel in_len) (λ _ d', d' = d) (λ _ d', d ≤ d').
Proof. unfold spfs_read. refs_tac. Qed.

Lemma do_write_keeps n bh_pos in_buf in_len ppos :
  steps (same (b_refs (D := D))) false (spfs_do_write n bh_pos in_buf in_len ppos).
Proof. unfold spfs_do_write. steps_tac. Qed.
#[local] Hint Resolve do_write_keeps : steps.

Lemma write_extent_loop_takes fuel : ∀ sz it end_ length in_buf in_len ppos dirty d,
  takes (b_refs (D := D)) d (write_extent_loop fuel sz it end_ length in_buf in_len ppos dirty)
    (λ _ d', d' = d) (λ _ d', d ≤ d').
Proof. induction fuel as [|fuel IH]; intros; cbn [write_extent_loop]; refs_tac. Qed.
#[local] Hint Resolve write_extent_loop_takes : refs.

Lemma write_file_extent_takes sz start in_buf in_len ppos extra d :
  takes (b_refs (D := D)) d (spfs_write_file_extent sz start in_buf in_len ppos extra)
    (λ _ d', d' = d) (λ _ d', d ≤ d').
Proof. unfold spfs_write_file_extent. refs_tac. Qed.
#[local] Hint Resolve write_file_extent_takes : refs.

Lemma write_chain_takes sz fuel : ∀ start in_buf in_len pos extra written d,
  takes (f_refs (D := D)) d (write_chain fuel sz start in_buf in_len pos extra written)
    (λ _ d', d' = d) (λ _ d', d ≤ d').
Proof.
  induction fuel as [|fuel IH]; intros; cbn [write_chain]; refs_tac.
Qed.
#[local] Hint Resolve write_chain_takes : refs.

Lemma zoom_ftree_takes {A} d (m : M (btree_st D) A) Q E :
  takes t_refs d m Q E → takes f_refs d (zoom f_tree_lens m) Q E.
Proof. apply takes_zoom. through_side. Qed.
Lemma modify_start_keeps fuel frame cur0 ino c :
  steps (same (f_refs (D := D))) true (zoom f_tree_lens (spfs_btree_modify fuel frame cur0 ino c spfs_modify_start_cb)).
Proof.
  apply (keeps_zoom _ t_refs); [through_side|]. apply spfs_btree_modify_keeps.
  intros c' i. unfold spfs_modify_start_cb. steps_tac.
Qed.
Lemma calc_extra_keeps fuel bs capacity pos len :
  steps (same (f_refs (D := D))) true (spfs_calc_extra_blocks fuel bs capacity pos len).
Proof. apply calc_extra_steps. apply _. Qed.
Lemma data_bytes_keeps bs n : steps (same (f_refs (D := D))) true (spfs_file_extent_data_bytes bs n).
Proof. unfold spfs_file_extent_data_bytes. steps_tac. Qed.
#[local] Hint Resolve zoom_ftree_takes : refs.
#[local] Hint Resolve modify_start_keeps calc_extra_keeps data_bytes_keeps : steps.

Lemma ensure_capacity_takes fuel frame cur0 sz pos len d :
  takes (f_refs (D := D)) d (spfs_ensure_capacity fuel frame cur0 sz pos len)
    (λ _ d', d' = d) (λ _ d', d ≤ d').
Proof. unfold spfs_ensure_capacity. refs_tac. Qed.
#[local] Hint Resolve ensure_capacity_takes : refs.

Lemma lock_interruptible_keeps b : steps (same (f_refs (D := D))) true (mutex_lock_interruptible b).
Proof. intros s. unfold mutex_lock_interruptible. by destruct (si_lock _), b. Qed.
#[local] Hint Resolve lock_interruptible_keeps : steps.

Lemma spfs_write_takes fuel frame cur0 intr sz buf d :
  takes (f_refs (D := D)) d (spfs_write fuel frame cur0 intr sz buf) (λ _ d', d' = d) (λ _ d', d ≤ d').
Proof. unfold spfs_write. refs_tac. Qed.
End files.

(** ** The property *)
(** [all] tells the results that stand for a complete success. *)
Definition settled {S A} (r : S → Z) (all : A → Prop) (s : S) (o : out S A) : Prop :=
  match o with
  | Ok a s' => r s ≤ r s' ≤ r s + 1 ∧ (all a → r s' = r s)
  | Err _ s' => r s ≤ r s'
  | Crash _ => True
  end.

Lemma takes_settled {S A} (r : S → Z) (m : M S A) (all : A → Prop) s :
  takes r 0 m (λ a d, 0 ≤ d ≤ 1 ∧ (all a → d = 0)) (λ _ d, 0 ≤ d) → settled r all s (m s).
Proof.
  intros Hm. specialize (Hm s). unfold settled. destruct (m s) as [a s'|e s'|]; [|lia|done].
  destruct Hm as [Hd Ha]. split; [lia|]. intros H%Ha. lia.
Qed.

Lemma all_settled {S A} (r : S → Z) (m : M S A) s :
  takes r 0 m (λ _ d, d = 0) (λ _ d, 0 ≤ d) → settled r (λ _, True) s (m s).
Proof. intros Hm. apply takes_settled. eapply takes_weaken; [exact Hm|..]; cbv beta; intros; lia. Qed.

Section settled.
Context {D K X : Type} {B : BufferCache D} {BD : BlockDevice D} {KK : Kernel K} {XX : DirContext X}.

(** C15: no operation of the driver gives back a buffer more often than it took it, and
    mounting, creating a file or a directory, and reading and writing a file give back all
    they took when they succeed, a write-back always, and a lookup when it finds the name.
    Only a lookup that finds nothing and a listing can keep one buffer and report no error:
    the walk over the children drops the block in which it meets damage. *)
Theorem buffers_given_back (s : vfs_st D K) (f : file_st D) me e p n dent mode (x : X) in_len intr sz buf :
  settled v_refs (λ _, True) s (spfs_fill_super_block me s) ∧
  settled v_refs (λ _, True) s (spfs_create e p dent mode s) ∧
  settled v_refs (λ _, True) s (spfs_mkdir e p dent mode s) ∧
  settled v_refs is_Some s (spfs_lookup e p dent s) ∧
  settled v_refs (λ _, False) s (spfs_iterate e p x s) ∧
  leaves (λ s', v_refs s' = v_refs s) (spfs_write_inode e n s) ∧
  settled f_refs (λ _, True) f (spfs_read (e_fuel e) in_len f) ∧
  settled f_refs (λ _, True) f (spfs_write (e_fuel e) (e_frame e) (e_cur0 e) intr sz buf f).
Proof.
  split_and!.
  - apply all_settled, spfs_fill_super_block_takes.
  - apply all_settled, spfs_create_takes.
  - apply all_settled, spfs_mkdir_takes.
  - apply takes_settled. eapply takes_weaken; [apply spfs_lookup_takes|done..].
  - apply takes_settled. eapply takes_weaken; [apply spfs_iterate_takes|cbv beta; intros; split; done || lia|done].
  - pose proof (spfs_write_inode_keeps e n s) as H. destruct (spfs_write_inode e n s); [exact H|apply H|done].
  - apply all_settled, spfs_read_takes.
  - apply all_settled, spfs_write_takes.
Qed.
End settled.

(** ** A concrete input: the first block of directory 1 is damaged, the listing succeeds
    and keeps its buffer. *)
Definition damaged_dir : vfs_st memdev memkernel := example_dir_vfs 64 (zeros 64) {[1]}.

Lemma listing_keeps_one :
  match spfs_iterate example_env 1 (MemDir 0 []) damaged_dir with
  | Ok _ s' => bool_decide (v_refs s' = 1)
  | _ => false
  end = true.
Proof. by vm_compute. Qed.
