(* ===== verification/Ops.v ===== *)
(** * sp.c, the tables of operations

    The VFS calls the driver through four tables of functions and the description of the
    file system.  [spfs_setup_inode_fp] gives each inode the table of its type; here the
    tables are records, with [None] for a function that is not set, and the table an
    inode has is always the one its type asks for: over any sequence of operations,
    reading and writing reach regular files only and listing reaches directories only.

    [generic_file_llseek], [generic_read_dir] and [kill_block_super] are kernel code. *)
From S2P Require Import Prelude Spec Util Buffers FreeList Inode Bnode Btree Extent File Super Vfs Dir Mkfs Mount Module Frame Locks Space.

(** ** The tables *)
Record inode_operations (D K : Type) := InodeOps {
  io_create : env → Z → dentry → Z → M (vfs_st D K) dentry;
  io_lookup : env → Z → dentry → M (vfs_st D K) (option dentry);
  io_mkdir : env → Z → dentry → Z → M (vfs_st D K) dentry;
}.
Arguments InodeOps {D K} _ _ _.
Arguments io_create {D K} _.
Arguments io_lookup {D K} _.
Arguments io_mkdir {D K} _.

Record file_operations (D K X : Type) := FileOps {
  fo_llseek : option (Z → Z → M (file_st D) Z);
  fo_read : option (env → Z → M (file_st D) Z);
  fo_write : option (env → bool → Z → list byte → M (file_st D) Z);
  fo_iterate : option (env → Z → X → M (vfs_st D K) X);
}.
Arguments FileOps {D K X} _ _ _ _.
Arguments fo_llseek {D K X} _.
Arguments fo_read {D K X} _.
Arguments fo_write {D K X} _.
Arguments fo_iterate {D K X} _.

Record super_operations (D K G F : Type) := SuperOps {
  so_alloc_inode : M (mod_st G) (option Z);
  so_destroy_inode : Z → M (mod_st G) unit;
  so_write_inode : env → Z → M (vfs_st D K) unit;
  so_put_super : M (option F) unit;
}.
Arguments SuperOps {D K G F} _ _ _ _.
Arguments so_alloc_inode {D K G F} _.
Arguments so_destroy_inode {D K G F} _.
Arguments so_write_inode {D K G F} _.
Arguments so_put_super {D K G F} _.

Record file_system_type (D K S T : Type) := FsType {
  ft_name : list byte;
  ft_requires_dev : bool;
  ft_mount : (M (vfs_st D K) Z → S) → mount_env → S;
  ft_kill_sb : T;
}.
Arguments FsType {D K S T} _ _ _ _.
Arguments ft_mount {D K S T} _.

Section tables.
Context {D K X G : Type} {B : BufferCache D} {BD : BlockDevice D} {KK : Kernel K} {XX : DirContext X}
  {MK : ModuleKernel G}.
Variable generic_file_llseek : Z → Z → M (file_st D) Z.
Variable generic_read_dir : Z → M (file_st D) Z.

Definition spfs_inode_ops : inode_operations D K := InodeOps spfs_create spfs_lookup spfs_mkdir.

Definition spfs_file_operations : file_operations D K X :=
  FileOps None (Some (λ e, spfs_read (e_fuel e)))
    (Some (λ e, spfs_write (e_fuel e) (e_frame e) (e_cur0 e))) None.

Definition spfs_dir_operations : file_operations D K X :=
  FileOps (Some generic_file_llseek) (Some (λ _, generic_read_dir)) None (Some spfs_iterate).

Definition spfs_super_ops {F} : super_operations D K G F :=
  SuperOps spfs_alloc_inode spfs_free_inode spfs_write_inode spfs_put_super.

(** ["spfs"] *)
Definition spfs_fs_type {S T} (kill_block_super : T) : file_system_type D K S T :=
  FsType [x73; x70; x66; x73] true spfs_mount kill_block_super.

(** The table behind [inode->i_fop] *)
Definition fops_table (t : spfs_fops) : file_operations D K X :=
  match t with
  | spfs_file_ops => spfs_file_operations
  | spfs_dir_ops => spfs_dir_operations
  end.
End tables.

(** ** Every inode has the table of its type *)
Definition serves (t : spfs_fops) (mode : Z) : bool :=
  match t with spfs_file_ops => S_ISREG mode | spfs_dir_ops => S_ISDIR mode end.

Section fit.
Context {D K : Type} {B : BufferCache D} {KK : Kernel K} {KL : KernelLaws K}.
Implicit Types (s : vfs_st D K) (P : Z → Prop).

Definition fit s (n : Z) : Prop :=
  ∃ t, v_fops s !! n = Some t ∧ serves t (i_mode (i_inode (k_inode (v_cache s) n))) = true.
Definition fits_on P s : Prop := ∀ n, P n → k_cached (v_cache s) n = true → fit s n.

(** Of all inodes in the cache, and of all but the one that is being made *)
Abbreviation ops_fit := (fits_on (λ _, True)).
Abbreviation ops_fit_but n := (fits_on (λ m, m ≠ n)).

Abbreviation keeps P m := (steps (keeping (fits_on P)) true m).

Lemma fits_same P s s' :
  v_fops s' = v_fops s →
  (∀ n, k_cached (v_cache s') n = k_cached (v_cache s) n ∧
        (P n → i_mode (i_inode (k_inode (v_cache s') n)) = i_mode (i_inode (k_inode (v_cache s) n)))) →
  fits_on P s → fits_on P s'.
Proof using.
  intros Hf Hc Hs n Hn. destruct (Hc n) as [-> Hm]. intros Hcn. destruct (Hs n Hn Hcn) as (t & Ht & Hsv).
  exists t. by rewrite Hf, Hm.
Qed.

(** Code that reaches neither the cache nor the tables *)
Lemma off_fits {A} P (m : M (vfs_st D K) A) :
  steps (same (λ s, (v_cache s, v_fops s))) true m → keeps P m.
Proof using.
  apply steps_sub. unfold same, keeping. intros s s' H Hs. injection H as Hc Hf.
  apply (fits_same P s); [done| |done]. intros n. by rewrite Hc.
Qed.

Lemma get_inode_fits P n : keeps P (get_inode n).
Proof using. apply off_fits. unfold get_inode. steps_tac. Qed.

Lemma upd_inode_fits P n f :
  (P n → ∀ i, i_mode (i_inode (f i)) = i_mode (i_inode i)) → keeps P (upd_inode n f).
Proof using KL.
  intros Hf s. cbn. unfold keeping. apply fits_same; [done|]. intros m. cbn. rewrite k_cached_set.
  split; [done|]. intros Hm. destruct (decide (n = m)) as [<-|Hne].
  - rewrite k_inode_set. by apply Hf.
  - by rewrite k_inode_set_ne.
Qed.

Lemma lock_fits P n b s : fits_on P s → fits_on P (lset (v_lock n) b s).
Proof using KL. pose proof (upd_inode_fits P n (set_lock b)) as H. by apply (H (λ _ _, eq_refl) s). Qed.
Lemma mutex_lock_fits P n : keeps P (mutex_lock (v_lock n)).
Proof using KL. apply steps_lock. intros s. exact (lock_fits P n true s). Qed.
Lemma mutex_unlock_fits P n : keeps P (mutex_unlock (v_lock n)).
Proof using KL. apply steps_unlock. intros s. exact (lock_fits P n false s). Qed.

Lemma unlock_new_fits P n : keeps P (unlock_new_inode n).
Proof using KL.
  intros s. cbn. unfold keeping. apply fits_same; [done|]. intros m. cbn. by rewrite k_cached_unlock_new, k_inode_unlock_new.
Qed.
Lemma mark_dirty_fits P n : keeps P (mark_inode_dirty n).
Proof using KL.
  intros s. cbn. unfold keeping. apply fits_same; [done|]. intros m. cbn. by rewrite k_cached_dirty, k_inode_dirty.
Qed.
Lemma off_cache_fits P {T A} (l : lens (vfs_st D K) T) (m : M T A) :
  (∀ s t, v_cache (lset l t s) = v_cache s ∧ v_fops (lset l t s) = v_fops s) → keeps P (zoom l m).
Proof using. intros Hl. apply off_fits, steps_zoom_off. intros s t. by destruct (Hl s t) as [-> ->]. Qed.
#[local] Hint Resolve get_inode_fits mutex_lock_fits mutex_unlock_fits unlock_new_fits mark_dirty_fits : steps.
#[local] Hint Extern 1 (steps _ _ (upd_inode _ _)) => apply upd_inode_fits; done : steps.
#[local] Hint Extern 2 (steps _ _ (zoom _ _)) => apply off_cache_fits; done : steps.
#[local] Hint Extern 1 (steps _ _ (mutex_lock v_tree_lock)) => apply off_fits; steps_tac : steps.
#[local] Hint Extern 1 (steps _ _ (mutex_unlock v_tree_lock)) => apply off_fits; steps_tac : steps.
#[local] Hint Extern 1 (steps _ _ (mutex_lock v_id_lock)) => apply off_fits; steps_tac : steps.
#[local] Hint Extern 1 (steps _ _ (mutex_unlock v_id_lock)) => apply off_fits; steps_tac : steps.

(** ** The inode that is being made *)
Lemma iget_locked_fits n s :
  ops_fit s →
  match iget_locked n s with
  | Ok (Some true) s' => ops_fit_but n s'
  | Ok _ s' => ops_fit s'
  | _ => True
  end.
Proof using KL.
  intros Hs. unfold iget_locked. destruct (k_iget_locked (v_cache s) n) as [[new k]|] eqn:E; [|done].
  destruct (k_cached (v_cache s) n) eqn:Hc.
  - rewrite k_iget_hit in E by done. injection E as <- <-. by apply (fits_same _ s).
  - destruct (k_iget_miss _ _ _ _ Hc E) as (-> & _ & _ & Hoth). intros m Hm. cbn.
    destruct (Hoth m Hm) as [Hi ->]. intros Hcm. destruct (Hs m I Hcm) as (t & Ht & Hsv).
    exists t. cbn. by rewrite Hi.
Qed.

Lemma iget_failed_fits n : triple (ops_fit_but n) (iget_failed n) ops_fit.
Proof using KL.
  intros s Hs m _. cbn. destruct (decide (m = n)) as [->|Hm]; [by rewrite k_cached_failed|].
  destruct (k_inode_failed_ne (v_cache s) n m) as [Hi ->]; [done|]. intros Hcm.
  destruct (Hs m Hm Hcm) as (t & Ht & Hsv). exists t. cbn. by rewrite Hi.
Qed.

Lemma setup_fits n : triple (ops_fit_but n) (spfs_setup_inode_fp n) ops_fit.
Proof using KL.
  intros s Hs. unfold spfs_setup_inode_fp. erewrite bind_ok by done.
  set (i := k_inode (v_cache s) n).
  assert (Hset : ∀ t, serves t (i_mode (i_inode i)) = true →
    ops_fit (lset v_fops_lens (<[n := t]> (v_fops s)) s)).
  { intros t Ht m _ Hc. destruct (decide (m = n)) as [->|Hm].
    - exists t. cbn. by rewrite lookup_insert_eq.
    - destruct (Hs m Hm Hc) as (t' & ? & ?). exists t'. cbn. by rewrite lookup_insert_ne. }
  destruct (S_ISREG (i_mode (i_inode i))) eqn:Hr; [by apply Hset|].
  destruct (S_ISDIR (i_mode (i_inode i))) eqn:Hd; [|done]. erewrite bind_ok by done.
  eapply steps_leaves; [apply upd_inode_fits|by apply Hset]. intros _ j. apply k_inc_nlink_mode.
Qed.

(** What [spfs_new_inode] and [spfs_inode_by_id] do once they have chosen the contents *)
Lemma made_fits n : triple (ops_fit_but n) (spfs_setup_inode_fp n;; unlock_new_inode n;; mret (PInode n)) ops_fit.
Proof using KL.
  apply (triple_bind _ ops_fit); [apply setup_fits|by left|]. intros _.
  apply (triple_steps _ true). steps_tac.
Qed.

Lemma fresh_fits parent mode n :
  triple (ops_fit_but n)
    ((match parent with
      | Some p =>
          dir ← get_inode p;
          k ← gets v_cache;
          upd_inode n (λ i, set_inode (k_inode_init_owner k (i_inode i) (i_inode dir) mode) i)
      | None => upd_inode n (λ i, set_inode (set_mode mode (i_inode i)) i)
      end);;
     now ← gets (λ s, k_current_time (v_cache s));
     upd_inode n (λ i, set_inode (set_times now (i_inode i)) i);;
     spfs_setup_inode_fp n;; unlock_new_inode n;; mret (PInode n)) ops_fit.
Proof using KL.
  assert (Hupd : ∀ f, steps (keeping (ops_fit_but n)) false (upd_inode n f)).
  { intros f s. exact (upd_inode_fits (λ m, m ≠ n) n f (λ H, False_ind _ (H eq_refl)) s). }
  apply (triple_bind _ (ops_fit_but n)).
  - apply (triple_steps _ true). destruct parent; steps_tac; eapply steps_weaken, Hupd.
  - right. destruct parent; unfold get_inode, upd_inode; steps_tac.
  - intros _. apply (triple_bind _ (ops_fit_but n)); [apply (triple_steps _ true); steps_tac|right; steps_tac|].
    intros now. apply (triple_bind _ (ops_fit_but n)); [eapply triple_steps, Hupd|right; unfold upd_inode; steps_tac|].
    intros _. apply made_fits.
Qed.

Lemma after_iget {A} n (k : option bool → M (vfs_st D K) A) :
  triple ops_fit (k None) ops_fit → triple (ops_fit_but n) (k (Some true)) ops_fit →
  triple ops_fit (k (Some false)) ops_fit → triple ops_fit (r ← iget_locked n; k r) ops_fit.
Proof using KL.
  intros H0 H1 H2 s Hs. pose proof (iget_locked_fits n s Hs) as H. unfold mbind, M_bind.
  unfold iget_locked in *. destruct (k_iget_locked (v_cache s) n) as [[[|] k']|]; auto.
Qed.

Lemma triple_first {A C} P Q (m : M (vfs_st D K) A) (k : A → M (vfs_st D K) C) :
  keeps P m → steps any false m → (∀ a, triple (fits_on P) (k a) (fits_on Q)) →
  triple (fits_on P) (m ≫= k) (fits_on Q).
Proof using.
  intros Hm He Hk. apply (triple_bind _ (fits_on P)); [by eapply triple_steps|by right|done].
Qed.

Lemma spfs_new_inode_fits parent mode : keeps (λ _, True) (spfs_new_inode parent mode).
Proof using KL.
  apply triple_keeping. unfold spfs_new_inode.
  do 4 (apply triple_first; [steps_tac..|]; intros ?). apply after_iget.
  - apply (triple_steps _ true). steps_tac.
  - apply fresh_fits.
  - apply (triple_bind _ ops_fit); [|right; unfold iget_failed; steps_tac|intros _; apply (triple_steps _ true); steps_tac].
    eapply triple_weaken; [apply iget_failed_fits| |done]. intros s Hs m _. by apply Hs.
Qed.

Lemma spfs_inode_by_id_fits e n : keeps (λ _, True) (spfs_inode_by_id e n).
Proof using KL.
  apply triple_keeping. unfold spfs_inode_by_id. apply after_iget; [apply (triple_steps _ true); steps_tac| |].
  - apply triple_first; [steps_tac..|]; intros _. apply triple_first; [steps_tac|unfold get_inode; steps_tac|].
    intros dest. apply triple_first; [apply steps_catch; steps_tac|steps_tac|]. intros res.
    apply triple_first; [steps_tac..|]; intros _. destruct res as [res|i].
    + apply (triple_bind _ ops_fit); [apply iget_failed_fits|by left|]. intros _.
      apply (triple_steps _ true). steps_tac.
    + apply triple_first; [|unfold upd_inode; steps_tac|intros _; apply made_fits].
      apply upd_inode_fits. intros H. by destruct (H eq_refl).
  - apply (triple_steps _ true). steps_tac.
Qed.
#[local] Hint Resolve spfs_new_inode_fits spfs_inode_by_id_fits : steps.

(** ** The operations *)
Abbreviation keeps_fit m := (keeps (λ _, True) m).

Section walk.
Context {C : Type} (f : for_all_cb (D := D) (K := K) C).
Hypothesis Hf : ∀ c cur, keeps_fit (f c cur).
#[local] Hint Resolve Hf : steps.

Lemma block_children_fits fuel e n : ∀ bh_pos i children c, keeps_fit (block_children fuel e f n bh_pos i children c).
Proof using KL Hf. induction fuel; intros; cbn [block_children]; steps_tac. Qed.
#[local] Hint Resolve block_children_fits : steps.
Lemma chain_children_fits fuel e : ∀ child_list c, keeps_fit (chain_children fuel e f child_list c).
Proof using KL Hf. induction fuel; intros; cbn [chain_children]; steps_tac. Qed.
#[local] Hint Resolve chain_children_fits : steps.
Lemma spfs_for_all_children_fits e p c : keeps_fit (spfs_for_all_children e p c f).
Proof using KL Hf. unfold spfs_for_all_children. steps_tac. Qed.
End walk.

Lemma spfs_lookup_fits e p dent : keeps_fit (spfs_lookup e p dent).
Proof using KL.
  unfold spfs_lookup, spfs_inode_by_name. steps_tac. apply spfs_for_all_children_fits.
  intros c cur. unfold spfs_inode_by_name_cb. steps_tac.
Qed.

Lemma spfs_iterate_fits {X} {XX : DirContext X} e p (x : X) : keeps_fit (spfs_iterate e p x).
Proof using KL.
  unfold spfs_iterate. steps_tac. apply spfs_for_all_children_fits.
  intros c cur. unfold spfs_iterate_cb. steps_tac.
Qed.

Lemma spfs_generic_create_fits e p subject mode : keeps_fit (spfs_generic_create e p subject mode).
Proof using KL. unfold spfs_generic_create. steps_tac. Qed.
Lemma add_child_loop_fits fuel parent child : ∀ start, keeps_fit (add_child_loop fuel parent child start).
Proof using KL. induction fuel; intros; cbn [add_child_loop]; steps_tac. Qed.
#[local] Hint Resolve spfs_generic_create_fits add_child_loop_fits : steps.
Lemma spfs_add_child_fits e p child : keeps_fit (spfs_add_child e p child).
Proof using KL. unfold spfs_add_child. steps_tac. Qed.
#[local] Hint Resolve spfs_add_child_fits : steps.
Lemma inc_nlink_fits p : keeps_fit (upd_inode p (λ i, set_inode (k_inc_nlink (i_inode i)) i)).
Proof using KL. apply upd_inode_fits. intros _ i. apply k_inc_nlink_mode. Qed.
#[local] Hint Resolve inc_nlink_fits : steps.
Lemma spfs_create_fits e p subject mode : keeps_fit (spfs_create e p subject mode).
Proof using KL. unfold spfs_create. steps_tac. Qed.
Lemma spfs_mkdir_fits e p subject mode : keeps_fit (spfs_mkdir e p subject mode).
Proof using KL. unfold spfs_mkdir. steps_tac. Qed.
Lemma spfs_write_inode_fits e n : keeps_fit (spfs_write_inode e n).
Proof using KL. unfold spfs_write_inode. steps_tac. Qed.

Lemma spfs_fill_super_block_fits {BD : BlockDevice D} e : keeps_fit (spfs_fill_super_block e).
Proof using KL. unfold spfs_fill_super_block, mount_root. steps_tac. Qed.
End fit.

(** Reading and writing leave the type of the open file as it is. *)
Section files.
Context {D : Type} {B : BufferCache D}.

Definition file_mode (f : file_st D) : Z := i_mode (i_inode (f_inode f)).
Abbreviation same_mode m := (steps (same file_mode) true m).

Lemma read_chain_mode fuel : ∀ start in_len pos read, same_mode (read_chain fuel start in_len pos read).
Proof using. induction fuel; intros; cbn [read_chain]; steps_tac. Qed.
#[local] Hint Resolve read_chain_mode : steps.
Lemma spfs_read_mode fuel in_len : same_mode (spfs_read fuel in_len).
Proof using. unfold spfs_read. steps_tac. Qed.

Lemma file_calc_extra_mode fuel bs capacity pos len : same_mode (spfs_calc_extra_blocks fuel bs capacity pos len).
Proof using. apply calc_extra_steps. typeclasses eauto. Qed.
Lemma lock_interruptible_mode b : same_mode (mutex_lock_interruptible b).
Proof using. intros s. unfold mutex_lock_interruptible. by destruct (si_lock _), b. Qed.
#[local] Hint Resolve file_calc_extra_mode lock_interruptible_mode : steps.
#[local] Hint Extern 1 (steps _ _ (zoom f_inode_lens (modify _))) => by intros s : steps.

Lemma spfs_ensure_capacity_mode fuel frame cur0 bs pos len :
  same_mode (spfs_ensure_capacity fuel frame cur0 bs pos len).
Proof using. unfold spfs_ensure_capacity, spfs_file_extent_data_bytes. steps_tac. Qed.
Lemma write_chain_mode bs fuel : ∀ start in_buf len pos extra written,
  same_mode (write_chain fuel bs start in_buf len pos extra written).
Proof using. induction fuel; intros; cbn [write_chain]; steps_tac. Qed.
#[local] Hint Resolve spfs_ensure_capacity_mode write_chain_mode : steps.
Lemma spfs_write_mode fuel frame cur0 i bs in_buf : same_mode (spfs_write fuel frame cur0 i bs in_buf).
Proof using. unfold spfs_write. steps_tac. Qed.
End files.

(** ** Every call of the VFS *)
Section calls.
Context {D K X : Type} {B : BufferCache D} {BD : BlockDevice D} {KK : Kernel K} {KL : KernelLaws K}
  {XX : DirContext X}.
Implicit Types (s : vfs_st D K).

Lemma file_put_fits P s id user ppos (f' : file_st D) :
  same file_mode (file_of s id user ppos) f' → fits_on P s → fits_on P (file_put s id f').
Proof using KL.
  intros Hm. apply fits_same; [done|]. intros n. cbn. rewrite k_cached_set. split; [done|]. intros _.
  destruct (decide (id = n)) as [<-|Hne]; [by rewrite k_inode_set|by rewrite k_inode_set_ne].
Qed.

Lemma vfs_step_fits e s s' : vfs_step (X := X) e s s' → fits_on (λ _, True) s → fits_on (λ _, True) s'.
Proof using KL.
  intros Hs. destruct Hs as [s p d mode s' E|s p d mode s' E|s p d s' E|s p x s' E|s id s' E
    |s id user ppos len f' E|s id user ppos i bs in_buf f' E].
  - apply (steps_ends (keeping (fits_on (λ _, True)))) in E; [exact E|apply spfs_create_fits].
  - apply (steps_ends (keeping (fits_on (λ _, True)))) in E; [exact E|apply spfs_mkdir_fits].
  - apply (steps_ends (keeping (fits_on (λ _, True)))) in E; [exact E|apply spfs_lookup_fits].
  - apply (steps_ends (keeping (fits_on (λ _, True)))) in E; [exact E|apply spfs_iterate_fits].
  - apply (steps_ends (keeping (fits_on (λ _, True)))) in E; [exact E|apply spfs_write_inode_fits].
  - eapply file_put_fits. apply (steps_ends (same file_mode)) in E; [exact E|apply spfs_read_mode].
  - eapply file_put_fits. apply (steps_ends (same file_mode)) in E; [exact E|apply spfs_write_mode].
Qed.

Variable generic_file_llseek : Z → Z → M (file_st D) Z.
Variable generic_read_dir : Z → M (file_st D) Z.
(** The kernel's function for reading a directory as a file reports that it is one. *)
Hypothesis generic_read_dir_eisdir : ∀ len f, generic_read_dir len f = Err (-21) f.

Definition i_fop s (n : Z) : option (file_operations D K X) :=
  fops_table generic_file_llseek generic_read_dir <$> v_fops s !! n.

(** A call goes to the function the table of the inode has for it, and is not made when
    there is none.  [mount_bdev] runs [spfs_fill_super_block]. *)
Inductive vfs_call (e : env) : relation (vfs_st D K) :=
| call_mount me s s' :
    ends_in (ft_mount (spfs_fs_type tt) (λ fill_super, fill_super) me s) s' → vfs_call e s s'
| call_create s p subject mode s' :
    ends_in (io_create spfs_inode_ops e p subject mode s) s' → vfs_call e s s'
| call_mkdir s p subject mode s' :
    ends_in (io_mkdir spfs_inode_ops e p subject mode s) s' → vfs_call e s s'
| call_lookup s p dent s' : ends_in (io_lookup spfs_inode_ops e p dent s) s' → vfs_call e s s'
| call_write_inode {G F} `{!ModuleKernel G} s n s' :
    ends_in (so_write_inode (spfs_super_ops (G := G) (F := F)) e n s) s' → vfs_call e s s'
| call_iterate s p ops f (x : X) s' :
    i_fop s p = Some ops → fo_iterate ops = Some f → ends_in (f e p x s) s' → vfs_call e s s'
| call_read s n ops f user ppos len f' :
    i_fop s n = Some ops → fo_read ops = Some f →
    ends_in (f e len (file_of s n user ppos)) f' → vfs_call e s (file_put s n f')
| call_write s n ops f user ppos i bs in_buf f' :
    i_fop s n = Some ops → fo_write ops = Some f →
    ends_in (f e i bs in_buf (file_of s n user ppos)) f' → vfs_call e s (file_put s n f').

Lemma vfs_call_fits e s s' : vfs_call e s s' → fits_on (λ _, True) s → fits_on (λ _, True) s'.
Proof using KL generic_read_dir_eisdir.
  intros Hs. destruct Hs as [me s s' E|s p d mode s' E|s p d mode s' E|s p d s' E|G F MK s n s' E
    |s p ops f x s' Ho Hf E|s n ops f user ppos len f' Ho Hf E|s n ops f user ppos i bs in_buf f' Ho Hf E].
  - apply (steps_ends (keeping (fits_on (λ _, True)))) in E; [exact E|apply spfs_fill_super_block_fits].
  - eapply (vfs_step_fits e), vfs_create, E.
  - eapply (vfs_step_fits e), vfs_mkdir, E.
  - eapply (vfs_step_fits e), vfs_lookup, E.
  - eapply (vfs_step_fits e), vfs_write_inode, E.
  - unfold i_fop in Ho. destruct (v_fops s !! p) as [[|]|]; [injection Ho as <-; done| |done].
    injection Ho as <-. injection Hf as <-. eapply (vfs_step_fits e), vfs_iterate, E.
  - unfold i_fop in Ho. destruct (v_fops s !! n) as [[|]|]; [| |done]; injection Ho as <-; injection Hf as <-.
    + eapply (vfs_step_fits e), vfs_read, E.
    + rewrite generic_read_dir_eisdir in E. cbn in E. rewrite <-E. by eapply file_put_fits.
  - unfold i_fop in Ho. destruct (v_fops s !! n) as [[|]|]; [|injection Ho as <-; done|done].
    injection Ho as <-. injection Hf as <-. eapply (vfs_step_fits e), vfs_write, E.
Qed.

(** C10: every inode in the cache has the operations of its type.  Whatever the VFS calls
    through the tables, mounting included, in any order and whether the calls succeed or
    fail half-way, an inode that is a regular file is read and written by the driver and
    cannot be listed, and one that is a directory is listed by the driver and can neither
    be read nor written; there are no inodes of another type. *)
Theorem calls_fit_types e s s' :
  rtc (vfs_call e) s s' → fits_on (λ _, True) s → ∀ n, k_cached (v_cache s') n = true →
  let mode := i_mode (i_inode (k_inode (v_cache s') n)) in
  ∃ ops, i_fop s' n = Some ops ∧
    ((S_ISREG mode = true ∧ fo_read ops = Some (λ e, spfs_read (e_fuel e)) ∧
      fo_write ops = Some (λ e, spfs_write (e_fuel e) (e_frame e) (e_cur0 e)) ∧ fo_iterate ops = None) ∨
     (S_ISDIR mode = true ∧ fo_read ops = Some (λ _, generic_read_dir) ∧ fo_write ops = None ∧
      fo_iterate ops = Some spfs_iterate)).
Proof using KL generic_read_dir_eisdir.
  intros Hrun Hs n Hn mode.
  assert (fits_on (λ _, True) s') as Hs' by (induction Hrun; [done|]; eauto using vfs_call_fits).
  destruct (Hs' n I Hn) as (t & Ht & Hserves). unfold i_fop. rewrite Ht. eexists. split; [reflexivity|].
  destruct t; [by left|by right].
Qed.
End calls.

(** ** Concrete inputs *)
Definition no_llseek (off whence : Z) : M (file_st bytedev) Z := err (-29).
Definition eisdir (len : Z) : M (file_st bytedev) Z := err (-21).

Definition state_after {S A} (r : out S A) (s : S) : S :=
  match r with Ok _ s' => s' | Err _ s' => s' | Crash _ => s end.

Definition example_mount : mount_env :=
  MountEnv (Env 2 zeros (blank_inode 0)) true true (λ _, true) 1000 1000.

(** Nothing in the inode cache; a device made by mkfs; the root directory listed *)
Definition before_mount : vfs_st bytedev memkernel :=
  unmounted (u_data (state_after (mkfs_main (zeros 1024) example_image) example_image)).
Definition after_mount : vfs_st bytedev memkernel :=
  state_after (spfs_fill_super_block example_mount before_mount) before_mount.
Definition after_list : vfs_st bytedev memkernel :=
  state_after (spfs_iterate (me_env example_mount) 1 (MemDir 0 []) after_mount) after_mount.

Lemma calls_fit_types_witness :
  rtc (vfs_call (X := memdir) no_llseek eisdir (me_env example_mount)) before_mount after_list ∧
  ∃ ops, i_fop (X := memdir) no_llseek eisdir after_list 1 = Some ops ∧
    fo_write ops = None ∧ fo_iterate ops = Some spfs_iterate.
Proof.
  assert (rtc (vfs_call (X := memdir) no_llseek eisdir (me_env example_mount)) before_mount after_list) as Hrun.
  { eapply rtc_l; [apply (call_mount _ _ _ example_mount before_mount after_mount); by vm_compute|].
    eapply rtc_l; [|constructor].
    apply (call_iterate no_llseek eisdir _ _ 1 (spfs_dir_operations no_llseek eisdir) spfs_iterate
             (MemDir 0 [])); [|reflexivity|by vm_compute].
    assert (v_fops after_mount !! 1 = Some spfs_dir_ops) as Ht by (vm_compute; reflexivity).
    exact (f_equal (fmap (fops_table no_llseek eisdir)) Ht). }
  split; [exact Hrun|].
  destruct (calls_fit_types no_llseek eisdir (λ _ _, eq_refl) (me_env example_mount) before_mount after_list Hrun)
    with (n := 1) as (ops & Ho & [(Hd & _)|(_ & _ & Hw & Hi)]).
  - intros n _ Hn. by destruct n.
  - by vm_compute.
  - exfalso. by vm_compute in Hd.
  - exists ops. split; [exact Ho|by split].
Defined.
