(* ===== verification/FsckMount.v ===== *)
(** * fsck and the mount agree

    fsck.spfs.c and the driver read the super block and the free list each in its own way:
    through [read(2)] at byte positions computed in 32 bits, and block by block through
    the buffer cache.  On a device of whole blocks whose free list is behind block 0 and
    whose free-list blocks keep within their block and within the first 4 GiB, fsck accepts
    exactly what the driver can read, and what fsck prints is what the driver mounts.  A
    free list at block 0 is empty for the driver, and fsck refuses it. *)
From stdpp Require Import strings.
From S2P Require Import Prelude Spec Util Buffers FreeList Inode Bnode Btree Super Vfs Mkfs Fsck Mount.
#[local] Open Scope Z_scope.

(** ** What a run of fsck that accepts has read *)
Lemma read_field_inv data f v f' :
  0 ≤ u_pos f → read_field data f = Ok (Some v) f' →
  u_pos f + 4 ≤ zlen (u_data f) ∧ v = be_combine (sub (u_pos f) 4 (u_data f)) ∧
  f' = set_data (u_data f) (u_pos f + 4) f.
Proof.
  intros Hp E. destruct (decide (u_pos f + 4 ≤ zlen (u_data f))) as [Hl|Hl].
  { rewrite read_field_ok in E by done. by injection E as <- <-. }
  exfalso. revert E. unfold read_field, fsck_read_u32, fd_read.
  set (r := Z.max 0 (Z.min 4 (zlen (u_data f) - u_pos f))). assert (0 ≤ r < 4) as Hr by lia.
  erewrite bind_ok; [|erewrite bind_ok by reflexivity; reflexivity]. fold r. cbv beta iota.
  assert (zlen (sub (u_pos f) r (u_data f)) ≤ r) as Hz.
  { unfold sub, zlen. rewrite length_take. lia. }
  rewrite bool_decide_eq_true_2 by lia. done.
Qed.

(** Reading a field that must be there, then going on *)
Lemma field_then_inv {A} data f (k : option Z → M ufile A) (a : A) f' :
  0 ≤ u_pos f → (read_field data ≫= k) f = Ok a f' →
  (∃ f1, k None f1 = Ok a f') ∨
  (u_pos f + 4 ≤ zlen (u_data f) ∧
   k (Some (be_combine (sub (u_pos f) 4 (u_data f)))) (set_data (u_data f) (u_pos f + 4) f) = Ok a f').
Proof.
  intros Hp (v & f1 & E & Hk)%bind_inv. destruct v as [v|]; [|left; by exists f1]. right.
  apply read_field_inv in E as (Hl & -> & ->); [|done]. by split.
Qed.

Ltac next_field H :=
  apply field_then_inv in H as [[? H]|[? H]]; [done| |cbn [set_data u_pos u_data]; lia];
  cbn [set_data u_pos u_data] in H.

Lemma read_header_inv f h f' :
  0 ≤ u_pos f → read_free_list_header f = Ok (Some h) f' → u_pos f + 12 ≤ zlen (u_data f).
Proof. intros Hp E. unfold read_free_list_header in E. do 3 next_field E. cbn in *. lia. Qed.

(** ** A free list at block 0 *)
Lemma read_field_total data f : ∃ v f', read_field data f = Ok v f' ∧ u_data f' = u_data f.
Proof. eexists _, _. by split. Qed.

Ltac total_field :=
  match goal with |- context [(read_field ?v ≫= ?k) ?f] =>
    let x := fresh "x" in let f' := fresh "f" in let E := fresh "E" in let Hf := fresh "Hf" in
    destruct (read_field_total v f) as (x & f' & E & Hf); rewrite (bind_ok _ _ _ _ _ E); destruct x; cbv beta iota
  end.

Lemma read_free_entry_total f : ∃ v f', read_free_entry f = Ok v f' ∧ u_data f' = u_data f.
Proof. unfold read_free_entry. repeat total_field; eexists _, _; (split; [done|congruence]). Qed.

Lemma fsck_entries_total n : ∀ f, ∃ v f', fsck_entries n f = Ok v f' ∧ u_data f' = u_data f.
Proof.
  induction n as [|n IH]; intros f; cbn [fsck_entries]; [by eexists _, _|].
  destruct (read_free_entry_total f) as (v & f1 & E & Hf). rewrite (bind_ok _ _ _ _ _ E).
  destruct v; [|by eexists _, _]. unfold print_free_entry. erewrite bind_ok by done.
  destruct (IH (say [free_entry_line s] f1)) as (w & f2 & E2 & Hf2). exists w, f2. split; [exact E2|]. cbn [say u_data] in Hf2. congruence.
Qed.

(** The header at a position, if the device has it *)
Lemma read_header_cases f :
  0 ≤ u_pos f → ∃ v f', read_free_list_header f = Ok v f' ∧ u_data f' = u_data f ∧
    (∀ h, v = Some h → flw_magic h = be_combine (sub (u_pos f) 4 (u_data f)) ∧
      flw_next h = be_combine (sub (u_pos f + 8) 4 (u_data f))).
Proof.
  intros Hp. destruct (decide (u_pos f + 12 ≤ zlen (u_data f))) as [Hl|Hl].
  { rewrite read_header_ok by done. eexists _, _. split_and!; [done..|]. by intros h [= <-]. }
  assert (∃ v f', read_free_list_header f = Ok v f' ∧ u_data f' = u_data f) as (v & f' & E & Hf).
  { unfold read_free_list_header. repeat total_field; eexists _, _; (split; [done|congruence]). }
  exists v, f'. split_and!; [done..|]. intros h ->. apply read_header_inv in E; [lia|done].
Qed.

(** A block without the magic number ends the check, and so does, one round later, a
    block that names such a block as the next one. *)
Lemma fsck_stops fuel super fl f :
  be_combine (sub (u32 (fl * w_block_size super)) 4 (u_data f)) ≠ SPFS_MAGIC →
  ∃ f', fsck_free_list_loop (S fuel) super fl f = Ok 1 f'.
Proof.
  intros Hm. cbn [fsck_free_list_loop]. set (pos := u32 _) in *.
  pose proof (u32_range (fl * w_block_size super)) as Hp. fold pos in Hp.
  assert (E1 : fd_lseek_set pos f = Ok pos (set_data (u_data f) pos f)) by (unfold fd_lseek_set; by decide_if).
  rewrite (bind_ok _ _ _ _ _ E1). decide_if.
  destruct (read_header_cases (set_data (u_data f) pos f)) as (v & f1 & E & _ & Hv); [cbn; lia|].
  rewrite (bind_ok _ _ _ _ _ E). destruct v as [h|]; [|by eexists].
  destruct (Hv h eq_refl) as [Hh _]. cbn [set_data u_pos u_data] in Hh. rewrite bool_decide_eq_true_2 by congruence. by eexists.
Qed.

Lemma fsck_stops_next fuel super fl next f :
  be_combine (sub (u32 (fl * w_block_size super) + 8) 4 (u_data f)) = next → next ≠ 0 →
  be_combine (sub (u32 (next * w_block_size super)) 4 (u_data f)) ≠ SPFS_MAGIC →
  ∃ f', fsck_free_list_loop (S (S fuel)) super fl f = Ok 1 f'.
Proof.
  intros Hnext Hne Hm. remember (S fuel) as k eqn:Hk. cbn [fsck_free_list_loop]. set (pos := u32 (fl * _)) in *.
  pose proof (u32_range (fl * w_block_size super)) as Hp. fold pos in Hp.
  assert (E1 : fd_lseek_set pos f = Ok pos (set_data (u_data f) pos f)) by (unfold fd_lseek_set; by decide_if).
  rewrite (bind_ok _ _ _ _ _ E1). decide_if.
  destruct (read_header_cases (set_data (u_data f) pos f)) as (v & f1 & E & Hf1 & Hv); [cbn; lia|].
  rewrite (bind_ok _ _ _ _ _ E). destruct v as [h|]; [|by eexists].
  destruct (Hv h eq_refl) as [_ Hh]. cbn [set_data u_pos u_data] in Hh, Hf1. rewrite Hnext in Hh.
  case_bool_decide; [by eexists|]. unfold print_free_header. erewrite bind_ok by done.
  destruct (fsck_entries_total (Z.to_nat (flw_entries h)) (say [free_header_line h] f1)) as (w & f2 & E2 & Hf2).
  rewrite (bind_ok _ _ _ _ _ E2). case_bool_decide; [by eexists|]. rewrite Hh, bool_decide_eq_true_2, Hk by done.
  apply fsck_stops. rewrite Hf2. cbn [say u_data]. by rewrite Hf1.
Qed.

(** ** The free list, read by both *)
(** The blocks of [bs] bytes of a device with the bytes [img] *)
Record device_holds {D} `{BufferCache D} (d : D) (bs : Z) (img : list byte) : Prop := {
  dv_data : ∀ m, 0 ≤ m → (m + 1) * bs ≤ zlen img → bc_data d m = Some (sub (m * bs) bs img);
  dv_end : ∀ m b, bc_data d m = Some b → 0 ≤ m ∧ (m + 1) * bs ≤ zlen img;
}.

Definition list_count (bs : Z) (img : list byte) (fl : Z) : Z := be_combine (sub (fl * bs + 4) 4 img).
Definition list_next (bs : Z) (img : list byte) (fl : Z) : Z := be_combine (sub (fl * bs + 8) 4 img).

(** Whole blocks, of at least the initial size, and free-list blocks that keep within
    their block and name blocks that start below 4 GiB *)
Record plain_lists (bs : Z) (img : list byte) : Prop := {
  pl_size : 512 ≤ bs;
  pl_whole : zlen img mod bs = 0;
  pl_lists : ∀ fl, 0 < fl → (fl + 1) * bs ≤ zlen img → be_combine (sub (fl * bs) 4 img) = SPFS_MAGIC →
    12 + 8 * list_count bs img fl ≤ bs ∧ list_next bs img fl * bs < 2 ^ 32;
}.

Definition entries_of (b : list byte) : list spfs_free_node :=
  (λ i : nat, let off := 12 + 8 * Z.of_nat i in
     FreeNode (be_combine (sub off 4 b)) (be_combine (sub (off + 4) 4 b)))
    <$> seq 0 (Z.to_nat (be_combine (sub 4 4 b))).

(** ** What is printed of a chain *)
Definition node_line (m : spfs_free_node) : string := free_entry_line (FreeEntry (fn_start m) (fn_blocks m)).

(** A chain of free-list blocks on the device, with its entries, the lines that report it
    and its length *)
Inductive fl_report {D} `{BufferCache D} (d : D) : Z → list spfs_free_node → list string → nat → Prop :=
| fl_report_end : fl_report d 0 [] [] 0
| fl_report_block head b entries next rest ls k :
    head ≠ 0 → bc_data d head = Some b → fl_block b entries next → fl_report d next rest ls k →
    fl_report d head (entries ++ rest)
      ((free_header_line (FreeListWire SPFS_MAGIC (zlen entries) next) :: (node_line <$> entries)) ++ ls) (S k).

Lemma fl_report_chain {D} `{BufferCache D} (d : D) head entries ls k :
  fl_report d head entries ls k → fl_chain d head entries k.
Proof. induction 1; [constructor|by econstructor]. Qed.

Lemma zlen_entries_of b : zlen (entries_of b) = be_combine (sub 4 4 b).
Proof. pose proof (be_combine_range (sub 4 4 b)). unfold zlen, entries_of. rewrite length_fmap, length_seq. lia. Qed.

Lemma fl_block_entries b :
  be_combine (sub 0 4 b) = SPFS_MAGIC → 12 + 8 * be_combine (sub 4 4 b) ≤ zlen b → 16 ≤ zlen b →
  fl_block b (entries_of b) (be_combine (sub 8 4 b)).
Proof.
  intros Hm Hl Hz. pose proof (zlen_entries_of b) as Hlen. split_and!; rewrite ?Hlen; try done.
  intros i m Hi. unfold entries_of in Hi. apply list_lookup_fmap_Some in Hi as (j & -> & Hj).
  apply lookup_seq in Hj as [-> _]. done.
Qed.

Section agree.
Context {D : Type} {B : BufferCache D} (d : D) (bs : Z) (img : list byte).
Hypothesis Hd : device_holds d bs img.
Hypothesis Hpl : plain_lists bs img.
Implicit Types (super : spfs_super_block_wire) (f : ufile).

Lemma block_fields fl off : 0 ≤ fl → 0 ≤ off → off + 4 ≤ bs →
  sub off 4 (sub (fl * bs) bs img) = sub (fl * bs + off) 4 img.
Proof using Hpl. pose proof (pl_size _ _ Hpl). intros. rewrite sub_sub by lia. f_equal; lia. Qed.

Lemma list_next_range fl : 0 ≤ list_next bs img fl.
Proof using. apply be_combine_range. Qed.

Lemma block_lines_of fl :
  0 ≤ fl → 12 + 8 * list_count bs img fl ≤ bs → be_combine (sub (fl * bs) 4 img) = SPFS_MAGIC →
  let entries := entries_of (sub (fl * bs) bs img) in
  block_lines img (fl * bs) =
    free_header_line (FreeListWire SPFS_MAGIC (zlen entries) (list_next bs img fl)) :: (node_line <$> entries).
Proof using Hpl.
  intros Hfl Hcount Hm entries. pose proof (pl_size _ _ Hpl).
  assert (zlen entries = list_count bs img fl) as Hz.
  { unfold entries, list_count. rewrite zlen_entries_of, block_fields by lia. done. }
  unfold block_lines, list_next. rewrite Hm, Hz. f_equal. unfold entries, entries_of, entry_lines.
  rewrite (block_fields fl 4) by lia. fold (list_count bs img fl).
  rewrite <-list_fmap_compose. apply list_fmap_ext. intros i x [-> Hi]%lookup_seq. unfold node_line, entry_in, compose.
  rewrite !block_fields by lia. cbn [fn_start fn_blocks Nat.add]. by rewrite !Z.add_assoc.
Qed.

Lemma fsck_then_chain fuel super : ∀ fl f f',
  w_block_size super = bs → u_data f = img → 0 < fl → fl * bs < 2 ^ 32 →
  fsck_free_list_loop fuel super fl f = Ok 0 f' →
  ∃ entries ls k, fl_report d fl entries ls k ∧ (0 < k ≤ fuel)%nat ∧ u_out f' = u_out f ++ ls.
Proof using Hd Hpl.
  pose proof (pl_size _ _ Hpl) as Hbs. pose proof (pl_whole _ _ Hpl) as Hwhole.
  induction fuel as [|fuel IH]; intros fl f f' Hw Hf Hfl Hlt E; [done|]. pose proof E as E0.
  cbn [fsck_free_list_loop] in E. rewrite Hw, u32_small in E by nia.
  assert (E1 : fd_lseek_set (fl * bs) f = Ok (fl * bs) (set_data img (fl * bs) f)).
  { unfold fd_lseek_set. rewrite bool_decide_eq_false_2 by nia. by rewrite Hf. }
  rewrite (bind_ok _ _ _ _ _ E1), bool_decide_eq_false_2 in E by nia. clear E1.
  apply bind_inv in E as ([h|] & f1 & Eh & E); [|done].
  pose proof (read_header_inv (set_data img (fl * bs) f) h f1 ltac:(cbn [set_data u_pos]; nia) Eh) as Hin. cbn [set_data u_pos u_data] in Hin.
  rewrite read_header_ok in Eh by (cbn [set_data u_pos u_data]; nia). injection Eh as <- <-.
  cbn [set_data u_pos u_data flw_magic flw_entries flw_next] in E.
  assert ((fl + 1) * bs ≤ zlen img) as Hblk.
  { apply Z.div_exact in Hwhole; [|lia]. set (q := zlen img `div` bs) in *.
    assert (fl < q) by (apply Z.nle_gt; intros Hq; nia). nia. }
  case_bool_decide as Hm; [done|]. clear E.
  destruct (pl_lists _ _ Hpl fl Hfl Hblk Hm) as [Hcount Hnext].
  pose proof (dv_data _ _ _ Hd fl ltac:(lia) Hblk) as Hb. set (b := sub (fl * bs) bs img) in *.
  assert (zlen b = bs) as Hz by (apply zlen_sub; nia).
  assert (fl_block b (entries_of b) (list_next bs img fl)) as Hfb.
  { unfold list_next. rewrite <-block_fields by lia. fold b. apply fl_block_entries; [| |lia].
    - unfold b. rewrite block_fields by lia. by rewrite Z.add_0_r.
    - rewrite Hz. unfold b. rewrite block_fields by lia. exact Hcount. }
  pose proof (fsck_round fuel super fl f) as E. cbv zeta in E. rewrite Hw, Hf, u32_small in E by nia.
  specialize (E Hm). fold (list_count bs img fl) (list_next bs img fl) in E. rewrite E in E0 by nia. clear E.
  rewrite block_lines_of in E0 by (done || lia). fold b in E0. case_bool_decide as Hn.
  - pose proof (list_next_range fl).
    match type of E0 with _ _ _ _ ?f1 = _ => destruct (IH (list_next bs img fl) f1 f') as (entries & ls & k & Hk & Hle & Ho) end;
      [done|done|lia|done|exact E0|].
    do 3 eexists. split; [by eapply fl_report_block; [lia|done..]|]. split; [lia|].
    rewrite Ho. cbn [set_data say u_out]. by rewrite <-app_assoc.
  - assert (list_next bs img fl = 0) as H0 by lia. rewrite H0 in *.
    do 3 eexists. split; [eapply fl_report_block; [lia|done..|constructor]|]. split; [lia|].
    injection E0 as <-. cbn [set_data say u_out]. by rewrite app_nil_r.
Qed.

Lemma chain_then_fsck super fl entries k :
  fl_chain d fl entries k → ∀ fuel f,
  w_block_size super = bs → u_data f = img → fl ≠ 0 → fl * bs < 2 ^ 32 → (k ≤ fuel)%nat →
  ∃ f', fsck_free_list_loop fuel super fl f = Ok 0 f'.
Proof using Hd Hpl.
  pose proof (pl_size _ _ Hpl) as Hbs.
  induction 1 as [|fl b es next rest k Hne Hb Hblk Hc IH]; intros fuel f Hw Hf Hfl Hlt Hk; [done|].
  destruct fuel as [|fuel]; [lia|]. destruct (dv_end _ _ _ Hd fl b Hb) as [H0 Hin].
  pose proof (dv_data _ _ _ Hd fl H0 Hin) as Hb'. rewrite Hb in Hb'. injection Hb' as Hbe.
  destruct Hblk as (Hm & Hcount & Hnext & _). rewrite Hbe in Hm, Hcount, Hnext.
  rewrite block_fields in Hm, Hcount, Hnext by lia. rewrite Z.add_0_r in Hm.
  destruct (pl_lists _ _ Hpl fl ltac:(lia) Hin Hm) as [Hfit Hsmall].
  unfold list_count, list_next in Hfit, Hsmall. rewrite Hcount in Hfit. rewrite Hnext in Hsmall.
  pose proof (fsck_round fuel super fl f) as E. cbv zeta in E. rewrite Hw, Hf, u32_small in E by nia.
  specialize (E Hm). rewrite Hcount, Hnext in E. specialize (E ltac:(nia)). rewrite E.
  case_bool_decide; [|by eexists]. apply IH; done || lia.
Qed.
End agree.

(** ** The super block, read by both *)
Definition img_super (img : list byte) : spfs_super_block := super_of_block (sub 0 512 img).

(** An image whose super block describes device [d] *)
Record plain_image {D} `{BufferCache D} (d : D) (img : list byte) : Prop := {
  pi_lists : plain_lists (sb_block_size (img_super img)) img;
  pi_device : device_holds d (sb_block_size (img_super img)) img;
  pi_head : 0 < sb_free_list_offset (img_super img);
  pi_head_max : sb_free_list_offset (img_super img) * sb_block_size (img_super img) < 2 ^ 32;
}.

(** What fsck decides from the super block *)
Lemma fsck_main_super fuel super0 g :
  512 ≤ zlen (u_data g) →
  let sb := img_super (u_data g) in
  (∃ super g1, w_block_size super = sb_block_size sb ∧ u_data g1 = u_data g ∧
    u_out g1 = u_out g ++ [super_line (wire_super (w_dummy super0) (w_blocks super0) (u_data g))] ∧
    fsck_main fuel super0 g =
      if decide (good_super (sub 0 512 (u_data g)) ∧ sb_block_size sb mod 512 = 0)
      then (res ← fsck_free_list_loop fuel super (sb_free_list_offset sb);
            if bool_decide (res ≠ 0) then mret 1 else mret 0) g1
      else Ok 1 g1).
Proof.
  intros Hl sb. set (img := u_data g) in *.
  assert (Hf : ∀ off, 0 ≤ off → off + 4 ≤ 512 → sub off 4 (sub 0 512 img) = sub off 4 img).
  { intros. rewrite sub_sub by lia. by rewrite Z.add_0_l. }
  unfold fsck_main. erewrite bind_ok by (apply read_super_block_ok; fold img; lia). fold img.
  set (super := wire_super _ _ _).
  assert (w_magic super = sb_magic sb ∧ w_block_size super = sb_block_size sb ∧
          w_free_list_offset super = sb_free_list_offset sb) as (Hm & Hb & Hh).
  { unfold sb, img_super, super_of_block, super, wire_super.
    cbn [w_magic w_block_size w_free_list_offset sb_magic sb_block_size sb_free_list_offset].
    split_and!; f_equal; symmetry; apply Hf; lia. }
  exists super, (set_data img 28 (say [super_line super] g)). do 3 (split; [done|]).
  unfold fsck_super_block, fsck_free_list, good_super. fold (img_super img). fold sb. rewrite Hm, Hb, Hh.
  unfold SPOOKY_FS_INITIAL_BLOCK_SIZE.
  repeat case_bool_decide; case_decide; try done; try (exfalso; tauto || lia).
Qed.

Section both.
Context {D K : Type} {B : BufferCache D} {BD : BlockDevice D} {KK : Kernel K}.
Implicit Types (s : vfs_st D K).

(** The two directions of the agreement; for a run that accepts, with what it prints *)
Lemma fsck_accepts (d : D) fuel super0 g g' :
  let img := u_data g in
  512 ≤ zlen img → (good_super (sub 0 512 img) → plain_image d img) →
  fsck_main fuel super0 g = Ok 0 g' →
  good_super (sub 0 512 img) ∧ sb_block_size (img_super img) mod 512 = 0 ∧
  ∃ entries ls k, fl_report d (sb_free_list_offset (img_super img)) entries ls k ∧ (k ≤ fuel)%nat ∧
    u_out g' = u_out g ++ super_line (wire_super (w_dummy super0) (w_blocks super0) img) :: ls.
Proof using.
  intros img Hl Hp. destruct (fsck_main_super fuel super0 g Hl) as (super & g1 & Hw & Hg & Ho & ->).
  fold img in Hw, Hg, Ho |- *. case_decide as Hok; [|done].
  destruct Hok as [Hgood Hmod]. destruct (Hp Hgood) as [Hlists Hdev Hhead Hmax].
  intros (res & g2 & E & Hr)%bind_inv. case_bool_decide; [done|].
  assert (res = 0) as -> by lia. injection Hr as ->.
  destruct (fsck_then_chain d _ img Hdev Hlists fuel super _ g1 g' Hw Hg Hhead Hmax E)
    as (entries & ls & k & Hc & Hk & Ho'). split_and!; [done..|]. exists entries, ls, k.
  split_and!; [done|lia|]. by rewrite Ho', Ho, <-app_assoc.
Qed.

Lemma chain_accepted (d : D) fuel super0 g entries k :
  let img := u_data g in
  512 ≤ zlen img → plain_image d img →
  good_super (sub 0 512 img) → sb_block_size (img_super img) mod 512 = 0 →
  fl_chain d (sb_free_list_offset (img_super img)) entries k → (k ≤ fuel)%nat →
  ∃ g', fsck_main fuel super0 g = Ok 0 g'.
Proof using.
  intros img Hl [Hlists Hdev Hhead Hmax] Hgood Hmod Hc Hk.
  destruct (fsck_main_super fuel super0 g Hl) as (super & g1 & Hw & Hg & _ & ->). fold img in Hw, Hg |- *.
  rewrite decide_True by done.
  destruct (chain_then_fsck d _ img Hdev Hlists super _ entries k Hc fuel g1) as [g' E]; [done|done|lia|done..|].
  exists g'. by rewrite (bind_ok _ _ _ _ _ E).
Qed.

(** C16: on a plain image of at least 512 bytes fsck accepts exactly if the driver takes the super block, the block
    size is a multiple of 512, and the chain of free-list blocks can be read by the driver
    to its end; the rounds fsck needs are the blocks of the chain.  Plain means: if the super
    block is good, then the list starts behind block 0, the device is the whole blocks of
    the image, every free-list block keeps its entries within the block, and the list starts
    and goes on below 4 GiB.  Elsewhere they differ: on a list at block 0
    ([empty_list_disagrees]), on entries that run past their block, which fsck reads and
    the driver does not, and past 4 GiB, where fsck computes other positions. *)
Theorem fsck_agrees (d : D) fuel super0 g :
  let img := u_data g in
  512 ≤ zlen img → (good_super (sub 0 512 img) → plain_image d img) →
  (∃ g', fsck_main fuel super0 g = Ok 0 g') ↔
  good_super (sub 0 512 img) ∧ sb_block_size (img_super img) mod 512 = 0 ∧
  ∃ entries k, fl_chain d (sb_free_list_offset (img_super img)) entries k ∧ (k ≤ fuel)%nat.
Proof using.
  intros img Hl Hp. split.
  { intros [g' E]. destruct (fsck_accepts d fuel super0 g g' Hl Hp E) as (Hg & Hm & es & ls & k & Hr & Hk & _).
    split_and!; [done..|]. exists es, k. split; [by eapply fl_report_chain|done]. }
  intros (Hgood & Hmod & entries & k & Hc & Hk). by apply (chain_accepted d fuel super0 g entries k); auto.
Qed.

(** The state in which mounting turns to the root directory *)
Definition mount_ready (d : D) (r : Z) (super : spfs_super_block) (entries : list spfs_free_node)
    s : vfs_st D K :=
  lset v_sbi_lens super
    (lset v_fs_lens
       (BtreeSt (Bufs d r) (FreeList false (u32 (sum_blocks entries)) (reverse entries))
          (spfs_btree_init (sb_block_size super) (sb_btree_offset super))) s).

Context {BDL : BlockDeviceLaws D}.

Lemma mount_good_super e (d0 d1 d2 : D) r img k entries s :
  me_sbi_mem e = true → me_bdev e = true → (∀ i, me_node_mem e i = true) →
  t_bufs (v_fs s) = Bufs d0 r → bd_bytes d0 = img → 512 ≤ zlen img →
  bd_set_blocksize d0 512 = Some d1 → bd_set_blocksize d1 (sb_block_size (img_super img)) = Some d2 →
  good_super (sub 0 512 img) →
  fl_chain d2 (sb_free_list_offset (img_super img)) entries k → (k < e_fuel (me_env e))%nat →
  spfs_fill_super_block e s =
    mount_root e (sb_root_id (img_super img)) (mount_ready d2 r (img_super img) entries s).
Proof using BDL.
  intros Hm Hbd Hmem Hs Hbytes Hl Hd1 Hd2 Hgood Hc Hk. rewrite (fill_super_start e d0 d1 r s Hm Hbd Hs Hd1).
  pose proof (bd_set_bytes _ _ _ Hd1) as Hy1. pose proof (bd_set_bsize _ _ _ Hd1) as Hz1.
  assert (bc_data d1 0 = Some (sub 0 512 img)) as Hb by (rewrite bd_data; rewrite ?Hz1, ?Hy1, ?Hbytes; done || lia).
  erewrite bind_ok; cycle 1.
  { apply (super_init_ok (sub 0 512 img) d1 r); [done|rewrite zlen_sub; lia|done|done]. }
  fold (img_super img). unfold mount_rest, mount_ready. set (super := img_super img) in *.
  destruct s as [[bufs fl t] sbi cache fops]. cbn [v_fs t_bufs] in *. subst bufs. rewrite Hbd.
  erewrite bind_ok by done. erewrite bind_ok by (apply zoom_bufs_ok, set_blocksize_ok; exact Hd2).
  erewrite bind_ok by done.
  erewrite bind_ok by (apply zoom_ok; exact (spfs_free_init_ok _ Hmem _ entries k _ (Bufs d2 r) fl Hc Hk)).
  done.
Qed.

(** C17: a plain image of at least 512 bytes (as for [fsck_agrees]: if the super block is good, the list is
    behind block 0, below 4 GiB, its entries within their blocks, and the device is the
    whole blocks of the image) that fsck accepts, on a device that takes the block sizes
    512 and that of the super block (fsck asks only for a multiple of 512, and a
    device refuses 1536), can be mounted as far as its super block and its free
    list go, if memory suffices: the driver reads both without an error, its free list has
    exactly the entries of the chain, their total (modulo 2^32) as the number of free
    blocks, and mounting goes on to the root directory.  What fsck prints is that super
    block and, block by block, these entries. *)
Theorem fsck_then_mounts e (d0 d1 d2 : D) r fuel super0 g g' s :
  let img := u_data g in
  fsck_main fuel super0 g = Ok 0 g' → 512 ≤ zlen img → (good_super (sub 0 512 img) → plain_image d2 img) →
  me_sbi_mem e = true → me_bdev e = true → (∀ i, me_node_mem e i = true) →
  (fuel < e_fuel (me_env e))%nat → t_bufs (v_fs s) = Bufs d0 r → bd_bytes d0 = img →
  bd_set_blocksize d0 512 = Some d1 → bd_set_blocksize d1 (sb_block_size (img_super img)) = Some d2 →
  ∃ entries ls k, fl_report d2 (sb_free_list_offset (img_super img)) entries ls k ∧
    u_out g' = u_out g ++ super_line (wire_super (w_dummy super0) (w_blocks super0) img) :: ls ∧
    spfs_fill_super_block e s =
      mount_root e (sb_root_id (img_super img)) (mount_ready d2 r (img_super img) entries s).
Proof using BDL.
  intros img E Hl Hp Hm Hbd Hmem Hfuel Hs Hbytes Hd1 Hd2.
  destruct (fsck_accepts d2 fuel super0 g g' Hl Hp E) as (Hgood & _ & entries & ls & k & Hc & Hk & Ho).
  exists entries, ls, k. split; [exact Hc|]. split; [exact Ho|]. apply fl_report_chain in Hc. apply (mount_good_super e d0 d1 d2 r img k); done || lia.
Qed.
(** C40: on an image with a good super block, a block size that is a multiple of 512 and
    accepted by the device, and a free list at block 0 the two disagree.  For the driver
    the list is empty: if memory suffices it reads the super block and mounts on to the root
    directory with no free block.  Fsck takes the super block, whose magic number is the
    same, for a block of the list, with the version as the number of entries and the block
    size as the number of the next block; unless a free-list block happens to be where it
    looks for that one (its position is cut to 32 bits), it returns 1. *)
Theorem empty_list_disagrees e (d0 d1 d2 : D) r fuel super0 g s :
  let img := u_data g in
  let super := img_super img in
  512 ≤ zlen img → good_super (sub 0 512 img) → sb_block_size super mod 512 = 0 →
  sb_free_list_offset super = 0 →
  be_combine (sub (u32 (sb_block_size super * sb_block_size super)) 4 img) ≠ SPFS_MAGIC →
  me_sbi_mem e = true → me_bdev e = true → (∀ i, me_node_mem e i = true) →
  (0 < e_fuel (me_env e))%nat → t_bufs (v_fs s) = Bufs d0 r → bd_bytes d0 = img →
  bd_set_blocksize d0 512 = Some d1 → bd_set_blocksize d1 (sb_block_size super) = Some d2 →
  spfs_fill_super_block e s = mount_root e (sb_root_id super) (mount_ready d2 r super [] s) ∧
  ∃ g', fsck_main (S (S fuel)) super0 g = Ok 1 g'.
Proof using BDL.
  intros img super Hl Hgood Hmod Hfl Hm Hmem Hbd Hnode Hfuel Hs Hbytes Hd1 Hd2. split.
  { apply (mount_good_super e d0 d1 d2 r img 0); try done. fold super. rewrite Hfl. constructor. }
  destruct (fsck_main_super (S (S fuel)) super0 g Hl) as (w & g1 & Hw & Hg & _ & ->). fold img super in Hw, Hg |- *.
  rewrite decide_True, Hfl by done. destruct Hgood as [_ Hsize]. change (512 ≤ sb_block_size super) in Hsize.
  destruct (fsck_stops_next fuel w 0 (sb_block_size super) g1) as [g' E].
  - rewrite Hg. unfold super, img_super, super_of_block. cbn [sb_block_size]. rewrite sub_sub by lia. done.
  - lia.
  - by rewrite Hw, Hg.
  - exists g'. by rewrite (bind_ok _ _ _ _ _ E).
Qed.
End both.

(** ** A concrete image: three blocks of 512 bytes, a free list of two of them *)
Definition listed_image : list byte :=
  be_split 4 SPFS_MAGIC ++ be_split 4 1 ++ be_split 4 512 ++ be_split 4 1 ++ be_split 4 1 ++ be_split 4 0 ++
  be_split 4 1 ++ zeros 484 ++
  be_split 4 SPFS_MAGIC ++ be_split 4 1 ++ be_split 4 2 ++ be_split 4 10 ++ be_split 4 5 ++ zeros 492 ++
  be_split 4 SPFS_MAGIC ++ be_split 4 1 ++ be_split 4 0 ++ be_split 4 20 ++ be_split 4 3 ++ zeros 492.
Definition listed_file : ufile := UFile listed_image 0 512 1536 [].

Lemma bytedev_holds img bs : 0 < bs → device_holds (ByteDev img bs) bs img.
Proof.
  intros Hbs. split; cbn; intros m; unfold by_in; cbn.
  - intros. by rewrite decide_True.
  - intros b. case_decide as Hin; [|done]. intros _. tauto.
Qed.

Lemma listed_plain : plain_image (ByteDev listed_image 512) listed_image.
Proof.
  assert (sb_block_size (img_super listed_image) = 512) as Hb by by vm_compute.
  assert (zlen listed_image = 1536) as Hz by by vm_compute.
  split; rewrite ?Hb; [|by apply bytedev_holds|by vm_compute|by vm_compute].
  split; [lia|by rewrite Hz|]. intros fl H0 Hl _. rewrite Hz in Hl.
  assert (fl = 1 ∨ fl = 2) as [->| ->] by lia; split; vm_compute; congruence.
Qed.

Lemma fsck_agrees_witness :
  ∃ entries k, fl_chain (ByteDev listed_image 512) 1 entries k ∧ (k ≤ 2)%nat.
Proof.
  refine (proj2 (proj2 (proj1 (fsck_agrees (ByteDev listed_image 512) 2 example_super listed_file _ _) _)));
    [by vm_compute|intros _; exact listed_plain|eexists; by vm_compute].
Defined.

Lemma fsck_then_mounts_witness :
  ∃ entries, spfs_fill_super_block
      (MountEnv (Env 3 zeros (blank_inode 0)) true true (λ _, true) 1000 1000) (unmounted listed_image) =
    mount_root (MountEnv (Env 3 zeros (blank_inode 0)) true true (λ _, true) 1000 1000) 1
      (mount_ready (ByteDev listed_image 512) 0 (img_super listed_image) entries (unmounted listed_image)).
Proof.
  destruct (fsck_main 2 example_super listed_file) as [v g'| |] eqn:E;
    [assert (v = 0) as -> by (by vm_compute in E; congruence)|by vm_compute in E..].
  destruct (fsck_then_mounts (MountEnv (Env 3 zeros (blank_inode 0)) true true (λ _, true) 1000 1000)
    (ByteDev listed_image 1024) (ByteDev listed_image 512) (ByteDev listed_image 512) 0 2 example_super
    listed_file g' (unmounted listed_image)) as (entries & ls & k & _ & _ & H);
    [exact E|by vm_compute|intros _; exact listed_plain|done|done|done|cbn; lia|done|done|by vm_compute|by vm_compute|].
  exists entries. exact H.
Defined.

(** The same super block with a free list at block 0 *)
Definition unlisted_file : ufile :=
  UFile (be_split 4 SPFS_MAGIC ++ be_split 4 1 ++ be_split 4 512 ++ be_split 4 1 ++ be_split 4 1 ++
    be_split 4 0 ++ be_split 4 0 ++ zeros 484) 0 512 512 [].

Lemma empty_list_disagrees_witness :
  let e := MountEnv (Env 3 zeros (blank_inode 0)) true true (λ _, true) 1000 1000 in
  let s := unmounted (u_data unlisted_file) in
  spfs_fill_super_block e s =
    mount_root e 1 (mount_ready (ByteDev (u_data unlisted_file) 512) 0 (img_super (u_data unlisted_file)) [] s) ∧
  ∃ g', fsck_main 2 example_super unlisted_file = Ok 1 g'.
Proof.
  apply (empty_list_disagrees (MountEnv (Env 3 zeros (blank_inode 0)) true true (λ _, true) 1000 1000)
    (ByteDev (u_data unlisted_file) 1024) (ByteDev (u_data unlisted_file) 512) (ByteDev (u_data unlisted_file) 512)
    0 0 example_super unlisted_file (unmounted (u_data unlisted_file)));
    try done; cbn [me_env e_fuel]; lia.
Defined.
