(* ===== verification/System.v ===== *)
(** * The programs and the driver in sequence

    What one operation leaves behind is what the next one finds: a device is formatted,
    mounted, gets a first file, the file is looked up, read and written, and the device is
    mounted again. *)
From S2P Require Import Prelude Util Buffers FreeList Inode Bnode Btree Extent File FileWrite Super Vfs Dir Space Mkfs Mount.

(** A name in its zeroed field is the string the field holds. *)
Lemma c_string_padded name n : x00 ∉ name → 0 < n → c_string (name ++ zeros n) = Some name.
Proof.
  intros Hn Hpos. induction name as [|c name IH].
  - unfold zeros. destruct (Z.to_nat n) as [|m] eqn:E; [lia|done].
  - apply not_elem_of_cons in Hn as [Hc Hn]. cbn. rewrite decide_False by congruence. by rewrite IH.
Qed.

Section sequences.
Context {D K : Type} {B : BufferCache D} {L : BufferCacheLaws D} {KK : Kernel K} {KL : KernelLaws K}.
Implicit Types (s : vfs_st D K).

(** A directory nobody is working on that has no blocks yet *)
Definition empty_dir (i : spfs_inode) : Prop :=
  S_ISDIR (i_mode (i_inode i)) = true ∧ si_lock i = false ∧ si_start i = 0.

(** [spfs_create] is creation of the entry, and adding it to the directory. *)
Lemma spfs_create_ok e p subject mode s d1 n s1 s2 :
  S_ISREG mode = true → spfs_generic_create e p subject mode s = Ok d1 s1 → d_inode d1 = Some n →
  spfs_add_child e p n s1 = Ok tt s2 → spfs_create e p subject mode s = Ok d1 s2.
Proof using.
  intros Hm E1 Hn E2. unfold spfs_create. rewrite Hm. cbn [negb]. erewrite bind_ok by done.
  rewrite (bind_ok _ _ _ _ _ E1), Hn. by rewrite (bind_ok _ _ _ _ _ E2).
Qed.

(** Looking a name up in a directory with the one child [id] *)
Lemma lookup_single e d sz p x id name dent r s :
  S_ISDIR (i_mode (i_inode (k_inode (v_cache s) p))) = true →
  si_lock (k_inode (v_cache s) p) = false → si_start (k_inode (v_cache s) p) = x →
  t_bufs (v_fs s) = Bufs d r → dir_chain d sz x [(x, [id])] 3 → (3 < e_fuel e)%nat →
  k_cached (v_cache s) id = true → child_name s id = Some name → x00 ∉ d_name dent →
  ∃ s', same_vfs s s' ∧
    spfs_lookup e p dent s =
      Ok (if decide (d_name dent = name) then Some (k_d_add dent id) else None) s'.
Proof using L KL.
  intros Hdir Hl Hx Hb Hch Hf Hc Hn H0. exists (unlocked p (locked p s)).
  split; [by apply unlocked_locked|].
  assert (dir_ready e d sz p [(x, [id])] s) as Hready.
  { split; [done..|by exists r|]. exists 3%nat. by rewrite Hx. }
  rewrite (spfs_lookup_ok e d sz p [(x, [id])] dent s Hready);
    [|by repeat constructor|by repeat constructor; eauto|done].
  f_equal. change (dir_children [(x, [id])]) with [id].
  destruct (decide (d_name dent = name)) as [->|Hne].
  - by rewrite filter_cons_True.
  - rewrite filter_cons_False; [done|]. rewrite Hn. congruence.
Qed.

(** A file created in an empty directory of a file system with an empty tree is found by its
    name, and no other name is. *)
Lemma create_then_lookup fuel frame cur0 p subject mode s k1 d r fl page fl1 root fl2 x fl3 b0 bp :
  let e := Env (S fuel) frame cur0 in
  let id := sb_id (v_sbi s) in
  create_ready frame p mode k1 d r fl page fl1 root fl2 b0 bp s →
  S_ISREG mode = true → dir_id id → (3 ≤ fuel)%nat →
  zlen (d_name subject) < SPOOKY_FS_NAME_MAX → x00 ∉ d_name subject →
  empty_dir (k_inode (v_cache s) p) →
  spfs_free_alloc 1 fl2 = Ok x fl3 → x ≠ 0 → x ≠ page → bc_data d x = Some (zeros (bc_bsize d)) →
  ∃ s' d', spfs_create e p subject mode s = Ok (k_d_instantiate subject id) s' ∧
    t_bufs (v_fs s') = Bufs d' r ∧ bc_bsize d' = bc_bsize d ∧
    bc_data d' 0 = Some (new_root (bubble_make id page 0) 0 (bc_bsize d)) ∧
    v_fs s' = BtreeSt (Bufs d' r) fl3 (set_start root (t_tree (v_fs s))) ∧
    (∀ m, m ≠ 0 → m ≠ page → m ≠ x → bc_data d' m = bc_data d m) ∧
    made_of (k_inode k1 id) mode (k_inode (v_cache s') id) ∧
    ∀ dent, x00 ∉ d_name dent → ∃ s'', same_vfs s' s'' ∧
      spfs_lookup e p dent s' =
        Ok (if decide (d_name dent = d_name subject) then Some (k_d_add dent id) else None) s''.
Proof using L KL.
  intros e id Hready Hm Hid Hfuel Hlen H0 (Hdir & Hl & Hst) Ha Hx Hxp Hz.
  destruct (generic_create_first fuel frame cur0 p subject mode s k1 d r fl page fl1 root fl2 b0 bp)
    as (i & s1 & d1 & d2 & E1 & (Hi & Hci & Hoth) & Hino & Hname & Hfs & U1 & U2 & Hmade); [lia|done|].
  fold e id in E1, Hi, Hci, Hoth, Hino, U2. pose proof Hready as [_ _ Hp' _ _ _ _ _ _ _ _ _ _ _ _ Hbs _].
  fold id in Hp'. destruct (Hoth p Hp') as [Hp _]. unfold NODE_BYTES in Hbs.
  assert (bc_data d2 x = Some (zeros (bc_bsize d))) as Hz2.
  { destruct U1 as (_ & _ & U1), U2 as (_ & _ & U2). by rewrite U2, U1. }
  destruct (add_child_new_block e d2 (bc_bsize d) p id [] 0 x fl3 r s1)
    as (s2 & d3 & E2 & (Hp2 & Hoth2 & Hc2 & _) & Hb2 & Hch & U3);
    rewrite ?Hp, ?Hfs, ?Hi, ?Hino, ?Hst; try done;
    [constructor|unfold e; cbn; lia|lia|].
  rewrite Hi, Hino in Hch. assert (t_bufs (v_fs s2) = Bufs d3 r) as Hb3 by by rewrite Hb2.
  exists s2, d3. split_and!.
  - by eapply spfs_create_ok; [|done|apply k_d_instantiate_inode|].
  - done.
  - destruct U1 as (U1 & _), U2 as (U2 & _), U3 as (U3 & _). congruence.
  - destruct U2 as (_ & U2 & _), U3 as (_ & _ & U3). by rewrite U3.
  - by rewrite Hb2, Hfs.
  - intros m ???. destruct U1 as (_ & _ & U1), U2 as (_ & _ & U2), U3 as (_ & _ & U3). by rewrite U3, U2, U1.
  - by rewrite Hoth2, Hi.
  - intros dent Hd. eapply (lookup_single e d3 (bc_bsize d) p x id); try done; rewrite ?Hp2, ?Hp, ?Hc2;
      try done; [unfold e; cbn; lia|].
    unfold child_name. rewrite Hoth2, Hi, Hname by done.
    rewrite splice_zeros by lia. apply c_string_padded; [done|lia].
Qed.
End sequences.


(** ** The life of a new device *)
Section life.
Context {D K : Type} {B : BufferCache D} {L : BufferCacheLaws D} {BD : BlockDevice D}
  {BDL : BlockDeviceLaws D} {KK : Kernel K} {KL : KernelLaws K}.
Implicit Types (s : vfs_st D K).

(** A kernel that has not seen the file system yet: inodes 1 and 2 are not in its cache,
    and the object it hands out for the root is as the slab's constructor made it. *)
Record unseen (k k1 k2 : K) : Prop := {
  un_root : k_cached k 1 = false;
  un_file : k_cached k 2 = false;
  un_lookup : k_iget_locked k 1 = Some (true, k1);
  un_new : k_iget_locked (k_iget_failed k1 1) 1 = Some (true, k2);
  un_lock : si_lock (k_inode k2 1) = false;
  un_start : si_start (k_inode k2 1) = 0;
}.

(** The first allocations of single blocks on a new file system come off its end. *)
Lemma new_free_alloc blocks :
  2 ≤ blocks → 2 + blocks < 2 ^ 32 →
  spfs_free_alloc 1 (FreeList false blocks [FreeNode 2 blocks]) =
    Ok (blocks + 1) (FreeList false (blocks - 1) [FreeNode 2 (blocks - 1)]).
Proof using.
  intros Hb Hb'. rewrite spfs_free_alloc_eq by done. cbn [fl_blocks fl_root]. decide_if.
  cbn [free_alloc_walk fn_blocks fn_start]. decide_if. rewrite u32_small, u64_small by lia.
  by replace (2 + (blocks - 1)) with (blocks + 1) by lia.
Qed.

(** A blank device, formatted: every block behind the free list still holds zeros. *)
Lemma new_device_blank bs blocks n (d0 d1 d2 : D) m :
  new_device bs blocks (zeros n) d0 d1 d2 → 0 ≤ n → 2 ≤ m → m < 2 + blocks →
  bc_data d2 m = Some (zeros bs).
Proof using BDL.
  intros Hnd Hn Hm Hm'. destruct (new_device_data _ _ _ _ _ _ Hnd) as (_ & _ & Hdata).
  destruct Hnd as [Hbs _ _ _ Hfit _ _ _]. rewrite zlen_zeros in Hfit by done.
  rewrite Hdata by lia. f_equal. unfold mkfs_image.
  assert (zlen (mkfs_bytes bs blocks) = bs + 20) as Hz by (apply zlen_mkfs_bytes; lia).
  rewrite sub_splice_after by (rewrite ?zlen_zeros; nia). apply sub_zeros; nia.
Qed.

(** The block of the first record and the root of the tree, on a mounted new device *)
Lemma mounted_create_ready frame mode k3 (d0 d1 d2 : D) r bs blocks n k s :
  new_device bs blocks (zeros n) d0 d1 d2 → 0 ≤ n → NODE_BYTES ≤ bs → 4 ≤ blocks →
  zlen (frame SPOOKY_FS_NAME_MAX) = SPOOKY_FS_NAME_MAX → S_ISREG mode || S_ISDIR mode = true →
  k_cached k 2 = false → k_iget_locked k 2 = Some (true, k3) →
  ∃ b0, create_ready frame 1 mode k3 d2 r (FreeList false blocks [FreeNode 2 blocks])
    (blocks + 1) (FreeList false (blocks - 1) [FreeNode 2 (blocks - 1)])
    blocks (FreeList false (blocks - 2) [FreeNode 2 (blocks - 2)])
    b0 (zeros bs) (mounted d2 r bs blocks k s).
Proof using BDL.
  intros Hnd Hn Hbs Hb Hfr Hm Hc Hk. pose proof Hnd as [_ _ _ Hb' _ _ _ _].
  destruct (new_device_data _ _ _ _ _ _ Hnd) as (_ & Hsz & Hdata).
  eexists. split; cbn; try done; try lia.
  - apply new_free_alloc; lia.
  - rewrite new_free_alloc by lia. by rewrite Z.sub_add, <-Z.sub_add_distr.
  - apply Hdata; lia.
  - eapply new_device_blank; done || lia.
Qed.

(** A device whose block 0 holds a tree node is not mounted. *)
Lemma remount_refused e (d d' : D) r bs bubble s :
  me_sbi_mem e = true → me_bdev e = true → t_bufs (v_fs s) = Bufs d r →
  bc_bsize d = bs → NODE_BYTES ≤ bs → bs ≤ zlen (bd_bytes d) →
  0 ≤ be_id (bb_entry bubble) < 2 ^ 64 → 0 ≤ be_offset (bb_entry bubble) < 2 ^ 64 →
  bc_data d 0 = Some (new_root bubble 0 bs) →
  bd_set_blocksize d SPOOKY_FS_INITIAL_BLOCK_SIZE = Some d' →
  ∃ s', spfs_fill_super_block e s = Err (-EINVAL) s'.
Proof using BDL.
  intros Hm Hb Hs Hbs Hn Hl Hi Ho Hd Hset. pose proof (new_root_fields bubble 0 bs Hn Hi Ho) as (_ & Hlen & _).
  unfold NODE_BYTES in Hn. rewrite bd_data in Hd by lia. injection Hd as Hd.
  rewrite Z.mul_0_l, Hbs in Hd.
  pose proof (bd_set_bytes _ _ _ Hset) as Hy. pose proof (bd_set_bsize _ _ _ Hset) as Hz.
  unfold SPOOKY_FS_INITIAL_BLOCK_SIZE in Hz.
  destruct (mount_refusal_runs e d r (-EINVAL) s) as (s' & E & _); [done|done| |by exists s'].
  apply (refuse_super e d d' (sub 0 512 (bd_bytes d))); [done|done| | |left].
  - rewrite bd_data; rewrite ?Hz, ?Hy; [done|lia..].
  - rewrite zlen_sub; lia.
  - unfold node_length, bnode_off_length in Hlen. rewrite <-Hd, sub_sub in Hlen by lia.
    rewrite sub_sub by lia. rewrite Z.add_0_l in *. rewrite Hlen. done.
Qed.

(** A blank device, formatted with room for four blocks of data and mounted *)
Lemma blank_device_mounts stack f f' n fuel frame cur0 node_mem fsuid fsgid (d0 d1 d2 : D) r k1 k2 s :
  let bs := u_blksize f in
  let e := MountEnv (Env (S (S fuel)) frame cur0) true true node_mem fsuid fsgid in
  zlen stack = 1024 → u_pos f = 0 → u_data f = zeros n → 512 ≤ bs → bs < 2 ^ 32 →
  6 * bs ≤ n → n ≤ u_limit f → n < 2 ^ 32 * bs → n < 2 ^ 63 → mkfs_main stack f = Ok 0 f' →
  t_bufs (v_fs s) = Bufs d0 r → bd_bytes d0 = u_data f' →
  bd_set_blocksize d0 512 = Some d1 → bd_set_blocksize d1 bs = Some d2 →
  (∀ i, node_mem i = true) →
  k_cached (v_cache s) 1 = false → k_iget_locked (v_cache s) 1 = Some (true, k1) →
  k_iget_locked (k_iget_failed k1 1) 1 = Some (true, k2) →
  ∃ blocks k' i, new_device bs blocks (zeros n) d0 d1 d2 ∧ 4 ≤ blocks ∧ bc_bsize d2 = bs ∧
    spfs_fill_super_block e s = Ok 1 (mounted d2 r bs blocks k' s) ∧
    cache_upd (v_cache s) 1 i k' ∧ root_inode e k2 i.
Proof using BDL KL.
  intros bs e Hst Hpos Hblank Hbs Hbs' Hsz Hlim Hmax Hsz' Emk Hs Hbytes Hd1 Hd2 Hmem Hc1 Hk1 Hk2.
  assert (zlen (u_data f) = n) as Hn by (rewrite Hblank; apply zlen_zeros; lia).
  destruct (mkfs_main_ok stack f) as (blocks & E & Hb & Hfit & Hmost); [done|done|lia..|].
  rewrite Emk in E. injection E as ->. cbn [set_data u_data] in Hbytes.
  rewrite Hn in Hfit, Hmost. fold bs in Hfit, Hmost, Hbytes.
  assert (new_device bs blocks (zeros n) d0 d1 d2) as Hnd.
  { rewrite <-Hblank. split; rewrite ?Hn; done || nia. }
  destruct (new_device_data _ _ _ _ _ _ Hnd) as (_ & Hz2 & _).
  destruct (mount_new_device _ _ _ d0 d1 d2 r k1 k2 fuel frame cur0 node_mem fsuid fsgid s Hnd)
    as (k' & i & E & Hupd & Hroot); [done..|].
  exists blocks, k', i. split_and!; try done. nia.
Qed.

(** An in-core inode as the slab's constructor and the kernel leave it in new memory *)
Definition new_memory (i : spfs_inode) : Prop :=
  si_lock i = false ∧ si_start i = 0 ∧ si_capacity i = 0 ∧ i_size (i_inode i) = 0.

(** The first file never gets a byte: the root of the tree is a block of zeros, in which
    the record of the file is not found when the file is to grow. *)
Lemma first_file_empty bs blocks n mode i0 t (d0 d1 d2 d : D) r s user ppos :
  new_device bs blocks (zeros n) d0 d1 d2 → 0 ≤ n → NODE_BYTES ≤ bs → 4 ≤ blocks →
  v_fs s = BtreeSt (Bufs d r) (FreeList false (blocks - 3) [FreeNode 2 (blocks - 3)]) (set_start blocks t) →
  bt_lock t = false → bc_bsize d = bs →
  (∀ m, m ≠ 0 → m ≠ blocks + 1 → m ≠ blocks - 1 → bc_data d m = bc_data d2 m) →
  new_memory i0 → made_of i0 mode (k_inode (v_cache s) 2) → S_ISREG mode = true →
  0 ≤ ppos → ppos < 2 ^ 63 → stays_empty bs (file_of s 2 user ppos).
Proof using L BDL.
  intros Hnd Hn Hbs Hb Hfs Hl Hz Hdata (Hlk & Hst & Hcap & Hsz) (Hfmt & Hlk' & Hst' & Hcap' & Hsz') Hm Hp Hp'.
  pose proof Hnd as [_ Hbs' _ Hb' _ _ _ _]. pose proof Hbs as Hbs0. unfold NODE_BYTES in Hbs0. subst bs.
  assert (Hz0 : ∀ m, 2 ≤ m → m < blocks + 1 → m ≠ blocks - 1 → bc_data d m = Some (zeros (bc_bsize d))).
  { intros m ???. rewrite Hdata by lia. eapply new_device_blank; done || lia. }
  apply (empty_file_stays d r); cbn [file_of f_inode f_tree f_ppos]; rewrite ?Hfs; cbn [t_bufs t_tree t_free];
    try done; try congruence; try lia.
  - split; [|congruence]. by rewrite (S_ISREG_fmt _ _ Hfmt).
  - right. exists (zeros (bc_bsize d)). cbn [b_dev t_bufs t_tree]. split; [apply Hz0; cbn; lia|].
    rewrite zlen_zeros by lia. split; [done|]. split; [apply node_length_zeros|apply node_child0_zeros]; lia.
  - rewrite new_free_in. cbn. lia.
  - apply new_free_list_wf; lia.
  - intros x Hx%new_free_in. rewrite Hz0 by lia. eauto.
Qed.

(** C5: take a blank device of at least six and fewer than 2^32 blocks, each with room for a
    tree node (2412 bytes), that mkfs formats and that takes the block size, and a kernel that has neither the root's inode nor the first
    file's in its cache and hands out the root's as the slab's constructor made it.  The
    driver mounts the device, and a first regular file with a name that fits and has no zero
    byte can be created in the root directory; from then on its name, and no other, is found there; and no mount
    of the device succeeds any more, because the tree's node is where the super block was.
    If in addition the slab hands out new memory for the file's inode (recycled memory keeps
    the extents and the mutex of the inode before, [alloc_inode_recycles]), then the file
    can be read and is empty, but every write of at least one byte to it fails, with -EIO
    or 1, and leaves its mutex taken. *)
Theorem first_file_life stack f f' n fuel frame cur0 node_mem fsuid fsgid (d0 d1 d2 : D) r k1 k2 s
    subject mode :
  let bs := u_blksize f in
  let e := Env (S (S fuel)) frame cur0 in
  zlen stack = 1024 → u_pos f = 0 → u_data f = zeros n → NODE_BYTES ≤ bs → bs < 2 ^ 32 →
  6 * bs ≤ n → n ≤ u_limit f → n < 2 ^ 32 * bs → n < 2 ^ 63 → mkfs_main stack f = Ok 0 f' →
  t_bufs (v_fs s) = Bufs d0 r → bd_bytes d0 = u_data f' →
  bd_set_blocksize d0 512 = Some d1 → bd_set_blocksize d1 bs = Some d2 →
  (∀ i, node_mem i = true) → unseen (v_cache s) k1 k2 → (2 ≤ fuel)%nat →
  S_ISREG mode = true → zlen (d_name subject) < SPOOKY_FS_NAME_MAX → x00 ∉ d_name subject →
  zlen (frame SPOOKY_FS_NAME_MAX) = SPOOKY_FS_NAME_MAX →
  ∃ s1, spfs_fill_super_block (MountEnv e true true node_mem fsuid fsgid) s = Ok 1 s1 ∧
  k_cached (v_cache s1) 2 = false ∧ ∀ k3, k_iget_locked (v_cache s1) 2 = Some (true, k3) →
  ∃ s2, spfs_create e 1 subject mode s1 = Ok (k_d_instantiate subject 2) s2 ∧
    (∀ dent, x00 ∉ d_name dent → ∃ s3, same_vfs s2 s3 ∧
       spfs_lookup e 1 dent s2 =
         Ok (if decide (d_name dent = d_name subject) then Some (k_d_add dent 2) else None) s3) ∧
    (new_memory (k_inode k3 2) → ∀ user ppos, 0 ≤ ppos → ppos < 2 ^ 63 →
       stays_empty bs (file_of s2 2 user ppos)) ∧
    ∀ me s4 d5 r', let d4 := b_dev (t_bufs (v_fs s2)) in
      me_sbi_mem me = true → me_bdev me = true → t_bufs (v_fs s4) = Bufs d4 r' →
      bs ≤ zlen (bd_bytes d4) → bd_set_blocksize d4 512 = Some d5 →
      ∃ s5, spfs_fill_super_block me s4 = Err (-EINVAL) s5.
Proof using L BDL KL.
  intros bs e Hst Hpos Hblank Hbs Hbs' Hsz Hlim Hmax Hsz' Emk Hs Hbytes Hd1 Hd2 Hmem [Hc1 Hc2 Hk1 Hk2 Hlk Hstart]
    Hfuel Hmode Hname H0 Hfr. pose proof Hbs as Hbs0. unfold NODE_BYTES in Hbs0.
  destruct (blank_device_mounts stack f f' n fuel frame cur0 node_mem fsuid fsgid d0 d1 d2 r k1 k2 s)
    as (blocks & k' & i & Hnd & Hb4 & Hz2 & E & (Hi & _ & Hoth) & _ & _ & _ & Hdir & Hl & Hs1);
    [done || lia..|].
  assert (k_cached k' 2 = false) as Hc2' by by rewrite (proj2 (Hoth 2 ltac:(done))).
  eexists. split; [exact E|]. split; [exact Hc2'|]. intros k3 Hk3.
  destruct (mounted_create_ready frame mode k3 d0 d1 d2 r bs blocks n k' s Hnd) as (b0 & Hready);
    [lia|done..|by rewrite Hmode|done|done|].
  destruct (create_then_lookup (S fuel) frame cur0 1 subject mode _ k3 d2 r _ _ _ _ _ (blocks - 1)
    (FreeList false (blocks - 3) [FreeNode 2 (blocks - 3)]) b0 _ Hready)
    as (s2 & d4 & E2 & Hb2 & Hz4 & Hnode & Hfs & Hframe & Hmade & Hlook); try done; try lia.
  { cbn. rewrite Hi. split; [done|]. by rewrite Hl, Hs1. }
  { pose proof (nd_blocks_max _ _ _ _ _ _ Hnd). rewrite new_free_alloc by lia.
    replace (blocks - 2 - 1) with (blocks - 3) by lia. by replace (blocks - 2 + 1) with (blocks - 1) by lia. }
  { rewrite Hz2. eapply new_device_blank; done || lia. }
  exists s2. split; [exact E2|]. split; [exact Hlook|]. split.
  { intros Hnew user ppos Hp Hp'. eapply first_file_empty; [exact Hnd|lia|done|done|exact Hfs|done|by rewrite Hz4| |exact Hnew|done..].
    intros m ???. by apply Hframe. }
  rewrite Hb2. cbn [b_dev]. rewrite Hz2 in *. intros me s4 d5 r' Hm1 Hm2 Hs4 Hlen Hset.
  destruct (bubble_make_range 2 (blocks + 1) 0). by eapply remount_refused.
Qed.
End life.

(** ** A concrete life: a device of six blocks of 4096 bytes *)
Definition example_disk : ufile := UFile (zeros 24576) 0 4096 65536 [].
Definition example_mount : mount_env :=
  MountEnv (Env 4 zeros (blank_inode 0)) true true (λ _, true) 1000 1000.

Lemma memkernel_new_memory (k k' : memkernel) n :
  k_iget_locked k n = Some (true, k') → new_memory (k_inode k' n).
Proof.
  cbn. destruct (decide _); [done|]. intros [= <-]. unfold new_memory. cbn. by rewrite lookup_insert_eq.
Qed.

Lemma first_file_life_witness :
  ∃ f' s1 s2 s3, mkfs_main (zeros 1024) example_disk = Ok 0 f' ∧
    spfs_fill_super_block example_mount (unmounted (u_data f')) = Ok 1 s1 ∧
    spfs_create (me_env example_mount) 1 example_dentry 0x81A4 s1 = Ok (Dentry [x61; x62] (Some 2)) s2 ∧
    spfs_lookup (me_env example_mount) 1 (Dentry [x61; x62] None) s2 =
      Ok (Some (Dentry [x61; x62] (Some 2))) s3 ∧
    spfs_read 4 100 (file_of s2 2 [] 0) = Ok 0 (file_of s2 2 [] 0) ∧
    ∃ code s4, spfs_write 20 zeros (blank_inode 0) false 4096 [x09] (file_of s2 2 [] 0) = Err code s4.
Proof.
  destruct (mkfs_main_ok (zeros 1024) example_disk) as (blocks & E & _);
    [done|done|unfold example_disk; cbn [u_data u_blksize u_limit]; rewrite ?zlen_zeros; lia..|].
  set (f' := set_data _ _ _) in E.
  destruct (first_file_life (zeros 1024) example_disk f' 24576 2 zeros (blank_inode 0) (λ _, true)
    1000 1000 (ByteDev (u_data f') 1024) (ByteDev (u_data f') 512) (ByteDev (u_data f') 4096) 0
    (MemKernel {[1 := blank_inode 1]} {[1]} 0) (MemKernel {[1 := blank_inode 1]} {[1]} 0)
    (unmounted (u_data f')) example_dentry 0x81A4) as (s1 & E1 & Hc & H);
    [done|done|done|cbn [u_blksize u_limit example_disk]; unfold NODE_BYTES; lia..|exact E|done|done|done
    |done|done|by split|lia|done|by vm_compute|by apply (bool_decide_unpack _); vm_compute|done|].
  cbn [k_cached memkernel_kernel] in Hc. apply bool_decide_eq_false in Hc.
  assert (∃ k3, k_iget_locked (v_cache s1) 2 = Some (true, k3)) as [k3 Hk3].
  { cbn. rewrite decide_False by done. by eexists. }
  destruct (H k3 Hk3) as (s2 & E2 & Hl & Hempty & _).
  change (u_blksize example_disk) with 4096 in Hempty.
  assert (stays_empty 4096 (file_of s2 2 [] 0)) as [Hread Hwrite].
  { apply Hempty; [|lia..]. eapply (memkernel_new_memory (v_cache s1)). exact Hk3. }
  destruct (Hwrite 20%nat zeros (blank_inode 0) false [x09]) as (code & s4 & Ew & _); [by vm_compute..|].
  destruct (Hl (Dentry [x61; x62] None)) as (s3 & _ & E3); [by apply (bool_decide_unpack _); vm_compute|].
  exists f', s1, s2, s3. split; [exact E|]. split; [exact E1|]. split; [exact E2|].
  split; [exact E3|]. split; [by apply Hread|]. by exists code, s4.
Defined.
