(* ===== verification/StoreLife.v ===== *)
(** * Directories from the first one on

    A mounted new device represents the store with the root directory only; making the
    first directory in it is an operation of the store as well; and from then on every
    sequence of additions, lookups and listings on the two directories is one of the
    specification ([DirStore]). *)
From S2P Require Import Prelude Util Buffers FreeList AllocSpec Inode Bnode Btree Super Vfs Dir DirSpec DirStore Mkfs Mount System.

(** The root directory and the first directory in it, with their counts of children *)
Definition first_store (free count root_count : Z) : store_state :=
  StoreState free {[2 := DirState [] count; 1 := DirState [2] root_count]}.

Section creating.
Context {D K X : Type} {B : BufferCache D} {L : BufferCacheLaws D} {KK : Kernel K} {KL : KernelLaws K}
  {XX : DirContext X} {XL : DirContextLaws X}.
Implicit Types (s : vfs_st D K) (st : store_state) (dir : dir_state).

(** What the store looks at in the in-core inode of a directory *)
Definition dir_fields (i : spfs_inode) : bool * bool * Z * Z :=
  (S_ISDIR (i_mode (i_inode i)), si_lock i, si_capacity i, si_start i).

(** What is done elsewhere on the file system leaves the store as it is. *)
Lemma store_rep_elsewhere sz st s s' d' r fl' t' :
  store_rep sz st s → v_fs s' = BtreeSt (Bufs d' r) fl' t' →
  fl_wf fl' → fl_lock fl' = false → (∀ b, free_in b fl' → free_in b (t_free (v_fs s))) →
  (∀ b, free_in b fl' → bc_data d' b = bc_data (b_dev (t_bufs (v_fs s))) b) →
  (∀ b, b ≠ 0 → ¬ free_in b (t_free (v_fs s)) →
     bc_data d' b = bc_data (b_dev (t_bufs (v_fs s))) b) →
  (∀ p, p ∈ dom (ss_dirs st) →
     dir_fields (k_inode (v_cache s') p) = dir_fields (k_inode (v_cache s) p)) →
  (∀ id, child_ready s id → child_ready s' id) →
  store_rep sz (StoreState (fl_blocks fl') (ss_dirs st)) s'.
Proof using.
  intros [H1 H2 H3 H4 H5 H6 H7] Hfs Hwf Hlk Hsub Hfree Hused Hdirs Hchild.
  assert (Hstart : ∀ p, p ∈ dom (ss_dirs st) →
    si_start (k_inode (v_cache s') p) = si_start (k_inode (v_cache s) p)).
  { intros p Hp. specialize (Hdirs p Hp). unfold dir_fields in Hdirs. congruence. }
  split; rewrite ?Hfs; cbn [t_free t_bufs b_dev ss_free ss_dirs]; try done.
  - intros b Hb. rewrite Hfree by done. by apply H5, Hsub.
  - intros p dir Hp. destruct (H6 p dir Hp) as [G1 G2 G3 G4 G5 G6]. apply elem_of_dom_2 in Hp.
    specialize (Hdirs p Hp). unfold dir_fields in Hdirs. injection Hdirs as E1 E2 E3 E4.
    split; rewrite ?Hfs; cbn [t_free t_bufs b_dev]; try congruence.
    + eapply Forall_impl; [exact G4|]. exact Hchild.
    + rewrite E4. destruct G6 as [G6|(G6 & Hne & Hb & Hnf)]; [by left|right].
      rewrite Hused by done. split_and!; try done. intros ?%Hsub. done.
  - intros p q Hp Hq. rewrite !Hstart by done. by apply H7.
Qed.

(** A directory without a block joins the store. *)
Lemma store_rep_new_dir sz st s id count :
  store_rep sz st s → id ∉ dom (ss_dirs st) →
  dir_fields (k_inode (v_cache s) id) = (true, false, count, 0) →
  store_rep sz (StoreState (ss_free st) (<[id := DirState [] count]> (ss_dirs st))) s.
Proof using.
  intros [H1 H2 H3 H4 H5 H6 H7] Hid Hf. unfold dir_fields in Hf. injection Hf as E1 E2 E3 E4.
  split; try done; cbn [ss_dirs].
  - intros q dir'. rewrite lookup_insert_Some. intros [[Hqp Hd]|[Hqp Hq]]; [|by apply H6].
    rewrite <-Hqp, <-Hd. split; try done. by left.
  - intros p q [Hp|Hp]%dom_insert%elem_of_union [Hq|Hq]%dom_insert%elem_of_union Hne H0;
      repeat match goal with H : _ ∈ {[_]} |- _ => apply elem_of_singleton in H end; try congruence.
    by apply H7.
Qed.

(** The parent's link count is none of the store's business. *)
Lemma store_rep_inc_nlink sz st s p k :
  let i := k_inode (v_cache s) p in
  store_rep sz st s → k = k_set_inode (v_cache s) p (set_inode (k_inc_nlink (i_inode i)) i) →
  let s' := lset v_cache_lens k s in
  store_rep sz st s' ∧ ∀ id, child_ready s id → child_ready s' id.
Proof using KL.
  intros i Hrep Hk s'.
  assert (Hi : ∀ m, dir_fields (k_inode k m) = dir_fields (k_inode (v_cache s) m) ∧
    si_name (k_inode k m) = si_name (k_inode (v_cache s) m) ∧
    i_ino (i_inode (k_inode k m)) = i_ino (i_inode (k_inode (v_cache s) m))).
  { intros m. rewrite Hk. destruct (decide (m = p)) as [Hm|Hm].
    - rewrite Hm, k_inode_set. unfold dir_fields. cbn. by rewrite k_inc_nlink_mode, k_inc_nlink_ino.
    - by rewrite k_inode_set_ne by congruence. }
  assert (Hc : ∀ id, child_ready s id → child_ready s' id).
  { intros id (G1 & G2 & G3 & G4). unfold child_ready, child_name. cbn [s' lset v_cache_lens v_cache].
    destruct (Hi id) as (_ & -> & ->). split_and!; try done. by rewrite Hk, k_cached_set. }
  split; [|exact Hc].
  pose proof (store_rep_elsewhere sz st s s' (b_dev (t_bufs (v_fs s))) (b_refs (t_bufs (v_fs s)))
    (t_free (v_fs s)) (t_tree (v_fs s)) Hrep) as H.
  rewrite (sr_count _ _ _ Hrep) in H. destruct st as [free dirs]. apply H; try done; try apply Hrep.
  - by destruct s as [[[] ? ?] ? ? ?].
  - intros q _. apply Hi.
Qed.

(** An allocation that succeeds takes one free block. *)
Lemma alloc_block fl r fl' :
  fl_wf fl → fl_lock fl = false → spfs_free_alloc 1 fl = Ok r fl' → r ≠ 0 →
  fl_wf fl' ∧ fl_lock fl' = false ∧ fl_blocks fl' = fl_blocks fl - 1 ∧ free_in r fl ∧
  ∀ b, free_in b fl' → free_in b fl ∧ b ≠ r.
Proof using.
  intros Hwf Hlk E Hr. destruct (alloc_cases 1 fl Hwf Hlk) as (r' & fl1 & E' & Hwf' & Hlk' & Hcase); [done|].
  rewrite E in E'. injection E' as <- <-. destruct Hcase as [(? & _)|[(? & _ & _ & ? & _ & Hold & Hnew) _]]; [done|].
  split_and!; try done; [apply Hold; lia|]. intros b [? Hb]%Hnew. split; [done|lia].
Qed.

(** The first inode of the tree: two blocks are used up, and the inode can be a child. *)
Lemma create_store fuel frame cur0 sz st s p subject mode k1 d r fl page fl1 root fl2 b0 bp :
  let id := sb_id (v_sbi s) in
  store_rep sz st s → create_ready frame p mode k1 d r fl page fl1 root fl2 b0 bp s →
  bt_blocks (t_tree (v_fs s)) = 1 → id ∉ dom (ss_dirs st) → dir_id id →
  zlen (d_name subject) < SPOOKY_FS_NAME_MAX → x00 ∉ d_name subject →
  ∃ s1 i, spfs_generic_create (Env (S fuel) frame cur0) p subject mode s =
      Ok (k_d_instantiate subject id) s1 ∧
    k_inode (v_cache s1) id = i ∧ made_of (k_inode k1 id) mode i ∧
    si_name i = d_name subject ++ zeros (SPOOKY_FS_NAME_MAX - zlen (d_name subject)) ∧
    store_rep sz (StoreState (ss_free st - 2) (ss_dirs st)) s1 ∧ child_ready s1 id.
Proof using L KL.
  intros id Hrep Hready Hbl Hid Hdid Hlen H0.
  destruct (generic_create_first fuel frame cur0 p subject mode s k1 d r fl page fl1 root fl2 b0 bp)
    as (i & s1 & d1 & d2 & E & (Hi & Hci & Hoth) & Hino & Hname & Hfs & U1 & U2 & Hmade); [lia|done|].
  fold id in E, Hi, Hci, Hoth, Hino, U2, Hmade. pose proof Hready as [_ _ _ Hunc _ _ _ Hs _ Epage Hpage Eroot Hroot _ _ _ _].
  fold id in Hunc. rewrite Hbl in Epage, Eroot.
  pose proof (sr_free _ _ _ Hrep) as Hwf. pose proof (sr_unlocked _ _ _ Hrep) as Hlk.
  pose proof (sr_count _ _ _ Hrep) as Hcnt. assert (t_free (v_fs s) = fl) as Hfl by (by rewrite Hs). rewrite Hfl in Hwf, Hlk, Hcnt.
  assert (b_dev (t_bufs (v_fs s)) = d) as Hd by (by rewrite Hs).
  destruct (alloc_block fl page fl1) as (Hwf1 & Hlk1 & Hb1 & Hpf & Hsub1);
    [done..|].
  destruct (alloc_block fl1 root fl2) as (Hwf2 & Hlk2 & Hb2 & _ & Hsub2);
    [done..|].
  assert (Hdata : ∀ b, b ≠ 0 → b ≠ page → bc_data d2 b = bc_data d b).
  { intros b ? ?. destruct U1 as (_ & _ & U1), U2 as (_ & _ & U2). by rewrite U2, U1. }
  rewrite splice_zeros in Hname by lia. exists s1, i. split_and!; try done.
  - replace (ss_free st - 2) with (fl_blocks fl2) by lia.
    apply (store_rep_elsewhere sz st s s1 d2 r fl2 _ Hrep Hfs Hwf2 Hlk2); rewrite ?Hfl, ?Hd.
    + intros b [[? _]%Hsub1 _]%Hsub2. done.
    + intros b [[? ?]%Hsub1 _]%Hsub2. apply Hdata; [|done]. intros ->. by apply (free_not_0 fl).
    + intros b ? Hb. apply Hdata; [done|]. by intros ->.
    + intros q Hq. destruct (Hoth q) as [-> _]; [by intros ->|done].
    + intros m (G1 & G2 & G3 & G4). destruct (Hoth m) as [Hm Hcm]; [intros ->; congruence|].
      unfold child_ready, child_name. by rewrite Hm, Hcm.
  - unfold child_ready, child_name. rewrite Hi, Hname. split_and!; try done.
    rewrite c_string_padded by (done || lia). done.
Qed.

(** Making the first directory is an operation of the store: the new directory joins it,
    and is added to its parent. *)
Lemma mkdir_store fuel frame cur0 sz st s p subject mode k1 d r fl page fl1 root fl2 b0 bp :
  let e := Env (S fuel) frame cur0 in
  let id := sb_id (v_sbi s) in
  let st1 := StoreState (ss_free st - 2)
               (<[id := DirState [] (si_capacity (k_inode k1 id))]> (ss_dirs st)) in
  store_rep sz st s → create_ready frame p mode k1 d r fl page fl1 root fl2 b0 bp s →
  bt_blocks (t_tree (v_fs s)) = 1 → p ∈ dom (ss_dirs st) → id ∉ dom (ss_dirs st) → dir_id id →
  si_lock (k_inode k1 id) = false → si_start (k_inode k1 id) = 0 → S_ISDIR mode = true →
  zlen (d_name subject) < SPOOKY_FS_NAME_MAX → x00 ∉ d_name subject → (DIR_FUEL ≤ S fuel)%nat →
  ∃ st' a s2, store_spec (X := X) (view_of s) st1 (StAdd p id) = Some (st', a) ∧ store_rep sz st' s2 ∧
    child_ready s2 id ∧ child_name s2 id = Some (d_name subject) ∧
    match a with
    | Added => spfs_mkdir e p subject mode s = Ok (k_d_instantiate subject id) s2
    | Failed err => spfs_mkdir e p subject mode s = Err err s2
    | _ => False
    end.
Proof using L KL XL.
  intros e id st1 Hrep Hready Hbl Hp Hid Hdid Hlock Hstart Hmode Hlen H0 Hfuel.
  destruct (create_store fuel frame cur0 sz st s p subject mode k1 d r fl page fl1 root fl2 b0 bp Hrep Hready)
    as (s1 & i & E & Hi & (Hfmt & Hl & Hst & Hcap & _) & Hname & Hrep1 & Hchild); [done..|]. fold id in E, Hi, Hchild, Hl, Hst, Hcap.
  apply (store_rep_new_dir _ _ _ id (si_capacity (k_inode k1 id))) in Hrep1; [|done|]; cycle 1.
  { unfold dir_fields. rewrite Hi, (S_ISDIR_fmt _ _ Hfmt). congruence. }
  cbn [ss_free ss_dirs] in Hrep1. fold st1 in Hrep1.
  destruct (store_rep_inc_nlink sz st1 s1 p _ Hrep1 eq_refl) as (Hrep2 & Hmono).
  set (s1' := lset v_cache_lens _ s1) in *.
  destruct (store_simulates (X := X) e sz st1 s1' (StAdd p id)) as (st' & a & s2 & Hspec & Erun & Hrep' & Hsame);
    [done| |done|].
  { split; [|by apply Hmono]. cbn [st1 ss_dirs]. rewrite dom_insert_L. set_solver. }
  exists st', a, s2. split; [done|]. split; [done|].
  split; [by eapply same_children_ready, Hmono|]. split.
  { unfold child_name. destruct (Hsame id) as (-> & _). unfold s1'. cbn [lset v_cache_lens v_cache].
    assert (si_name (k_inode (v_cache s1) id) =
      d_name subject ++ zeros (SPOOKY_FS_NAME_MAX - zlen (d_name subject))) as Hn by (by rewrite Hi).
    destruct (decide (p = id)) as [->|Hne]; [rewrite k_inode_set|rewrite k_inode_set_ne by done];
      cbn [set_inode si_name]; rewrite Hn; apply c_string_padded; done || lia. }
  assert (Emk : spfs_mkdir e p subject mode s =
    (spfs_add_child e p id;; mret (k_d_instantiate subject id)) s1').
  { unfold spfs_mkdir. rewrite Hmode. cbn [negb]. erewrite bind_ok by done.
    rewrite (bind_ok _ _ _ _ _ E), k_d_instantiate_inode. by erewrite bind_ok by done. }
  rewrite Emk. unfold mbind at 1 2, M_bind at 1 2. revert Erun. cbn [store_run]. unfold answer, catch.
  unfold mbind at 1, M_bind at 1. destruct (spfs_add_child e p id s1') as [[] s3|err s3|c]; [..|done];
    by intros [= <- <-].
Qed.
End creating.

(** ** From mkfs on *)
Section life.
Context {D K X : Type} {B : BufferCache D} {L : BufferCacheLaws D} {BD : BlockDevice D}
  {BDL : BlockDeviceLaws D} {KK : Kernel K} {KL : KernelLaws K} {XX : DirContext X} {XL : DirContextLaws X}.
Implicit Types (s : vfs_st D K).

(** A mounted new device represents the store with the root directory only. *)
Lemma mounted_store bs blocks n (d0 d1 d2 : D) r k s :
  let root := k_inode k 1 in
  new_device bs blocks (zeros n) d0 d1 d2 → 0 ≤ n → 12 + 8 * DIR_MAX ≤ bs →
  S_ISDIR (i_mode (i_inode root)) = true → si_lock root = false → si_start root = 0 →
  store_rep bs (StoreState blocks {[1 := DirState [] (si_capacity root)]}) (mounted d2 r bs blocks k s).
Proof using BDL.
  intros root Hnd Hn Hbs Hdir Hlock Hstart. pose proof Hnd as [_ _ Hb Hb' _ _ _ _].
  split; cbn [mounted v_fs t_free t_bufs b_dev fl_lock fl_blocks ss_free ss_dirs]; try done.
  - by apply new_free_list_wf.
  - intros x [? ?]%new_free_in. eapply new_device_blank; done.
  - intros p dir [<- <-]%lookup_singleton_Some. split; try done. by left.
  - intros p q. rewrite dom_singleton_L. intros ->%elem_of_singleton ->%elem_of_singleton. done.
Qed.

(** C7: take a blank device of at least six and fewer than 2^32 blocks, each with room for a
    tree node (2412 bytes), that mkfs formats and that takes the block size, and a kernel that has neither the root's inode nor the new
    directory's in its cache and hands out the root's as the slab's constructor made it.  The
    driver mounts the device.  If the slab hands out memory with a free mutex and no first
    block for the new inode (new memory is such, recycled memory need not be), then a first
    directory with a name that fits can be made in the root directory; the file system
    then represents the store with these two
    directories, the new one without children and the root with the new one as its
    only child; and whatever is added, looked up and listed in them from then on, each
    operation gives the answer of the specification, an error included, if the inodes added
    are in the cache with a name that ends, the names looked up have no zero byte, and a
    listing goes on behind the two dots. *)
Theorem directories_life stack f f' n fuel frame cur0 node_mem fsuid fsgid (d0 d1 d2 : D) r k1 k2 s
    subject mode :
  let bs := u_blksize f in
  let e := Env (S (S fuel)) frame cur0 in
  zlen stack = 1024 → u_pos f = 0 → u_data f = zeros n → NODE_BYTES ≤ bs → bs < 2 ^ 32 →
  6 * bs ≤ n → n ≤ u_limit f → n < 2 ^ 32 * bs → n < 2 ^ 63 → mkfs_main stack f = Ok 0 f' →
  t_bufs (v_fs s) = Bufs d0 r → bd_bytes d0 = u_data f' →
  bd_set_blocksize d0 512 = Some d1 → bd_set_blocksize d1 bs = Some d2 →
  (∀ i, node_mem i = true) → unseen (v_cache s) k1 k2 → (DIR_FUEL ≤ e_fuel e)%nat →
  S_ISDIR mode = true → zlen (d_name subject) < SPOOKY_FS_NAME_MAX → x00 ∉ d_name subject →
  zlen (frame SPOOKY_FS_NAME_MAX) = SPOOKY_FS_NAME_MAX →
  ∃ s1, spfs_fill_super_block (MountEnv e true true node_mem fsuid fsgid) s = Ok 1 s1 ∧
  k_cached (v_cache s1) 2 = false ∧ ∀ k3, k_iget_locked (v_cache s1) 2 = Some (true, k3) →
  si_lock (k_inode k3 2) = false → si_start (k_inode k3 2) = 0 →
  ∃ s2 free count, spfs_mkdir e 1 subject mode s1 = Ok (k_d_instantiate subject 2) s2 ∧
    let st := first_store free (si_capacity (k_inode k3 2)) count in
    store_rep bs st s2 ∧ child_ready s2 2 ∧ child_name s2 2 = Some (d_name subject) ∧
    ∀ ops : list (store_op X), Forall (store_ready st s2) ops →
      ∃ st' answers s3, store_specs (view_of s2) st ops = Some (st', answers) ∧
        store_runs e ops s2 = Ok answers s3 ∧ store_rep bs st' s3.
Proof using L BDL KL XL.
  intros bs e Hst Hpos Hblank Hbs Hbs' Hsz Hlim Hmax Hsz' Emk Hs Hbytes Hd1 Hd2 Hmem
    [Hc1 Hc2 Hk1 Hk2 Hlk Hstart] Hfuel Hmode Hname H0 Hfr. pose proof Hbs as Hbs0. unfold NODE_BYTES in Hbs0.
  destruct (blank_device_mounts stack f f' n fuel frame cur0 node_mem fsuid fsgid d0 d1 d2 r k1 k2 s)
    as (blocks & k' & i & Hnd & Hb4 & Hz2 & E & (Hi & _ & Hoth) & _ & _ & _ & Hdir & Hl & Hs1);
    [done || lia..|]. fold bs in Hnd, Hz2.
  assert (k_cached k' 2 = false) as Hc2' by by rewrite (proj2 (Hoth 2 ltac:(done))).
  eexists. split; [exact E|]. split; [exact Hc2'|]. intros k3 Hk3 Hlk3 Hst3.
  destruct (mounted_create_ready frame mode k3 d0 d1 d2 r bs blocks n k' s Hnd) as (b0 & Hready);
    [lia|done..|by rewrite Hmode, orb_true_r|done|done|].
  assert (store_rep bs (StoreState blocks {[1 := DirState [] (si_capacity (k_inode k' 1))]})
            (mounted d2 r bs blocks k' s)) as Hrep.
  { apply (mounted_store bs blocks n d0 d1 d2); rewrite ?Hi; try done; [lia|unfold DIR_MAX; lia|congruence..]. }
  destruct (mkdir_store (X := X) (S fuel) frame cur0 bs _ _ 1 subject mode k3 d2 r _ _ _ _ _ b0 _ Hrep Hready)
    as (st' & a & s2 & Hspec & Hrep2 & Hchild & Hcn & Emkdir); try done.
  cbn [store_spec ss_dirs ss_free] in Hspec. change (sb_id _) with 2 in Hspec, Emkdir, Hchild, Hcn.
  set (dir2 := DirState [] _) in Hspec. set (count := si_capacity (k_inode k' 1)) in Hspec.
  rewrite lookup_insert_ne, lookup_singleton_eq in Hspec by done.
  cbn [fmap option_fmap option_map] in Hspec. injection Hspec as Hspec. unfold spec_add in Hspec.
  cbn [ds_children ds_count ss_free ss_dirs] in Hspec.
  rewrite decide_False in Hspec by naive_solver. rewrite decide_True in Hspec by lia.
  injection Hspec as <- <-. rewrite insert_insert_ne, insert_singleton_eq in Hrep2 by done.
  exists s2, (blocks - 2 - 1), (u32 (count + 1)). split; [exact Emkdir|]. intros st. split_and!; try done.
  intros ops Hops. destruct (store_runs_ok e bs ops st s2 Hrep2 Hops Hfuel) as (st' & rs & s3 & ? & ? & ? & _).
  by exists st', rs, s3.
Qed.
End life.

(** ** A concrete life: a device of six blocks of 4096 bytes *)
Lemma directories_life_witness :
  ∃ f' s1 s2 s3, mkfs_main (zeros 1024) example_disk = Ok 0 f' ∧
    spfs_fill_super_block (MountEnv store_env true true (λ _, true) 1000 1000) (unmounted (u_data f')) =
      Ok 1 s1 ∧
    spfs_mkdir store_env 1 example_dentry 0x41ED s1 = Ok (Dentry [x61; x62] (Some 2)) s2 ∧
    store_runs (X := memdir) store_env [StFind 1 (Dentry [x61; x62] None)] s2 =
      Ok [Found (Some (Dentry [x61; x62] (Some 2)))] s3.
Proof.
  destruct (mkfs_main_ok (zeros 1024) example_disk) as (blocks & E & _);
    [done|done|unfold example_disk; cbn [u_data u_blksize u_limit]; rewrite ?zlen_zeros; lia..|].
  set (f' := set_data _ _ _) in E.
  destruct (directories_life (X := memdir) (zeros 1024) example_disk f' 24576 298 zeros (blank_inode 0)
    (λ _, true) 1000 1000 (ByteDev (u_data f') 1024) (ByteDev (u_data f') 512) (ByteDev (u_data f') 4096) 0
    (MemKernel {[1 := blank_inode 1]} {[1]} 0) (MemKernel {[1 := blank_inode 1]} {[1]} 0)
    (unmounted (u_data f')) example_dentry 0x41ED) as (s1 & E1 & Hc & H);
    [done|done|done|cbn [u_blksize u_limit example_disk]; unfold NODE_BYTES; lia..|exact E|done|done|done
    |done|done|by split|unfold DIR_FUEL; cbn; lia|done|by vm_compute
    |by apply (bool_decide_unpack _); vm_compute|done|].
  cbn [k_cached memkernel_kernel] in Hc. apply bool_decide_eq_false in Hc.
  edestruct H as (s2 & free & count & E2 & _ & _ & Hn & Hruns);
    [by cbn; rewrite decide_False|by cbn; rewrite lookup_insert_eq..|].
  edestruct (Hruns [StFind 1 (Dentry [x61; x62] None)]) as (st' & rs & s3 & Hspec & E3 & _).
  { apply Forall_singleton. split; [cbn [ss_dirs]; set_solver|by apply (bool_decide_unpack _); vm_compute]. }
  exists f', s1, s2, s3. split; [exact E|]. split; [exact E1|]. split; [exact E2|].
  cbn [store_specs store_spec ss_dirs first_store] in Hspec.
  rewrite lookup_insert_ne, lookup_singleton_eq in Hspec by done.
  cbn [fmap option_fmap option_map mbind option_bind fst snd] in Hspec. unfold spec_find in Hspec.
  cbn [ds_children] in Hspec. rewrite filter_cons_True in Hspec by exact Hn.
  injection Hspec as _ <-. exact E3.
Defined.
